(** * Tile job lifecycle engine of the satellite imagery pipeline

    A shallow embedding of the Python sources under [pyrolysis_aws] and of
    the ingest script [scripts/start_run.py], with the properties of the
    claim protocol, the checkpoint protocol, the retry and deadline engine,
    the canonical tile identity and the worker entry point, and further
    properties of the job and run rows, the processor, the fetch loop, the
    cache of secrets, the configuration and the ingestion.

    Conventions of the embedding:
    - a Python [int] is a [Z]; a Python [str] is a [string] (its UTF-8
      bytes); [None]-able values are [option]s;
    - a Python [float] is a [spec_float]: sign, mantissa and binary
      exponent, i.e. the exact dyadic value of the IEEE double;
    - wall-clock readings and sleep durations of the retry engine are exact
      rationals ([Q]);
    - a DynamoDB item is a finite map from attribute names to attribute
      values, a table a finite map from primary keys to items;
    - an exception is a value of [Exn]; a call that may raise returns a
      [Result]. *)

From Stdlib Require Import ZArith String Ascii List DecimalString DecimalZ.
From Stdlib Require Import QArith Lqa Floats.SpecFloat.
From stdpp Require Import gmap strings list.

Local Open Scope string_scope.
Local Open Scope Z_scope.

(** ** Python built-ins used by the sources *)

Module Py.

(** [str(n)] for an [int]. *)
Definition str_int (n : Z) : string := NilZero.string_of_int (Z.to_int n).

(** [str(v)] for an [int | None]. *)
Definition str_opt_int (v : option Z) : string :=
  match v with
  | Some n => str_int n
  | None => "None"
  end.

(** Truthiness of a [str | None]: [None] and the empty string are falsy. *)
Definition truthy (v : option string) : bool :=
  match v with
  | Some (String _ _) => true
  | _ => false
  end.

(** [s[:n]] *)
Fixpoint take (n : nat) (s : string) : string :=
  match n, s with
  | S k, String c r => String c (take k r)
  | _, _ => ""
  end.

Fixpoint prefixb (p s : string) : bool :=
  match p, s with
  | EmptyString, _ => true
  | String a p', String b s' => if Ascii.eqb a b then prefixb p' s' else false
  | String _ _, EmptyString => false
  end.

(** [p in s] for strings. *)
Fixpoint contains (p s : string) : bool :=
  prefixb p s ||
  match s with
  | EmptyString => false
  | String _ s' => contains p s'
  end.

Definition lower_char (c : ascii) : ascii :=
  let n := nat_of_ascii c in
  if ((65 <=? n)%nat && (n <=? 90)%nat)%bool then ascii_of_nat (n + 32) else c.

(** [s.lower()] on ASCII letters. *)
Fixpoint lower (s : string) : string :=
  match s with
  | EmptyString => EmptyString
  | String c r => String (lower_char c) (lower r)
  end.

(** A [float]: the IEEE value as sign, mantissa and exponent. *)
Definition float := spec_float.

Definition signed (s : bool) (m : Z) : Z := if s then - m else m.

(** Exact comparison of a float with an integer, as Python's mixed
    comparison does; [None] when the float is a NaN. *)
Definition float_cmp_int (f : float) (k : Z) : option comparison :=
  match f with
  | S754_nan => None
  | S754_infinity s => Some (if s then Lt else Gt)
  | S754_zero _ => Some (0 ?= k)
  | S754_finite s m e =>
      if 0 <=? e then Some (signed s (Z.pos m) * 2 ^ e ?= k)
      else Some (signed s (Z.pos m) ?= k * 2 ^ (- e))
  end.

(** [f >= k] and [f <= k]. *)
Definition float_ge_int (f : float) (k : Z) : bool :=
  match float_cmp_int f k with
  | Some Gt | Some Eq => true
  | _ => false
  end.

Definition float_le_int (f : float) (k : Z) : bool :=
  match float_cmp_int f k with
  | Some Lt | Some Eq => true
  | _ => false
  end.

(** Nearest integer to [num / den] ([0 <= num], [0 < den]), ties to the
    even neighbour: the rounding of the float-to-decimal conversion. *)
Definition round_half_even (num den : Z) : Z :=
  let q := num / den in
  let r := num mod den in
  match 2 * r ?= den with
  | Lt => q
  | Gt => q + 1
  | Eq => if Z.even q then q else q + 1
  end.

(** [|m * 2^e| * 10^digits] rounded to an integer. *)
Definition scaled_magnitude (digits : nat) (m : positive) (e : Z) : Z :=
  if 0 <=? e then Z.pos m * 2 ^ e * 10 ^ Z.of_nat digits
  else round_half_even (Z.pos m * 10 ^ Z.of_nat digits) (2 ^ (- e)).

Definition digit_char (d : Z) : ascii := ascii_of_nat (48 + Z.to_nat d).

(** The last [width] decimal digits of [n], most significant first. *)
Fixpoint zero_pad (width : nat) (n : Z) : string :=
  match width with
  | O => ""
  | S w => String (digit_char ((n / 10 ^ Z.of_nat w) mod 10)) (zero_pad w n)
  end.

Definition sign_str (s : bool) : string := if s then "-" else "".

Definition fixed_of_magnitude (digits : nat) (s : bool) (n : Z) : string :=
  sign_str s +:+ str_int (n / 10 ^ Z.of_nat digits) +:+
  match digits with
  | O => ""
  | _ => "." +:+ zero_pad digits (n mod 10 ^ Z.of_nat digits)
  end.

(** [f"{x:.{digits}f}"]: fixed notation with [digits] fractional digits. *)
Definition format_fixed (digits : nat) (x : float) : string :=
  match x with
  | S754_nan => "nan"
  | S754_infinity s => sign_str s +:+ "inf"
  | S754_zero s => fixed_of_magnitude digits s 0
  | S754_finite s m e => fixed_of_magnitude digits s (scaled_magnitude digits m e)
  end.

End Py.

(** ** core/schema/models.py *)

Module Schema.
Import Py.

Definition DEFAULT_GOOGLE_ZOOM : Z := 18.
Definition COORD_TILE_ID_PRECISION : nat := 6.

Record SourceRef := { bucket : string; key : string }.

(** [Literal["mapbox", "google"]] *)
Inductive ImagerySource := Mapbox | Google.

Definition source_value (s : ImagerySource) : string :=
  match s with
  | Mapbox => "mapbox"
  | Google => "google"
  end.

Record TileJobMessage := {
  run_id : string;
  imagery_source : ImagerySource;
  source : SourceRef;
  z : option Z;
  x : option Z;
  y : option Z;
  region : option string;
  lat : option float;
  lon : option float;
  zoom : option Z
}.

(** [Field(None, ge=lo, le=hi)] and [Field(None, ge=lo)] on an optional
    field: [None] passes. *)
Definition in_int_range (lo hi : Z) (v : option Z) : bool :=
  match v with
  | Some n => (lo <=? n) && (n <=? hi)
  | None => true
  end.

Definition at_least (lo : Z) (v : option Z) : bool :=
  match v with
  | Some n => lo <=? n
  | None => true
  end.

Definition in_float_range (lo hi : Z) (v : option float) : bool :=
  match v with
  | Some f => float_ge_int f lo && float_le_int f hi
  | None => true
  end.

Definition field_constraints (m : TileJobMessage) : bool :=
  in_int_range 0 22 (z m) && at_least 0 (x m) && at_least 0 (y m) &&
  in_float_range (-90) 90 (lat m) && in_float_range (-180) 180 (lon m) &&
  in_int_range 0 22 (zoom m).

Definition _validate_source_specific_fields (m : TileJobMessage) : bool :=
  match imagery_source m with
  | Mapbox => bool_decide (is_Some (z m)) && bool_decide (is_Some (x m)) &&
              bool_decide (is_Some (y m))
  | Google => bool_decide (is_Some (lat m)) && bool_decide (is_Some (lon m))
  end.

(** A message that [TileJobMessage.model_validate] accepts. *)
Definition valid_message (m : TileJobMessage) : bool :=
  field_constraints m && _validate_source_specific_fields m.

Definition tile_id_for_coords (lat lon : float) (zoom : Z) : string :=
  let lat_str := format_fixed COORD_TILE_ID_PRECISION lat in
  let lon_str := format_fixed COORD_TILE_ID_PRECISION lon in
  "coord:" +:+ lat_str +:+ "," +:+ lon_str +:+ "," +:+ str_int zoom.

(** [TileJobMessage.get_tile_id].  A validated message has the fields of
    its provider; [None] is returned where Python would fail on a missing
    coordinate of a coord-provider message. *)
Definition get_tile_id (m : TileJobMessage) : option string :=
  match imagery_source m with
  | Mapbox =>
      Some (str_opt_int (z m) +:+ "/" +:+ str_opt_int (x m) +:+ "/" +:+ str_opt_int (y m))
  | Google =>
      match lat m, lon m with
      | Some la, Some lo =>
          Some (tile_id_for_coords la lo
                  (match zoom m with Some zm => zm | None => DEFAULT_GOOGLE_ZOOM end))
      | _, _ => None
      end
  end.

Definition get_zoom (m : TileJobMessage) : Z :=
  match zoom m with
  | Some zm => zm
  | None => DEFAULT_GOOGLE_ZOOM
  end.

Inductive RunStatus := RUN_CREATED | RUN_RUNNING | RUN_COMPLETED | RUN_FAILED.

Inductive JobStatus := PENDING | PROCESSING | COMPLETED | FAILED.

Definition JobStatus_value (s : JobStatus) : string :=
  match s with
  | PENDING => "PENDING"
  | PROCESSING => "PROCESSING"
  | COMPLETED => "COMPLETED"
  | FAILED => "FAILED"
  end.

(** [JobStatus(text)]: [None] where the enum constructor raises. *)
Definition JobStatus_of (text : string) : option JobStatus :=
  if String.eqb text "PENDING" then Some PENDING
  else if String.eqb text "PROCESSING" then Some PROCESSING
  else if String.eqb text "COMPLETED" then Some COMPLETED
  else if String.eqb text "FAILED" then Some FAILED
  else None.

Record S3Checkpoint := { cp_bucket : string; cp_key : string }.

Inductive ClaimResult := CLAIMED | ALREADY_COMPLETED | LOCKED_BY_OTHER.

Record ClaimResultData := {
  result : ClaimResult;
  tile_id : string;
  attempt : option Z;
  claimed_at_epoch : option Z;
  checkpoint : option S3Checkpoint
}.

(** [status: Literal["completed", "skipped"]] *)
Inductive ProcessStatus := PS_completed | PS_skipped.

Record ProcessTileResult := {
  pr_status : ProcessStatus;
  pr_tile_id : option string;
  pr_status_ai : option string;
  pr_s3_key : option string;
  pr_reason : option string
}.

End Schema.

(** ** hashlib.sha1 (FIPS 180-4), as used by the ingest script *)

Module Sha1.

Definition mask32 (v : Z) : Z := v mod 2 ^ 32.

Definition rotl (n v : Z) : Z :=
  mask32 (Z.lor (Z.shiftl v n) (Z.shiftr v (32 - n))).

Definition bytes_of_string (s : string) : list Z :=
  map (fun c => Z.of_nat (nat_of_ascii c)) (list_ascii_of_string s).

(** Big-endian bytes of [v] on [n] bytes. *)
Fixpoint be_bytes (n : nat) (v : Z) : list Z :=
  match n with
  | O => []
  | S k => (v / 256 ^ Z.of_nat k) mod 256 :: be_bytes k v
  end.

(** Message, the byte 0x80, zeros up to 56 modulo 64, the bit length. *)
Definition pad (msg : list Z) : list Z :=
  let len := Z.of_nat (length msg) in
  let zeros := Z.to_nat ((55 - len) mod 64) in
  msg ++ [128] ++ repeat 0 zeros ++ be_bytes 8 (8 * len).

Fixpoint words_of_bytes (fuel : nat) (bs : list Z) : list Z :=
  match fuel, bs with
  | S k, b0 :: b1 :: b2 :: b3 :: rest =>
      (b0 * 2 ^ 24 + b1 * 2 ^ 16 + b2 * 2 ^ 8 + b3) :: words_of_bytes k rest
  | _, _ => []
  end.

(** The message schedule, most recent word first. *)
Fixpoint schedule (n : nat) (rev_ws : list Z) : list Z :=
  match n with
  | O => rev_ws
  | S k =>
      let w := rotl 1 (Z.lxor (Z.lxor (nth 2 rev_ws 0) (nth 7 rev_ws 0))
                              (Z.lxor (nth 13 rev_ws 0) (nth 15 rev_ws 0))) in
      schedule k (w :: rev_ws)
  end.

Definition round_f (t : nat) (b c d : Z) : Z :=
  if (t <? 20)%nat then Z.lor (Z.land b c) (Z.land (Z.lxor b (2 ^ 32 - 1)) d)
  else if (t <? 40)%nat then Z.lxor (Z.lxor b c) d
  else if (t <? 60)%nat then Z.lor (Z.lor (Z.land b c) (Z.land b d)) (Z.land c d)
  else Z.lxor (Z.lxor b c) d.

Definition round_k (t : nat) : Z :=
  if (t <? 20)%nat then 1518500249
  else if (t <? 40)%nat then 1859775393
  else if (t <? 60)%nat then 2400959708
  else 3395469782.

Definition State : Type := Z * Z * Z * Z * Z.

Fixpoint rounds (t : nat) (ws : list Z) (st : State) : State :=
  match ws with
  | [] => st
  | w :: rest =>
      let '(a, b, c, d, e) := st in
      let tmp := mask32 (rotl 5 a + round_f t b c d + e + round_k t + w) in
      rounds (S t) rest (tmp, a, rotl 30 b, c, d)
  end.

Definition compress (h : State) (block : list Z) : State :=
  let ws := rev (schedule 64 (rev (words_of_bytes 16 block))) in
  let '(a, b, c, d, e) := rounds 0 ws h in
  let '(h0, h1, h2, h3, h4) := h in
  (mask32 (h0 + a), mask32 (h1 + b), mask32 (h2 + c), mask32 (h3 + d), mask32 (h4 + e)).

Fixpoint process (nblocks : nat) (bs : list Z) (h : State) : State :=
  match nblocks with
  | O => h
  | S k => process k (skipn 64 bs) (compress h (firstn 64 bs))
  end.

Definition initial : State :=
  (1732584193, 4023233417, 2562383102, 271733878, 3285377520).

Definition sha1 (msg : list Z) : State :=
  let padded := pad msg in
  process (length padded / 64) padded initial.

Definition hex_char (n : Z) : ascii :=
  if n <? 10 then ascii_of_nat (48 + Z.to_nat n) else ascii_of_nat (87 + Z.to_nat n).

Definition nibble (w : Z) (i : Z) : ascii := hex_char ((w / 16 ^ i) mod 16).

Definition hex8 (w : Z) : string :=
  string_of_list_ascii (map (nibble w) [7; 6; 5; 4; 3; 2; 1; 0]).

(** [hashlib.sha1(data).hexdigest()] *)
Definition hexdigest (data : string) : string :=
  let '(h0, h1, h2, h3, h4) := sha1 (bytes_of_string data) in
  hex8 h0 +:+ hex8 h1 +:+ hex8 h2 +:+ hex8 h3 +:+ hex8 h4.

End Sha1.

(** ** scripts/start_run.py *)

Module StartRun.

Definition _compute_run_id (bucket key etag : string) : string :=
  let raw := bucket +:+ ":" +:+ key +:+ ":" +:+ etag in
  let digest := Py.take 12 (Sha1.hexdigest raw) in
  "run_" +:+ digest.

(** [args.run_id or _compute_run_id(args.bucket, args.key, etag)] in [main]. *)
Definition main_run_id (arg_run_id : option string) (bucket key etag : string) : string :=
  match arg_run_id with
  | Some (String c r) => String c r
  | _ => _compute_run_id bucket key etag
  end.

End StartRun.

(** ** Exceptions and effects *)

Module Core.

(** The exception classes the modelled code raises or handles; each
    carries the text of [str(exc)] where the code reads it. *)
Inductive Exn :=
| ClientError (code : string) (msg : string)
| ValidationError (msg : string)
| JSONDecodeError (msg : string)
| RuntimeError (msg : string)
| TimeoutError (msg : string)
| TypeError (msg : string)
| ValueError (msg : string)
| ImageryFetchError (source : Schema.ImagerySource) (status_code : option Z)
                    (msg : string) (attempts : Z)
| AnalysisError (msg : string)
| OtherError (type_name : string) (msg : string).

Inductive Result (A : Type) :=
| Ok (a : A)
| Raise (e : Exn).
Arguments Ok {A} a.
Arguments Raise {A} e.

End Core.

(** ** The key-value store (DynamoDB) behind [aws_clients.boto.ddb]

    The low-level client's [update_item] and [get_item], with update and
    condition expressions as syntax trees.  Numbers are exact; the store's
    limits on magnitude and precision, throttling and outages are outside
    the model. *)

Module Ddb.
Import Py Core.

(** A stored number [mant * 2^expo]; integers have exponent 0. *)
Record Num := { mant : Z; expo : Z }.

Definition num_of_int (n : Z) : Num := {| mant := n; expo := 0 |}.

Definition num_of_float (f : float) : option Num :=
  match f with
  | S754_zero _ => Some (num_of_int 0)
  | S754_finite s m e => Some {| mant := signed s (Z.pos m); expo := e |}
  | _ => None
  end.

Definition num_align (a b : Num) : Z * Z * Z :=
  let e := Z.min (expo a) (expo b) in
  (mant a * 2 ^ (expo a - e), mant b * 2 ^ (expo b - e), e).

Definition num_add (a b : Num) : Num :=
  let '(u, v, e) := num_align a b in {| mant := u + v; expo := e |}.

Definition num_ltb (a b : Num) : bool :=
  let '(u, v, _) := num_align a b in u <? v.

Definition num_eqb (a b : Num) : bool :=
  let '(u, v, _) := num_align a b in u =? v.

(** [int(Decimal)]: truncation toward zero. *)
Definition num_trunc (a : Num) : Z :=
  if 0 <=? expo a then mant a * 2 ^ expo a else Z.quot (mant a) (2 ^ (- expo a)).

(** The converted [openai_usage] map, kept opaque. *)
Definition Usage : Type := list (string * string).

(** An [AttributeValue] as a request carries it. *)
Inductive ReqVal :=
| RS (s : string)        (** [{"S": s}] *)
| RN (text : string)     (** [{"N": text}] *)
| RNf (f : float)        (** [{"N": str(f)}] for a Python float [f] *)
| RM (m : Usage).        (** [{"M": m}] *)

(** An attribute value as the store holds it. *)
Inductive AttrVal :=
| AS (s : string)
| AN (n : Num)
| AM (m : Usage).

Definition parse_int (text : string) : option Z :=
  option_map Z.of_int (NilZero.int_of_string text).

(** The store accepts a number attribute only when its text denotes a
    number. *)
Definition validate (v : ReqVal) : option AttrVal :=
  match v with
  | RS s => Some (AS s)
  | RN text => option_map (fun n => AN (num_of_int n)) (parse_int text)
  | RNf f => option_map AN (num_of_float f)
  | RM m => Some (AM m)
  end.

Definition attr_eqb (a b : AttrVal) : bool :=
  match a, b with
  | AS s, AS t => String.eqb s t
  | AN m, AN n => num_eqb m n
  | AM m, AM n => bool_decide (m = n)
  | _, _ => false
  end.

Abbreviation Item := (gmap string AttrVal).
Abbreviation PrimaryKey := (list (string * string)).
Abbreviation Table := (gmap (list (string * string)) (gmap string AttrVal)).
Abbreviation Db := (gmap string (gmap (list (string * string)) (gmap string AttrVal))).

(** The key attributes of a new item. *)
Definition key_item (k : PrimaryKey) : Item :=
  list_to_map (map (fun '(name, v) => (name, AS v)) k).

Inductive Operand :=
| OVal (ph : string)                           (** [:v] *)
| OIfNotExists (path : string) (ph : string)   (** [if_not_exists(path, :v)] *)
| OPlus (a b : Operand).                       (** [a + b] *)

Inductive Action :=
| ASet (path : string) (rhs : Operand)         (** [SET path = rhs] *)
| AAdd (path : string) (ph : string).          (** [ADD path :v] *)

Inductive Cond :=
| CAttrNotExists (path : string)               (** [attribute_not_exists(path)] *)
| CIn (path : string) (phs : list string)      (** [path IN (:a, :b)] *)
| CEq (path : string) (ph : string)            (** [path = :v] *)
| CLt (path : string) (ph : string)            (** [path < :v] *)
| COr (a b : Cond)
| CAnd (a b : Cond).

Inductive ReturnMode := NONE | ALL_NEW | UPDATED_NEW.

Record UpdateRequest := {
  TableName : string;
  Key : PrimaryKey;
  UpdateExpression : list Action;
  ExpressionAttributeNames : gmap string string;
  ExpressionAttributeValues : gmap string ReqVal;
  ConditionExpression : option Cond;
  ReturnValues : ReturnMode
}.

(** A [#name] goes through [ExpressionAttributeNames]. *)
Definition resolve (names : gmap string string) (path : string) : option string :=
  match path with
  | String "#" _ => names !! path
  | _ => Some path
  end.

(** [None] when a name or a value of the expression is undefined. *)
Fixpoint eval_cond (names : gmap string string) (vals : gmap string AttrVal)
    (item : Item) (c : Cond) : option bool :=
  match c with
  | CAttrNotExists path =>
      p ← resolve names path;
      Some (match item !! p with None => true | Some _ => false end)
  | CIn path phs =>
      p ← resolve names path;
      vs ← mapM (fun ph => vals !! ph) phs;
      Some (match item !! p with Some v => existsb (attr_eqb v) vs | None => false end)
  | CEq path ph =>
      p ← resolve names path;
      v ← vals !! ph;
      Some (match item !! p with Some w => attr_eqb w v | None => false end)
  | CLt path ph =>
      p ← resolve names path;
      v ← vals !! ph;
      Some (match item !! p, v with
            | Some (AN a), AN b => num_ltb a b
            | _, _ => false
            end)
  | COr a b =>
      u ← eval_cond names vals item a;
      v ← eval_cond names vals item b;
      Some (u || v)
  | CAnd a b =>
      u ← eval_cond names vals item a;
      v ← eval_cond names vals item b;
      Some (u && v)
  end.

(** Operands read the item as it was before the update; [None] on an
    undefined name or value and on [+] over a non-number. *)
Fixpoint eval_operand (names : gmap string string) (vals : gmap string AttrVal)
    (old : Item) (o : Operand) : option AttrVal :=
  match o with
  | OVal ph => vals !! ph
  | OIfNotExists path ph =>
      p ← resolve names path;
      match old !! p with
      | Some v => Some v
      | None => vals !! ph
      end
  | OPlus a b =>
      u ← eval_operand names vals old a;
      v ← eval_operand names vals old b;
      match u, v with
      | AN m, AN n => Some (AN (num_add m n))
      | _, _ => None
      end
  end.

Definition apply_action (names : gmap string string) (vals : gmap string AttrVal)
    (old : Item) (acc : Item) (a : Action) : option Item :=
  match a with
  | ASet path rhs =>
      p ← resolve names path;
      v ← eval_operand names vals old rhs;
      Some (<[p := v]> acc)
  | AAdd path ph =>
      p ← resolve names path;
      v ← vals !! ph;
      match v, old !! p with
      | AN d, None => Some (<[p := AN d]> acc)
      | AN d, Some (AN n) => Some (<[p := AN (num_add n d)]> acc)
      | _, _ => None
      end
  end.

Fixpoint apply_actions (names : gmap string string) (vals : gmap string AttrVal)
    (old : Item) (actions : list Action) (acc : Item) : option Item :=
  match actions with
  | [] => Some acc
  | a :: rest =>
      acc' ← apply_action names vals old acc a;
      apply_actions names vals old rest acc'
  end.

Definition validate_values (vals : gmap string ReqVal) : option (gmap string AttrVal) :=
  if decide (map_Forall (fun _ v => is_Some (validate v)) vals)
  then Some (omap validate vals)
  else None.

Definition action_path (names : gmap string string) (a : Action) : option string :=
  match a with
  | ASet path _ => resolve names path
  | AAdd path _ => resolve names path
  end.

Definition returned (mode : ReturnMode) (names : gmap string string)
    (actions : list Action) (new : Item) : Item :=
  match mode with
  | NONE => ∅
  | ALL_NEW => new
  | UPDATED_NEW =>
      filter (fun kv => Some (fst kv) ∈ map (action_path names) actions) new
  end.

(** [ddb.update_item] on a request: the response's [Attributes] and the tables
    afterwards, or the [ClientError] of a rejected request. *)
Definition update_item (req : UpdateRequest) (d : Db) : Result Item * Db :=
  match d !! TableName req with
  | None => (Raise (ClientError "ResourceNotFoundException" "table not found"), d)
  | Some tbl =>
      match validate_values (ExpressionAttributeValues req) with
      | None => (Raise (ClientError "ValidationException" "invalid attribute value"), d)
      | Some vals =>
          let names := ExpressionAttributeNames req in
          let existing := tbl !! Key req in
          let old := default ∅ existing in
          let holds :=
            match ConditionExpression req with
            | Some c => eval_cond names vals old c
            | None => Some true
            end in
          match holds with
          | None => (Raise (ClientError "ValidationException" "invalid expression"), d)
          | Some false =>
              (Raise (ClientError "ConditionalCheckFailedException"
                        "The conditional request failed"), d)
          | Some true =>
              let base := default (key_item (Key req)) existing in
              match apply_actions names vals old (UpdateExpression req) base with
              | None =>
                  (Raise (ClientError "ValidationException" "invalid update expression"), d)
              | Some new =>
                  (Ok (returned (ReturnValues req) names (UpdateExpression req) new),
                   <[TableName req := <[Key req := new]> tbl]> d)
              end
          end
      end
  end.

(** [ddb.get_item] with a projection on one attribute: the response's
    [Item] ([None] for a missing row). *)
Definition get_item (table_name : string) (k : PrimaryKey) (names : gmap string string)
    (projection : string) (d : Db) : Result (option Item) :=
  match d !! table_name with
  | None => Raise (ClientError "ResourceNotFoundException" "table not found")
  | Some tbl =>
      match resolve names projection with
      | None => Raise (ClientError "ValidationException" "invalid expression")
      | Some p =>
          Ok (option_map (fun it : Item =>
                            match it !! p with
                            | Some v => {[ p := v ]}
                            | None => ∅
                            end) (tbl !! k))
      end
  end.

End Ddb.

(** ** The worker's world: tables, clock and calls to external services *)

Module Runtime.
Import Schema Core Ddb.

(** Calls that leave the worker, other than those to the key-value store. *)
Inductive Event :=
| EvFetch (source : ImagerySource)              (** upstream imagery provider *)
| EvUpload (bucket key : string)                (** object store [put_object] *)
| EvDownload (bucket key : string)              (** object store [get_object] *)
| EvAnalyze.                                    (** vision model *)

Record World := {
  db : Db;                 (** the tables, by name *)
  clock : Z;               (** [int(time.time())] *)
  trace : list Event       (** external calls so far, oldest first *)
}.

(** A computation that reads and writes the world and may raise; effects
    made before a raise persist. *)
Definition M (A : Type) : Type := World -> Result A * World.

Definition ret {A} (a : A) : M A := fun w => (Ok a, w).

Definition raise {A} (e : Exn) : M A := fun w => (Raise e, w).

Definition bind {A B} (c : M A) (k : A -> M B) : M B :=
  fun w =>
    match c w with
    | (Ok a, w') => k a w'
    | (Raise e, w') => (Raise e, w')
    end.

(** [try: c except Exception as exc: handler(exc)] *)
Definition try_except {A} (c : M A) (handler : Exn -> M A) : M A :=
  fun w =>
    match c w with
    | (Ok a, w') => (Ok a, w')
    | (Raise e, w') => handler e w'
    end.

Definition lift {A} (r : Result A) : M A := fun w => (r, w).

Definition time_time : M Z := fun w => (Ok (clock w), w).

(** A call to the store: the tables change, nothing else. *)
Definition on_db {A} (f : Db -> Result A * Db) : M A :=
  fun w =>
    let '(r, d) := f (db w) in
    (r, {| db := d; clock := clock w; trace := trace w |}).

(** A call to an external service: it is recorded, takes [elapsed]
    seconds and yields [outcome]. *)
Definition external {A} (ev : Event) (outcome : Result A) (elapsed : Z) : M A :=
  fun w =>
    (outcome, {| db := db w; clock := clock w + elapsed; trace := (trace w ++ [ev])%list |}).

End Runtime.

Notation "x <- c ;; k" := (Runtime.bind c (fun x => k))
  (at level 100, c at next level, right associativity).
Notation "c ;;; k" := (Runtime.bind c (fun _ => k))
  (at level 100, right associativity).

(** ** core/ddb/tilejobs.py *)

Module TileJobs.
Import Py Schema Core Ddb Runtime.

#[global] Instance Num_eq_dec : EqDecision Num.
Proof. solve_decision. Defined.

#[global] Instance AttrVal_eq_dec : EqDecision AttrVal.
Proof. solve_decision. Defined.

Definition _job_key (run_id tile_id : string) : PrimaryKey :=
  [("run_id", run_id); ("tile_id", tile_id)].

Definition _ensure_tile_id (message : TileJobMessage) : M string :=
  match get_tile_id message with
  | Some t => ret t
  | None => raise (TypeError "unsupported format string passed to NoneType.__format__")
  end.

(** [{"N": str(v)}] *)
Definition N_of_int (v : Z) : ReqVal := RN (str_int v).

Definition N_of_opt_int (v : option Z) : ReqVal := RN (str_opt_int v).

Definition N_of_opt_float (v : option float) : ReqVal :=
  match v with
  | Some f => RNf f
  | None => RN "None"
  end.

Definition _get_job_status (table_name run_id tile_id : string) : M (option JobStatus) :=
  fun w =>
    match get_item table_name (_job_key run_id tile_id)
                   {[ "#status" := "status" ]} "#status" (db w) with
    | Raise (ClientError _ _) => (Ok None, w)
    | Raise e => (Raise e, w)
    | Ok None => (Ok None, w)
    | Ok (Some item) =>
        match item !! "status" with
        | None => (Ok None, w)
        | Some (AS text) =>
            match JobStatus_of text with
            | Some s => (Ok (Some s), w)
            | None => (Raise (ValueError "is not a valid JobStatus"), w)
            end
        | Some _ => (Raise (OtherError "KeyError" "S"), w)
        end
    end.

Definition claim_expr_names (message : TileJobMessage) : gmap string string :=
  let expr_names := {[ "#status" := "status" ]} in
  match imagery_source message with
  | Mapbox =>
      if truthy (region message) then <[ "#region" := "region" ]> expr_names else expr_names
  | Google => expr_names
  end.

Definition claim_expr_values (message : TileJobMessage) (now lock_until : Z)
  : gmap string ReqVal :=
  let expr_values : gmap string ReqVal :=
    <[ ":last_claimed" := N_of_int now ]>
    (<[ ":source" := RS (source_value (imagery_source message)) ]>
    (<[ ":zero" := RN "0" ]>
    (<[ ":one" := RN "1" ]>
    (<[ ":lock" := N_of_int lock_until ]>
    (<[ ":now" := N_of_int now ]>
    (<[ ":failed" := RS (JobStatus_value FAILED) ]>
    (<[ ":pending" := RS (JobStatus_value PENDING) ]>
    (<[ ":processing" := RS (JobStatus_value PROCESSING) ]> ∅)))))))) in
  match imagery_source message with
  | Mapbox =>
      let expr_values :=
        <[ ":y" := N_of_opt_int (y message) ]>
        (<[ ":x" := N_of_opt_int (x message) ]>
        (<[ ":z" := N_of_opt_int (z message) ]> expr_values)) in
      match region message with
      | Some (String c r) => <[ ":region" := RS (String c r) ]> expr_values
      | _ => expr_values
      end
  | Google =>
      <[ ":zoom" := N_of_opt_int (zoom message) ]>
      (<[ ":lon" := N_of_opt_float (lon message) ]>
      (<[ ":lat" := N_of_opt_float (lat message) ]> expr_values))
  end.

Definition claim_update_expr (message : TileJobMessage) : list Action :=
  let update_expr :=
    [ ASet "#status" (OVal ":processing");
      ASet "attempts" (OPlus (OIfNotExists "attempts" ":zero") (OVal ":one"));
      ASet "lock_until_epoch" (OVal ":lock");
      ASet "started_at_epoch" (OIfNotExists "started_at_epoch" ":now");
      ASet "last_claimed_at_epoch" (OVal ":last_claimed");
      ASet "imagery_source" (OIfNotExists "imagery_source" ":source") ] in
  match imagery_source message with
  | Mapbox =>
      let update_expr :=
        (update_expr ++
         [ ASet "z" (OIfNotExists "z" ":z");
           ASet "x" (OIfNotExists "x" ":x");
           ASet "y" (OIfNotExists "y" ":y") ])%list in
      if truthy (region message)
      then (update_expr ++ [ ASet "#region" (OIfNotExists "#region" ":region") ])%list
      else update_expr
  | Google =>
      (update_expr ++
       [ ASet "lat" (OIfNotExists "lat" ":lat");
         ASet "lon" (OIfNotExists "lon" ":lon");
         ASet "zoom" (OIfNotExists "zoom" ":zoom") ])%list
  end.

(** Claimable when the item has no status, or the status is PENDING or
    FAILED, or it is PROCESSING and the lock is missing or expired. *)
Definition claim_condition_expr : Cond :=
  COr (CAttrNotExists "#status")
      (COr (CIn "#status" [":pending"; ":failed"])
           (CAnd (CEq "#status" ":processing")
                 (COr (CAttrNotExists "lock_until_epoch")
                      (CLt "lock_until_epoch" ":now")))).

(** Truthiness of a deserialized attribute ([parsed.get(name)]). *)
Definition attr_truthy (v : option AttrVal) : bool :=
  match v with
  | None => false
  | Some (AS s) => negb (String.eqb s "")
  | Some (AN n) => negb (mant n =? 0)
  | Some (AM m) => match m with [] => false | _ => true end
  end.

(** [int(parsed.get("attempts", 0))] *)
Definition attempts_of (parsed : Item) : Result Z :=
  match parsed !! "attempts" with
  | None => Ok 0
  | Some (AN n) => Ok (num_trunc n)
  | Some (AS s) =>
      match parse_int s with
      | Some n => Ok n
      | None => Raise (ValueError "invalid literal for int()")
      end
  | Some (AM _) => Raise (TypeError "int() argument must be a string or a real number")
  end.

(** The checkpoint of the post-image: both fields truthy, and strings as
    [S3Checkpoint] requires. *)
Definition checkpoint_of (parsed : Item) : Result (option S3Checkpoint) :=
  let s3_bucket := parsed !! "s3_bucket" in
  let s3_key := parsed !! "s3_key" in
  if attr_truthy s3_bucket && attr_truthy s3_key then
    match s3_bucket, s3_key with
    | Some (AS b), Some (AS k) => Ok (Some {| cp_bucket := b; cp_key := k |})
    | _, _ => Raise (ValidationError "S3Checkpoint: Input should be a valid string")
    end
  else Ok None.

Definition claimed (tile_id : string) (now : Z) (attrs : Item) : Result ClaimResultData :=
  let parsed := attrs in
  match (if bool_decide (parsed = ∅) then Ok None
         else match attempts_of parsed with
              | Ok n => Ok (Some n)
              | Raise e => Raise e
              end) with
  | Raise e => Raise e
  | Ok attempt =>
      match checkpoint_of parsed with
      | Raise e => Raise e
      | Ok checkpoint =>
          Ok {| result := CLAIMED; tile_id := tile_id; attempt := attempt;
                claimed_at_epoch := Some now; checkpoint := checkpoint |}
      end
  end.

Definition claim_request (table_name : string) (message : TileJobMessage)
    (tile_id : string) (now lock_until : Z) : UpdateRequest :=
  {| TableName := table_name;
     Key := _job_key (run_id message) tile_id;
     UpdateExpression := claim_update_expr message;
     ExpressionAttributeNames := claim_expr_names message;
     ExpressionAttributeValues := claim_expr_values message now lock_until;
     ConditionExpression := Some claim_condition_expr;
     ReturnValues := ALL_NEW |}.

Definition claim_job (table_name : string) (message : TileJobMessage)
    (now_epoch : option Z) (lock_seconds : Z) : M ClaimResultData :=
  now <- match now_epoch with Some n => ret n | None => time_time end ;;
  tile_id <- _ensure_tile_id message ;;
  let lock_until := now + lock_seconds in
  try_except
    (attrs <- on_db (update_item (claim_request table_name message tile_id now lock_until)) ;;
     lift (claimed tile_id now attrs))
    (fun exc =>
       match exc with
       | ClientError code _ =>
           if String.eqb code "ConditionalCheckFailedException" then
             current_status <- _get_job_status table_name (run_id message) tile_id ;;
             let result :=
               match current_status with
               | Some COMPLETED => ALREADY_COMPLETED
               | _ => LOCKED_BY_OTHER
               end in
             ret {| result := result; tile_id := tile_id; attempt := None;
                    claimed_at_epoch := None; checkpoint := None |}
           else raise exc
       | _ => raise exc
       end).

Definition complete_job (table_name run_id tile_id : string) (s3_bucket s3_key : string)
    (status_ai reasoning : option string) (openai_usage : option Usage)
    (claimed_at_epoch finished_at_epoch : option Z) : M unit :=
  finished <- match finished_at_epoch with Some n => ret n | None => time_time end ;;
  let expr_values : gmap string ReqVal :=
    <[ ":key" := RS s3_key ]>
    (<[ ":bucket" := RS s3_bucket ]>
    (<[ ":finished" := N_of_int finished ]>
    (<[ ":status" := RS (JobStatus_value COMPLETED) ]> ∅))) in
  let update_expr :=
    [ ASet "#status" (OVal ":status");
      ASet "finished_at_epoch" (OVal ":finished");
      ASet "s3_bucket" (OVal ":bucket");
      ASet "s3_key" (OVal ":key") ] in
  let '(expr_values, update_expr) :=
    match status_ai with
    | Some v => (<[ ":status_ai" := RS v ]> expr_values,
                 (update_expr ++ [ ASet "status_ai" (OVal ":status_ai") ])%list)
    | None => (expr_values, update_expr)
    end in
  let '(expr_values, update_expr) :=
    match reasoning with
    | Some v => (<[ ":reasoning" := RS v ]> expr_values,
                 (update_expr ++ [ ASet "reasoning" (OVal ":reasoning") ])%list)
    | None => (expr_values, update_expr)
    end in
  let '(expr_values, update_expr) :=
    match openai_usage with
    | Some v => (<[ ":openai_usage" := RM v ]> expr_values,
                 (update_expr ++ [ ASet "openai_usage" (OVal ":openai_usage") ])%list)
    | None => (expr_values, update_expr)
    end in
  let '(expr_values, update_expr) :=
    match claimed_at_epoch with
    | Some c =>
        let duration_ms := (finished - c) * 1000 in
        (<[ ":duration_ms" := N_of_int duration_ms ]> expr_values,
         (update_expr ++ [ ASet "duration_ms" (OVal ":duration_ms") ])%list)
    | None => (expr_values, update_expr)
    end in
  on_db (update_item
           {| TableName := table_name;
              Key := _job_key run_id tile_id;
              UpdateExpression := update_expr;
              ExpressionAttributeNames := {[ "#status" := "status" ]};
              ExpressionAttributeValues := expr_values;
              ConditionExpression := None;
              ReturnValues := NONE |}) ;;;
  ret tt.

Definition checkpoint_s3 (table_name run_id tile_id : string) (s3_bucket s3_key : string)
  : M Item :=
  on_db (update_item
           {| TableName := table_name;
              Key := _job_key run_id tile_id;
              UpdateExpression := [ ASet "s3_bucket" (OVal ":bucket");
                                    ASet "s3_key" (OVal ":key") ];
              ExpressionAttributeNames := ∅;
              ExpressionAttributeValues :=
                <[ ":key" := RS s3_key ]> (<[ ":bucket" := RS s3_bucket ]> ∅);
              ConditionExpression := None;
              ReturnValues := UPDATED_NEW |}).

Definition fail_job (table_name run_id tile_id : string) (error_code error_message : string)
    (finished_at_epoch : option Z) : M Item :=
  finished <- match finished_at_epoch with Some n => ret n | None => time_time end ;;
  on_db (update_item
           {| TableName := table_name;
              Key := _job_key run_id tile_id;
              UpdateExpression := [ ASet "#status" (OVal ":status");
                                    ASet "finished_at_epoch" (OVal ":finished");
                                    ASet "error_code" (OVal ":code");
                                    ASet "error_message" (OVal ":message") ];
              ExpressionAttributeNames := {[ "#status" := "status" ]};
              ExpressionAttributeValues :=
                <[ ":message" := RS error_message ]>
                (<[ ":code" := RS error_code ]>
                (<[ ":finished" := N_of_int finished ]>
                (<[ ":status" := RS (JobStatus_value FAILED) ]> ∅)));
              ConditionExpression := None;
              ReturnValues := UPDATED_NEW |}).

End TileJobs.

(** ** core/ddb/runs.py *)

Module Runs.
Import Py Schema Core Ddb Runtime.

Definition update_run_counters (table_name run_id : string)
    (completed_delta failed_delta : Z) : M Item :=
  if (completed_delta =? 0) && (failed_delta =? 0) then ret ∅
  else
    on_db (update_item
             {| TableName := table_name;
                Key := [("run_id", run_id)];
                UpdateExpression := [ AAdd "completed_tiles" ":c";
                                      AAdd "failed_tiles" ":f" ];
                ExpressionAttributeNames := ∅;
                ExpressionAttributeValues :=
                  <[ ":f" := TileJobs.N_of_int failed_delta ]>
                  (<[ ":c" := TileJobs.N_of_int completed_delta ]> ∅);
                ConditionExpression := None;
                ReturnValues := UPDATED_NEW |}).

End Runs.

(** ** core/errors/codes.py *)

Module Errors.
Import Py Schema Core.

(** The values of the [ErrorCode] enum. *)
Definition ErrorCode_values : list string :=
  [ "MAPBOX_429"; "MAPBOX_5XX"; "MAPBOX_4XX"; "MAPBOX_BAD_REQUEST"; "MAPBOX_TIMEOUT";
    "GOOGLE_429"; "GOOGLE_5XX"; "GOOGLE_4XX"; "GOOGLE_BAD_REQUEST"; "GOOGLE_TIMEOUT";
    "OPENAI_429"; "OPENAI_5XX"; "OPENAI_4XX"; "OPENAI_BAD_RESPONSE"; "OPENAI_TIMEOUT";
    "S3_PUT_FAILED"; "S3_GET_FAILED"; "SCHEMA_INVALID"; "MESSAGE_PARSE_ERROR";
    "DEADLINE_EXCEEDED"; "RETRY_EXHAUSTED"; "CLAIM_FAILED"; "UNKNOWN_ERROR" ].

(** [ErrorCode(text)]: the member with that value, or [ValueError]. *)
Definition ErrorCode (text : string) : Result string :=
  if existsb (String.eqb text) ErrorCode_values then Ok text
  else Raise (ValueError "is not a valid ErrorCode").

Definition upper_char (c : ascii) : ascii :=
  let n := nat_of_ascii c in
  if ((97 <=? n)%nat && (n <=? 122)%nat)%bool then ascii_of_nat (n - 32) else c.

Fixpoint upper (s : string) : string :=
  match s with
  | EmptyString => EmptyString
  | String c r => String (upper_char c) (upper r)
  end.

Definition error_code_from_http_status (source : string) (status_code : Z) : Result string :=
  let source_upper := upper source in
  if status_code =? 429 then ErrorCode (source_upper +:+ "_429")
  else if (500 <=? status_code) && (status_code <? 600) then ErrorCode (source_upper +:+ "_5XX")
  else if (400 <=? status_code) && (status_code <? 500) then
    if status_code =? 400 then ErrorCode (source_upper +:+ "_BAD_REQUEST")
    else ErrorCode (source_upper +:+ "_4XX")
  else ErrorCode "UNKNOWN_ERROR".

(** [type(exc).__name__] and [str(exc)]. *)
Definition type_name (exc : Exn) : string :=
  match exc with
  | ClientError _ _ => "ClientError"
  | ValidationError _ => "ValidationError"
  | JSONDecodeError _ => "JSONDecodeError"
  | RuntimeError _ => "RuntimeError"
  | TimeoutError _ => "TimeoutError"
  | TypeError _ => "TypeError"
  | ValueError _ => "ValueError"
  | ImageryFetchError _ _ _ _ => "ImageryFetchError"
  | AnalysisError _ => "AnalysisError"
  | OtherError name _ => name
  end.

Definition exn_str (exc : Exn) : string :=
  match exc with
  | ClientError _ msg | ValidationError msg | JSONDecodeError msg | RuntimeError msg
  | TimeoutError msg | TypeError msg | ValueError msg | AnalysisError msg
  | OtherError _ msg => msg
  | ImageryFetchError source _ msg attempts =>
      source_value source +:+ " fetch failed after " +:+ str_int attempts +:+
      " attempts: " +:+ msg
  end.

End Errors.

(** ** core/config/settings.py *)

Module Config.

Record WorkerConfig := {
  aws_region : string;
  s3_bucket : string;
  runs_table : string;
  tilejobs_table : string;
  secrets_id : string;
  job_stale_lock_seconds : Z;
  max_retries : Z;
  request_timeout : Q;
  log_level : string
}.

End Config.

(** ** core/io/s3_keys.py and core/io/s3.py *)

Module S3.
Import Py Schema Core Runtime.

(** The collaborators outside the core, as oracles: the outcome of a
    call and the seconds it takes, given its arguments and the number of
    external calls made before it. *)
Record Services := {
  provider_fetch : ImagerySource -> TileJobMessage -> nat -> Result string * Z;
  put_object : string -> string -> string -> nat -> Result unit * Z;
  get_object : string -> string -> nat -> Result string * Z;
  vision_model : string -> nat -> Result (string * string * Ddb.Usage) * Z
}.

Definition call {A} (ev : Event) (oracle : nat -> Result A * Z) : M A :=
  fun w => let '(r, dt) := oracle (length (trace w)) in external ev r dt w.

Definition mapbox_tile_key (run_id : string) (z x y : Z) (ext : string) : string :=
  "runs/" +:+ run_id +:+ "/tiles/z=" +:+ str_int z +:+ "/x=" +:+ str_int x +:+
  "/y=" +:+ str_int y +:+ "." +:+ ext.

Definition google_coord_key (run_id : string) (lat lon : float) (zoom : option Z)
    (ext : string) : string :=
  let z := match zoom with Some v => v | None => DEFAULT_GOOGLE_ZOOM end in
  let lat_str := format_fixed COORD_TILE_ID_PRECISION lat in
  let lon_str := format_fixed COORD_TILE_ID_PRECISION lon in
  "runs/" +:+ run_id +:+ "/coords/lat=" +:+ lat_str +:+ "/lon=" +:+ lon_str +:+
  "/z=" +:+ str_int z +:+ "." +:+ ext.

Definition upload_tile_image (svc : Services) (image_bytes : string) (bucket run_id : string)
    (imagery_source : ImagerySource) (z x y : option Z) (lat lon : option float)
    (zoom : option Z) : M (string * string) :=
  key <- match imagery_source with
         | Mapbox =>
             match z, x, y with
             | Some z, Some x, Some y => ret (mapbox_tile_key run_id z x y "jpg")
             | _, _, _ => raise (ValueError "Mapbox uploads require z, x, y coordinates")
             end
         | Google =>
             match lat, lon with
             | Some lat, Some lon => ret (google_coord_key run_id lat lon zoom "png")
             | _, _ => raise (ValueError "Google uploads require lat, lon coordinates")
             end
         end ;;
  call (EvUpload bucket key) (put_object svc bucket key image_bytes) ;;;
  ret (bucket, key).

Definition download_image (svc : Services) (bucket key : string) : M string :=
  call (EvDownload bucket key) (get_object svc bucket key).

End S3.

(** ** core/pipeline/tile_processor.py *)

Module Processor.
Import Py Schema Core Ddb Runtime TileJobs Runs Errors Config S3.

Definition MIN_REMAINING_MS_FOR_OPENAI : Z := 20000.

Definition _get_s3_checkpoint (checkpoint : option S3Checkpoint) : option (string * string) :=
  match checkpoint with
  | None => None
  | Some c => Some (cp_bucket c, cp_key c)
  end.

Definition _exception_to_error_code (exc : Exn) : Result string :=
  match exc with
  | ImageryFetchError source (Some status_code) _ _ =>
      error_code_from_http_status (source_value source) status_code
  | ImageryFetchError source None _ _ =>
      ErrorCode (upper (source_value source) +:+ "_TIMEOUT")
  | AnalysisError _ => Ok "OPENAI_BAD_RESPONSE"
  | TimeoutError _ => Ok "DEADLINE_EXCEEDED"
  | _ =>
      if contains "S3" (type_name exc) || contains "s3" (lower (exn_str exc))
      then Ok "S3_PUT_FAILED"
      else Ok "UNKNOWN_ERROR"
  end.

Section WithServices.
Variable svc : Services.

Definition _download_from_checkpoint (s3_bucket s3_key : string) : M string :=
  download_image svc s3_bucket s3_key.

Definition _fetch_imagery (message : TileJobMessage) (config : WorkerConfig) : M string :=
  call (EvFetch (imagery_source message)) (provider_fetch svc (imagery_source message) message).

Definition _upload_to_s3 (message : TileJobMessage) (image_bytes : string)
    (config : WorkerConfig) : M (string * string) :=
  match imagery_source message with
  | Mapbox =>
      upload_tile_image svc image_bytes (s3_bucket config) (run_id message) Mapbox
                        (z message) (x message) (y message) None None None
  | Google =>
      upload_tile_image svc image_bytes (s3_bucket config) (run_id message) Google
                        None None None (lat message) (lon message) (Some (get_zoom message))
  end.

Definition _analyze_with_openai (image_bytes : string) (config : WorkerConfig)
  : M (string * string * Usage) :=
  call EvAnalyze (vision_model svc image_bytes).

Definition _handle_failure (exc : Exn) (message : TileJobMessage) (config : WorkerConfig)
  : M unit :=
  let run_id := run_id message in
  tile_id <- _ensure_tile_id message ;;
  error_code <- lift (_exception_to_error_code exc) ;;
  let error_message := take 500 (exn_str exc) in
  try_except
    (fail_job (tilejobs_table config) run_id tile_id error_code error_message None ;;;
     update_run_counters (runs_table config) run_id 0 1 ;;;
     ret tt)
    (fun ddb_exc => ret tt).

Definition process_tile (message : TileJobMessage) (config : WorkerConfig)
    (remaining_time_ms : option Z) : M ProcessTileResult :=
  let run_id := run_id message in
  tile_id <- _ensure_tile_id message ;;
  claim_result <- claim_job (tilejobs_table config) message None
                            (job_stale_lock_seconds config) ;;
  match result claim_result with
  | ALREADY_COMPLETED =>
      ret {| pr_status := PS_skipped; pr_tile_id := Some tile_id; pr_status_ai := None;
             pr_s3_key := None; pr_reason := Some "already_completed" |}
  | LOCKED_BY_OTHER => raise (RuntimeError "Job locked by another worker")
  | CLAIMED =>
      let claimed_at_epoch := claimed_at_epoch claim_result in
      try_except
        (let checkpoint := _get_s3_checkpoint (checkpoint claim_result) in
         got <- match checkpoint with
                | Some (s3_bucket, s3_key) =>
                    image_bytes <- _download_from_checkpoint s3_bucket s3_key ;;
                    ret (image_bytes, s3_bucket, s3_key)
                | None =>
                    image_bytes <- _fetch_imagery message config ;;
                    uploaded <- _upload_to_s3 message image_bytes config ;;
                    checkpoint_s3 (tilejobs_table config) run_id tile_id
                                  (fst uploaded) (snd uploaded) ;;;
                    ret (image_bytes, fst uploaded, snd uploaded)
                end ;;
         let '(image_bytes, s3_bucket, s3_key) := got in
         match remaining_time_ms with
         | Some r =>
             if r <? MIN_REMAINING_MS_FOR_OPENAI
             then raise (TimeoutError "aborting before OpenAI call")
             else ret tt
         | None => ret tt
         end ;;;
         analysis <- _analyze_with_openai image_bytes config ;;
         let '(status_ai, reasoning, usage_dict) := analysis in
         complete_job (tilejobs_table config) run_id tile_id s3_bucket s3_key
                      (Some status_ai) (Some reasoning) (Some usage_dict)
                      claimed_at_epoch None ;;;
         update_run_counters (runs_table config) run_id 1 0 ;;;
         ret {| pr_status := PS_completed; pr_tile_id := Some tile_id;
                pr_status_ai := Some status_ai; pr_s3_key := Some s3_key;
                pr_reason := None |})
        (fun exc => _handle_failure exc message config ;;; raise exc)
  end.

End WithServices.

End Processor.

(** ** lambdas/tile_worker/handler.py *)

Module Handler.
Import Py Schema Core Ddb Runtime Config S3 Processor.

Record SqsRecord := {
  messageId : option string;
  body : option string
}.

(** What [json.loads] and the field typing of [TileJobMessage] make of a
    body text: not JSON, JSON that does not have the shape of the model
    (a missing [run_id], a wrong type, an unknown provider), or the typed
    fields, on which the constraints and the validator of the model are
    still to be checked. *)
Inductive Decoded :=
| NotJson (err : string)
| IllTyped (err : string)
| Fields (m : TileJobMessage).

Inductive Response :=
| NoRecords                        (** [{"status": "no_records"}] *)
| InvalidMessage (error : string)  (** [{"status": "invalid_message", "error": ...}] *)
| ModelDump (r : ProcessTileResult).

(** [_get_config]: the cached configuration, else the one loaded from
    the environment, which fails when a required variable is missing. *)
Definition _get_config (_config : option WorkerConfig) (from_env : Result WorkerConfig)
  : Result WorkerConfig :=
  match _config with
  | Some c => Ok c
  | None => from_env
  end.

Section WithLibraries.
Variable decode : string -> Decoded.
Variable svc : Services.

(** [TileJobMessage.model_validate(json.loads(text))] *)
Definition parse_message (text : string) : Result TileJobMessage :=
  match decode text with
  | NotJson err => Raise (JSONDecodeError err)
  | IllTyped err => Raise (ValidationError err)
  | Fields m =>
      if field_constraints m then
        if _validate_source_specific_fields m then Ok m
        else Raise (ValidationError
                      (match imagery_source m with
                       | Mapbox => "Mapbox messages require z, x, and y"
                       | Google => "Google messages require lat and lon"
                       end))
      else Raise (ValidationError "Input should satisfy the field constraints")
  end.

Definition _async_handler (_config : option WorkerConfig) (from_env : Result WorkerConfig)
    (records : list SqsRecord) (remaining_time_in_millis : option Z) : M Response :=
  config <- lift (_get_config _config from_env) ;;
  match records with
  | [] => ret NoRecords
  | record :: _ =>
      match parse_message (default "{}" (body record)) with
      | Raise (JSONDecodeError msg) => ret (InvalidMessage msg)
      | Raise (ValidationError msg) => ret (InvalidMessage msg)
      | Raise exc => raise exc
      | Ok message =>
          let remaining_ms := remaining_time_in_millis in
          result <- process_tile svc message config remaining_ms ;;
          ret (ModelDump result)
      end
  end.

End WithLibraries.

End Handler.

(** ** core/io/http.py

    Times are exact rationals: the clock reading [time.time()], the
    deadline, the backoff base and the sleep durations. *)

Module Http.
Local Open Scope Q_scope.

Record Response := {
  status_code : Z;
  retry_after : option string      (** [response.headers.get("Retry-After")] *)
}.

Inductive HttpExn :=
| RetryExhaustedError (response : Response) (attempts : Z)
| DeadlineExceededError (remaining_ms : Q)
| AssertionError                   (** [assert last_response is not None] *)
| SleepValueError (seconds : Q)    (** [time.sleep] of a negative duration *)
| RequestException (msg : string). (** raised by the transport, not retried *)

Inductive Outcome :=
| Returned (response : Response)
| Raised (e : HttpExn).

(** What the engine does to the outside, with the clock reading at
    which it does it. *)
Inductive NetEvent :=
| Requested (at_time : Q) (attempt : Z)
| Closed (attempt : Z)
| Slept (at_time : Q) (seconds : Q).

Record Net := {
  now : Q;                         (** [time.time()] *)
  log : list NetEvent              (** oldest first *)
}.

Definition _RETRYABLE_STATUS : list Z := [429; 500; 502; 503; 504]%Z.

Definition Qltb (a b : Q) : bool := negb (Qle_bool b a).

Section Engine.
(** [float(text)]: [None] where Python raises [ValueError]. *)
Variable py_float : string -> option Q.
(** [_SESSION.request(method, url, timeout=timeout)] on the n-th call:
    a response or a transport error, and the seconds it took. *)
Variable transport : nat -> (Response + string) * Q.

Variable max_retries : Z.
Variable backoff_base : Q.
Variable retryable_status : list Z.
Variable deadline_epoch : option Q.
Variable min_time_for_attempt_ms : Q.

Definition is_request (ev : NetEvent) : bool :=
  match ev with
  | Requested _ _ => true
  | _ => false
  end.

Definition requests_made (st : Net) : nat := length (List.filter is_request (log st)).

Definition record (ev : NetEvent) (st : Net) : Net :=
  {| now := now st; log := (log st ++ [ev])%list |}.

Definition advance (seconds : Q) (st : Net) : Net :=
  {| now := now st + seconds; log := log st |}.

(** [backoff_base * (2 ** (attempt - 1))] *)
Definition backoff (attempt : Z) : Q := backoff_base * inject_Z (2 ^ (attempt - 1))%Z.

Definition sleep_duration (attempt : Z) (response : Response) : Q :=
  match retry_after response with
  | Some (String c r) =>
      match py_float (String c r) with
      | Some v => v
      | None => backoff attempt
      end
  | _ => backoff attempt
  end.

(** The code after the loop. *)
Definition exhausted (last_response : option Response) : Outcome :=
  match last_response with
  | None => Raised AssertionError
  | Some r => Raised (RetryExhaustedError r max_retries)
  end.

(** The check before an attempt: the remaining milliseconds when they
    are fewer than an attempt needs. *)
Definition attempt_check (st : Net) : option Q :=
  match deadline_epoch with
  | Some d =>
      let remaining_ms := (d - now st) * 1000 in
      if Qltb remaining_ms min_time_for_attempt_ms then Some remaining_ms else None
  | None => None
  end.

(** The check before a sleep: the remaining milliseconds when the sleep
    would not leave the time of an attempt before the deadline. *)
Definition sleep_check (sleep_for : Q) (st : Net) : option Q :=
  match deadline_epoch with
  | Some d =>
      let time_after_sleep := now st + sleep_for in
      if Qltb d (time_after_sleep + min_time_for_attempt_ms / 1000)
      then Some ((d - now st) * 1000)
      else None
  | None => None
  end.

(** The [for attempt in range(1, max_retries + 1)] loop over the
    attempts still to make. *)
Fixpoint attempts_loop (attempts : list Z) (last_response : option Response) (st : Net)
  : Outcome * Net :=
  match attempts with
  | [] => (exhausted last_response, st)
  | attempt :: rest =>
      match attempt_check st with
      | Some remaining_ms => (Raised (DeadlineExceededError remaining_ms), st)
      | None =>
          let '(answer, latency) := transport (requests_made st) in
          let st := advance latency (record (Requested (now st) attempt) st) in
          match answer with
          | inr msg => (Raised (RequestException msg), st)
          | inl response =>
              if negb (bool_decide (status_code response ∈ retryable_status))
              then (Returned response, st)
              else
                let st := record (Closed attempt) st in
                if (max_retries <=? attempt)%Z then (exhausted (Some response), st)
                else
                  let sleep_for := sleep_duration attempt response in
                  match sleep_check sleep_for st with
                  | Some remaining_ms => (Raised (DeadlineExceededError remaining_ms), st)
                  | None =>
                      if Qltb sleep_for 0 then (Raised (SleepValueError sleep_for), st)
                      else attempts_loop rest (Some response)
                             (advance sleep_for (record (Slept (now st) sleep_for) st))
                  end
          end
      end
  end.

Definition request_with_retry (st : Net) : Outcome * Net :=
  attempts_loop (seqZ 1 max_retries) None st.

End Engine.

End Http.

(** ** The properties in the words of the specification *)

Module Spec.
Import Py Schema Core Ddb Runtime.

Definition is_digit (c : ascii) : bool :=
  ((48 <=? nat_of_ascii c)%nat && (nat_of_ascii c <=? 57)%nat)%bool.

Definition all_digits (s : string) : bool := forallb is_digit (list_ascii_of_string s).

(** The number a string of decimal digits denotes. *)
Fixpoint digits_value (acc : Z) (s : string) : Z :=
  match s with
  | EmptyString => acc
  | String c r => digits_value (10 * acc + (Z.of_nat (nat_of_ascii c) - 48)) r
  end.

Definition is_lower_hex (c : ascii) : bool :=
  let n := nat_of_ascii c in
  (((48 <=? n)%nat && (n <=? 57)%nat) || ((97 <=? n)%nat && (n <=? 102)%nat))%bool.

(** The absolute value of a finite float as a fraction [num / den]. *)
Definition magnitude (x : float) : option (Z * Z) :=
  match x with
  | S754_zero _ => Some (0, 1)
  | S754_finite _ m e =>
      Some (if 0 <=? e then (Z.pos m * 2 ^ e, 1) else (Z.pos m, 2 ^ (- e)))
  | _ => None
  end.

Definition sign_of (x : float) : bool :=
  match x with
  | S754_zero s | S754_infinity s | S754_finite s _ _ => s
  | S754_nan => false
  end.

(** [n] is the integer nearest to [num / den], the even one on a tie. *)
Definition nearest_ties_even (num den n : Z) : Prop :=
  2 * Z.abs (n * den - num) <= den /\
  (2 * Z.abs (n * den - num) = den -> Z.even n = true).

(** [s] is [x] in fixed notation with exactly six fractional digits,
    rounded half to even. *)
Definition six_decimals_of (x : float) (s : string) : Prop :=
  exists num den n frac,
    magnitude x = Some (num, den) /\
    nearest_ties_even (num * 10 ^ 6) den n /\
    s = sign_str (sign_of x) +:+ str_int (n / 10 ^ 6) +:+ "." +:+ frac /\
    String.length frac = 6%nat /\
    all_digits frac = true /\
    digits_value 0 frac = n mod 10 ^ 6.

(** The claim predicate evaluated on an item: no status, or PENDING or
    FAILED, or PROCESSING with the lock missing or before [now]. *)
Definition claimable_b (old : Item) (now : Z) : bool :=
  match old !! "status" with
  | None => true
  | Some v =>
      attr_eqb v (AS "PENDING") || attr_eqb v (AS "FAILED") ||
      (attr_eqb v (AS "PROCESSING") &&
       match old !! "lock_until_epoch" with
       | None => true
       | Some (AN a) => num_ltb a (num_of_int now)
       | Some _ => false
       end)
  end.

(** The claim predicate in the words of the specification, on the prior
    state of the row. *)
Definition claimable (prior : option Item) (now : Z) : Prop :=
  prior = None \/
  (exists row, prior = Some row /\
     (row !! "status" = Some (AS "PENDING") \/ row !! "status" = Some (AS "FAILED"))) \/
  (exists row, prior = Some row /\ row !! "status" = Some (AS "PROCESSING") /\
     (row !! "lock_until_epoch" = None \/
      exists l, row !! "lock_until_epoch" = Some (AN (num_of_int l)) /\ l < now)).

(** A row that exists and has no status attribute. *)
Definition statusless (prior : option Item) : Prop :=
  exists row, prior = Some row /\ row !! "status" = None.

(** The attributes of a row have the types of [TileJobItem]: the status
    is one of the four job statuses, the counters and epochs the claim
    reads are integers, the checkpoint fields are strings. *)
Definition well_typed (row : Item) : Prop :=
  (forall v, row !! "status" = Some v -> exists st, v = AS (JobStatus_value st)) /\
  (forall v, row !! "attempts" = Some v -> exists n, v = AN (num_of_int n)) /\
  (forall v, row !! "lock_until_epoch" = Some v -> exists n, v = AN (num_of_int n)) /\
  (forall v, row !! "s3_bucket" = Some v -> exists s, v = AS s) /\
  (forall v, row !! "s3_key" = Some v -> exists s, v = AS s).

(** [attempts ?? 0] *)
Definition attempts_or_zero (old : Item) : Z :=
  match old !! "attempts" with
  | Some (AN n) => num_trunc n
  | _ => 0
  end.

(** [name <- name ?? v] *)
Definition set_if_absent (name : string) (v : AttrVal) (old acc : Item) : Item :=
  <[ name := default v (old !! name) ]> acc.

(** The mutation of a successful claim, on the row [base] as it was
    ([old] is the same row, or the empty item when the row is new). *)
Definition claim_mutation (m : TileJobMessage) (now lock_seconds : Z) (old base : Item)
  : Item :=
  let common :=
    set_if_absent "imagery_source" (AS (source_value (imagery_source m))) old
    (<[ "last_claimed_at_epoch" := AN (num_of_int now) ]>
    (set_if_absent "started_at_epoch" (AN (num_of_int now)) old
    (<[ "lock_until_epoch" := AN (num_of_int (now + lock_seconds)) ]>
    (<[ "attempts" := AN (num_of_int (attempts_or_zero old + 1)) ]>
    (<[ "status" := AS "PROCESSING" ]> base))))) in
  match imagery_source m with
  | Mapbox =>
      let coords :=
        set_if_absent "y" (AN (num_of_int (default 0 (y m)))) old
        (set_if_absent "x" (AN (num_of_int (default 0 (x m)))) old
        (set_if_absent "z" (AN (num_of_int (default 0 (z m)))) old common)) in
      match region m with
      | Some (String c r) => set_if_absent "region" (AS (String c r)) old coords
      | _ => coords
      end
  | Google =>
      set_if_absent "zoom" (AN (num_of_int (default 0 (zoom m)))) old
      (set_if_absent "lon" (AN (default (num_of_int 0) (lon m ≫= num_of_float))) old
      (set_if_absent "lat" (AN (default (num_of_int 0) (lat m ≫= num_of_float))) old common))
  end.

(** The store takes the numbers of the message: a coord-provider message
    carries its zoom. *)
Definition numbers_accepted (m : TileJobMessage) : bool :=
  match imagery_source m with
  | Mapbox => true
  | Google => bool_decide (is_Some (zoom m))
  end.

(** The values of the claim request as the store reads them. *)
Definition stored_values (m : TileJobMessage) (now lock_until : Z) : gmap string AttrVal :=
  omap validate (TileJobs.claim_expr_values m now lock_until).

(** The world with the tables replaced. *)
Definition with_db (w : World) (d : Db) : World :=
  {| db := d; clock := clock w; trace := trace w |}.

(** The attribute names a claim writes. *)
Definition claim_touched (m : TileJobMessage) : list string :=
  [ "status"; "attempts"; "lock_until_epoch"; "started_at_epoch";
    "last_claimed_at_epoch"; "imagery_source" ] ++
  match imagery_source m with
  | Mapbox => [ "z"; "x"; "y" ] ++ (if Py.truthy (region m) then [ "region" ] else [])
  | Google => [ "lat"; "lon"; "zoom" ]
  end.

(** The time of a claim: [now_epoch], else the clock. *)
Definition claim_now (now_epoch : option Z) (w : World) : Z := default (clock w) now_epoch.

Definition not_client_error (e : Exn) : Prop :=
  match e with
  | ClientError _ _ => False
  | _ => True
  end.

(** The checkpoint a row holds: both fields present and non-empty. *)
Definition stored_checkpoint (row : Item) : option S3Checkpoint :=
  match row !! "s3_bucket", row !! "s3_key" with
  | Some (AS (String c1 b)), Some (AS (String c2 k)) =>
      Some {| cp_bucket := String c1 b; cp_key := String c2 k |}
  | _, _ => None
  end.

(** The attributes a claim writes only when the row lacks them, with
    the values it would write. *)
Definition written_if_absent (m : TileJobMessage) (now : Z) : list (string * AttrVal) :=
  [ ("started_at_epoch", AN (num_of_int now));
    ("imagery_source", AS (source_value (imagery_source m))) ] ++
  match imagery_source m with
  | Mapbox =>
      [ ("z", AN (num_of_int (default 0 (z m))));
        ("x", AN (num_of_int (default 0 (x m))));
        ("y", AN (num_of_int (default 0 (y m)))) ] ++
      match region m with
      | Some (String c r) => [ ("region", AS (String c r)) ]
      | _ => []
      end
  | Google =>
      [ ("lat", AN (default (num_of_int 0) (lat m ≫= num_of_float)));
        ("lon", AN (default (num_of_int 0) (lon m ≫= num_of_float)));
        ("zoom", AN (num_of_int (default 0 (zoom m)))) ]
  end.

(** A computation that makes no external call. *)
Definition quiet {A} (c : M A) : Prop := forall w, trace (snd (c w)) = trace w.

End Spec.

(** ** Literal inputs of the end-to-end scenarios *)

Module Scenario.
Import Py Schema Core Ddb Runtime Config S3.

(** [{run_id: "run_x", source: "mapbox", z: 14, x: 8716, y: 5378}] *)
Definition fresh_tile : TileJobMessage :=
  {| run_id := "run_x"; imagery_source := Mapbox;
     source := {| bucket := "manifests"; key := "tiles.csv" |};
     z := Some 14; x := Some 8716; y := Some 5378; region := None;
     lat := None; lon := None; zoom := None |}.

(** [{imagery_source: "google", lat: 12.345678, lon: -7.654321}], the
    coordinates being the doubles nearest to these decimals. *)
Definition default_zoom_coord : TileJobMessage :=
  {| run_id := "run_x"; imagery_source := Google;
     source := {| bucket := "manifests"; key := "coords.csv" |};
     z := None; x := None; y := None; region := None;
     lat := Some (S754_finite false 1737499713763629 (-47));
     lon := Some (S754_finite true 8617999300843541 (-50));
     zoom := None |}.

(** The doubles nearest to 1.2345678 and 1.2345681. *)
Definition coord_a : TileJobMessage :=
  {| run_id := "run_x"; imagery_source := Google;
     source := {| bucket := "manifests"; key := "coords.csv" |};
     z := None; x := None; y := None; region := None;
     lat := Some (S754_finite false 5559999084043613 (-52));
     lon := Some (S754_finite true 8617999300843541 (-50));
     zoom := Some 18 |}.

Definition coord_b : TileJobMessage :=
  {| run_id := "run_x"; imagery_source := Google;
     source := {| bucket := "manifests"; key := "coords.csv" |};
     z := None; x := None; y := None; region := None;
     lat := Some (S754_finite false 5560000435123501 (-52));
     lon := Some (S754_finite true 8617999300843541 (-50));
     zoom := None |}.

Definition config : WorkerConfig :=
  {| aws_region := "us-east-1"; s3_bucket := "imagery"; runs_table := "runs";
     tilejobs_table := "jobs"; secrets_id := "secrets"; job_stale_lock_seconds := 900;
     max_retries := 3; request_timeout := 10%Q; log_level := "INFO" |}.

Definition fresh_key : PrimaryKey := [("run_id", "run_x"); ("tile_id", "14/8716/5378")].

(** A world whose tile job table holds one row for [fresh_tile], with
    the given attributes besides the key. *)
Definition world_with (attrs : list (string * AttrVal)) (at_time : Z) : World :=
  {| db := {[ "jobs" := {[ fresh_key := list_to_map attrs ∪ key_item fresh_key ]};
              "runs" := ∅ ]};
     clock := at_time;
     trace := [] |}.

Definition empty_world (at_time : Z) : World :=
  {| db := {[ "jobs" := ∅; "runs" := ∅ ]}; clock := at_time; trace := [] |}.

(** Collaborators that always succeed, each call taking one second. *)
Definition obliging : Services :=
  {| provider_fetch := fun _ _ _ => (Ok "image", 1);
     put_object := fun _ _ _ _ => (Ok tt, 1);
     get_object := fun _ _ _ => (Ok "image", 1);
     vision_model := fun _ _ => (Ok ("burned", "charred canopy", []), 1) |}.

(** The row of the table of tile jobs for [fresh_tile] in a world. *)
Definition fresh_row (w : World) : option Item :=
  db w !! "jobs" ≫= fun tbl : Table => tbl !! fresh_key.

Definition status_of (w : World) : option AttrVal :=
  fresh_row w ≫= fun row : Item => row !! "status".

(** The object of [fresh_tile] in the store, and a world in which the
    tile has FAILED after a checkpoint for that object in [bucket]. *)
Definition stored_object : string := "runs/run_x/tiles/z=14/x=8716/y=5378.jpg".

Definition failed_with_checkpoint (bucket : string) : World :=
  world_with [("status", AS "FAILED"); ("s3_bucket", AS bucket); ("s3_key", AS stored_object)]
             1000.

End Scenario.

(** ** The retry engine in the words of the specification *)

Module HttpSpec.
Import Http.
Local Open Scope Q_scope.

(** An event of a run keeps to the deadline: an attempt starts with at
    least [budget] seconds left, a sleep ends with at least [budget]
    seconds left. *)
Definition respects (deadline budget : Q) (ev : NetEvent) : Prop :=
  match ev with
  | Requested at_time _ => ~ deadline - at_time < budget
  | Slept at_time seconds => at_time + seconds <= deadline - budget
  | Closed _ => True
  end.

(** The durations of the sleeps of a log, oldest first. *)
Fixpoint sleeps (events : list NetEvent) : list Q :=
  match events with
  | [] => []
  | Slept _ seconds :: rest => seconds :: sleeps rest
  | _ :: rest => sleeps rest
  end.

(** The response to the n-th request (from 0). *)
Definition response_of (transport : nat -> (Response + string) * Q) (n : nat)
  : option Response :=
  match fst (transport n) with
  | inl r => Some r
  | inr _ => None
  end.

(** The sleep after attempt [i]: the Retry-After value when the header
    parses as a float, else [backoff_base * 2^(i-1)]. *)
Definition stated_sleep (py_float : string -> option Q) (backoff_base : Q) (i : Z)
    (r : Response) : Q :=
  match retry_after r ≫= py_float with
  | Some v => v
  | None => backoff_base * inject_Z (2 ^ (i - 1))%Z
  end.

(** The sleeps after the attempts 1 to [count]. *)
Definition stated_sleeps (py_float : string -> option Q) (backoff_base : Q)
    (transport : nat -> (Response + string) * Q) (count : nat) : list Q :=
  map (fun n => match response_of transport n with
                | Some r => stated_sleep py_float backoff_base (Z.of_nat (S n)) r
                | None => 0
                end) (seq 0 count).

(** Every request is answered with a status to retry. *)
Definition always_retryable (transport : nat -> (Response + string) * Q)
    (retryable_status : list Z) : Prop :=
  forall n, exists r latency,
    transport n = (inl r, latency) /\ status_code r ∈ retryable_status.

(** An upstream that answers 503 at once, whatever is asked. *)
Definition unavailable (n : nat) : (Response + string) * Q :=
  (inl {| status_code := 503; retry_after := None |}, 0).

Definition no_float (text : string) : option Q := None.

Definition idle (at_time : Q) : Net := {| now := at_time; log := [] |}.

End HttpSpec.

(** ** What a computation leaves behind: rows, counters, external calls *)

Module Footprint.
Import Py Schema Core Ddb Runtime.

(** The row of a table under a key. *)
Definition row_of (d : Db) (table_name : string) (k : PrimaryKey) : option Item :=
  d !! table_name ≫= fun tbl : Table => tbl !! k.

(** The value of an integer counter of a row, 0 when the row lacks it. *)
Definition counter (row : option Item) (name : string) : Z :=
  match row ≫= fun it : Item => it !! name with
  | Some (AN n) => num_trunc n
  | _ => 0
  end.

(** The counters of a run row are integers where present. *)
Definition counters_typed (row : option Item) : Prop :=
  forall it name v, row = Some it -> name = "completed_tiles" \/ name = "failed_tiles" ->
                    it !! name = Some v -> exists n, v = AN (num_of_int n).

(** Every external call a computation makes satisfies [allowed]. *)
Definition adds_only {A} (allowed : Event -> Prop) (c : M A) : Prop :=
  forall w, exists events,
    trace (snd (c w)) = (trace w ++ events)%list /\ Forall allowed events.

Definition not_analysis (ev : Event) : Prop := ev <> EvAnalyze.

(** A computation drops no table. *)
Definition keeps_tables {A} (c : M A) : Prop :=
  forall w tn, is_Some (db w !! tn) -> is_Some (db (snd (c w)) !! tn).

(** The error codes the failure path of the processor can record. *)
Definition recordable_codes : list string :=
  [ "MAPBOX_429"; "MAPBOX_5XX"; "MAPBOX_4XX"; "MAPBOX_BAD_REQUEST"; "MAPBOX_TIMEOUT";
    "GOOGLE_429"; "GOOGLE_5XX"; "GOOGLE_4XX"; "GOOGLE_BAD_REQUEST"; "GOOGLE_TIMEOUT";
    "OPENAI_BAD_RESPONSE"; "DEADLINE_EXCEEDED"; "S3_PUT_FAILED"; "UNKNOWN_ERROR" ].

(** The row a failure leaves: status, end time, code and message set on
    the row as it was. *)
Definition failed_row (base : Item) (finished : Z) (error_code error_message : string)
  : Item :=
  <[ "error_message" := AS error_message ]>
  (<[ "error_code" := AS error_code ]>
  (<[ "finished_at_epoch" := AN (num_of_int finished) ]>
  (<[ "status" := AS "FAILED" ]> base))).

End Footprint.

(** ** The rows the job updates leave *)

Module Rows.
Import Py Schema Core Ddb Runtime.

Definition set_opt (name : string) (v : option AttrVal) (row : Item) : Item :=
  match v with
  | Some a => <[ name := a ]> row
  | None => row
  end.

(** The row a completion leaves: status, end time and object set, and
    the verdict, the reasoning, the usage and the duration where given. *)
Definition completed_row (base : Item) (finished : Z) (s3_bucket s3_key : string)
    (status_ai reasoning : option string) (openai_usage : option Usage)
    (claimed_at_epoch : option Z) : Item :=
  set_opt "duration_ms"
    (option_map (fun c => AN (num_of_int ((finished - c) * 1000))) claimed_at_epoch)
  (set_opt "openai_usage" (option_map AM openai_usage)
  (set_opt "reasoning" (option_map AS reasoning)
  (set_opt "status_ai" (option_map AS status_ai)
  (<[ "s3_key" := AS s3_key ]>
  (<[ "s3_bucket" := AS s3_bucket ]>
  (<[ "finished_at_epoch" := AN (num_of_int finished) ]>
  (<[ "status" := AS "COMPLETED" ]> base))))))).

(** The attribute names a failure and a completion write. *)
Definition fail_touched : list string :=
  [ "status"; "finished_at_epoch"; "error_code"; "error_message" ].

Definition complete_touched : list string :=
  [ "status"; "finished_at_epoch"; "s3_bucket"; "s3_key"; "status_ai"; "reasoning";
    "openai_usage"; "duration_ms" ].

(** The row of counters after an update by [completed_delta] and
    [failed_delta]. *)
Definition counted_row (old : option Item) (base : Item) (completed_delta failed_delta : Z)
  : Item :=
  <[ "failed_tiles" := AN (num_of_int (Footprint.counter old "failed_tiles" + failed_delta)) ]>
  (<[ "completed_tiles" :=
        AN (num_of_int (Footprint.counter old "completed_tiles" + completed_delta)) ]> base).

End Rows.

(** ** Characters of the formatted texts *)

Module Text.

(** A character of [str(n)]: a decimal digit or the minus sign. *)
Definition numeric (c : ascii) : bool := Spec.is_digit c || Ascii.eqb c "-".

(** A character of a float in fixed notation. *)
Definition fixed_char (c : ascii) : bool :=
  numeric c || Ascii.eqb c "." || Ascii.eqb c "n" || Ascii.eqb c "a" ||
  Ascii.eqb c "i" || Ascii.eqb c "f".

Definition all_chars (p : ascii -> bool) (s : string) : bool :=
  forallb p (list_ascii_of_string s).

(** The text [s] does not contain the character [sep]. *)
Definition lacks (sep : ascii) (s : string) : bool :=
  all_chars (fun c => negb (Ascii.eqb c sep)) s.

End Text.

(** ** Counting what the retry engine does *)

Module HttpFacts.
Import Http.

Definition is_closed (ev : NetEvent) : bool :=
  match ev with
  | Closed _ => true
  | _ => false
  end.

(** The responses closed so far. *)
Definition closed_count (st : Net) : nat := length (List.filter is_closed (log st)).

(** The sleeps taken so far. *)
Definition sleep_count (st : Net) : nat := length (HttpSpec.sleeps (log st)).

(** A run that ends holding an open response or a broken connection:
    the last request was not answered by a response to retry. *)
Definition ends_open (o : Outcome) : nat :=
  match o with
  | Returned _ | Raised (RequestException _) => 1
  | _ => 0
  end.

(** The answer to the last request made. *)
Definition last_answer (transport : nat -> (Response + string) * Q) (st : Net)
  : option (Response + string) :=
  match requests_made st with
  | O => None
  | S n => Some (fst (transport n))
  end.

(** An upstream that asks, by its Retry-After header, for a sleep of
    minus one second. *)
Definition impatient (n : nat) : (Response + string) * Q :=
  (inl {| status_code := 429; retry_after := Some "-1" |}, 0%Q).

Definition minus_one (text : string) : option Q :=
  if String.eqb text "-1" then Some (-1)%Q else None.

End HttpFacts.

(** ** core/imagery/fetchers.py

    The fetch of a tile with its own retry loop.  The session is an
    oracle: the answer to the n-th GET is a response whose body was read,
    an [aiohttp.ClientError] (raised by the request or while the body is
    read), or another exception. *)

Module Fetchers.
Import Py Schema Core.
Local Open Scope Q_scope.

Definition MAPBOX_TILESET : string := "mapbox.satellite".
Definition MAPBOX_FORMAT : string := "jpg".

Definition _RETRYABLE_STATUS : list Z := [429; 500; 502; 503; 504]%Z.

Definition _mapbox_url (z x y : Z) (token : string) : string :=
  "https://api.mapbox.com/v4/" +:+ MAPBOX_TILESET +:+ "/" +:+ str_int z +:+ "/" +:+
  str_int x +:+ "/" +:+ str_int y +:+ "." +:+ MAPBOX_FORMAT +:+
  "?access_token=" +:+ token.

Inductive Answer :=
| Replied (status : Z) (payload : string)  (** [response.status], and the body read *)
| ClientFailure (msg : string)             (** [aiohttp.ClientError], with [str(exc)] *)
| OtherFailure (e : Exn).

(** What the loop does to the outside. *)
Inductive WireEvent :=
| Got (attempt : Z)                        (** [session.get(url, ...)] *)
| Dozed (seconds : Q).                     (** [asyncio.sleep(seconds)] *)

Definition is_get (ev : WireEvent) : bool :=
  match ev with
  | Got _ => true
  | Dozed _ => false
  end.

Definition gets_made (log : list WireEvent) : nat := length (List.filter is_get log).

Section Fetch.
Variable session_get : nat -> Answer.
Variable source : ImagerySource.
Variable max_retries : Z.
Variable backoff_base : Q.

(** One pass of the body of the loop: the result that ends the loop, or
    the new [last_status] and [last_message]. *)
Definition attempt_outcome (attempt : Z) (answer : Answer)
  : Result string + (option Z * string) :=
  match answer with
  | Replied status payload =>
      if (status =? 200)%Z then inl (Ok payload)
      else
        let last_status := Some status in
        let last_message := payload in
        if negb (bool_decide (status ∈ _RETRYABLE_STATUS))
        then inl (Raise (ImageryFetchError source (Some status) last_message attempt))
        else inr (last_status, last_message)
  | ClientFailure msg => inr (None, msg)
  | OtherFailure e => inl (Raise e)
  end.

(** The [for attempt in range(1, max_retries + 1)] loop over the
    attempts still to make, and the [raise] after it. *)
Fixpoint fetch_loop (attempts : list Z) (last_status : option Z) (last_message : string)
    (log : list WireEvent) : Result string * list WireEvent :=
  match attempts with
  | [] => (Raise (ImageryFetchError source last_status last_message max_retries), log)
  | attempt :: rest =>
      let answer := session_get (gets_made log) in
      let log := (log ++ [Got attempt])%list in
      match attempt_outcome attempt answer with
      | inl result => (result, log)
      | inr (last_status, last_message) =>
          if (attempt <? max_retries)%Z then
            let sleep_for := backoff_base * inject_Z (2 ^ (attempt - 1))%Z in
            fetch_loop rest last_status last_message (log ++ [Dozed sleep_for])%list
          else fetch_loop rest last_status last_message log
      end
  end.

Definition _fetch_with_retry (log : list WireEvent) : Result string * list WireEvent :=
  fetch_loop (seqZ 1 max_retries) None "" log.

End Fetch.

End Fetchers.

(** ** The fetch loop, described *)

Module FetchFacts.
Import Py Schema Core Fetchers.
Local Open Scope Q_scope.

(** The first [k] attempts, each followed by its sleep:
    [Got 1; Dozed b; Got 2; Dozed 2b; ...; Got k; Dozed (2^(k-1) b)]. *)
Definition dozes (backoff_base : Q) (k : nat) : list WireEvent :=
  flat_map (fun i => [Got i; Dozed (backoff_base * inject_Z (2 ^ (i - 1))%Z)])
           (seqZ 1 (Z.of_nat k)).

(** The log of a run that made [n] requests and slept between them. *)
Definition paced (backoff_base : Q) (n : nat) : list WireEvent :=
  match n with
  | O => []
  | S k => (dozes backoff_base k ++ [Got (Z.of_nat (S k))])%list
  end.

(** An answer after which the loop goes on. *)
Definition to_retry (answer : Answer) : bool :=
  match answer with
  | Replied status _ => negb (status =? 200)%Z && bool_decide (status ∈ _RETRYABLE_STATUS)
  | ClientFailure _ => true
  | OtherFailure _ => false
  end.

(** What the loop remembers of an answer. *)
Definition remembered (answer : option Answer) : option Z * string :=
  match answer with
  | Some (Replied status payload) => (Some status, payload)
  | Some (ClientFailure msg) => (None, msg)
  | _ => (None, "")
  end.

(** The answer to the last of [n] requests. *)
Definition final_answer (session_get : nat -> Answer) (n : nat) : option Answer :=
  match n with
  | O => None
  | S k => Some (session_get k)
  end.

(** What a run that made [n] requests has done: it slept between the
    requests as [paced] says; every answer but the last was one to retry;
    and it ended in one of four ways: with the body of a last answer 200;
    with the error of a last status that is neither 200 nor one to retry,
    numbered by the attempt; with another exception, raised as it is; or,
    all [max_retries] answers being to retry, with the error that carries
    what is remembered of the last answer and [max_retries]. *)
Definition fetched (session_get : nat -> Answer) (source : ImagerySource)
    (max_retries : Z) (backoff_base : Q) (n : nat)
    (run : Result string * list WireEvent) : Prop :=
  snd run = paced backoff_base n /\
  (forall i, (S i < n)%nat -> to_retry (session_get i) = true) /\
  match fst run with
  | Ok payload => final_answer session_get n = Some (Replied 200 payload)
  | Raise exc =>
      (exists status payload,
         final_answer session_get n = Some (Replied status payload) /\
         status <> 200%Z /\ (status ∉ _RETRYABLE_STATUS) /\
         exc = ImageryFetchError source (Some status) payload (Z.of_nat n)) \/
      (exists e, final_answer session_get n = Some (OtherFailure e) /\ exc = e) \/
      (Z.of_nat n = Z.max 0 max_retries /\
       (forall i, (i < n)%nat -> to_retry (session_get i) = true) /\
       exc = ImageryFetchError source (fst (remembered (final_answer session_get n)))
                               (snd (remembered (final_answer session_get n))) max_retries)
  end.

(** A provider that answers 503 whatever is asked, and one whose
    connection breaks. *)
Definition overloaded (n : nat) : Answer := Replied 503 "Service Unavailable".

Definition unreachable (n : nat) : Answer := ClientFailure "Cannot connect to host".

End FetchFacts.

(** ** core/ddb/runs.py: the run row

    [ddb.put_item] replaces the item under the key of the given item.
    The table of runs is keyed by [run_id], as the [Key] of the updates
    of this module shows. *)

Module RunTable.
Import Py Schema Core Ddb Runtime TileJobs.

Definition RunStatus_value (s : RunStatus) : string :=
  match s with
  | RUN_CREATED => "CREATED"
  | RUN_RUNNING => "RUNNING"
  | RUN_COMPLETED => "COMPLETED"
  | RUN_FAILED => "FAILED"
  end.

(** The primary key of an item under a key schema of string attributes. *)
Definition key_of (schema : list string) (item : Item) : option PrimaryKey :=
  mapM (fun name => match item !! name with
                    | Some (AS v) => Some (name, v)
                    | _ => None
                    end) schema.

(** [ddb.put_item(TableName, Item, ConditionExpression)] *)
Definition put_item (table_name : string) (schema : list string) (item : gmap string ReqVal)
    (condition : option Cond) (d : Db) : Result unit * Db :=
  match d !! table_name with
  | None => (Raise (ClientError "ResourceNotFoundException" "table not found"), d)
  | Some tbl =>
      match validate_values item with
      | None => (Raise (ClientError "ValidationException" "invalid attribute value"), d)
      | Some stored =>
          match key_of schema stored with
          | None => (Raise (ClientError "ValidationException" "missing key"), d)
          | Some k =>
              let old := default ∅ (tbl !! k) in
              let holds :=
                match condition with
                | Some c => eval_cond ∅ ∅ old c
                | None => Some true
                end in
              match holds with
              | None => (Raise (ClientError "ValidationException" "invalid expression"), d)
              | Some false =>
                  (Raise (ClientError "ConditionalCheckFailedException"
                            "The conditional request failed"), d)
              | Some true => (Ok tt, <[ table_name := <[ k := stored ]> tbl ]> d)
              end
          end
      end
  end.

Definition run_key (run_id : string) : PrimaryKey := [("run_id", run_id)].

Definition run_item (run_id source_bucket source_key : string) (total_tiles : Z)
    (status : RunStatus) (created_at : Z) : gmap string ReqVal :=
  <[ "created_at_epoch" := N_of_int created_at ]>
  (<[ "source_key" := RS source_key ]>
  (<[ "source_bucket" := RS source_bucket ]>
  (<[ "failed_tiles" := RN "0" ]>
  (<[ "completed_tiles" := RN "0" ]>
  (<[ "total_tiles" := N_of_int total_tiles ]>
  (<[ "status" := RS (RunStatus_value status) ]>
  (<[ "run_id" := RS run_id ]> ∅))))))).

Definition create_run (table_name run_id source_bucket source_key : string) (total_tiles : Z)
    (status : RunStatus) (now_epoch : option Z) : M (gmap string ReqVal) :=
  created_at <- match now_epoch with Some n => ret n | None => time_time end ;;
  let item := run_item run_id source_bucket source_key total_tiles status created_at in
  on_db (put_item table_name ["run_id"] item (Some (CAttrNotExists "run_id"))) ;;;
  ret item.

Definition safe_create_run (table_name run_id source_bucket source_key : string)
    (total_tiles : Z) (status : RunStatus) (now_epoch : option Z) : M bool :=
  try_except
    (create_run table_name run_id source_bucket source_key total_tiles status now_epoch ;;;
     ret true)
    (fun exc =>
       match exc with
       | ClientError code _ =>
           if String.eqb code "ConditionalCheckFailedException" then ret false
           else raise exc
       | _ => raise exc
       end).

Definition set_run_status (table_name run_id : string) (status : RunStatus)
    (finished_at_epoch : option Z) : M Item :=
  let attrs : gmap string ReqVal := <[ ":status" := RS (RunStatus_value status) ]> ∅ in
  let update_expr := [ ASet "#status" (OVal ":status") ] in
  let '(update_expr, attrs) :=
    match finished_at_epoch with
    | Some f => ((update_expr ++ [ ASet "finished_at_epoch" (OVal ":finished") ])%list,
                 <[ ":finished" := N_of_int f ]> attrs)
    | None => (update_expr, attrs)
    end in
  on_db (update_item
           {| TableName := table_name;
              Key := run_key run_id;
              UpdateExpression := update_expr;
              ExpressionAttributeNames := {[ "#status" := "status" ]};
              ExpressionAttributeValues := attrs;
              ConditionExpression := None;
              ReturnValues := UPDATED_NEW |}).

Definition set_total_tiles (table_name run_id : string) (total_tiles : Z) : M Item :=
  on_db (update_item
           {| TableName := table_name;
              Key := run_key run_id;
              UpdateExpression := [ ASet "total_tiles" (OVal ":total") ];
              ExpressionAttributeNames := ∅;
              ExpressionAttributeValues := <[ ":total" := N_of_int total_tiles ]> ∅;
              ConditionExpression := None;
              ReturnValues := UPDATED_NEW |}).

(** The run row as [create_run] stores it. *)
Definition created_row (run_id source_bucket source_key : string) (total_tiles : Z)
    (status : RunStatus) (created_at : Z) : Item :=
  <[ "created_at_epoch" := AN (num_of_int created_at) ]>
  (<[ "source_key" := AS source_key ]>
  (<[ "source_bucket" := AS source_bucket ]>
  (<[ "failed_tiles" := AN (num_of_int 0) ]>
  (<[ "completed_tiles" := AN (num_of_int 0) ]>
  (<[ "total_tiles" := AN (num_of_int total_tiles) ]>
  (<[ "status" := AS (RunStatus_value status) ]>
  (<[ "run_id" := AS run_id ]> ∅))))))).

End RunTable.

(** ** core/aws_clients/secrets.py

    The cache of secrets.  [time.time()] is the argument [now]; the
    secrets service, [json.loads] and the decoding of a binary secret are
    oracles, the service answering its n-th call. *)

Module Secrets.
Import Py Core.
Local Open Scope Q_scope.

(** The response of [get_secret_value], as far as it is read. *)
Record SecretResponse := {
  SecretString : option string;
  SecretBinary : option string
}.

Section Values.
(** The parsed secret: whatever [json.loads] returns. *)
Variable Value : Type.
Variable json_loads : string -> Result Value.
(** [base64.b64decode(data).decode("utf-8")] *)
Variable b64decode_utf8 : string -> Result string.
Variable get_secret_value : string -> nat -> Result SecretResponse.

Record Vault := {
  _cache : gmap string (Q * Value);   (** expiry and value, by secret id *)
  calls : nat                         (** calls to the secrets service so far *)
}.

Definition _parse_secret (response : SecretResponse) : Result Value :=
  if truthy (SecretString response) then json_loads (default "" (SecretString response))
  else if truthy (SecretBinary response) then
    match b64decode_utf8 (default "" (SecretBinary response)) with
    | Ok decoded => json_loads decoded
    | Raise e => Raise e
    end
  else Raise (RuntimeError "Secret has no SecretString or SecretBinary").

Definition fresh (now : Q) (cached : option (Q * Value)) : option Value :=
  match cached with
  | Some (expiry, value) => if Http.Qltb now expiry then Some value else None
  | None => None
  end.

Definition get_secret_json (secret_id : string) (ttl_seconds : Q) (now : Q) (st : Vault)
  : Result Value * Vault :=
  let cached := _cache st !! secret_id in
  match fresh now cached with
  | Some value => (Ok value, st)
  | None =>
      let called := {| _cache := _cache st; calls := S (calls st) |} in
      match get_secret_value secret_id (calls st) with
      | Raise e => (Raise e, called)
      | Ok response =>
          match _parse_secret response with
          | Raise e => (Raise e, called)
          | Ok value =>
              (Ok value,
               {| _cache := <[ secret_id := (now + ttl_seconds, value) ]> (_cache st);
                  calls := S (calls st) |})
          end
      end
  end.

End Values.

Arguments _cache {Value} v.
Arguments calls {Value} v.

End Secrets.

(** ** core/config/settings.py

    The environment is a finite map; [int], [float] and the
    configuration of the logging module are oracles. *)

Module Settings.
Import Py Core Config.

Definition Env : Type := gmap string string.

(** [os.getenv(name, default)] *)
Definition getenv (env : Env) (name default : string) : string :=
  match env !! name with
  | Some v => v
  | None => default
  end.

Definition _require (env : Env) (name : string) : Result string :=
  match env !! name with
  | Some (String c r) => Ok (String c r)
  | _ => Raise (RuntimeError ("Missing required environment variable: " +:+ name))
  end.

Record IngestionConfig := {
  base : WorkerConfig;
  tile_jobs_queue_url : string
}.

Section Builtins.
Variable py_int : string -> option Z.      (** [int(text)], [None] for [ValueError] *)
Variable py_float : string -> option Q.    (** [float(text)], [None] for [ValueError] *)
(** [logging.basicConfig(level=level, ...)] *)
Variable basic_config : string -> Result unit.

(** [_configure_logging], on the flag [_logger_configured]. *)
Definition _configure_logging (level : string) (configured : bool) : Result unit * bool :=
  if configured then (Ok tt, configured)
  else match basic_config level with
       | Ok _ => (Ok tt, true)
       | Raise e => (Raise e, configured)
       end.

Definition _base_kwargs (env : Env) (configured : bool) : Result WorkerConfig * bool :=
  let aws_region := getenv env "AWS_REGION" "us-east-1" in
  match _require env "S3_BUCKET" with
  | Raise e => (Raise e, configured)
  | Ok s3_bucket =>
  match _require env "DDB_RUNS_TABLE" with
  | Raise e => (Raise e, configured)
  | Ok runs_table =>
  match _require env "DDB_TILEJOBS_TABLE" with
  | Raise e => (Raise e, configured)
  | Ok tilejobs_table =>
  match _require env "PIPELINE_SECRETS_ID" with
  | Raise e => (Raise e, configured)
  | Ok secrets_id =>
  match py_int (getenv env "JOB_STALE_LOCK_SECONDS" "900") with
  | None => (Raise (ValueError "invalid literal for int()"), configured)
  | Some job_stale_lock_seconds =>
  match py_int (getenv env "PIPELINE_MAX_RETRIES" "3") with
  | None => (Raise (ValueError "invalid literal for int()"), configured)
  | Some max_retries =>
  match py_float (getenv env "PIPELINE_REQUEST_TIMEOUT" "10") with
  | None => (Raise (ValueError "could not convert string to float"), configured)
  | Some request_timeout =>
      let log_level := getenv env "LOG_LEVEL" "INFO" in
      match _configure_logging log_level configured with
      | (Raise e, configured) => (Raise e, configured)
      | (Ok _, configured) =>
          (Ok {| aws_region := aws_region; s3_bucket := s3_bucket;
                 runs_table := runs_table; tilejobs_table := tilejobs_table;
                 secrets_id := secrets_id;
                 job_stale_lock_seconds := job_stale_lock_seconds;
                 max_retries := max_retries; request_timeout := request_timeout;
                 log_level := log_level |}, configured)
      end
  end end end end end end end.

(** [WorkerConfig.from_env] *)
Definition WorkerConfig_from_env (env : Env) (configured : bool)
  : Result WorkerConfig * bool :=
  _base_kwargs env configured.

(** [IngestionConfig.from_env] *)
Definition IngestionConfig_from_env (env : Env) (configured : bool)
  : Result IngestionConfig * bool :=
  match _base_kwargs env configured with
  | (Raise e, configured) => (Raise e, configured)
  | (Ok kwargs, configured) =>
      match _require env "TILE_JOBS_QUEUE_URL" with
      | Raise e => (Raise e, configured)
      | Ok url => (Ok {| base := kwargs; tile_jobs_queue_url := url |}, configured)
      end
  end.

End Builtins.

(** The variables every configuration requires, in the order in which
    they are read. *)
Definition required : list string :=
  [ "S3_BUCKET"; "DDB_RUNS_TABLE"; "DDB_TILEJOBS_TABLE"; "PIPELINE_SECRETS_ID" ].

(** A variable that is set to a non-empty text. *)
Definition is_set (env : Env) (name : string) : bool := truthy (env !! name).

(** The first required variable that is unset or empty. *)
Definition first_missing (env : Env) : option string :=
  List.find (fun name => negb (is_set env name)) required.

(** An environment with the four required variables and nothing else,
    and decimal readers for the defaults. *)
Definition minimal_env : Env :=
  <[ "PIPELINE_SECRETS_ID" := "pipeline/secrets" ]>
  (<[ "DDB_TILEJOBS_TABLE" := "jobs" ]>
  (<[ "DDB_RUNS_TABLE" := "runs" ]>
  (<[ "S3_BUCKET" := "imagery" ]> ∅))).

Definition decimal_int (text : string) : option Z := Ddb.parse_int text.

Definition decimal_float (text : string) : option Q := option_map inject_Z (Ddb.parse_int text).

End Settings.

(** ** scripts/start_run.py: from the manifest to the queue

    The object store, the CSV reader, [int], [float], the normalisation
    of a header cell, the JSON encoder and the queue are oracles.  The
    rows of the manifest are what [csv.reader] yields from the stream;
    errors of the reader itself are outside the model. *)

Module Ingest.
Import Py Schema Core Ddb Runtime Config RunTable StartRun Settings.

(** An entry of [send_message_batch]. *)
Record Entry := { Id : string; MessageBody : string }.

(** The parsed command line. *)
Record Args := {
  bucket : string;
  key : string;
  run_id : option string;
  source : option ImagerySource;
  dry_run : bool
}.

(** The tables and the clock, and the batches sent to the queue, oldest
    first, each with the queue it went to. *)
Record Outbox := {
  world : World;
  sent : list (string * list Entry)
}.

Definition I (A : Type) : Type := Outbox -> Result A * Outbox.

Definition iret {A} (a : A) : I A := fun o => (Ok a, o).

Definition iraise {A} (e : Exn) : I A := fun o => (Raise e, o).

Definition ibind {A B} (c : I A) (k : A -> I B) : I B :=
  fun o =>
    match c o with
    | (Ok a, o') => k a o'
    | (Raise e, o') => (Raise e, o')
    end.

(** A computation on the tables and the clock. *)
Definition in_world {A} (c : M A) : I A :=
  fun o => let '(r, w) := c (world o) in (r, {| world := w; sent := sent o |}).

Definition ilift {A} (r : Result A) : I A := fun o => (r, o).

Notation "x <~ c ;; k" := (ibind c (fun x => k))
  (at level 100, c at next level, right associativity).
Notation "c ;;~ k" := (ibind c (fun _ => k))
  (at level 100, right associativity).

(** A row as the loop over the manifest sees it: a dict of a
    [csv.DictReader] (the cells by field name, [None] for a cell the row
    lacks, and the cells beyond the field names under the key [None]), or
    a list of a [csv.reader]. *)
Inductive Row :=
| DictRow (cells : gmap string (option string)) (beyond : option (list string))
| ListRow (cells : list string).

(** [dict(zip(fieldnames, row))], then [None] for the names left. *)
Fixpoint dict_cells (fieldnames row : list string) (d : gmap string (option string))
  : gmap string (option string) :=
  match fieldnames, row with
  | name :: names, v :: vs => dict_cells names vs (<[ name := Some v ]> d)
  | name :: names, [] => dict_cells names [] (<[ name := None ]> d)
  | [], _ => d
  end.

Definition dict_row (fieldnames row : list string) : Row :=
  DictRow (dict_cells fieldnames row ∅)
          (if (length fieldnames <? length row)%nat
           then Some (drop (length fieldnames) row) else None).

Definition is_nil {A} (l : list A) : bool :=
  match l with
  | [] => true
  | _ => false
  end.

(** The rows a [csv.DictReader] with the given field names makes of the
    rows of its reader: empty rows are passed over. *)
Definition DictReader (fieldnames : list string) (rows : list (list string)) : list Row :=
  map (dict_row fieldnames) (List.filter (fun row => negb (is_nil row)) rows).

Definition str_nat (n : nat) : string := str_int (Z.of_nat n).

Section Libraries.
Variable Stream : Type.
(** [csv.reader(body)], all its rows. *)
Variable csv_reader : Stream -> list (list string).
(** [value.strip().lower()] *)
Variable norm : string -> string.
Variable py_int : string -> option Z.
Variable py_float : string -> option float.
(** [json.dumps(message.model_dump(exclude_none=True))] *)
Variable dumps : TileJobMessage -> string.
(** [s3.head_object(...).get("ETag")] and [s3.get_object(...)["Body"]],
    wrapped as text. *)
Variable head_object : string -> string -> Result (option string).
Variable get_object : string -> string -> Result Stream.
(** [sqs.send_message_batch(...).get("Failed", [])] on the call after
    [n] earlier ones, and the text Python prints for such a list. *)
Variable send_message_batch : string -> list Entry -> nat -> Result (list string).
Variable repr : list string -> string.

Definition _detect_source_from_header (header : list string) : option ImagerySource :=
  let lowered := map norm header in
  if bool_decide ("lat" ∈ lowered) && bool_decide ("lon" ∈ lowered) then Some Google
  else if bool_decide ("z" ∈ lowered) && bool_decide ("x" ∈ lowered) &&
          bool_decide ("y" ∈ lowered) then Some Mapbox
  else None.

Definition _iter_csv_rows (body : Stream) (source_hint : option ImagerySource)
  : Result (ImagerySource * list Row) :=
  match csv_reader body with
  | [] => Raise (ValueError "CSV is empty")
  | first_row :: rest =>
      match _detect_source_from_header first_row with
      | Some detected =>
          let fieldnames := map norm first_row in
          Ok (detected, DictReader fieldnames rest)
      | None =>
          match source_hint with
          | None =>
              Raise (ValueError
                       "Unable to detect imagery source from header. Provide --source mapbox|google.")
          | Some hint => Ok (hint, map ListRow (first_row :: rest))
          end
      end
  end.

(** [int(v)] for a cell of a dict: a missing key, [None] and a text that
    is no integer raise. *)
Definition int_cell (cells : gmap string (option string)) (name : string) : Result Z :=
  match cells !! name with
  | None => Raise (OtherError "KeyError" name)
  | Some None => Raise (TypeError "int() argument must be a string or a real number")
  | Some (Some text) =>
      match py_int text with
      | Some n => Ok n
      | None => Raise (ValueError "invalid literal for int()")
      end
  end.

Definition float_cell (cells : gmap string (option string)) (name : string) : Result float :=
  match cells !! name with
  | None => Raise (OtherError "KeyError" name)
  | Some None => Raise (TypeError "float() argument must be a string or a real number")
  | Some (Some text) =>
      match py_float text with
      | Some f => Ok f
      | None => Raise (ValueError "could not convert string to float")
      end
  end.

Definition int_text (text : string) : Result Z :=
  match py_int text with
  | Some n => Ok n
  | None => Raise (ValueError "invalid literal for int()")
  end.

Definition float_text (text : string) : Result float :=
  match py_float text with
  | Some f => Ok f
  | None => Raise (ValueError "could not convert string to float")
  end.

(** [row.get(name) or None] *)
Definition cell_or_none (cells : gmap string (option string)) (name : string)
  : option string :=
  match cells !! name with
  | Some (Some (String c r)) => Some (String c r)
  | _ => None
  end.

Definition _parse_mapbox_row (row : Row) : Result (Z * Z * Z * option string) :=
  match row with
  | DictRow cells _ =>
      match int_cell cells "z" with
      | Raise e => Raise e
      | Ok z =>
      match int_cell cells "x" with
      | Raise e => Raise e
      | Ok x =>
      match int_cell cells "y" with
      | Raise e => Raise e
      | Ok y => Ok (z, x, y, cell_or_none cells "region")
      end end end
  | ListRow cells =>
      match cells with
      | c0 :: c1 :: c2 :: more =>
          match int_text c0 with
          | Raise e => Raise e
          | Ok z =>
          match int_text c1 with
          | Raise e => Raise e
          | Ok x =>
          match int_text c2 with
          | Raise e => Raise e
          | Ok y =>
              Ok (z, x, y, match more with
                           | String c r :: _ => Some (String c r)
                           | _ => None
                           end)
          end end end
      | _ => Raise (ValueError "Mapbox CSV rows must have z,x,y (and optional region)")
      end
  end.

Definition _parse_google_row (row : Row) : Result (float * float * option Z) :=
  match row with
  | DictRow cells _ =>
      match float_cell cells "lat" with
      | Raise e => Raise e
      | Ok lat =>
      match float_cell cells "lon" with
      | Raise e => Raise e
      | Ok lon =>
          match cell_or_none cells "zoom" with
          | None => Ok (lat, lon, None)
          | Some zoom_raw =>
              match int_text zoom_raw with
              | Raise e => Raise e
              | Ok zoom => Ok (lat, lon, Some zoom)
              end
          end
      end end
  | ListRow cells =>
      match cells with
      | c0 :: c1 :: more =>
          match float_text c0 with
          | Raise e => Raise e
          | Ok lat =>
          match float_text c1 with
          | Raise e => Raise e
          | Ok lon =>
              match more with
              | String c r :: _ =>
                  match int_text (String c r) with
                  | Raise e => Raise e
                  | Ok zoom => Ok (lat, lon, Some zoom)
                  end
              | _ => Ok (lat, lon, None)
              end
          end end
      | _ => Raise (ValueError "Google CSV rows must have lat,lon (and optional zoom)")
      end
  end.

(** [value in (None, "", " ")] *)
Definition blank_cell (v : option string) : bool :=
  match v with
  | None => true
  | Some text => String.eqb text "" || String.eqb text " "
  end.

Definition blank_row (row : Row) : bool :=
  match row with
  | DictRow cells beyond =>
      forallb blank_cell (map snd (map_to_list cells)) &&
      match beyond with None => true | Some _ => false end
  | ListRow cells => forallb (fun text => blank_cell (Some text)) cells
  end.

(** [TileJobMessage.model_validate] on a payload of the right types. *)
Definition model_validate (m : TileJobMessage) : Result TileJobMessage :=
  if valid_message m then Ok m
  else Raise (ValidationError "validation error for TileJobMessage").

(** What the generator [_iter_messages] yields for one row that is not
    blank: a message, or the exception that ends the generator. *)
Definition message_of_row (row : Row) (run_id : string) (source : ImagerySource)
    (source_bucket source_key : string) : Result TileJobMessage :=
  match source with
  | Mapbox =>
      match _parse_mapbox_row row with
      | Raise e => Raise e
      | Ok (z, x, y, region) =>
          model_validate
            {| Schema.run_id := run_id; imagery_source := Mapbox;
               Schema.source := {| Schema.bucket := source_bucket; Schema.key := source_key |};
               z := Some z; x := Some x; y := Some y; region := region;
               lat := None; lon := None; zoom := None |}
      end
  | Google =>
      match _parse_google_row row with
      | Raise e => Raise e
      | Ok (lat, lon, zoom) =>
          model_validate
            {| Schema.run_id := run_id; imagery_source := Google;
               Schema.source := {| Schema.bucket := source_bucket; Schema.key := source_key |};
               z := None; x := None; y := None; region := None;
               lat := Some lat; lon := Some lon; zoom := zoom |}
      end
  end.

(** The yields of [_iter_messages], in order; the consumer stops at the
    first that raises. *)
Definition _iter_messages (rows : list Row) (run_id : string) (source : ImagerySource)
    (source_bucket source_key : string) : list (Result TileJobMessage) :=
  map (fun row => message_of_row row run_id source source_bucket source_key)
      (List.filter (fun row => negb (blank_row row)) rows).

Definition _send_batch (queue_url : string) (entries : list Entry) : I unit :=
  match entries with
  | [] => iret tt
  | _ =>
      fun o =>
        let o' := {| world := world o; sent := (sent o ++ [(queue_url, entries)])%list |} in
        match send_message_batch queue_url entries (length (sent o)) with
        | Raise e => (Raise e, o')
        | Ok [] => (Ok tt, o')
        | Ok (f :: fs) =>
            (Raise (RuntimeError ("SQS batch send failed: " +:+ repr (f :: fs))), o')
        end
  end.

(** [s.lstrip('"')] and [s.strip('"')] *)
Fixpoint lstrip_quotes (s : string) : string :=
  match s with
  | String c r => if Ascii.eqb c "034"%char then lstrip_quotes r else s
  | EmptyString => EmptyString
  end.

Definition strip_quotes (s : string) : string :=
  let rev_s := string_of_list_ascii (rev (list_ascii_of_string (lstrip_quotes s))) in
  string_of_list_ascii (rev (list_ascii_of_string (lstrip_quotes rev_s))).

Definition _get_s3_body (bucket key : string) : Result (Stream * string) :=
  match head_object bucket key with
  | Raise e => Raise e
  | Ok etag_header =>
      let etag := strip_quotes (default "" etag_header) in
      match get_object bucket key with
      | Raise e => Raise e
      | Ok body => Ok (body, etag)
      end
  end.

(** The [for message in _iter_messages(...)] loop of [main], on the
    yields still to come, with the count and the batch so far. *)
Fixpoint enqueue (queue_url : string) (dry : bool) (messages : list (Result TileJobMessage))
    (total : nat) (batch : list Entry) : I (nat * list Entry) :=
  match messages with
  | [] => iret (total, batch)
  | Raise e :: _ => iraise e
  | Ok message :: rest =>
      let total := S total in
      let body := dumps message in
      let batch := (batch ++ [{| Id := str_nat total; MessageBody := body |}])%list in
      if (length batch =? 10)%nat then
        (if negb dry then _send_batch queue_url batch else iret tt) ;;~
        enqueue queue_url dry rest total []
      else enqueue queue_url dry rest total batch
  end.

Definition main (args : Args) (from_env : Result IngestionConfig) : I Z :=
  config <~ ilift from_env ;;
  got <~ ilift (_get_s3_body (bucket args) (key args)) ;;
  let '(text_stream, etag) := got in
  let run_id := main_run_id (run_id args) (bucket args) (key args) etag in
  in_world (create_run (runs_table (base config)) run_id (bucket args) (key args) 0
                       RUN_RUNNING None) ;;~
  detected <~ ilift (_iter_csv_rows text_stream (source args)) ;;
  let '(source, rows) := detected in
  counted <~ enqueue (tile_jobs_queue_url config) (dry_run args)
                     (_iter_messages rows run_id source (bucket args) (key args)) 0 [] ;;
  let '(total, batch) := counted in
  (if negb (is_nil batch) && negb (dry_run args)
   then _send_batch (tile_jobs_queue_url config) batch else iret tt) ;;~
  in_world (set_total_tiles (runs_table (base config)) run_id (Z.of_nat total)) ;;~
  iret 0.

End Libraries.

End Ingest.

(** ** The ingestion, described *)

Module IngestFacts.
Import Py Schema Core Ingest.

(** The messages yielded before the first exception. *)
Fixpoint yielded (messages : list (Result TileJobMessage)) : list TileJobMessage :=
  match messages with
  | Ok m :: rest => m :: yielded rest
  | _ => []
  end.

(** The exception that ends the generator, if any. *)
Fixpoint broken (messages : list (Result TileJobMessage)) : option Exn :=
  match messages with
  | [] => None
  | Ok _ :: rest => broken rest
  | Raise e :: _ => Some e
  end.

(** The entries of the messages numbered from [first + 1]. *)
Fixpoint entries (dumps : TileJobMessage -> string) (first : nat) (ms : list TileJobMessage)
  : list Entry :=
  match ms with
  | [] => []
  | m :: rest => {| Id := str_nat (S first); MessageBody := dumps m |}
                 :: entries dumps (S first) rest
  end.

(** Batches as the queue takes them: none empty, none above ten
    entries, and only the last below ten. *)
Fixpoint batched (batches : list (list Entry)) : Prop :=
  match batches with
  | [] => True
  | [b] => (0 < length b <= 10)%nat
  | b :: rest => length b = 10%nat /\ batched rest
  end.

(** A queue that takes every batch. *)
Definition accepting (queue_url : string) (es : list Entry) (n : nat)
  : Result (list string) := Ok [].

End IngestFacts.

(** ** The ingestion, its runs *)

Module IngestRuns.
Import Py Schema Core Runtime Ingest IngestFacts.

(** The batches handed to the queue [queue_url] between two states. *)
Definition handed (queue_url : string) (o o' : Outbox) (batches : list (list Entry)) : Prop :=
  sent o' = (sent o ++ map (fun b => (queue_url, b)) batches)%list.

(** The queue answers a batch it is handed with something else than an
    empty list of failures. *)
Definition refused (send_message_batch : string -> list Entry -> nat -> Result (list string))
    (queue_url : string) : Prop :=
  exists b n, send_message_batch queue_url b n <> Ok [].

Definition full (b : list Entry) : Prop := length b = 10%nat.

Definition sends_nothing {A} (c : I A) : Prop :=
  forall o, sent (snd (c o)) = sent o.

(** The exception of a second [put_item] under the condition of
    [create_run]. *)
Definition run_exists : Exn :=
  ClientError "ConditionalCheckFailedException" "The conditional request failed".

End IngestRuns.

(** ** Further literal scenarios *)

Module Cases.
Import Py Schema Core Ddb Runtime Config S3 Scenario.

(** [fresh_tile] under another region label. *)
Definition relabelled : TileJobMessage :=
  {| run_id := "run_x"; imagery_source := Mapbox;
     source := {| bucket := "manifests"; key := "tiles.csv" |};
     z := Some 14; x := Some 8716; y := Some 5378; region := Some "north";
     lat := None; lon := None; zoom := None |}.

(** Collaborators whose imagery provider gives up. *)
Definition out_of_imagery : Services :=
  {| provider_fetch := fun _ _ _ => (Raise (ImageryFetchError Mapbox (Some 503) "unavailable" 3), 1);
     put_object := fun _ _ _ _ => (Ok tt, 1);
     get_object := fun _ _ _ => (Ok "image", 1);
     vision_model := fun _ _ => (Ok ("burned", "charred canopy", []), 1) |}.

(** A secrets service that answers every call with the same text, one
    that always fails, and an empty cache. *)
Definition answering (secret_id : string) (n : nat) : Result Secrets.SecretResponse :=
  Ok {| Secrets.SecretString := Some "{}"; Secrets.SecretBinary := None |}.

Definition unavailable (secret_id : string) (n : nat) : Result Secrets.SecretResponse :=
  Raise (ClientError "ResourceNotFoundException" "no such secret").

Definition no_secrets : Secrets.Vault string :=
  {| Secrets._cache := ∅; Secrets.calls := 0 |}.

Definition read_secret (service : string -> nat -> Result Secrets.SecretResponse) :=
  Secrets.get_secret_json string (fun text => Ok text) (fun text => Ok text) service.

(** A manifest of two tiles with its header, and one whose second row
    has a letter for x. *)
Definition manifest : list (list string) :=
  [ ["z"; "x"; "y"]; ["14"; "8716"; "5378"]; ["14"; "8717"; "5378"] ].

Definition bad_manifest : list (list string) :=
  [ ["z"; "x"; "y"]; ["14"; "8716"; "5378"]; ["14"; "east"; "5378"] ].

Definition arguments (dry : bool) : Ingest.Args :=
  {| Ingest.bucket := "manifests"; Ingest.key := "tiles.csv"; Ingest.run_id := None;
     Ingest.source := None; Ingest.dry_run := dry |}.

Definition ingestion_config : Settings.IngestionConfig :=
  {| Settings.base := config; Settings.tile_jobs_queue_url := "queue" |}.

Definition tile_text (m : TileJobMessage) : string := default "" (get_tile_id m).

(** [main] on a manifest whose header cells are already stripped and in
    lower case, with decimal integers, an object store that has the
    manifest, and a queue that takes every batch. *)
Definition launch (rows : list (list string)) (dry : bool) : Ingest.I Z :=
  Ingest.main unit (fun _ => rows) (fun cell => cell) Settings.decimal_int (fun _ => None)
              tile_text (fun _ _ => Ok (Some "5d41402abc4b2a76")) (fun _ _ => Ok tt)
              IngestFacts.accepting (fun _ => "[]") (arguments dry) (Ok ingestion_config).

Definition start : Ingest.Outbox :=
  {| Ingest.world := empty_world 1000; Ingest.sent := [] |}.

End Cases.

(** * Properties *)

(** ** Evaluation on literal inputs *)

Example sha1_abc : Sha1.hexdigest "abc" = "a9993e364706816aba3e25717850c26c9cd0d89d".
Proof. vm_compute. reflexivity. Qed.

Example sha1_empty : Sha1.hexdigest "" = "da39a3ee5e6b4b0d3255bfef95601890afd80709".
Proof. vm_compute. reflexivity. Qed.

Example sha1_two_blocks :
  Sha1.hexdigest "abcdbcdecdefdefgefghfghighijhijkijkljklmklmnlmnomnopnopq"
  = "84983e441c3bd26ebaae4aa1f95129e5e54670f1".
Proof. vm_compute. reflexivity. Qed.

Example sha1_manifest :
  Sha1.hexdigest "my-bucket:manifests/tiles.csv:d41d8cd98f00b204e9800998ecf8427e"
  = "8fb8a480e73caf5c5da6973945fe5414d7f2eea2".
Proof. vm_compute. reflexivity. Qed.

Example format_fixed_lat : Py.format_fixed 6 (S754_finite false 1737499713763629 (-47)) = "12.345678".
Proof. vm_compute. reflexivity. Qed.

Example format_fixed_tie_even : Py.format_fixed 6 (S754_finite false 1 (-7)) = "0.007812".
Proof. vm_compute. reflexivity. Qed.

Example format_fixed_tie_odd : Py.format_fixed 6 (S754_finite false 3 (-7)) = "0.023438".
Proof. vm_compute. reflexivity. Qed.

Example format_fixed_negative_tiny : Py.format_fixed 6 (S754_finite true 1 (-40)) = "-0.000000".
Proof. vm_compute. reflexivity. Qed.

(** ** The run identifier of the ingest script *)

Section RunId.
Import Py Sha1 StartRun Spec.

Lemma hex_chars_lower_hex :
  forallb (fun n => is_lower_hex (hex_char n)) (seqZ 0 16) = true.
Proof. vm_compute. reflexivity. Qed.

Lemma hex_char_lower_hex n : 0 <= n < 16 -> is_lower_hex (hex_char n) = true.
Proof.
  intros Hn. pose proof hex_chars_lower_hex as Hall.
  rewrite forallb_forall in Hall. apply Hall.
  apply list_elem_of_In, elem_of_seqZ. lia.
Qed.

Lemma nibble_lower_hex w i : is_lower_hex (nibble w i) = true.
Proof. apply hex_char_lower_hex, Z.mod_pos_bound. lia. Qed.

Lemma take12_hexdigest data :
  exists h0 h1 : Z,
    take 12 (hexdigest data) =
    string_of_list_ascii (map (nibble h0) [7; 6; 5; 4; 3; 2; 1; 0] ++ map (nibble h1) [7; 6; 5; 4]).
Proof.
  unfold hexdigest. destruct (sha1 (bytes_of_string data)) as [[[[h0 h1] h2] h3] h4].
  exists h0, h1. reflexivity.
Qed.

End RunId.

(** C9, as the code has it: the run identifier is the text [run_]
    followed by the first 12 hexadecimal digits of the SHA-1 of
    [bucket:key:etag]; it is 16 characters long and hence never the bare
    12-digit prefix. *)
Theorem compute_run_id_prefixed (bucket key etag : string) :
  let digest := Py.take 12 (Sha1.hexdigest (bucket +:+ ":" +:+ key +:+ ":" +:+ etag)) in
  StartRun._compute_run_id bucket key etag = "run_" +:+ digest /\
  String.length digest = 12%nat /\
  forallb Spec.is_lower_hex (list_ascii_of_string digest) = true /\
  StartRun._compute_run_id bucket key etag <> digest.
Proof.
  intros digest. subst digest.
  destruct (take12_hexdigest (bucket +:+ ":" +:+ key +:+ ":" +:+ etag)) as (h0 & h1 & Hd).
  unfold StartRun._compute_run_id. rewrite Hd.
  split; [reflexivity |]. split; [reflexivity |]. split.
  - cbn [map app string_of_list_ascii list_ascii_of_string forallb].
    rewrite !nibble_lower_hex. reflexivity.
  - intros Heq. apply (f_equal String.length) in Heq. cbn in Heq. discriminate.
Qed.

(** C9, as stated, fails on a manifest: the identifier is not the bare
    digest prefix. *)
Lemma compute_run_id_is_not_bare_digest :
  StartRun._compute_run_id "my-bucket" "manifests/tiles.csv" "d41d8cd98f00b204e9800998ecf8427e"
    = "run_8fb8a480e73c" /\
  Py.take 12 (Sha1.hexdigest "my-bucket:manifests/tiles.csv:d41d8cd98f00b204e9800998ecf8427e")
    = "8fb8a480e73c" /\
  StartRun._compute_run_id "my-bucket" "manifests/tiles.csv" "d41d8cd98f00b204e9800998ecf8427e"
    <> Py.take 12 (Sha1.hexdigest "my-bucket:manifests/tiles.csv:d41d8cd98f00b204e9800998ecf8427e").
Proof. vm_compute. repeat split; discriminate. Qed.

(** ** Canonical tile identity *)

Section FixedNotation.
Import Py Spec.

Lemma round_half_even_nearest num den :
  0 <= num -> 0 < den -> nearest_ties_even num den (round_half_even num den).
Proof.
  intros Hnum Hden. unfold nearest_ties_even, round_half_even.
  pose proof (Z.div_mod num den ltac:(lia)) as Hdm.
  pose proof (Z.mod_pos_bound num den Hden) as Hr.
  set (q := num / den) in *. set (r := num mod den) in *.
  destruct (Z.compare_spec (2 * r) den) as [Heq | Hlt | Hgt].
  - destruct (Z.even q) eqn:Hev.
    + replace (q * den - num) with (- r) by lia.
      rewrite Z.abs_opp, Z.abs_eq by lia. split; [lia | auto].
    + replace ((q + 1) * den - num) with (den - r) by lia.
      rewrite Z.abs_eq by lia. split; [lia |].
      intros _. rewrite Z.even_add, Hev. reflexivity.
  - replace (q * den - num) with (- r) by lia.
    rewrite Z.abs_opp, Z.abs_eq by lia. split; lia.
  - replace ((q + 1) * den - num) with (den - r) by lia.
    rewrite Z.abs_eq by lia. split; lia.
Qed.

Lemma zero_pad_length width n : String.length (zero_pad width n) = width.
Proof. induction width as [| w IH]; simpl; [reflexivity | now rewrite IH]. Qed.

Lemma digit_char_code d : 0 <= d < 10 -> nat_of_ascii (digit_char d) = (48 + Z.to_nat d)%nat.
Proof. intros Hd. unfold digit_char. apply nat_ascii_embedding. lia. Qed.

Lemma zero_pad_digits width n : all_digits (zero_pad width n) = true.
Proof.
  unfold all_digits. induction width as [| w IH]; [reflexivity |].
  cbn [zero_pad list_ascii_of_string forallb]. rewrite IH, andb_true_r.
  unfold is_digit. rewrite digit_char_code by (apply Z.mod_pos_bound; lia).
  pose proof (Z.mod_pos_bound (n / 10 ^ Z.of_nat w) 10 ltac:(lia)).
  apply andb_true_intro. split; apply Nat.leb_le; lia.
Qed.

Lemma zero_pad_value width n acc :
  digits_value acc (zero_pad width n) = acc * 10 ^ Z.of_nat width + n mod 10 ^ Z.of_nat width.
Proof.
  revert acc. induction width as [| w IH]; intros acc.
  - cbn. rewrite Z.mod_1_r. lia.
  - cbn [zero_pad digits_value]. rewrite IH.
    rewrite digit_char_code by (apply Z.mod_pos_bound; lia).
    pose proof (Z.mod_pos_bound (n / 10 ^ Z.of_nat w) 10 ltac:(lia)) as Hd.
    replace (Z.of_nat (48 + Z.to_nat ((n / 10 ^ Z.of_nat w) mod 10)) - 48)
      with ((n / 10 ^ Z.of_nat w) mod 10) by lia.
    replace (Z.of_nat (S w)) with (Z.of_nat w + 1) by lia.
    rewrite Z.pow_add_r, Z.pow_1_r by lia.
    assert (Hp : 0 < 10 ^ Z.of_nat w) by (apply Z.pow_pos_nonneg; lia).
    rewrite (Z.rem_mul_r n (10 ^ Z.of_nat w) 10) by lia.
    lia.
Qed.

Lemma fixed_six_decimals x :
  magnitude x <> None -> six_decimals_of x (format_fixed 6 x).
Proof.
  intros Hfin. unfold six_decimals_of.
  assert (Hshape : forall s n,
            fixed_of_magnitude 6 s n =
            sign_str s +:+ str_int (n / 10 ^ 6) +:+ "." +:+ zero_pad 6 (n mod 10 ^ 6))
    by reflexivity.
  assert (Hfrac : forall n,
            String.length (zero_pad 6 (n mod 10 ^ 6)) = 6%nat /\
            all_digits (zero_pad 6 (n mod 10 ^ 6)) = true /\
            digits_value 0 (zero_pad 6 (n mod 10 ^ 6)) = n mod 10 ^ 6).
  { intros n. split; [apply zero_pad_length |]. split; [apply zero_pad_digits |].
    rewrite zero_pad_value. change (Z.of_nat 6) with 6.
    rewrite Z.mod_mod by lia. lia. }
  destruct x as [s | s | | s m e]; try (exfalso; apply Hfin; reflexivity).
  - exists 0, 1, 0, (zero_pad 6 (0 mod 10 ^ 6)).
    split; [reflexivity |]. split; [split; cbn; [lia | reflexivity] |].
    split; [apply Hshape | apply Hfrac].
  - cbn [format_fixed magnitude sign_of]. unfold scaled_magnitude.
    change (Z.of_nat 6) with 6. destruct (0 <=? e) eqn:He.
    + exists (Z.pos m * 2 ^ e), 1, (Z.pos m * 2 ^ e * 10 ^ 6),
             (zero_pad 6 ((Z.pos m * 2 ^ e * 10 ^ 6) mod 10 ^ 6)).
      split; [reflexivity |]. split.
      { unfold nearest_ties_even.
        replace (Z.pos m * 2 ^ e * 10 ^ 6 * 1 - Z.pos m * 2 ^ e * 10 ^ 6) with 0 by lia.
        cbn. split; [lia | discriminate]. }
      split; [apply Hshape | apply Hfrac].
    + exists (Z.pos m), (2 ^ (- e)),
             (round_half_even (Z.pos m * 10 ^ 6) (2 ^ (- e))),
             (zero_pad 6 (round_half_even (Z.pos m * 10 ^ 6) (2 ^ (- e)) mod 10 ^ 6)).
      split; [reflexivity |]. split.
      { apply round_half_even_nearest; [lia |]. apply Z.pow_pos_nonneg; lia. }
      split; [apply Hshape | apply Hfrac].
Qed.

End FixedNotation.

Section TileId.
Import Py Schema Spec.

Lemma float_in_range_finite lo hi v :
  in_float_range lo hi (Some v) = true -> magnitude v <> None.
Proof.
  unfold in_float_range, float_ge_int, float_le_int.
  destruct v as [s | s | | s m e]; cbn; try discriminate; try (destruct s; discriminate).
Qed.

Lemma valid_message_fields m :
  valid_message m = true ->
  field_constraints m = true /\ _validate_source_specific_fields m = true.
Proof. unfold valid_message. intros H. apply andb_prop in H. exact H. Qed.

Lemma valid_mapbox_fields m :
  valid_message m = true -> imagery_source m = Mapbox ->
  exists zz xx yy, z m = Some zz /\ x m = Some xx /\ y m = Some yy.
Proof.
  intros Hv Hs. apply valid_message_fields in Hv as [_ Hv].
  unfold _validate_source_specific_fields in Hv. rewrite Hs in Hv.
  destruct (z m) as [zz |], (x m) as [xx |], (y m) as [yy |]; vm_compute in Hv;
    try discriminate Hv.
  exists zz, xx, yy. auto.
Qed.

Lemma valid_google_fields m :
  valid_message m = true -> imagery_source m = Google ->
  exists la lo, lat m = Some la /\ lon m = Some lo /\
                magnitude la <> None /\ magnitude lo <> None.
Proof.
  intros Hv Hs. apply valid_message_fields in Hv as [Hc Hv].
  unfold _validate_source_specific_fields in Hv. rewrite Hs in Hv.
  unfold field_constraints in Hc.
  destruct (lat m) as [la |] eqn:Hla, (lon m) as [lo |] eqn:Hlo; vm_compute in Hv;
    try discriminate Hv.
  exists la, lo. repeat split.
  - apply (float_in_range_finite (-90) 90).
    repeat (apply andb_prop in Hc as [Hc ?]); assumption.
  - apply (float_in_range_finite (-180) 180).
    repeat (apply andb_prop in Hc as [Hc ?]); assumption.
Qed.

End TileId.

(** C7: a tile-provider message has the identity [z/x/y]; a
    coord-provider message has the identity [coord:lat,lon,zoom] with
    latitude and longitude in fixed notation on exactly six fractional
    digits rounded half to even, and the effective zoom (18 when omitted);
    two coord-provider messages whose coordinates format to the same texts
    and whose effective zooms agree have the same identity. *)
Theorem get_tile_id_canonical :
  (forall m, Schema.valid_message m = true -> Schema.imagery_source m = Schema.Mapbox ->
     exists zz xx yy,
       Schema.z m = Some zz /\ Schema.x m = Some xx /\ Schema.y m = Some yy /\
       Schema.get_tile_id m =
       Some (Py.str_int zz +:+ "/" +:+ Py.str_int xx +:+ "/" +:+ Py.str_int yy)) /\
  (forall m, Schema.valid_message m = true -> Schema.imagery_source m = Schema.Google ->
     exists la lo,
       Schema.lat m = Some la /\ Schema.lon m = Some lo /\
       Schema.get_tile_id m =
       Some ("coord:" +:+ Py.format_fixed 6 la +:+ "," +:+ Py.format_fixed 6 lo +:+ "," +:+
             Py.str_int (Schema.get_zoom m)) /\
       Spec.six_decimals_of la (Py.format_fixed 6 la) /\
       Spec.six_decimals_of lo (Py.format_fixed 6 lo) /\
       (Schema.zoom m = None -> Schema.get_zoom m = 18) /\
       (forall zm, Schema.zoom m = Some zm -> Schema.get_zoom m = zm)) /\
  (forall m1 m2 la1 lo1 la2 lo2,
     Schema.imagery_source m1 = Schema.Google -> Schema.imagery_source m2 = Schema.Google ->
     Schema.lat m1 = Some la1 -> Schema.lon m1 = Some lo1 ->
     Schema.lat m2 = Some la2 -> Schema.lon m2 = Some lo2 ->
     Py.format_fixed 6 la1 = Py.format_fixed 6 la2 ->
     Py.format_fixed 6 lo1 = Py.format_fixed 6 lo2 ->
     Schema.get_zoom m1 = Schema.get_zoom m2 ->
     Schema.get_tile_id m1 = Schema.get_tile_id m2).
Proof.
  split; [| split].
  - intros m Hv Hs. destruct (valid_mapbox_fields m Hv Hs) as (zz & xx & yy & Hz & Hx & Hy).
    exists zz, xx, yy. repeat split; try assumption.
    unfold Schema.get_tile_id. rewrite Hs, Hz, Hx, Hy. reflexivity.
  - intros m Hv Hs.
    destruct (valid_google_fields m Hv Hs) as (la & lo & Hla & Hlo & Hfa & Hfo).
    exists la, lo. split; [assumption |]. split; [assumption |]. split.
    { unfold Schema.get_tile_id, Schema.get_zoom, Schema.tile_id_for_coords.
      rewrite Hs, Hla, Hlo. reflexivity. }
    split; [apply fixed_six_decimals; assumption |].
    split; [apply fixed_six_decimals; assumption |].
    unfold Schema.get_zoom. split.
    + intros ->. reflexivity.
    + intros zm ->. reflexivity.
  - intros m1 m2 la1 lo1 la2 lo2 Hs1 Hs2 Hla1 Hlo1 Hla2 Hlo2 Hfa Hfo Hz.
    unfold Schema.get_tile_id, Schema.tile_id_for_coords.
    rewrite Hs1, Hs2, Hla1, Hlo1, Hla2, Hlo2.
    fold (Schema.get_zoom m1). fold (Schema.get_zoom m2).
    unfold Schema.COORD_TILE_ID_PRECISION. rewrite Hfa, Hfo, Hz. reflexivity.
Qed.

(** ** The key-value store *)

Section Store.
Import Py Schema Core Ddb.

Lemma to_int_not_nil n :
  Z.to_int n <> Decimal.Pos Decimal.Nil /\ Z.to_int n <> Decimal.Neg Decimal.Nil.
Proof.
  destruct n as [| p | p]; cbn; split; try discriminate.
  all: intros H; injection H as H; revert H; apply DecimalPos.Unsigned.to_uint_nonnil.
Qed.

Lemma parse_int_str_int n : parse_int (str_int n) = Some n.
Proof.
  unfold parse_int, str_int. destruct (to_int_not_nil n) as [H1 H2].
  rewrite NilZero.isi by assumption. cbn. now rewrite DecimalZ.of_to.
Qed.

Lemma validate_RN_str_int n : validate (RN (str_int n)) = Some (AN (num_of_int n)).
Proof. unfold validate. now rewrite parse_int_str_int. Qed.

Lemma validate_RN_None : validate (RN "None") = None.
Proof. reflexivity. Qed.

Lemma validate_values_Some (vals : gmap string ReqVal) :
  map_Forall (fun _ v => is_Some (validate v)) vals ->
  validate_values vals = Some (omap validate vals).
Proof. intros H. unfold validate_values. destruct (decide _); [reflexivity | contradiction]. Qed.

Lemma validate_values_None (vals : gmap string ReqVal) ph v :
  vals !! ph = Some v -> validate v = None -> validate_values vals = None.
Proof.
  intros Hph Hv. unfold validate_values. destruct (decide _) as [Hall |]; [| reflexivity].
  specialize (Hall ph v Hph). cbn in Hall. rewrite Hv in Hall. destruct Hall; discriminate.
Qed.

Lemma update_item_raise_unchanged req d e d' :
  update_item req d = (Raise e, d') -> d' = d.
Proof.
  unfold update_item. intros H.
  destruct (d !! TableName req); [| congruence].
  destruct (validate_values _); [| congruence].
  destruct (match ConditionExpression req with Some _ => _ | None => _ end) as [[|] |];
    [| congruence | congruence].
  destruct (apply_actions _ _ _ _ _); congruence.
Qed.

Lemma update_item_invalid req d tbl ph v :
  d !! TableName req = Some tbl ->
  ExpressionAttributeValues req !! ph = Some v -> validate v = None ->
  update_item req d = (Raise (ClientError "ValidationException" "invalid attribute value"), d).
Proof.
  intros Ht Hph Hv. unfold update_item. rewrite Ht.
  now rewrite (validate_values_None _ ph v Hph Hv).
Qed.

Lemma apply_actions_untouched names vals old acts p :
  Forall (fun a => action_path names a <> Some p) acts ->
  forall acc new, apply_actions names vals old acts acc = Some new -> new !! p = acc !! p.
Proof.
  induction 1 as [| a acts Ha _ IH]; intros acc new Hrun.
  - cbn in Hrun. now injection Hrun as <-.
  - cbn in Hrun. destruct (apply_action names vals old acc a) as [acc' |] eqn:Hact;
      [| discriminate].
    cbn in Hrun. rewrite (IH _ _ Hrun).
    destruct a as [path rhs | path ph]; cbn in Hact, Ha.
    + destruct (resolve names path) as [q |]; [| discriminate]. cbn in Hact.
      destruct (eval_operand names vals old rhs); [| discriminate].
      injection Hact as <-. apply lookup_insert_ne. congruence.
    + destruct (resolve names path) as [q |]; [| discriminate]. cbn in Hact.
      destruct (vals !! ph) as [[| dn |] |]; try discriminate. cbn in Hact.
      destruct (old !! q) as [[| on |] |]; try discriminate;
        injection Hact as <-; apply lookup_insert_ne; congruence.
Qed.

Lemma num_add_int a b : num_add (num_of_int a) (num_of_int b) = num_of_int (a + b).
Proof.
  unfold num_add, num_align, num_of_int. cbn. rewrite Z.min_id.
  change (2 ^ (0 - 0)) with 1. f_equal. lia.
Qed.

Lemma num_ltb_int a b : num_ltb (num_of_int a) (num_of_int b) = (a <? b).
Proof.
  unfold num_ltb, num_align, num_of_int. cbn. rewrite Z.min_id.
  change (2 ^ (0 - 0)) with 1. now rewrite !Z.mul_1_r.
Qed.

Lemma num_trunc_int a : num_trunc (num_of_int a) = a.
Proof. unfold num_trunc, num_of_int. cbn. lia. Qed.

End Store.

(** ** The claim request *)

Section ClaimRequest.
Import Py Schema Core Ddb Runtime TileJobs Spec.

Lemma apply_set_val names vals old acc path p ph v rest :
  resolve names path = Some p -> vals !! ph = Some v ->
  apply_actions names vals old (ASet path (OVal ph) :: rest) acc =
  apply_actions names vals old rest (<[ p := v ]> acc).
Proof. intros Hp Hv. cbn. rewrite Hp. cbn. rewrite Hv. reflexivity. Qed.

Lemma apply_set_if_absent names vals old acc path p ph v rest :
  resolve names path = Some p -> vals !! ph = Some v ->
  apply_actions names vals old (ASet path (OIfNotExists path ph) :: rest) acc =
  apply_actions names vals old rest (set_if_absent p v old acc).
Proof.
  intros Hp Hv. cbn. rewrite Hp. cbn. unfold set_if_absent.
  destruct (old !! p); cbn; [reflexivity |]. rewrite Hv. reflexivity.
Qed.

Lemma apply_set_attempts names vals old acc rest :
  vals !! ":zero" = Some (AN (num_of_int 0)) -> vals !! ":one" = Some (AN (num_of_int 1)) ->
  (forall v, old !! "attempts" = Some v -> exists n, v = AN (num_of_int n)) ->
  apply_actions names vals old
    (ASet "attempts" (OPlus (OIfNotExists "attempts" ":zero") (OVal ":one")) :: rest) acc =
  apply_actions names vals old rest
    (<[ "attempts" := AN (num_of_int (attempts_or_zero old + 1)) ]> acc).
Proof.
  intros H0 H1 Hty. cbn -[num_add num_of_int num_trunc]. unfold attempts_or_zero.
  destruct (old !! "attempts") as [v |] eqn:Hold; cbn -[num_add num_of_int num_trunc].
  - destruct (Hty v eq_refl) as [n ->]. rewrite H1. cbn -[num_add num_of_int num_trunc].
    now rewrite num_add_int, num_trunc_int.
  - rewrite H0. cbn -[num_add num_of_int num_trunc]. rewrite H1.
    cbn -[num_add num_of_int num_trunc]. now rewrite num_add_int.
Qed.

Lemma claim_names_status m : claim_expr_names m !! "#status" = Some "status".
Proof.
  unfold claim_expr_names. destruct (imagery_source m), (truthy (region m)); reflexivity.
Qed.

Lemma claim_names_region m :
  imagery_source m = Mapbox -> truthy (region m) = true ->
  claim_expr_names m !! "#region" = Some "region".
Proof. intros Hs Hr. unfold claim_expr_names. rewrite Hs, Hr. reflexivity. Qed.

Lemma stored_common m now lk :
  let vals := stored_values m now lk in
  vals !! ":processing" = Some (AS "PROCESSING") /\
  vals !! ":pending" = Some (AS "PENDING") /\
  vals !! ":failed" = Some (AS "FAILED") /\
  vals !! ":now" = Some (AN (num_of_int now)) /\
  vals !! ":lock" = Some (AN (num_of_int lk)) /\
  vals !! ":one" = Some (AN (num_of_int 1)) /\
  vals !! ":zero" = Some (AN (num_of_int 0)) /\
  vals !! ":source" = Some (AS (source_value (imagery_source m))) /\
  vals !! ":last_claimed" = Some (AN (num_of_int now)).
Proof.
  cbn zeta. unfold stored_values. rewrite !lookup_omap. unfold claim_expr_values.
  destruct (imagery_source m), (region m) as [[| c r] |].
  all: repeat split;
    first [ reflexivity
          | (transitivity (validate (RN (str_int now)));
             [reflexivity | apply validate_RN_str_int])
          | (transitivity (validate (RN (str_int lk)));
             [reflexivity | apply validate_RN_str_int]) ].
Qed.

Lemma stored_mapbox m now lk zz xx yy :
  imagery_source m = Mapbox -> z m = Some zz -> x m = Some xx -> y m = Some yy ->
  let vals := stored_values m now lk in
  vals !! ":z" = Some (AN (num_of_int zz)) /\
  vals !! ":x" = Some (AN (num_of_int xx)) /\
  vals !! ":y" = Some (AN (num_of_int yy)) /\
  (forall c r, region m = Some (String c r) -> vals !! ":region" = Some (AS (String c r))).
Proof.
  intros Hs Hz Hx Hy. cbn zeta. unfold stored_values. rewrite !lookup_omap.
  unfold claim_expr_values. rewrite Hs, Hz, Hx, Hy.
  destruct (region m) as [[| c r] |].
  all: repeat split;
    first [ (transitivity (validate (RN (str_int zz)));
             [reflexivity | apply validate_RN_str_int])
          | (transitivity (validate (RN (str_int xx)));
             [reflexivity | apply validate_RN_str_int])
          | (transitivity (validate (RN (str_int yy)));
             [reflexivity | apply validate_RN_str_int])
          | idtac ].
  all: intros c' r' Hr; try discriminate Hr.
  injection Hr as <- <-. reflexivity.
Qed.

Lemma stored_google m now lk la lo zm na no :
  imagery_source m = Google -> lat m = Some la -> lon m = Some lo -> zoom m = Some zm ->
  num_of_float la = Some na -> num_of_float lo = Some no ->
  let vals := stored_values m now lk in
  vals !! ":lat" = Some (AN na) /\
  vals !! ":lon" = Some (AN no) /\
  vals !! ":zoom" = Some (AN (num_of_int zm)).
Proof.
  intros Hs Hla Hlo Hzm Hna Hno. cbn zeta. unfold stored_values. rewrite !lookup_omap.
  unfold claim_expr_values. rewrite Hs, Hla, Hlo, Hzm.
  repeat split.
  - transitivity (validate (RNf la)); [reflexivity |]. cbn. now rewrite Hna.
  - transitivity (validate (RNf lo)); [reflexivity |]. cbn. now rewrite Hno.
  - transitivity (validate (RN (str_int zm))); [reflexivity | apply validate_RN_str_int].
Qed.

Lemma magnitude_num_of_float v : magnitude v <> None -> is_Some (num_of_float v).
Proof.
  destruct v as [s | s | | s mm e]; cbn; intros H.
  - exists (num_of_int 0). reflexivity.
  - exfalso. now apply H.
  - exfalso. now apply H.
  - eexists. reflexivity.
Qed.

Lemma claim_values_valid m now lk :
  valid_message m = true -> numbers_accepted m = true ->
  validate_values (claim_expr_values m now lk) = Some (stored_values m now lk).
Proof.
  intros Hv Hn. apply validate_values_Some. unfold claim_expr_values, numbers_accepted in *.
  assert (Hint : forall n, is_Some (validate (N_of_int n))).
  { intros n. unfold N_of_int. rewrite validate_RN_str_int. (eexists; reflexivity). }
  destruct (imagery_source m) eqn:Hs.
  - destruct (valid_mapbox_fields m Hv Hs) as (zz & xx & yy & Hz & Hx & Hy).
    rewrite Hz, Hx, Hy. unfold N_of_opt_int, str_opt_int.
    fold (N_of_int zz) (N_of_int xx) (N_of_int yy).
    destruct (region m) as [[| c r] |].
    all: repeat (apply map_Forall_insert_2; [first [apply Hint | (eexists; reflexivity)] |]).
    all: apply map_Forall_empty.
  - destruct (valid_google_fields m Hv Hs) as (la & lo & Hla & Hlo & Hfa & Hfo).
    apply bool_decide_eq_true in Hn. destruct Hn as [zm Hzm].
    rewrite Hla, Hlo, Hzm. unfold N_of_opt_int, str_opt_int, N_of_opt_float.
    fold (N_of_int zm).
    apply map_Forall_insert_2; [apply Hint |].
    apply map_Forall_insert_2.
    { cbn. destruct (magnitude_num_of_float lo Hfo) as [n ->]. (eexists; reflexivity). }
    apply map_Forall_insert_2.
    { cbn. destruct (magnitude_num_of_float la Hfa) as [n ->]. (eexists; reflexivity). }
    repeat (apply map_Forall_insert_2; [first [apply Hint | (eexists; reflexivity)] |]).
    apply map_Forall_empty.
Qed.

Lemma claim_condition_eval names vals old now :
  names !! "#status" = Some "status" ->
  vals !! ":processing" = Some (AS "PROCESSING") ->
  vals !! ":pending" = Some (AS "PENDING") ->
  vals !! ":failed" = Some (AS "FAILED") ->
  vals !! ":now" = Some (AN (num_of_int now)) ->
  eval_cond names vals old claim_condition_expr = Some (claimable_b old now).
Proof.
  intros Hn Hproc Hpend Hfail Hnow. unfold claim_condition_expr, claimable_b.
  cbn [eval_cond]. change (resolve names "#status") with (names !! "#status").
  change (resolve names "lock_until_epoch") with (Some "lock_until_epoch").
  rewrite Hn. cbn. rewrite Hpend, Hfail, Hproc, Hnow. cbn.
  destruct (old !! "status") as [v |]; [| reflexivity].
  cbn. rewrite orb_false_r.
  destruct (old !! "lock_until_epoch") as [[| a |] |]; cbn;
    rewrite ?orb_false_r; reflexivity.
Qed.

Lemma claim_update_eval m now lock old base :
  valid_message m = true -> numbers_accepted m = true ->
  (forall v, old !! "attempts" = Some v -> exists n, v = AN (num_of_int n)) ->
  apply_actions (claim_expr_names m) (stored_values m now (now + lock)) old
                (claim_update_expr m) base =
  Some (claim_mutation m now lock old base).
Proof.
  intros Hv Hn Hty.
  destruct (stored_common m now (now + lock))
    as (Hproc & Hpend & Hfail & Hnow & Hlock & H1 & H0 & Hsrc & Hlast).
  pose proof (claim_names_status m) as Hns.
  unfold claim_update_expr, claim_mutation. cbn [app].
  assert (Hcommon : forall rest,
    apply_actions (claim_expr_names m) (stored_values m now (now + lock)) old
      (ASet "#status" (OVal ":processing")
       :: ASet "attempts" (OPlus (OIfNotExists "attempts" ":zero") (OVal ":one"))
       :: ASet "lock_until_epoch" (OVal ":lock")
       :: ASet "started_at_epoch" (OIfNotExists "started_at_epoch" ":now")
       :: ASet "last_claimed_at_epoch" (OVal ":last_claimed")
       :: ASet "imagery_source" (OIfNotExists "imagery_source" ":source") :: rest) base =
    apply_actions (claim_expr_names m) (stored_values m now (now + lock)) old rest
      (set_if_absent "imagery_source" (AS (source_value (imagery_source m))) old
      (<[ "last_claimed_at_epoch" := AN (num_of_int now) ]>
      (set_if_absent "started_at_epoch" (AN (num_of_int now)) old
      (<[ "lock_until_epoch" := AN (num_of_int (now + lock)) ]>
      (<[ "attempts" := AN (num_of_int (attempts_or_zero old + 1)) ]>
      (<[ "status" := AS "PROCESSING" ]> base))))))).
  { intros rest.
    rewrite (apply_set_val _ _ _ _ "#status" "status" _ _ _ Hns Hproc).
    rewrite (apply_set_attempts _ _ _ _ _ H0 H1 Hty).
    rewrite (apply_set_val _ _ _ _ "lock_until_epoch" "lock_until_epoch" _ _ _ eq_refl Hlock).
    rewrite (apply_set_if_absent _ _ _ _ "started_at_epoch" "started_at_epoch" _ _ _
               eq_refl Hnow).
    rewrite (apply_set_val _ _ _ _ "last_claimed_at_epoch" "last_claimed_at_epoch" _ _ _
               eq_refl Hlast).
    rewrite (apply_set_if_absent _ _ _ _ "imagery_source" "imagery_source" _ _ _
               eq_refl Hsrc).
    reflexivity. }
  destruct (imagery_source m) eqn:Hs.
  - destruct (valid_mapbox_fields m Hv Hs) as (zz & xx & yy & Hz & Hx & Hy).
    destruct (stored_mapbox m now (now + lock) zz xx yy Hs Hz Hx Hy)
      as (Hvz & Hvx & Hvy & Hvr).
    rewrite Hz, Hx, Hy. cbn [default].
    destruct (region m) as [[| c r] |] eqn:Hr; cbn [truthy app].
    all: rewrite Hcommon.
    all: rewrite (apply_set_if_absent _ _ _ _ "z" "z" _ _ _ eq_refl Hvz).
    all: rewrite (apply_set_if_absent _ _ _ _ "x" "x" _ _ _ eq_refl Hvx).
    all: rewrite (apply_set_if_absent _ _ _ _ "y" "y" _ _ _ eq_refl Hvy).
    all: try reflexivity.
    assert (Hnr : resolve (claim_expr_names m) "#region" = Some "region").
    { apply claim_names_region; [assumption |]. now rewrite Hr. }
    rewrite (apply_set_if_absent _ _ _ _ "#region" "region" _ _ _ Hnr (Hvr c r eq_refl)).
    reflexivity.
  - destruct (valid_google_fields m Hv Hs) as (la & lo & Hla & Hlo & Hfa & Hfo).
    unfold numbers_accepted in Hn. rewrite Hs in Hn.
    apply bool_decide_eq_true in Hn. destruct Hn as [zm Hzm].
    destruct (magnitude_num_of_float la Hfa) as [na Hna].
    destruct (magnitude_num_of_float lo Hfo) as [no Hno].
    destruct (stored_google m now (now + lock) la lo zm na no Hs Hla Hlo Hzm Hna Hno)
      as (Hvla & Hvlo & Hvzm).
    rewrite Hla, Hlo, Hzm. cbn [default mbind option_bind]. rewrite Hna, Hno. cbn [default].
    rewrite Hcommon.
    rewrite (apply_set_if_absent _ _ _ _ "lat" "lat" _ _ _ eq_refl Hvla).
    rewrite (apply_set_if_absent _ _ _ _ "lon" "lon" _ _ _ eq_refl Hvlo).
    rewrite (apply_set_if_absent _ _ _ _ "zoom" "zoom" _ _ _ eq_refl Hvzm).
    reflexivity.
Qed.

End ClaimRequest.

(** ** [claim_job] *)

Section ClaimJob.
Import Py Schema Core Ddb Runtime TileJobs Spec.

Lemma with_db_same w : with_db w (db w) = w.
Proof. now destruct w. Qed.

Lemma attempts_of_raises parsed e : attempts_of parsed = Raise e -> not_client_error e.
Proof.
  unfold attempts_of. destruct (parsed !! "attempts") as [[s | n | u] |];
    [destruct (parse_int s) | | |]; intros H; try discriminate H; injection H as <-; exact I.
Qed.

Lemma checkpoint_of_raises parsed e : checkpoint_of parsed = Raise e -> not_client_error e.
Proof.
  unfold checkpoint_of. destruct (_ && _); [| discriminate].
  destruct (parsed !! "s3_bucket") as [[b | n | u] |],
           (parsed !! "s3_key") as [[k | n' | u'] |];
    intros H; try discriminate H; injection H as <-; exact I.
Qed.

Lemma claimed_raises tid now attrs e :
  claimed tid now attrs = Raise e -> not_client_error e.
Proof.
  unfold claimed. destruct (bool_decide (attrs = ∅)).
  - destruct (checkpoint_of attrs) as [c | e'] eqn:Hc; [discriminate |].
    intros [= <-]. eapply checkpoint_of_raises, Hc.
  - destruct (attempts_of attrs) as [n | e'] eqn:Ha.
    + destruct (checkpoint_of attrs) as [c | e''] eqn:Hc; [discriminate |].
      intros [= <-]. eapply checkpoint_of_raises, Hc.
    + intros [= <-]. eapply attempts_of_raises, Ha.
Qed.

Lemma claim_job_accepted tname m now_epoch lock w tid attrs d :
  get_tile_id m = Some tid ->
  update_item (claim_request tname m tid (claim_now now_epoch w)
                             (claim_now now_epoch w + lock)) (db w) = (Ok attrs, d) ->
  claim_job tname m now_epoch lock w =
  (claimed tid (claim_now now_epoch w) attrs, with_db w d).
Proof.
  intros Htid Hup. unfold claim_job, _ensure_tile_id, bind, try_except, on_db, lift, claim_now in *.
  rewrite Htid. destruct now_epoch as [n |]; cbn in *; rewrite Hup; cbn.
  all: match goal with
       | |- context [claimed ?t ?n ?a] =>
           pose proof (claimed_raises t n a) as Hr; destruct (claimed t n a) as [c | e]
       end; [reflexivity | specialize (Hr e eq_refl); destruct e; easy].
Qed.

Lemma claim_job_rejected tname m now_epoch lock w tid msg d :
  get_tile_id m = Some tid ->
  update_item (claim_request tname m tid (claim_now now_epoch w)
                             (claim_now now_epoch w + lock)) (db w)
    = (Raise (ClientError "ConditionalCheckFailedException" msg), d) ->
  claim_job tname m now_epoch lock w =
  match _get_job_status tname (run_id m) tid w with
  | (Ok current_status, w') =>
      (Ok {| result := match current_status with
                       | Some COMPLETED => ALREADY_COMPLETED
                       | _ => LOCKED_BY_OTHER
                       end;
             tile_id := tid; attempt := None; claimed_at_epoch := None;
             checkpoint := None |}, w')
  | (Raise e, w') => (Raise e, w')
  end.
Proof.
  intros Htid Hup. pose proof (update_item_raise_unchanged _ _ _ _ Hup) as ->.
  unfold claim_job, _ensure_tile_id, bind, try_except, on_db, lift, ret, claim_now in *.
  rewrite Htid. destruct now_epoch as [n |]; cbn in *; rewrite Hup; cbn;
    fold (with_db w (db w)); rewrite with_db_same;
    destruct (_get_job_status tname (run_id m) tid w) as [[st | e] w']; reflexivity.
Qed.

Lemma claim_job_error tname m now_epoch lock w tid code msg d :
  get_tile_id m = Some tid ->
  update_item (claim_request tname m tid (claim_now now_epoch w)
                             (claim_now now_epoch w + lock)) (db w)
    = (Raise (ClientError code msg), d) ->
  String.eqb code "ConditionalCheckFailedException" = false ->
  claim_job tname m now_epoch lock w = (Raise (ClientError code msg), w).
Proof.
  intros Htid Hup Hcode. pose proof (update_item_raise_unchanged _ _ _ _ Hup) as ->.
  unfold claim_job, _ensure_tile_id, bind, try_except, on_db, lift, ret, raise, claim_now in *.
  rewrite Htid. destruct now_epoch as [n |]; cbn in *; rewrite Hup; cbn;
    fold (with_db w (db w)); rewrite with_db_same, Hcode; reflexivity.
Qed.

Lemma JobStatus_of_value st : JobStatus_of (JobStatus_value st) = Some st.
Proof. now destruct st. Qed.

Lemma get_job_status_typed tname rid tid w tbl :
  db w !! tname = Some tbl ->
  (forall row v, tbl !! _job_key rid tid = Some row -> row !! "status" = Some v ->
                 exists st, v = AS (JobStatus_value st)) ->
  exists current,
    _get_job_status tname rid tid w = (Ok current, w) /\
    (forall st, current = Some st <->
                exists row, tbl !! _job_key rid tid = Some row /\
                            row !! "status" = Some (AS (JobStatus_value st))).
Proof.
  intros Ht Hty. unfold _get_job_status, get_item. rewrite Ht.
  change (resolve {[ "#status" := "status" ]} "#status") with (Some "status").
  cbn [option_map]. destruct (tbl !! _job_key rid tid) as [row |] eqn:Hrow; cbn [option_map].
  - destruct (row !! "status") as [v |] eqn:Hst.
    + destruct (Hty row v eq_refl Hst) as [st ->].
      rewrite lookup_singleton_eq, JobStatus_of_value.
      exists (Some st). split; [reflexivity |]. intros st'. split.
      * intros [= <-]. now exists row.
      * intros (row' & [= <-] & Hst'). rewrite Hst in Hst'.
        injection Hst' as Hst'. destruct st, st'; try discriminate Hst'; reflexivity.
    + rewrite lookup_empty. exists None. split; [reflexivity |]. intros st. split.
      * discriminate.
      * intros (row' & [= <-] & Hst'). congruence.
  - exists None. split; [reflexivity |]. intros st. split.
    + discriminate.
    + intros (row' & Hr & _). discriminate.
Qed.

End ClaimJob.

Section ClaimOutcomes.
Import Py Schema Core Ddb Runtime TileJobs Spec.

Lemma valid_message_tile_id m :
  valid_message m = true -> exists tid, get_tile_id m = Some tid.
Proof.
  intros Hv. unfold get_tile_id. destruct (imagery_source m) eqn:Hs.
  - eexists. reflexivity.
  - destruct (valid_google_fields m Hv Hs) as (la & lo & -> & -> & _). eexists. reflexivity.
Qed.

Lemma claim_values_zoom m now lk :
  imagery_source m = Google ->
  claim_expr_values m now lk !! ":zoom" = Some (N_of_opt_int (zoom m)).
Proof. intros Hs. unfold claim_expr_values. rewrite Hs. reflexivity. Qed.

End ClaimOutcomes.

(** C10: for a coord-provider message whose zoom is omitted, the claim
    sends the text [None] as the number of the zoom attribute, not the
    default zoom 18 that [get_zoom] gives; the store takes no such number,
    the claim raises and leaves every table as it was, so no zoom, and in
    particular not 18, is stored by it. *)
Theorem claim_job_omitted_zoom tname m now_epoch lock w :
  Schema.valid_message m = true ->
  Schema.imagery_source m = Schema.Google ->
  Schema.zoom m = None ->
  let now := Spec.claim_now now_epoch w in
  TileJobs.claim_expr_values m now (now + lock) !! ":zoom" = Some (Ddb.RN "None") /\
  Schema.get_zoom m = 18 /\
  Ddb.RN "None" <> TileJobs.N_of_int (Schema.get_zoom m) /\
  Ddb.validate (Ddb.RN "None") = None /\
  exists e, TileJobs.claim_job tname m now_epoch lock w = (Core.Raise e, w).
Proof.
  intros Hv Hs Hz now.
  assert (Hph : TileJobs.claim_expr_values m now (now + lock) !! ":zoom"
                = Some (Ddb.RN "None")).
  { rewrite claim_values_zoom by assumption. now rewrite Hz. }
  split; [exact Hph |].
  split; [unfold Schema.get_zoom; now rewrite Hz |].
  split; [unfold Schema.get_zoom; rewrite Hz; discriminate |].
  split; [reflexivity |].
  destruct (valid_message_tile_id m Hv) as [tid Htid].
  destruct (Runtime.db w !! tname) as [tbl |] eqn:Ht.
  - eexists. eapply claim_job_error;
      [exact Htid
      | eapply update_item_invalid; [exact Ht | exact Hph | reflexivity]
      | reflexivity].
  - eexists. eapply claim_job_error with (d := Runtime.db w);
      [exact Htid
      | unfold Ddb.update_item; cbn [Ddb.TableName TileJobs.claim_request];
        rewrite Ht; reflexivity
      | reflexivity].
Qed.


Section ClaimMutation.
Import Py Schema Core Ddb Runtime TileJobs Spec.

Ltac mutation_lookup :=
  unfold claim_mutation, set_if_absent;
  repeat (rewrite lookup_insert_ne by discriminate);
  try rewrite lookup_insert_eq.

Lemma claim_mutation_fixed m now lock old base :
  let row' := claim_mutation m now lock old base in
  row' !! "status" = Some (AS "PROCESSING") /\
  row' !! "attempts" = Some (AN (num_of_int (attempts_or_zero old + 1))) /\
  row' !! "lock_until_epoch" = Some (AN (num_of_int (now + lock))) /\
  row' !! "last_claimed_at_epoch" = Some (AN (num_of_int now)).
Proof.
  cbn zeta. unfold claim_mutation.
  destruct (imagery_source m), (region m) as [[| c r] |];
    repeat split; mutation_lookup; reflexivity.
Qed.

Lemma claim_mutation_if_absent m now lock old base a v :
  In (a, v) (written_if_absent m now) ->
  claim_mutation m now lock old base !! a = Some (default v (old !! a)).
Proof.
  unfold written_if_absent, claim_mutation.
  destruct (imagery_source m), (region m) as [[| c r] |]; cbn [In app].
  all: intros Hin;
    repeat (destruct Hin as [[= <- <-] | Hin]; [mutation_lookup; reflexivity |]).
  all: destruct Hin.
Qed.

Lemma claim_mutation_untouched m now lock old base p :
  ~ In p (claim_touched m) -> claim_mutation m now lock old base !! p = base !! p.
Proof.
  unfold claim_touched, claim_mutation, set_if_absent.
  destruct (imagery_source m), (region m) as [[| c r] |]; cbn [In app truthy].
  all: intros Hp;
    repeat (rewrite lookup_insert_ne by (intros <-; apply Hp; tauto)); reflexivity.
Qed.

Lemma claim_mutation_nonempty m now lock old base : claim_mutation m now lock old base <> ∅.
Proof.
  unfold claim_mutation, set_if_absent.
  destruct (imagery_source m), (region m) as [[| c r] |]; apply insert_non_empty.
Qed.

Lemma checkpoint_of_typed row :
  (forall v, row !! "s3_bucket" = Some v -> exists s, v = AS s) ->
  (forall v, row !! "s3_key" = Some v -> exists s, v = AS s) ->
  checkpoint_of row = Ok (stored_checkpoint row).
Proof.
  intros Hb Hk. unfold checkpoint_of, stored_checkpoint, attr_truthy.
  destruct (row !! "s3_bucket") as [vb |]; [| reflexivity].
  destruct (Hb vb eq_refl) as [b ->].
  destruct (row !! "s3_key") as [vk |]; [| now destruct b].
  destruct (Hk vk eq_refl) as [k ->].
  destruct b, k; reflexivity.
Qed.

Lemma claimed_mutation tid m now lock old base :
  (forall v, base !! "s3_bucket" = Some v -> exists s, v = AS s) ->
  (forall v, base !! "s3_key" = Some v -> exists s, v = AS s) ->
  claimed tid now (claim_mutation m now lock old base) =
  Ok {| result := CLAIMED; tile_id := tid;
        attempt := Some (attempts_or_zero old + 1);
        claimed_at_epoch := Some now;
        checkpoint := stored_checkpoint base |}.
Proof.
  intros Hb Hk. unfold claimed.
  rewrite bool_decide_eq_false_2 by apply claim_mutation_nonempty.
  destruct (claim_mutation_fixed m now lock old base) as (_ & Hatt & _).
  unfold attempts_of. rewrite Hatt, num_trunc_int.
  assert (Hsame : forall p, p = "s3_bucket" \/ p = "s3_key" ->
            claim_mutation m now lock old base !! p = base !! p).
  { intros p Hp. apply claim_mutation_untouched. unfold claim_touched.
    destruct (imagery_source m), (truthy (region m)); cbn [In app];
      destruct Hp as [-> | ->]; intros H;
      repeat (destruct H as [H | H]; [discriminate H |]); exact H. }
  rewrite checkpoint_of_typed.
  - unfold stored_checkpoint. rewrite !Hsame by auto. reflexivity.
  - intros v. rewrite Hsame by auto. apply Hb.
  - intros v. rewrite Hsame by auto. apply Hk.
Qed.

Lemma claimable_b_spec prior now :
  (forall row, prior = Some row -> well_typed row) ->
  claimable_b (default ∅ prior) now = true <-> claimable prior now \/ statusless prior.
Proof.
  intros Hty. unfold claimable_b, claimable, statusless.
  destruct prior as [row |]; cbn [default from_option id].
  2: { rewrite lookup_empty. split; [intros _; now left; left | reflexivity]. }
  destruct (Hty row eq_refl) as (Hst & _ & Hlock & _).
  destruct (row !! "status") as [v |] eqn:Hs.
  2: { split; [intros _; right; now exists row | reflexivity]. }
  destruct (Hst v eq_refl) as [st ->].
  destruct st; cbn -[num_ltb num_of_int].
  - split; [intros _ | reflexivity]. left. right. left. exists row. auto.
  - destruct (row !! "lock_until_epoch") as [vl |] eqn:Hl.
    + destruct (Hlock vl eq_refl) as [l ->]. rewrite num_ltb_int. split.
      * intros Hlt%Z.ltb_lt. left. right. right. exists row. split; [reflexivity |].
        split; [exact Hs |]. right. exists l. auto.
      * intros [[Habs | [H | H]] | H].
        -- discriminate Habs.
        -- destruct H as (r & [= <-] & [Hp | Hp]); rewrite Hs in Hp; discriminate Hp.
        -- destruct H as (r & [= <-] & _ & [Hn | (l' & Hl' & Hlt)]).
           ++ rewrite Hl in Hn. discriminate Hn.
           ++ rewrite Hl in Hl'. injection Hl' as <-. now apply Z.ltb_lt.
        -- destruct H as (r & [= <-] & Hn). rewrite Hs in Hn. discriminate Hn.
    + split; [intros _ | reflexivity]. left. right. right. exists row. auto.
  - split; [discriminate |].
    intros [[Habs | [H | H]] | H].
    + discriminate Habs.
    + destruct H as (r & [= <-] & [Hp | Hp]); rewrite Hs in Hp; discriminate Hp.
    + destruct H as (r & [= <-] & Hp & _). rewrite Hs in Hp. discriminate Hp.
    + destruct H as (r & [= <-] & Hn). rewrite Hs in Hn. discriminate Hn.
  - split; [intros _ | reflexivity]. left. right. left. exists row. auto.
Qed.

End ClaimMutation.

Section ClaimDecision.
Import Py Schema Core Ddb Runtime TileJobs Spec.

(** The conditional update of a claim, decided: accepted with the
    mutation when the item is claimable, rejected otherwise. *)
Lemma claim_update_decided tname m now lock d tbl tid :
  valid_message m = true -> numbers_accepted m = true ->
  d !! tname = Some tbl ->
  let k := _job_key (run_id m) tid in
  let prior := tbl !! k in
  (forall row, prior = Some row -> well_typed row) ->
  update_item (claim_request tname m tid now (now + lock)) d =
  if claimable_b (default ∅ prior) now then
    let row' := claim_mutation m now lock (default ∅ prior) (default (key_item k) prior) in
    (Ok row', <[ tname := <[ k := row' ]> tbl ]> d)
  else
    (Raise (ClientError "ConditionalCheckFailedException" "The conditional request failed"), d).
Proof.
  intros Hv Hn Ht k prior Hty. unfold update_item.
  cbn [TableName Key UpdateExpression ExpressionAttributeNames ExpressionAttributeValues
       ConditionExpression ReturnValues claim_request].
  rewrite Ht, (claim_values_valid m now (now + lock) Hv Hn).
  fold k. fold prior.
  destruct (stored_common m now (now + lock)) as (Hproc & Hpend & Hfail & Hnow & _).
  rewrite (claim_condition_eval _ _ _ now (claim_names_status m) Hproc Hpend Hfail Hnow).
  destruct (claimable_b (default ∅ prior) now); [| reflexivity].
  rewrite claim_update_eval; [reflexivity | assumption | assumption |].
  destruct prior as [row |] eqn:Hprior; cbn [default from_option id].
  - destruct (Hty row eq_refl) as (_ & Hatt & _). exact Hatt.
  - intros v Hl. rewrite lookup_empty in Hl. discriminate Hl.
Qed.

End ClaimDecision.

(** C1, as the code has it: for a valid message whose numbers the store
    takes (a coord-provider message carries its zoom) and a row typed as a
    tile job, the claim succeeds exactly when the row is absent, or has no
    status attribute, or is PENDING or FAILED, or is PROCESSING with the
    lock missing or strictly before [now]; a successful claim replaces the
    row, in one update, by its mutation: status PROCESSING, attempts one
    more than before (from 0), the lock at [now + lock_seconds], the last
    claim at [now], and the start time, the imagery source, the coordinates
    and the region written only where the row lacks them; nothing else
    changes. *)
Theorem claim_job_claims tname m now lock w tbl tid :
  Schema.valid_message m = true ->
  Spec.numbers_accepted m = true ->
  Schema.get_tile_id m = Some tid ->
  Runtime.db w !! tname = Some tbl ->
  let k := TileJobs._job_key (Schema.run_id m) tid in
  let prior := tbl !! k in
  let old := default ∅ prior in
  let row' := Spec.claim_mutation m now lock old (default (Ddb.key_item k) prior) in
  (forall row, prior = Some row -> Spec.well_typed row) ->
  ((exists data w', TileJobs.claim_job tname m (Some now) lock w = (Core.Ok data, w') /\
                    Schema.result data = Schema.CLAIMED)
   <-> Spec.claimable prior now \/ Spec.statusless prior) /\
  (Spec.claimable prior now \/ Spec.statusless prior ->
   exists data,
     TileJobs.claim_job tname m (Some now) lock w =
       (Core.Ok data, Spec.with_db w (<[ tname := <[ k := row' ]> tbl ]> (Runtime.db w))) /\
     Schema.result data = Schema.CLAIMED /\
     Schema.attempt data = Some (Spec.attempts_or_zero old + 1) /\
     Schema.claimed_at_epoch data = Some now) /\
  row' !! "status" = Some (Ddb.AS "PROCESSING") /\
  row' !! "attempts" = Some (Ddb.AN (Ddb.num_of_int (Spec.attempts_or_zero old + 1))) /\
  row' !! "lock_until_epoch" = Some (Ddb.AN (Ddb.num_of_int (now + lock))) /\
  row' !! "last_claimed_at_epoch" = Some (Ddb.AN (Ddb.num_of_int now)) /\
  (forall a v, In (a, v) (Spec.written_if_absent m now) ->
               row' !! a = Some (default v (old !! a))) /\
  (forall a, ~ In a (Spec.claim_touched m) ->
             row' !! a = default (Ddb.key_item k) prior !! a).
Proof.
  intros Hv Hn Htid Ht k prior old row' Hty.
  pose proof (claim_update_decided tname m now lock (Runtime.db w) tbl tid Hv Hn Ht Hty)
    as Hup.
  fold k prior old row' in Hup. cbn zeta in Hup.
  pose proof (claimable_b_spec prior now Hty) as Hspec. fold old in Hspec.
  assert (Hs3 : (forall v, default (Ddb.key_item k) prior !! "s3_bucket" = Some v ->
                           exists s, v = Ddb.AS s) /\
                (forall v, default (Ddb.key_item k) prior !! "s3_key" = Some v ->
                           exists s, v = Ddb.AS s)).
  { destruct prior as [row |] eqn:Hprior; cbn [default from_option id].
    - destruct (Hty row eq_refl) as (_ & _ & _ & Hb & Hk). auto.
    - split; intros v Hl; vm_compute in Hl; discriminate Hl. }
  destruct Hs3 as [Hb Hk].
  assert (Hyes : Spec.claimable_b old now = true ->
     TileJobs.claim_job tname m (Some now) lock w =
     (Core.Ok {| Schema.result := Schema.CLAIMED; Schema.tile_id := tid;
                 Schema.attempt := Some (Spec.attempts_or_zero old + 1);
                 Schema.claimed_at_epoch := Some now;
                 Schema.checkpoint :=
                   Spec.stored_checkpoint (default (Ddb.key_item k) prior) |},
      Spec.with_db w (<[ tname := <[ k := row' ]> tbl ]> (Runtime.db w)))).
  { intros Hc. rewrite Hc in Hup.
    rewrite (claim_job_accepted tname m (Some now) lock w tid _ _ Htid Hup).
    unfold Spec.claim_now. cbn [default from_option id]. subst row'.
    now rewrite (claimed_mutation tid m now lock old _ Hb Hk). }
  split; [| split].
  - split.
    + intros (data & w' & Hrun & Hres). apply Hspec.
      destruct (Spec.claimable_b old now) eqn:Hc; [reflexivity | exfalso].
      rewrite (claim_job_rejected tname m (Some now) lock w tid _ _ Htid Hup) in Hrun.
      destruct (TileJobs._get_job_status tname (Schema.run_id m) tid w) as [[cur | e] w''].
      * injection Hrun as <- _. cbn in Hres. destruct cur as [[] |]; discriminate Hres.
      * discriminate Hrun.
    + intros Hc%Hspec. eexists _, _. split; [apply Hyes, Hc | reflexivity].
  - intros Hc%Hspec. eexists. split; [apply Hyes, Hc |]. repeat split.
  - destruct (claim_mutation_fixed m now lock old (default (Ddb.key_item k) prior))
      as (H1 & H2 & H3 & H4).
    repeat split; try assumption.
    + intros a v Hin. now apply claim_mutation_if_absent.
    + intros a Ha. now apply claim_mutation_untouched.
Qed.

(** ** The claims on the literal scenarios *)

Section ScenarioRows.
Import Py Schema Core Ddb Runtime TileJobs Spec Scenario.

Lemma run_fst {A} (c : M A) (w : World) (r : Result A) :
  fst (c w) = r -> c w = (r, snd (c w)).
Proof. intros <-. apply surjective_pairing. Qed.

Lemma run_pair {A} (c : M A) (w w' : World) (r : Result A) :
  fst (c w) = r -> snd (c w) = w' -> c w = (r, w').
Proof. intros <- <-. apply surjective_pairing. Qed.

Lemma world_with_jobs attrs t :
  db (world_with attrs t) !! "jobs"
  = Some ({[ fresh_key := list_to_map attrs ∪ key_item fresh_key ]} : Table).
Proof. unfold world_with. cbn [db]. apply lookup_insert_eq. Qed.

Lemma world_with_row attrs t :
  fresh_row (world_with attrs t) = Some (list_to_map attrs ∪ key_item fresh_key).
Proof.
  unfold fresh_row. rewrite world_with_jobs. cbn [mbind option_bind].
  apply lookup_singleton_eq.
Qed.

(** The only row of the table of [world_with] is the row of the tile. *)
Lemma world_with_only_row attrs t tbl row :
  db (world_with attrs t) !! "jobs" = Some tbl ->
  tbl !! fresh_key = Some row ->
  row = list_to_map attrs ∪ key_item fresh_key.
Proof.
  rewrite world_with_jobs. intros [= <-]. rewrite lookup_singleton_eq. now intros [= <-].
Qed.

(** A row given by its attributes, all of the types of a tile job. *)
Lemma well_typed_literal (row : Item) :
  match row !! "status" with
  | Some (AS s) => bool_decide (is_Some (JobStatus_of s))
  | Some _ => false
  | None => true
  end = true ->
  match row !! "attempts" with
  | Some (AN {| mant := _; expo := 0 |}) | None => true
  | _ => false
  end = true ->
  match row !! "lock_until_epoch" with
  | Some (AN {| mant := _; expo := 0 |}) | None => true
  | _ => false
  end = true ->
  match row !! "s3_bucket" with Some (AS _) | None => true | _ => false end = true ->
  match row !! "s3_key" with Some (AS _) | None => true | _ => false end = true ->
  well_typed row.
Proof.
  intros Hs Ha Hl Hb Hk. unfold well_typed. repeat split; intros v Hv.
  - rewrite Hv in Hs. destruct v as [s | |]; try discriminate Hs.
    apply bool_decide_eq_true in Hs. destruct Hs as [st Hst]. exists st.
    unfold JobStatus_of in Hst.
    repeat match type of Hst with
           | (if String.eqb ?a ?b then _ else _) = _ =>
               destruct (String.eqb_spec a b) as [-> |]
           end; try discriminate Hst; injection Hst as <-; reflexivity.
  - rewrite Hv in Ha. destruct v as [| [mn [| |]] |]; try discriminate Ha. now exists mn.
  - rewrite Hv in Hl. destruct v as [| [mn [| |]] |]; try discriminate Hl. now exists mn.
  - rewrite Hv in Hb. destruct v as [s | |]; try discriminate Hb. now exists s.
  - rewrite Hv in Hk. destruct v as [s | |]; try discriminate Hk. now exists s.
Qed.

Lemma checkpointed_unclaimed_claim :
  fst (claim_job "jobs" fresh_tile (Some 1000) 900
         (world_with [("s3_bucket", AS "b"); ("s3_key", AS "k")] 1000))
  = Ok {| result := CLAIMED; tile_id := "14/8716/5378"; attempt := Some 1;
          claimed_at_epoch := Some 1000;
          checkpoint := Some {| cp_bucket := "b"; cp_key := "k" |} |}.
Proof. vm_compute. reflexivity. Qed.

Lemma checkpointed_unclaimed_status :
  status_of (world_with [("s3_bucket", AS "b"); ("s3_key", AS "k")] 1000) = None.
Proof. vm_compute. reflexivity. Qed.

Lemma default_zoom_claim :
  claim_job "jobs" default_zoom_coord (Some 1000) 900 (empty_world 1000)
  = (Raise (ClientError "ValidationException" "invalid attribute value"), empty_world 1000).
Proof. vm_compute. reflexivity. Qed.

Lemma completed_row_typed :
  well_typed (list_to_map [("status", AS "COMPLETED")] ∪ key_item fresh_key).
Proof. apply well_typed_literal; vm_compute; reflexivity. Qed.

Lemma completed_rejected_answer :
  fst (update_item (claim_request "jobs" fresh_tile "14/8716/5378" 1000 (1000 + 900))
                   (db (world_with [("status", AS "COMPLETED")] 1000)))
  = Raise (ClientError "ConditionalCheckFailedException" "The conditional request failed").
Proof. vm_compute. reflexivity. Qed.

Lemma completed_rejected :
  update_item (claim_request "jobs" fresh_tile "14/8716/5378" 1000 (1000 + 900))
              (db (world_with [("status", AS "COMPLETED")] 1000))
  = (Raise (ClientError "ConditionalCheckFailedException" "The conditional request failed"),
     db (world_with [("status", AS "COMPLETED")] 1000)).
Proof.
  pose proof completed_rejected_answer as Hfst.
  destruct (update_item _ _) as [r d] eqn:Hup. cbn [fst] in Hfst. subst r.
  now rewrite (update_item_raise_unchanged _ _ _ _ Hup).
Qed.

Lemma completed_reread :
  fst (_get_job_status "jobs" "run_x" "14/8716/5378"
         (world_with [("status", AS "COMPLETED")] 1000)) = Ok (Some COMPLETED).
Proof. vm_compute. reflexivity. Qed.

End ScenarioRows.

(** C1, as stated, fails on two inputs.  A row that exists without a
    status attribute (a checkpoint written for a tile never claimed) is
    claimed, although it is neither absent nor PENDING, FAILED or
    PROCESSING.  And on an absent row the claim of a valid coord-provider
    message without zoom does not succeed: it raises. *)
Lemma claim_job_not_as_stated :
  (let w := Scenario.world_with [("s3_bucket", Ddb.AS "b"); ("s3_key", Ddb.AS "k")] 1000 in
   Schema.valid_message Scenario.fresh_tile = true /\
   (exists data w', TileJobs.claim_job "jobs" Scenario.fresh_tile (Some 1000) 900 w
                    = (Core.Ok data, w') /\
                    Schema.result data = Schema.CLAIMED) /\
   ~ Spec.claimable (Scenario.fresh_row w) 1000) /\
  (let w := Scenario.empty_world 1000 in
   Schema.valid_message Scenario.default_zoom_coord = true /\
   Spec.claimable (Runtime.db w !! "jobs" ≫= fun tbl : Ddb.Table =>
                   tbl !! TileJobs._job_key "run_x" "coord:12.345678,-7.654321,18") 1000 /\
   TileJobs.claim_job "jobs" Scenario.default_zoom_coord (Some 1000) 900 w
   = (Core.Raise (Core.ClientError "ValidationException" "invalid attribute value"), w)).
Proof.
  split.
  - cbn zeta. split; [vm_compute; reflexivity |]. split.
    + eexists _, _. split; [apply run_fst, checkpointed_unclaimed_claim | reflexivity].
    + pose proof checkpointed_unclaimed_status as Hnone. unfold Scenario.status_of in Hnone.
      intros [Habs | [(row & Hrow & Hst) | (row & Hrow & Hst & _)]].
      * rewrite world_with_row in Habs. discriminate Habs.
      * rewrite Hrow in Hnone. cbn in Hnone. destruct Hst as [Hst | Hst];
          rewrite Hst in Hnone; discriminate Hnone.
      * rewrite Hrow in Hnone. cbn in Hnone. rewrite Hst in Hnone. discriminate Hnone.
  - cbn zeta. split; [vm_compute; reflexivity |]. split.
    + left. vm_compute. reflexivity.
    + apply default_zoom_claim.
Qed.

(** The amended C1 on a fresh tile-provider tile: the row goes from
    absent to PROCESSING with one attempt. *)
Lemma claim_job_claims_witness :
  Schema.valid_message Scenario.fresh_tile = true /\
  Spec.numbers_accepted Scenario.fresh_tile = true /\
  exists data w',
    TileJobs.claim_job "jobs" Scenario.fresh_tile (Some 1000) 900 (Scenario.empty_world 1000)
    = (Core.Ok data, w') /\
    Schema.result data = Schema.CLAIMED /\
    Schema.attempt data = Some 1.
Proof.
  assert (Hv : Schema.valid_message Scenario.fresh_tile = true) by (vm_compute; reflexivity).
  assert (Hn : Spec.numbers_accepted Scenario.fresh_tile = true) by reflexivity.
  assert (Htid : Schema.get_tile_id Scenario.fresh_tile = Some "14/8716/5378")
    by (vm_compute; reflexivity).
  assert (Ht : Runtime.db (Scenario.empty_world 1000) !! "jobs" = Some (∅ : Ddb.Table))
    by apply lookup_insert_eq.
  split; [exact Hv |]. split; [exact Hn |].
  destruct (claim_job_claims "jobs" Scenario.fresh_tile 1000 900 (Scenario.empty_world 1000)
              ∅ "14/8716/5378" Hv Hn Htid Ht) as (_ & Hyes & _).
  - intros row Hrow. rewrite lookup_empty in Hrow. discriminate Hrow.
  - destruct Hyes as (data & Hrun & Hres & Hatt & _).
    + left. left. apply lookup_empty.
    + exists data. eexists. split; [exact Hrun |]. split; [exact Hres | exact Hatt].
Defined.

(** C10 on the coord-provider message of the default-zoom scenario. *)
Lemma claim_job_omitted_zoom_witness :
  Schema.valid_message Scenario.default_zoom_coord = true /\
  Schema.zoom Scenario.default_zoom_coord = None /\
  exists e, TileJobs.claim_job "jobs" Scenario.default_zoom_coord None 900
                               (Scenario.empty_world 1000)
            = (Core.Raise e, Scenario.empty_world 1000).
Proof.
  assert (Hv : Schema.valid_message Scenario.default_zoom_coord = true)
    by (vm_compute; reflexivity).
  split; [exact Hv |]. split; [reflexivity |].
  exact (proj2 (proj2 (proj2 (proj2
           (claim_job_omitted_zoom "jobs" Scenario.default_zoom_coord None 900
              (Scenario.empty_world 1000) Hv eq_refl eq_refl))))).
Defined.


(** C7 on the literal messages: the fresh tile, the coordinate with the
    default zoom, and 1.2345678 against 1.2345681. *)
Lemma get_tile_id_canonical_witness :
  Schema.valid_message Scenario.fresh_tile = true /\
  Schema.valid_message Scenario.default_zoom_coord = true /\
  Schema.get_tile_id Scenario.fresh_tile = Some "14/8716/5378" /\
  Schema.get_tile_id Scenario.default_zoom_coord = Some "coord:12.345678,-7.654321,18" /\
  Schema.get_tile_id Scenario.coord_a = Schema.get_tile_id Scenario.coord_b.
Proof.
  assert (Hv1 : Schema.valid_message Scenario.fresh_tile = true) by (vm_compute; reflexivity).
  assert (Hv2 : Schema.valid_message Scenario.default_zoom_coord = true)
    by (vm_compute; reflexivity).
  destruct get_tile_id_canonical as (Hmapbox & Hgoogle & Hsame).
  split; [exact Hv1 |]. split; [exact Hv2 |]. split; [| split].
  - destruct (Hmapbox Scenario.fresh_tile Hv1 eq_refl) as (zz & xx & yy & Hz & Hx & Hy & Hid).
    injection Hz as <-. injection Hx as <-. injection Hy as <-.
    rewrite Hid. vm_compute. reflexivity.
  - destruct (Hgoogle Scenario.default_zoom_coord Hv2 eq_refl)
      as (la & lo & Hla & Hlo & Hid & _).
    injection Hla as <-. injection Hlo as <-. rewrite Hid. vm_compute. reflexivity.
  - apply (Hsame Scenario.coord_a Scenario.coord_b _ _ _ _ eq_refl eq_refl
                 eq_refl eq_refl eq_refl eq_refl).
    + vm_compute. reflexivity.
    + reflexivity.
    + reflexivity.
Defined.

(** ** External calls of the processor *)

Section Quiet.
Import Py Schema Core Ddb Runtime TileJobs Runs Errors Config S3 Processor Spec.

Lemma quiet_ret {A} (a : A) : quiet (ret a).
Proof. intros w. reflexivity. Qed.

Lemma quiet_raise {A} e : quiet (@raise A e).
Proof. intros w. reflexivity. Qed.

Lemma quiet_lift {A} (r : Result A) : quiet (lift r).
Proof. intros w. reflexivity. Qed.

Lemma quiet_time : quiet time_time.
Proof. intros w. reflexivity. Qed.

Lemma quiet_on_db {A} (f : Db -> Result A * Db) : quiet (on_db f).
Proof. intros w. unfold on_db. destruct (f (db w)). reflexivity. Qed.

Lemma quiet_bind {A B} (c : M A) (k : A -> M B) :
  quiet c -> (forall a, quiet (k a)) -> quiet (bind c k).
Proof.
  intros Hc Hk w. unfold bind. specialize (Hc w).
  destruct (c w) as [[a | e] w']; cbn [snd] in *; [rewrite Hk |]; exact Hc.
Qed.

Lemma quiet_try {A} (c : M A) (h : Exn -> M A) :
  quiet c -> (forall e, quiet (h e)) -> quiet (try_except c h).
Proof.
  intros Hc Hh w. unfold try_except. specialize (Hc w).
  destruct (c w) as [[a | e] w']; cbn [snd] in *; [| rewrite Hh]; exact Hc.
Qed.

Lemma quiet_ensure_tile_id m : quiet (_ensure_tile_id m).
Proof. unfold _ensure_tile_id. destruct (get_tile_id m); [apply quiet_ret | apply quiet_raise]. Qed.

Lemma get_job_status_same tname rid tid w : snd (_get_job_status tname rid tid w) = w.
Proof.
  unfold _get_job_status. destruct (get_item _ _ _ _ _) as [[item |] | []]; try reflexivity.
  destruct (item !! "status") as [[s | n | u] |]; try reflexivity.
  destruct (JobStatus_of s); reflexivity.
Qed.

Lemma quiet_get_job_status tname rid tid : quiet (_get_job_status tname rid tid).
Proof. intros w. now rewrite get_job_status_same. Qed.

Lemma quiet_claim_job tname m now_epoch lock : quiet (claim_job tname m now_epoch lock).
Proof.
  unfold claim_job. apply quiet_bind.
  { destruct now_epoch; [apply quiet_ret | apply quiet_time]. }
  intros now. apply quiet_bind; [apply quiet_ensure_tile_id |]. intros tid.
  apply quiet_try.
  - apply quiet_bind; [apply quiet_on_db | intros attrs; apply quiet_lift].
  - intros [code msg | | | | | | | | |]; try apply quiet_raise.
    destruct (String.eqb code _); [| apply quiet_raise].
    apply quiet_bind; [apply quiet_get_job_status | intros cur; apply quiet_ret].
Qed.

Lemma quiet_fail_job tname rid tid code message finished :
  quiet (fail_job tname rid tid code message finished).
Proof.
  unfold fail_job. apply quiet_bind.
  { destruct finished; [apply quiet_ret | apply quiet_time]. }
  intros f. apply quiet_on_db.
Qed.

Lemma quiet_checkpoint_s3 tname rid tid b k : quiet (checkpoint_s3 tname rid tid b k).
Proof. apply quiet_on_db. Qed.

Lemma quiet_complete_job tname rid tid b k sa re us cl fi :
  quiet (complete_job tname rid tid b k sa re us cl fi).
Proof.
  unfold complete_job. apply quiet_bind.
  { destruct fi; [apply quiet_ret | apply quiet_time]. }
  intros f. destruct sa, re, us, cl;
    (apply quiet_bind; [apply quiet_on_db | intros _; apply quiet_ret]).
Qed.

Lemma quiet_update_run_counters tname rid c f : quiet (update_run_counters tname rid c f).
Proof.
  unfold update_run_counters. destruct (_ && _); [apply quiet_ret | apply quiet_on_db].
Qed.

Lemma quiet_handle_failure exc m config : quiet (_handle_failure exc m config).
Proof.
  unfold _handle_failure. apply quiet_bind; [apply quiet_ensure_tile_id |]. intros tid.
  apply quiet_bind; [apply quiet_lift |]. intros code.
  apply quiet_try; [| intros e; apply quiet_ret].
  apply quiet_bind; [apply quiet_fail_job |]. intros _.
  apply quiet_bind; [apply quiet_update_run_counters | intros _; apply quiet_ret].
Qed.

End Quiet.

(** ** Checkpoint resumption *)

Section Checkpoint.
Import Py Schema Core Ddb Runtime TileJobs Runs Errors Config S3 Processor Spec.

Lemma update_item_raises req d e d' :
  update_item req d = (Raise e, d') -> exists code msg, e = ClientError code msg.
Proof.
  unfold update_item. intros H.
  destruct (d !! TableName req); [| injection H as <- _; eauto].
  destruct (validate_values _); [| injection H as <- _; eauto].
  destruct (match ConditionExpression req with Some _ => _ | None => _ end) as [[|] |];
    [| injection H as <- _; eauto | injection H as <- _; eauto].
  destruct (apply_actions _ _ _ _ _); [discriminate H | injection H as <- _; eauto].
Qed.

Lemma update_item_all_new req d attrs d' p :
  update_item req d = (Ok attrs, d') ->
  ReturnValues req = ALL_NEW ->
  Forall (fun a => action_path (ExpressionAttributeNames req) a <> Some p)
         (UpdateExpression req) ->
  exists tbl, d !! TableName req = Some tbl /\
              attrs !! p = default (key_item (Key req)) (tbl !! Key req) !! p.
Proof.
  unfold update_item. intros H Hmode Huntouched.
  destruct (d !! TableName req) as [tbl |]; [| discriminate H].
  destruct (validate_values _) as [vals |]; [| discriminate H].
  destruct (match ConditionExpression req with Some _ => _ | None => _ end) as [[|] |];
    [| discriminate H | discriminate H].
  destruct (apply_actions _ _ _ _ _) as [new |] eqn:Hrun; [| discriminate H].
  injection H as <- _. rewrite Hmode. cbn [returned].
  exists tbl. split; [reflexivity |].
  eapply apply_actions_untouched; eassumption.
Qed.

Lemma claim_job_claimed_inv tname m now_epoch lock w tid data w' :
  get_tile_id m = Some tid ->
  claim_job tname m now_epoch lock w = (Ok data, w') ->
  result data = CLAIMED ->
  exists attrs d,
    update_item (claim_request tname m tid (claim_now now_epoch w)
                               (claim_now now_epoch w + lock)) (db w) = (Ok attrs, d) /\
    claimed tid (claim_now now_epoch w) attrs = Ok data /\
    w' = with_db w d.
Proof.
  intros Htid Hrun Hres.
  destruct (update_item (claim_request tname m tid (claim_now now_epoch w)
                                       (claim_now now_epoch w + lock)) (db w))
    as [[attrs | e] d] eqn:Hup.
  - rewrite (claim_job_accepted _ _ _ _ _ _ _ _ Htid Hup) in Hrun.
    injection Hrun as Hc <-. eauto.
  - exfalso. destruct (update_item_raises _ _ _ _ Hup) as (code & msg & ->).
    destruct (String.eqb_spec code "ConditionalCheckFailedException") as [-> | Hne].
    + rewrite (claim_job_rejected _ _ _ _ _ _ _ _ Htid Hup) in Hrun.
      destruct (_get_job_status tname (run_id m) tid w) as [[cur | e] w''];
        [| discriminate Hrun].
      injection Hrun as <- _. cbn in Hres. destruct cur as [[] |]; discriminate Hres.
    + rewrite (claim_job_error _ _ _ _ _ _ _ _ _ Htid Hup) in Hrun; [discriminate Hrun |].
      now apply String.eqb_neq.
Qed.

Lemma claim_leaves_untouched m p :
  ~ In p (claim_touched m) ->
  Forall (fun a => action_path (claim_expr_names m) a <> Some p) (claim_update_expr m).
Proof.
  unfold claim_touched, claim_update_expr, claim_expr_names.
  destruct (imagery_source m), (truthy (region m)); cbn [In app]; intros Hp.
  all: repeat (apply Forall_cons; split;
               [intros H; apply Hp; vm_compute in H; injection H as <-; tauto |]).
  all: first [exact I | constructor].
Qed.

Lemma checkpoint_fields_untouched m :
  ~ In "s3_bucket" (claim_touched m) /\ ~ In "s3_key" (claim_touched m).
Proof.
  unfold claim_touched.
  destruct (imagery_source m), (truthy (region m)); cbn [In app]; split; intros H;
    repeat (destruct H as [H | H]; [discriminate H |]); exact H.
Qed.

Lemma claimed_checkpoint tid now attrs data c1 b c2 k :
  claimed tid now attrs = Ok data ->
  attrs !! "s3_bucket" = Some (AS (String c1 b)) ->
  attrs !! "s3_key" = Some (AS (String c2 k)) ->
  checkpoint data = Some {| cp_bucket := String c1 b; cp_key := String c2 k |}.
Proof.
  unfold claimed, checkpoint_of. intros H Hb Hk. rewrite Hb, Hk in H. cbn in H.
  destruct (if bool_decide (attrs = ∅) then _ else _) as [att | e]; [| discriminate H].
  injection H as <-. reflexivity.
Qed.

End Checkpoint.

Section Resumption.
Import Py Schema Core Ddb Runtime TileJobs Runs Errors Config S3 Processor Spec.

Lemma bind_ok {A B} (c : M A) (k : A -> M B) w a w' :
  c w = (Ok a, w') -> bind c k w = k a w'.
Proof. intros H. unfold bind. now rewrite H. Qed.

Lemma bind_raise {A B} (c : M A) (k : A -> M B) w e w' :
  c w = (Raise e, w') -> bind c k w = (Raise e, w').
Proof. intros H. unfold bind. now rewrite H. Qed.

Lemma try_except_trace {A} (c : M A) (h : Exn -> M A) w :
  (forall e, quiet (h e)) -> trace (snd (try_except c h w)) = trace (snd (c w)).
Proof.
  intros Hh. unfold try_except. destruct (c w) as [[a | e] w']; [reflexivity |].
  cbn [snd]. apply Hh.
Qed.

Lemma quiet_failure_handler {A} m config exc :
  quiet (_handle_failure exc m config ;;; @raise A exc).
Proof. apply quiet_bind; [apply quiet_handle_failure | intros _; apply quiet_raise]. Qed.

Lemma claim_reveals_stored_checkpoint tname m now_epoch lock w tbl tid row c1 b c2 k data w1 :
  get_tile_id m = Some tid ->
  db w !! tname = Some tbl ->
  tbl !! _job_key (run_id m) tid = Some row ->
  row !! "s3_bucket" = Some (AS (String c1 b)) ->
  row !! "s3_key" = Some (AS (String c2 k)) ->
  claim_job tname m now_epoch lock w = (Ok data, w1) ->
  result data = CLAIMED ->
  checkpoint data = Some {| cp_bucket := String c1 b; cp_key := String c2 k |}.
Proof.
  intros Htid Ht Hrow Hb Hk Hrun Hres.
  destruct (claim_job_claimed_inv _ _ _ _ _ _ _ _ Htid Hrun Hres)
    as (attrs & d & Hup & Hclaimed & _).
  destruct (checkpoint_fields_untouched m) as [Hnb Hnk].
  destruct (update_item_all_new _ _ _ _ "s3_bucket" Hup eq_refl
              (claim_leaves_untouched m _ Hnb)) as (tbl1 & Ht1 & Hab).
  destruct (update_item_all_new _ _ _ _ "s3_key" Hup eq_refl
              (claim_leaves_untouched m _ Hnk)) as (tbl2 & Ht2 & Hak).
  cbn [TableName Key claim_request] in Ht1, Ht2, Hab, Hak.
  rewrite Ht in Ht1, Ht2. injection Ht1 as <-. injection Ht2 as <-.
  rewrite Hrow in Hab, Hak. cbn [default from_option id] in Hab, Hak.
  rewrite Hb in Hab. rewrite Hk in Hak.
  eapply claimed_checkpoint; eassumption.
Qed.

(** With a checkpoint in the claim, the processor downloads the stored
    object and, at most, calls the vision model. *)
Lemma process_tile_from_checkpoint svc m config remaining w tid data w1 b k :
  get_tile_id m = Some tid ->
  claim_job (tilejobs_table config) m None (job_stale_lock_seconds config) w = (Ok data, w1) ->
  result data = CLAIMED ->
  checkpoint data = Some {| cp_bucket := b; cp_key := k |} ->
  exists rest,
    trace (snd (process_tile svc m config remaining w)) =
      (trace w ++ EvDownload b k :: rest)%list /\
    (rest = [] \/ rest = [EvAnalyze]).
Proof.
  intros Htid Hclaim Hres Hcp.
  assert (Htr1 : trace w1 = trace w).
  { pose proof (quiet_claim_job (tilejobs_table config) m None
                  (job_stale_lock_seconds config) w) as Hq.
    now rewrite Hclaim in Hq. }
  unfold process_tile.
  rewrite (bind_ok _ _ w tid w) by (unfold _ensure_tile_id; now rewrite Htid).
  rewrite (bind_ok _ _ w data w1 Hclaim). rewrite Hres.
  rewrite try_except_trace by (intros e; apply quiet_failure_handler).
  rewrite Hcp. cbn [_get_s3_checkpoint cp_bucket cp_key].
  unfold _download_from_checkpoint, download_image, call.
  destruct (get_object svc b k (length (trace w1))) as [[image | e] dt] eqn:Hget.
  2: { exists []. split; [| now left].
       erewrite bind_raise; [| erewrite bind_raise; [reflexivity |];
                               unfold external; rewrite Hget; reflexivity].
       cbn [snd trace]. now rewrite Htr1. }
  erewrite bind_ok; [| erewrite bind_ok; [reflexivity |];
                       unfold external; rewrite Hget; reflexivity].
  cbn beta iota.
  set (w2 := {| db := db w1; clock := clock w1 + dt;
                trace := (trace w1 ++ [EvDownload b k])%list |}).
  assert (Htr2 : trace w2 = (trace w ++ [EvDownload b k])%list)
    by (cbn; now rewrite Htr1).
  assert (Hgo : forall w3, trace w3 = trace w2 -> exists rest,
    trace (snd ((analysis <- _analyze_with_openai svc image config ;;
                 let '(status_ai, reasoning, usage_dict) := analysis in
                 complete_job (tilejobs_table config) (run_id m) tid b k
                              (Some status_ai) (Some reasoning) (Some usage_dict)
                              (claimed_at_epoch data) None ;;;
                 update_run_counters (runs_table config) (run_id m) 1 0 ;;;
                 ret {| pr_status := PS_completed; pr_tile_id := Some tid;
                        pr_status_ai := Some status_ai; pr_s3_key := Some k;
                        pr_reason := None |}) w3)) =
      (trace w ++ EvDownload b k :: rest)%list /\
    (rest = [] \/ rest = [EvAnalyze])).
  { intros w3 Htr3. exists [EvAnalyze]. split; [| now right].
    unfold _analyze_with_openai, call.
    destruct (vision_model svc image (length (trace w3))) as [[[[sa re] us] | e] dt'] eqn:Hvm.
    - erewrite bind_ok by (unfold external; rewrite Hvm; reflexivity).
      cbn beta iota.
      rewrite (quiet_bind _ _ (quiet_complete_job _ _ _ _ _ _ _ _ _ _)).
      + cbn [trace]. rewrite Htr3, Htr2, <- app_assoc. reflexivity.
      + intros _. apply quiet_bind; [apply quiet_update_run_counters |].
        intros _. apply quiet_ret.
    - erewrite bind_raise by (unfold external; rewrite Hvm; reflexivity).
      cbn [snd trace]. rewrite Htr3, Htr2, <- app_assoc. reflexivity. }
  destruct remaining as [r |].
  - destruct (r <? MIN_REMAINING_MS_FOR_OPENAI) eqn:Hr.
    + exists []. split; [| now left].
      erewrite bind_raise by reflexivity. cbn [snd]. exact Htr2.
    + erewrite bind_ok by reflexivity. apply Hgo. reflexivity.
  - erewrite bind_ok by reflexivity. apply Hgo. reflexivity.
Qed.

End Resumption.


Section ScenarioCheckpoint.
Import Py Schema Core Ddb Runtime TileJobs Config S3 Processor Spec Scenario.

Lemma empty_bucket_row :
  (fresh_row (failed_with_checkpoint "") ≫= fun row : Item => row !! "s3_bucket")
    = Some (AS "") /\
  (fresh_row (failed_with_checkpoint "") ≫= fun row : Item => row !! "s3_key")
    = Some (AS stored_object).
Proof. split; vm_compute; reflexivity. Qed.

Lemma empty_bucket_claim :
  fst (claim_job "jobs" fresh_tile None 900 (failed_with_checkpoint ""))
  = Ok {| result := CLAIMED; tile_id := "14/8716/5378"; attempt := Some 1;
          claimed_at_epoch := Some 1000; checkpoint := None |}.
Proof. vm_compute. reflexivity. Qed.

Lemma empty_bucket_trace :
  trace (snd (process_tile obliging fresh_tile config None (failed_with_checkpoint "")))
  = [EvFetch Mapbox; EvUpload "imagery" stored_object; EvAnalyze].
Proof. vm_compute. reflexivity. Qed.

Lemma checkpointed_claim :
  fst (claim_job "jobs" fresh_tile None 900 (failed_with_checkpoint "imagery"))
  = Ok {| result := CLAIMED; tile_id := "14/8716/5378"; attempt := Some 1;
          claimed_at_epoch := Some 1000;
          checkpoint := Some {| cp_bucket := "imagery"; cp_key := stored_object |} |}.
Proof. vm_compute. reflexivity. Qed.

Lemma checkpointed_fields :
  let row : Item :=
    list_to_map [("status", AS "FAILED"); ("s3_bucket", AS "imagery");
                 ("s3_key", AS stored_object)] ∪ key_item fresh_key in
  row !! "s3_bucket" = Some (AS "imagery") /\ row !! "s3_key" = Some (AS stored_object).
Proof. split; vm_compute; reflexivity. Qed.

Lemma completed_then_failed :
  status_of (world_with [("status", AS "COMPLETED")] 1000) = Some (AS "COMPLETED") /\
  status_of (snd (fail_job "jobs" "run_x" "14/8716/5378" "UNKNOWN_ERROR" "boom" (Some 2000)
                           (world_with [("status", AS "COMPLETED")] 1000)))
    = Some (AS "FAILED") /\
  status_of (snd (_handle_failure (AnalysisError "no verdict") fresh_tile config
                                  (world_with [("status", AS "COMPLETED")] 1000)))
    = Some (AS "FAILED").
Proof. repeat split; vm_compute; reflexivity. Qed.

End ScenarioCheckpoint.



(** C2 at its failing input: on a row whose status is COMPLETED,
    [fail_job], and with it the failure path of the processor, writes the
    status FAILED. *)
Theorem fail_job_reverts_completed :
  let w := Scenario.world_with [("status", Ddb.AS "COMPLETED")] 1000 in
  Scenario.status_of w = Some (Ddb.AS "COMPLETED") /\
  Scenario.status_of
    (snd (TileJobs.fail_job "jobs" "run_x" "14/8716/5378" "UNKNOWN_ERROR" "boom"
                            (Some 2000) w))
    = Some (Ddb.AS "FAILED") /\
  Scenario.status_of
    (snd (Processor._handle_failure (Core.AnalysisError "no verdict") Scenario.fresh_tile
                                    Scenario.config w))
    = Some (Ddb.AS "FAILED").
Proof. exact completed_then_failed. Qed.

(** ** The retry and deadline engine *)

Section Deadline.
Import Http HttpSpec.
Local Open Scope Q_scope.

Variable py_float : string -> option Q.
Variable transport : nat -> (Response + string) * Q.
Variable max_retries : Z.
Variable backoff_base : Q.
Variable retryable_status : list Z.
Variable min_time_for_attempt_ms : Q.

Lemma Qltb_lt a b : Qltb a b = true <-> a < b.
Proof.
  unfold Qltb. rewrite negb_true_iff. split.
  - intros H. apply Qnot_le_lt. intros Hle. apply Qle_bool_iff in Hle. congruence.
  - intros H. destruct (Qle_bool b a) eqn:Hb; [| reflexivity].
    apply Qle_bool_iff in Hb. exfalso. apply (Qlt_not_le _ _ H Hb).
Qed.

Lemma Qltb_ge a b : Qltb a b = false <-> b <= a.
Proof.
  unfold Qltb. rewrite negb_false_iff. apply Qle_bool_iff.
Qed.

Lemma remaining_ms_budget d t :
  (d - t) * 1000 < min_time_for_attempt_ms <-> d - t < min_time_for_attempt_ms / 1000.
Proof.
  unfold Qdiv. change (/ 1000) with (1 # 1000). split; intros H; lra.
Qed.

Lemma attempt_check_spec d st :
  attempt_check (Some d) min_time_for_attempt_ms st =
  if Qltb ((d - now st) * 1000) min_time_for_attempt_ms
  then Some ((d - now st) * 1000) else None.
Proof. reflexivity. Qed.

Lemma attempt_check_late d st :
  d - now st < min_time_for_attempt_ms / 1000 ->
  attempt_check (Some d) min_time_for_attempt_ms st = Some ((d - now st) * 1000).
Proof.
  intros H. rewrite attempt_check_spec.
  apply remaining_ms_budget, Qltb_lt in H. now rewrite H.
Qed.

Lemma attempt_check_in_time d st :
  attempt_check (Some d) min_time_for_attempt_ms st = None ->
  ~ d - now st < min_time_for_attempt_ms / 1000.
Proof.
  rewrite attempt_check_spec. destruct (Qltb _ _) eqn:Hb; [discriminate |].
  intros _ H. apply remaining_ms_budget, Qltb_lt in H. congruence.
Qed.

Lemma sleep_check_late d st s :
  now st + s + min_time_for_attempt_ms / 1000 > d ->
  sleep_check (Some d) min_time_for_attempt_ms s st = Some ((d - now st) * 1000).
Proof. intros H. unfold sleep_check. apply Qltb_lt in H. now rewrite H. Qed.

Lemma sleep_check_in_time d st s :
  sleep_check (Some d) min_time_for_attempt_ms s st = None ->
  now st + s <= d - min_time_for_attempt_ms / 1000.
Proof.
  unfold sleep_check. destruct (Qltb _ _) eqn:Hb; [discriminate |].
  intros _. apply Qltb_ge in Hb. lra.
Qed.

(** Every event a run adds keeps to the deadline. *)
Lemma attempts_loop_respects d attempts :
  forall last st,
    exists events,
      log (snd (attempts_loop py_float transport max_retries backoff_base retryable_status
                              (Some d) min_time_for_attempt_ms attempts last st))
        = (log st ++ events)%list /\
      Forall (respects d (min_time_for_attempt_ms / 1000)) events.
Proof.
  induction attempts as [| attempt rest IH]; intros last st.
  - exists []. split; [cbn; now rewrite app_nil_r | constructor].
  - cbn [attempts_loop].
    destruct (attempt_check (Some d) min_time_for_attempt_ms st) as [remaining |] eqn:Hcheck.
    { exists []. split; [cbn; now rewrite app_nil_r | constructor]. }
    apply attempt_check_in_time in Hcheck.
    destruct (transport (requests_made st)) as [[response | msg] latency].
    2: { exists [Requested (now st) attempt]. split; [reflexivity |].
         constructor; [exact Hcheck | constructor]. }
    destruct (negb (bool_decide (status_code response ∈ retryable_status))).
    { exists [Requested (now st) attempt]. split; [reflexivity |].
      constructor; [exact Hcheck | constructor]. }
    set (st1 := record (Closed attempt)
                  (advance latency (record (Requested (now st) attempt) st))).
    assert (Hlog1 : log st1 = (log st ++ [Requested (now st) attempt; Closed attempt])%list).
    { cbn. now rewrite <- app_assoc. }
    assert (Hfirst : Forall (respects d (min_time_for_attempt_ms / 1000))
                            [Requested (now st) attempt; Closed attempt]).
    { repeat constructor. exact Hcheck. }
    destruct (max_retries <=? attempt)%Z.
    { exists [Requested (now st) attempt; Closed attempt]. split; [| exact Hfirst].
      destruct (exhausted max_retries (Some response)); exact Hlog1. }
    set (s := sleep_duration py_float backoff_base attempt response).
    destruct (sleep_check (Some d) min_time_for_attempt_ms s st1) as [remaining |] eqn:Hsleep.
    { exists [Requested (now st) attempt; Closed attempt]. split; [exact Hlog1 | exact Hfirst]. }
    apply sleep_check_in_time in Hsleep.
    destruct (Qltb s 0).
    { exists [Requested (now st) attempt; Closed attempt]. split; [exact Hlog1 | exact Hfirst]. }
    destruct (IH (Some response) (advance s (record (Slept (now st1) s) st1)))
      as (events & Hlog & Hall).
    exists ([Requested (now st) attempt; Closed attempt; Slept (now st1) s] ++ events)%list.
    split.
    + rewrite Hlog. cbn [log advance record]. rewrite Hlog1, <- !app_assoc. reflexivity.
    + apply Forall_app. split; [| exact Hall].
      repeat constructor; [exact Hcheck | exact Hsleep].
Qed.

End Deadline.


Section Backoff.
Import Http HttpSpec.
Local Open Scope Q_scope.

Variable py_float : string -> option Q.
Variable transport : nat -> (Response + string) * Q.
Variable max_retries : Z.
Variable backoff_base : Q.
Variable retryable_status : list Z.
Variable deadline_epoch : option Q.
Variable min_time_for_attempt_ms : Q.

Hypothesis float_of_empty : py_float "" = None.
Hypothesis retryable : always_retryable transport retryable_status.

Let plan := stated_sleeps py_float backoff_base transport.
Let loop := attempts_loop py_float transport max_retries backoff_base retryable_status
                          deadline_epoch min_time_for_attempt_ms.

Lemma sleep_duration_stated attempt r :
  sleep_duration py_float backoff_base attempt r = stated_sleep py_float backoff_base attempt r.
Proof.
  unfold sleep_duration, stated_sleep, backoff.
  destruct (retry_after r) as [[| c s] |]; cbn; [now rewrite float_of_empty | | reflexivity].
  destruct (py_float (String c s)); reflexivity.
Qed.

Lemma sleeps_app l1 l2 : sleeps (l1 ++ l2) = (sleeps l1 ++ sleeps l2)%list.
Proof.
  induction l1 as [| ev l1 IH]; [reflexivity |].
  destruct ev; cbn; now rewrite IH.
Qed.

Lemma requests_made_record ev st :
  requests_made (record ev st) = (requests_made st + if is_request ev then 1 else 0)%nat.
Proof.
  unfold requests_made, record. cbn [log]. rewrite List.filter_app, length_app.
  cbn. destruct (is_request ev); reflexivity.
Qed.

Lemma requests_made_advance seconds st :
  requests_made (advance seconds st) = requests_made st.
Proof. reflexivity. Qed.

Lemma plan_next j r :
  response_of transport j = Some r ->
  plan (S j) = (plan j ++ [stated_sleep py_float backoff_base (Z.of_nat (S j)) r])%list.
Proof.
  intros Hr. unfold plan, stated_sleeps. rewrite seq_S, map_app. cbn [map Nat.add].
  now rewrite Hr.
Qed.

Lemma plan_member count j r :
  (j < count)%nat -> response_of transport j = Some r ->
  In (stated_sleep py_float backoff_base (Z.of_nat (S j)) r) (plan count).
Proof.
  intros Hlt Hr. unfold plan, stated_sleeps. apply in_map_iff. exists j.
  rewrite Hr. split; [reflexivity |]. apply in_seq. lia.
Qed.

(** The loop from attempt [j + 1] on, [S remaining] attempts being left. *)
Lemma attempts_loop_retryable remaining :
  forall j last st,
    requests_made st = j ->
    sleeps (log st) = plan j ->
    (Z.of_nat j + Z.of_nat (S remaining) = max_retries)%Z ->
    let run := loop (seqZ (Z.of_nat j + 1) (Z.of_nat (S remaining))) last st in
    (exists n, (n <= j + remaining)%nat /\ sleeps (log (snd run)) = plan n) /\
    (forall r a, fst run = Raised (RetryExhaustedError r a) ->
       a = max_retries /\ response_of transport (j + remaining) = Some r /\
       sleeps (log (snd run)) = plan (j + remaining) /\
       requests_made (snd run) = S (j + remaining)) /\
    (deadline_epoch = None -> Forall (fun s => 0 <= s) (plan (j + remaining)) ->
     exists r, fst run = Raised (RetryExhaustedError r max_retries)) /\
    (forall r, fst run <> Returned r).
Proof.
  induction remaining as [| remaining IH]; intros j last st Hreq Hsl Hmax run.
  all: subst run; unfold loop; rewrite seqZ_cons by lia; cbn [attempts_loop].
  all: destruct (retryable j) as (r & latency & Hresp & Hstatus).
  all: assert (Hr : response_of transport j = Some r)
         by (unfold response_of; now rewrite Hresp).
  all: destruct (attempt_check deadline_epoch min_time_for_attempt_ms st)
         as [ms |] eqn:Hcheck.
  1, 3: (cbn [fst snd]; split; [exists j; split; [lia | exact Hsl] |];
         split; [intros r' a [=] |];
         split; [intros -> _; discriminate Hcheck | intros r' [=]]).
  all: rewrite Hreq, Hresp, bool_decide_eq_true_2 by exact Hstatus; cbn [negb].
  all: set (st1 := record (Closed (Z.of_nat j + 1))
                     (advance latency (record (Requested (now st) (Z.of_nat j + 1)) st))).
  all: assert (Hreq1 : requests_made st1 = S j)
         by (subst st1;
             rewrite requests_made_record, requests_made_advance, requests_made_record, Hreq;
             cbn [is_request]; lia).
  all: assert (Hsl1 : sleeps (log st1) = plan j)
         by (subst st1; cbn [log record advance]; rewrite !sleeps_app, Hsl;
             cbn; now rewrite !app_nil_r).
  - replace (max_retries <=? Z.of_nat j + 1)%Z with true by (symmetry; apply Z.leb_le; lia).
    cbn [exhausted fst snd]. rewrite Nat.add_0_r.
    split; [exists j; split; [lia | exact Hsl1] |].
    split; [intros r' a [= <- <-]; auto |].
    split; [intros _ _; now exists r | intros r' [=]].
  - replace (max_retries <=? Z.of_nat j + 1)%Z with false by (symmetry; apply Z.leb_gt; lia).
    rewrite sleep_duration_stated.
    set (s := stated_sleep py_float backoff_base (Z.of_nat j + 1) r).
    assert (Hs : s = stated_sleep py_float backoff_base (Z.of_nat (S j)) r)
      by (subst s; f_equal; lia).
    destruct (sleep_check deadline_epoch min_time_for_attempt_ms s st1) as [ms |] eqn:Hsleep.
    { cbn [fst snd]. split; [exists j; split; [lia | exact Hsl1] |].
      split; [intros r' a [=] |].
      split; [intros -> _; discriminate Hsleep | intros r' [=]]. }
    destruct (Qltb s 0) eqn:Hneg.
    { cbn [fst snd]. split; [exists j; split; [lia | exact Hsl1] |].
      split; [intros r' a [=] |].
      split; [| intros r' [=]].
      intros _ Hall. exfalso. apply Qltb_lt in Hneg.
      rewrite Forall_forall in Hall.
      assert (Hin : In s (plan (j + S remaining))).
      { rewrite Hs. apply plan_member; [lia | exact Hr]. }
      apply list_elem_of_In, Hall in Hin. lra. }
    set (st2 := advance s (record (Slept (now st1) s) st1)).
    assert (Hreq2 : requests_made st2 = S j)
      by (subst st2; rewrite requests_made_advance, requests_made_record, Hreq1;
          cbn [is_request]; lia).
    assert (Hsl2 : sleeps (log st2) = plan (S j)).
    { subst st2. cbn [log record advance]. rewrite sleeps_app, Hsl1.
      rewrite (plan_next j r Hr), Hs. reflexivity. }
    specialize (IH (S j) (Some r) st2 Hreq2 Hsl2 ltac:(lia)).
    replace (Z.succ (Z.of_nat j + 1)) with (Z.of_nat (S j) + 1)%Z by lia.
    replace (Z.pred (Z.of_nat (S (S remaining)))) with (Z.of_nat (S remaining)) by lia.
    replace (S j + remaining)%nat with (j + S remaining)%nat in IH by lia.
    cbn zeta in IH. unfold loop in IH.
    destruct IH as ((n & Hn & Hplan) & Hexh & Hnone & Hret).
    split; [exists n; split; [lia | exact Hplan] |].
    split; [exact Hexh |]. split; [exact Hnone | exact Hret].
Qed.

End Backoff.

Section ScenarioUpstream.
Import Http HttpSpec.
Local Open Scope Q_scope.

Lemma unavailable_retryable : always_retryable unavailable _RETRYABLE_STATUS.
Proof.
  intros n. exists {| status_code := 503; retry_after := None |}, 0.
  split; [reflexivity |]. cbn. unfold _RETRYABLE_STATUS. set_solver.
Qed.

Lemma no_attempt_allowed :
  fst (request_with_retry no_float unavailable 0 (1 # 2) _RETRYABLE_STATUS None 5000 (idle 0))
  = Raised AssertionError.
Proof. reflexivity. Qed.

Lemma too_late_to_start : 6 - now (idle 2) < 5000 / 1000.
Proof. reflexivity. Qed.

Lemma backoff_nonnegative :
  Forall (fun s => 0 <= s) (stated_sleeps no_float (1 # 2) unavailable 2).
Proof. repeat constructor; vm_compute; discriminate. Qed.

End ScenarioUpstream.





(** ** The worker entry point *)



(** * Further properties *)

(** ** The lease of a claim *)

Section Lease.
Import Py Schema Core Ddb Runtime TileJobs Spec.

Lemma claim_job_needs_numbers tname m now_epoch lock w data w1 :
  valid_message m = true ->
  claim_job tname m now_epoch lock w = (Ok data, w1) ->
  numbers_accepted m = true.
Proof.
  intros Hv Hrun. destruct (numbers_accepted m) eqn:Hn; [reflexivity | exfalso].
  unfold numbers_accepted in Hn. destruct (imagery_source m) eqn:Hs; [discriminate Hn |].
  apply bool_decide_eq_false in Hn.
  assert (Hz : zoom m = None) by (destruct (zoom m); [exfalso; apply Hn; eauto | reflexivity]).
  destruct (valid_message_tile_id m Hv) as [tid Htid].
  assert (Hph : claim_expr_values m (claim_now now_epoch w) (claim_now now_epoch w + lock)
                !! ":zoom" = Some (RN "None")).
  { rewrite claim_values_zoom by assumption. now rewrite Hz. }
  destruct (db w !! tname) as [tbl |] eqn:Ht.
  - erewrite claim_job_error in Hrun;
      [discriminate Hrun
      | exact Htid
      | eapply update_item_invalid; [exact Ht | exact Hph | reflexivity]
      | reflexivity].
  - erewrite (claim_job_error _ _ _ _ _ _ _ _ (db w)) in Hrun;
      [discriminate Hrun
      | exact Htid
      | unfold update_item; cbn [TableName claim_request]; rewrite Ht; reflexivity
      | reflexivity].
Qed.

Lemma key_item_job_lookup rid tid p :
  p <> "run_id" -> p <> "tile_id" -> key_item (_job_key rid tid) !! p = None.
Proof.
  intros H1 H2. unfold key_item, _job_key. cbn [map list_to_map foldr uncurry fst snd].
  rewrite !lookup_insert_ne by congruence. apply lookup_empty.
Qed.

Lemma claim_mutation_well_typed m now lock old base :
  (forall v, base !! "s3_bucket" = Some v -> exists s, v = AS s) ->
  (forall v, base !! "s3_key" = Some v -> exists s, v = AS s) ->
  well_typed (claim_mutation m now lock old base).
Proof.
  intros Hb Hk.
  destruct (claim_mutation_fixed m now lock old base) as (Hst & Hatt & Hlk & _).
  destruct (checkpoint_fields_untouched m) as [Hnb Hnk].
  unfold well_typed. repeat split; intros v Hv.
  - rewrite Hst in Hv. injection Hv as <-. now exists PROCESSING.
  - rewrite Hatt in Hv. injection Hv as <-. eauto.
  - rewrite Hlk in Hv. injection Hv as <-. eauto.
  - rewrite claim_mutation_untouched in Hv by exact Hnb. now apply Hb.
  - rewrite claim_mutation_untouched in Hv by exact Hnk. now apply Hk.
Qed.

Lemma prior_checkpoint_typed (k : PrimaryKey) rid tid (prior : option Item) :
  k = _job_key rid tid ->
  (forall row, prior = Some row -> well_typed row) ->
  (forall v, default (key_item k) prior !! "s3_bucket" = Some v -> exists s, v = AS s) /\
  (forall v, default (key_item k) prior !! "s3_key" = Some v -> exists s, v = AS s).
Proof.
  intros -> Hty. destruct prior as [row |]; cbn [default from_option id].
  - destruct (Hty row eq_refl) as (_ & _ & _ & Hb & Hk). auto.
  - split; intros v Hl; rewrite key_item_job_lookup in Hl by discriminate; discriminate Hl.
Qed.

(** What a successful claim leaves behind. *)
Lemma claim_job_claimed_row tname m now lock w tbl tid data w1 :
  valid_message m = true -> get_tile_id m = Some tid ->
  db w !! tname = Some tbl ->
  let k := _job_key (run_id m) tid in
  let prior := tbl !! k in
  (forall row, prior = Some row -> well_typed row) ->
  claim_job tname m (Some now) lock w = (Ok data, w1) ->
  result data = CLAIMED ->
  let row' := claim_mutation m now lock (default ∅ prior) (default (key_item k) prior) in
  w1 = with_db w (<[ tname := <[ k := row' ]> tbl ]> (db w)) /\
  attempt data = Some (attempts_or_zero (default ∅ prior) + 1) /\
  well_typed row'.
Proof.
  intros Hv Htid Ht k prior Hty Hrun Hres row'.
  pose proof (claim_job_needs_numbers _ _ _ _ _ _ _ Hv Hrun) as Hn.
  pose proof (claim_update_decided tname m now lock (db w) tbl tid Hv Hn Ht Hty) as Hup.
  fold k prior in Hup. cbn zeta in Hup. fold row' in Hup.
  destruct (prior_checkpoint_typed k (run_id m) tid prior eq_refl Hty) as [Hb Hk].
  destruct (claimable_b (default ∅ prior) now) eqn:Hc.
  - rewrite (claim_job_accepted tname m (Some now) lock w tid _ _ Htid Hup) in Hrun.
    unfold claim_now in Hrun. cbn [default from_option id] in Hrun. subst row'.
    rewrite (claimed_mutation tid m now lock _ _ Hb Hk) in Hrun.
    injection Hrun as <- <-. split; [reflexivity |]. split; [reflexivity |].
    now apply claim_mutation_well_typed.
  - exfalso. rewrite (claim_job_rejected tname m (Some now) lock w tid _ _ Htid Hup) in Hrun.
    destruct (_get_job_status tname (run_id m) tid w) as [[cur | e] w''].
    + injection Hrun as <- _. cbn in Hres. destruct cur as [[] |]; discriminate Hres.
    + discriminate Hrun.
Qed.

Lemma claimable_b_processing row now :
  row !! "status" = Some (AS "PROCESSING") ->
  forall l, row !! "lock_until_epoch" = Some (AN (num_of_int l)) ->
  claimable_b row now = (l <? now).
Proof.
  intros Hs l Hl. unfold claimable_b. rewrite Hs, Hl, num_ltb_int. reflexivity.
Qed.

End Lease.

(** X1: the lock of a claim is a lease.  After a claim at [now] with
    [lock_seconds], a further claim of the same message at any time up to
    and including [now + lock_seconds] is answered LOCKED_BY_OTHER and
    writes nothing; a claim strictly after that time takes the job over,
    with one attempt more. *)
Theorem claim_job_lease tname m now lock now2 lock2 w tbl tid data w1 :
  Schema.valid_message m = true ->
  Schema.get_tile_id m = Some tid ->
  Runtime.db w !! tname = Some tbl ->
  (forall row, tbl !! TileJobs._job_key (Schema.run_id m) tid = Some row ->
               Spec.well_typed row) ->
  TileJobs.claim_job tname m (Some now) lock w = (Core.Ok data, w1) ->
  Schema.result data = Schema.CLAIMED ->
  (now2 <= now + lock ->
   TileJobs.claim_job tname m (Some now2) lock2 w1 =
   (Core.Ok {| Schema.result := Schema.LOCKED_BY_OTHER; Schema.tile_id := tid;
               Schema.attempt := None; Schema.claimed_at_epoch := None;
               Schema.checkpoint := None |}, w1)) /\
  (now + lock < now2 ->
   exists n data2 w2,
     Schema.attempt data = Some n /\
     TileJobs.claim_job tname m (Some now2) lock2 w1 = (Core.Ok data2, w2) /\
     Schema.result data2 = Schema.CLAIMED /\
     Schema.attempt data2 = Some (n + 1) /\
     Schema.claimed_at_epoch data2 = Some now2).
Proof.
  intros Hv Htid Ht Hty Hrun Hres.
  destruct (claim_job_claimed_row tname m now lock w tbl tid data w1 Hv Htid Ht Hty Hrun Hres)
    as (Hw1 & Hatt & Hty').
  pose proof (claim_job_needs_numbers _ _ _ _ _ _ _ Hv Hrun) as Hn.
  set (k := TileJobs._job_key (Schema.run_id m) tid) in *.
  set (prior := tbl !! k) in *.
  set (row' := Spec.claim_mutation m now lock (default ∅ prior)
                 (default (Ddb.key_item k) prior)) in *.
  assert (Ht1 : Runtime.db w1 !! tname = Some (<[ k := row' ]> tbl)).
  { rewrite Hw1. cbn [Runtime.db Spec.with_db]. apply lookup_insert_eq. }
  assert (Hrow1 : <[ k := row' ]> tbl !! k = Some row') by apply lookup_insert_eq.
  assert (Hty1 : forall row, <[ k := row' ]> tbl !! k = Some row -> Spec.well_typed row).
  { intros row. rewrite Hrow1. now intros [= <-]. }
  pose proof (claim_update_decided tname m now2 lock2 (Runtime.db w1) _ tid Hv Hn Ht1 Hty1)
    as Hup.
  fold k in Hup. cbn zeta in Hup. rewrite Hrow1 in Hup. cbn [default from_option id] in Hup.
  destruct (claim_mutation_fixed m now lock (default ∅ prior) (default (Ddb.key_item k) prior))
    as (Hst & Hatt' & Hlk & _).
  fold row' in Hst, Hatt', Hlk.
  rewrite (claimable_b_processing row' now2 Hst _ Hlk) in Hup.
  split.
  - intros Hle. replace (now + lock <? now2) with false in Hup
      by (symmetry; apply Z.ltb_ge; exact Hle).
    rewrite (claim_job_rejected tname m (Some now2) lock2 w1 tid _ _ Htid Hup).
    destruct (get_job_status_typed tname (Schema.run_id m) tid w1 _ Ht1)
      as (current & Hget & Hcur).
    { intros row v. fold k. rewrite Hrow1. intros [= <-] Hs.
      destruct Hty' as (Htys & _). now apply Htys. }
    rewrite Hget.
    assert (Hp : current = Some Schema.PROCESSING).
    { apply Hcur. exists row'. fold k. split; [exact Hrow1 | exact Hst]. }
    rewrite Hp. reflexivity.
  - intros Hlt. replace (now + lock <? now2) with true in Hup
      by (symmetry; apply Z.ltb_lt; exact Hlt).
    rewrite (claim_job_accepted tname m (Some now2) lock2 w1 tid _ _ Htid Hup).
    unfold Spec.claim_now. cbn [default from_option id].
    destruct Hty' as (_ & _ & _ & Hb & Hk).
    rewrite (claimed_mutation tid m now2 lock2 row' row' Hb Hk).
    eexists _, _, _. split; [exact Hatt |]. split; [reflexivity |].
    split; [reflexivity |]. split; [| reflexivity].
    cbn [Schema.attempt]. f_equal. unfold Spec.attempts_or_zero at 1.
    rewrite Hatt', num_trunc_int. reflexivity.
Qed.

(** ** A completed tile is processed once *)

Section StoreUpdates.
Import Py Schema Core Ddb Runtime TileJobs Spec.

Lemma validate_values_inv (vs : gmap string ReqVal) vals :
  validate_values vs = Some vals -> vals = omap validate vs.
Proof. unfold validate_values. destruct (decide _); [now intros [= <-] | discriminate]. Qed.

(** An accepted update, taken apart. *)
Lemma update_item_ok_inv req d attrs d' :
  update_item req d = (Ok attrs, d') ->
  exists tbl new,
    d !! TableName req = Some tbl /\
    is_Some (validate_values (ExpressionAttributeValues req)) /\
    apply_actions (ExpressionAttributeNames req)
                  (omap validate (ExpressionAttributeValues req))
                  (default ∅ (tbl !! Key req)) (UpdateExpression req)
                  (default (key_item (Key req)) (tbl !! Key req)) = Some new /\
    attrs = returned (ReturnValues req) (ExpressionAttributeNames req)
                     (UpdateExpression req) new /\
    d' = <[ TableName req := <[ Key req := new ]> tbl ]> d.
Proof.
  unfold update_item. intros H.
  destruct (d !! TableName req) as [tbl |]; [| discriminate H].
  destruct (validate_values _) as [vals |] eqn:Hvals; [| discriminate H].
  apply validate_values_inv in Hvals as Hv. subst vals.
  destruct (match ConditionExpression req with Some _ => _ | None => _ end) as [[|] |];
    [| discriminate H | discriminate H].
  destruct (apply_actions _ _ _ _ _) as [new |] eqn:Hrun; [| discriminate H].
  injection H as <- <-. exists tbl, new. repeat split; eauto.
Qed.

(** An update leaves every other row, and every other table, as it was. *)
Lemma update_item_other_rows req d r d' tn tbl k :
  update_item req d = (r, d') ->
  d !! tn = Some tbl ->
  tn <> TableName req \/ k <> Key req ->
  exists tbl', d' !! tn = Some tbl' /\ tbl' !! k = tbl !! k.
Proof.
  intros Hup Ht Hother. destruct r as [attrs | e].
  - destruct (update_item_ok_inv _ _ _ _ Hup) as (tbl0 & new & Ht0 & _ & _ & _ & ->).
    destruct (decide (tn = TableName req)) as [-> | Hne].
    + rewrite Ht in Ht0. injection Ht0 as <-. rewrite lookup_insert_eq.
      eexists. split; [reflexivity |].
      destruct Hother as [Hx | Hk]; [congruence |]. now rewrite lookup_insert_ne by congruence.
    + rewrite lookup_insert_ne by congruence. eauto.
  - rewrite (update_item_raise_unchanged _ _ _ _ Hup). eauto.
Qed.

(** The attribute an update sets first keeps the value set when no
    later action of the update writes it. *)
Lemma apply_actions_first_set names vals old path ph rest acc new p v :
  apply_actions names vals old (ASet path (OVal ph) :: rest) acc = Some new ->
  resolve names path = Some p -> vals !! ph = Some v ->
  Forall (fun a => action_path names a <> Some p) rest ->
  new !! p = Some v.
Proof.
  intros Hrun Hp Hv Hrest. rewrite (apply_set_val _ _ _ _ _ _ _ _ _ Hp Hv) in Hrun.
  rewrite (apply_actions_untouched _ _ _ _ _ Hrest _ _ Hrun). apply lookup_insert_eq.
Qed.

End StoreUpdates.

Section Monad.
Import Core Runtime.

Lemma bind_ok_inv {A B} (c : M A) (k : A -> M B) w b w' :
  bind c k w = (Ok b, w') -> exists a w1, c w = (Ok a, w1) /\ k a w1 = (Ok b, w').
Proof.
  unfold bind. destruct (c w) as [[a | e] w1]; [eauto | discriminate].
Qed.

Lemma try_except_ok_inv {A} (c : M A) (h : Exn -> M A) w b w' :
  (forall e w0 a, fst (h e w0) <> Ok a) ->
  try_except c h w = (Ok b, w') -> c w = (Ok b, w').
Proof.
  intros Hh. unfold try_except. destruct (c w) as [[a | e] w1]; [auto |].
  intros H. exfalso. apply (Hh e w1 b). now rewrite H.
Qed.

Lemma then_raise_not_ok {A B} (c : M A) e w (b : B) :
  fst ((c ;;; raise e) w) <> Ok b.
Proof. unfold bind, raise. destruct (c w) as [[a | e'] w1]; discriminate. Qed.

End Monad.

Section Completion.
Import Py Schema Core Ddb Runtime TileJobs Runs Errors Config S3 Processor Spec.

(** A completed job: the row holds the status COMPLETED. *)
Lemma complete_job_completes tname rid tid b k sa re us cl fi w w' :
  complete_job tname rid tid b k sa re us cl fi w = (Ok tt, w') ->
  exists tbl new,
    db w !! tname = Some tbl /\
    db w' = <[ tname := <[ _job_key rid tid := new ]> tbl ]> (db w) /\
    new !! "status" = Some (AS "COMPLETED").
Proof.
  unfold complete_job. intros H.
  apply bind_ok_inv in H as (finished & w0 & Hfin & H).
  assert (Hw0 : w0 = w) by (destruct fi; injection Hfin as _ <-; reflexivity).
  subst w0. clear Hfin.
  destruct sa as [sa |], re as [re |], us as [us |], cl as [cl |].
  all: apply bind_ok_inv in H as (attrs & w1 & Hup & Hret).
  all: injection Hret as <-.
  all: unfold on_db in Hup.
  all: match type of Hup with
       | (let '(_, _) := update_item ?req _ in _) = _ =>
           destruct (update_item req (db w)) as [r d] eqn:Hreq
       end.
  all: injection Hup as -> <-.
  all: destruct (update_item_ok_inv _ _ _ _ Hreq) as (tbl & new & Ht & _ & Hrun & _ & ->).
  all: cbn [TableName Key UpdateExpression ExpressionAttributeNames
            ExpressionAttributeValues app] in Ht, Hrun |- *.
  all: exists tbl, new; split; [exact Ht |]; split; [reflexivity |].
  all: eapply apply_actions_first_set; [exact Hrun | reflexivity | |].
  all: try (rewrite lookup_omap; repeat (rewrite lookup_insert_ne by discriminate);
            rewrite lookup_insert_eq; reflexivity).
  all: repeat (apply Forall_cons; split; [vm_compute; discriminate |]).
  all: apply Forall_nil; exact I.
Qed.

Lemma claim_update_rejected tname m tid now lock d tbl row st :
  valid_message m = true -> numbers_accepted m = true ->
  d !! tname = Some tbl ->
  tbl !! _job_key (run_id m) tid = Some row ->
  row !! "status" = Some (AS st) ->
  st <> "PENDING" -> st <> "FAILED" -> st <> "PROCESSING" ->
  update_item (claim_request tname m tid now (now + lock)) d =
  (Raise (ClientError "ConditionalCheckFailedException" "The conditional request failed"), d).
Proof.
  intros Hv Hn Ht Hrow Hst Hp Hf Hpr. unfold update_item.
  cbn [TableName Key UpdateExpression ExpressionAttributeNames ExpressionAttributeValues
       ConditionExpression ReturnValues claim_request].
  rewrite Ht, (claim_values_valid m now (now + lock) Hv Hn), Hrow.
  cbn [default from_option id].
  destruct (stored_common m now (now + lock)) as (Hproc & Hpend & Hfail & Hnow & _).
  rewrite (claim_condition_eval _ _ _ now (claim_names_status m) Hproc Hpend Hfail Hnow).
  unfold claimable_b. rewrite Hst. cbn [attr_eqb].
  apply String.eqb_neq in Hp, Hf, Hpr. rewrite Hp, Hf, Hpr. reflexivity.
Qed.

Lemma get_job_status_of_row tname rid tid w tbl row st :
  db w !! tname = Some tbl ->
  tbl !! _job_key rid tid = Some row ->
  row !! "status" = Some (AS (JobStatus_value st)) ->
  _get_job_status tname rid tid w = (Ok (Some st), w).
Proof.
  intros Ht Hrow Hst. unfold _get_job_status, get_item. rewrite Ht.
  change (resolve {[ "#status" := "status" ]} "#status") with (Some "status").
  rewrite Hrow. cbn [option_map]. rewrite Hst, lookup_singleton_eq, JobStatus_of_value.
  reflexivity.
Qed.

Lemma update_run_counters_other_rows tname rid c f w r w' tn tbl k :
  update_run_counters tname rid c f w = (r, w') ->
  db w !! tn = Some tbl ->
  k <> [("run_id", rid)] ->
  exists tbl', db w' !! tn = Some tbl' /\ tbl' !! k = tbl !! k.
Proof.
  unfold update_run_counters. destruct (_ && _).
  - intros [= _ <-]. eauto.
  - unfold on_db.
    match goal with
    | |- (let '(_, _) := update_item ?req _ in _) = _ -> _ =>
        destruct (update_item req (db w)) as [r0 d] eqn:Hreq
    end.
    intros [= _ <-] Ht Hk. cbn [db].
    eapply update_item_other_rows; [exact Hreq | exact Ht | right; exact Hk].
Qed.

(** A run of the processor that returns [completed] ends with the row
    of the tile COMPLETED. *)
Lemma process_tile_completed_row svc m config remaining w r w' tid :
  get_tile_id m = Some tid ->
  process_tile svc m config remaining w = (Ok r, w') ->
  pr_status r = PS_completed ->
  exists tbl row,
    db w' !! tilejobs_table config = Some tbl /\
    tbl !! _job_key (run_id m) tid = Some row /\
    row !! "status" = Some (AS "COMPLETED").
Proof.
  intros Htid Hrun Hdone. unfold process_tile in Hrun.
  apply bind_ok_inv in Hrun as (tid' & w0 & Hens & Hrun).
  unfold _ensure_tile_id in Hens. rewrite Htid in Hens. injection Hens as <- <-.
  apply bind_ok_inv in Hrun as (data & w1 & Hclaim & Hrun).
  destruct (result data).
  2: { injection Hrun as <- _. discriminate Hdone. }
  2: { discriminate Hrun. }
  apply try_except_ok_inv in Hrun; [| intros e w2 a; apply then_raise_not_ok].
  apply bind_ok_inv in Hrun as ([[image bucket] key] & w2 & _ & Hrun).
  apply bind_ok_inv in Hrun as (_u & w3 & _ & Hrun).
  apply bind_ok_inv in Hrun as ([[status_ai reasoning] usage] & w4 & _ & Hrun).
  apply bind_ok_inv in Hrun as ([] & w5 & Hcomplete & Hrun).
  apply bind_ok_inv in Hrun as (counters & w6 & Hcount & Hrun).
  injection Hrun as _ <-.
  destruct (complete_job_completes _ _ _ _ _ _ _ _ _ _ _ _ Hcomplete)
    as (tbl & new & _ & Hdb5 & Hst).
  assert (Ht5 : db w5 !! tilejobs_table config
                = Some (<[ _job_key (run_id m) tid := new ]> tbl))
    by (rewrite Hdb5; apply lookup_insert_eq).
  destruct (update_run_counters_other_rows _ _ _ _ _ _ _ _ _ (_job_key (run_id m) tid)
              Hcount Ht5) as (tbl6 & Ht6 & Hrow6); [discriminate |].
  exists tbl6, new. split; [exact Ht6 |]. split; [| exact Hst].
  rewrite Hrow6. apply lookup_insert_eq.
Qed.

End Completion.


(** ** The time budget and the error codes *)

Section Budget.
Import Py Schema Core Ddb Runtime TileJobs Runs Errors Config S3 Processor Spec Footprint.

Lemma adds_quiet {A} (P : Event -> Prop) (c : M A) : quiet c -> adds_only P c.
Proof. intros Hq w. exists []. rewrite app_nil_r. split; [apply Hq | constructor]. Qed.

Lemma adds_bind {A B} (P : Event -> Prop) (c : M A) (k : A -> M B) :
  adds_only P c -> (forall a, adds_only P (k a)) -> adds_only P (bind c k).
Proof.
  intros Hc Hk w. unfold bind. destruct (Hc w) as (ev1 & Ht1 & Hp1).
  destruct (c w) as [[a | e] w1]; cbn [snd] in *.
  - destruct (Hk a w1) as (ev2 & Ht2 & Hp2). exists (ev1 ++ ev2)%list.
    rewrite Ht2, Ht1, app_assoc. split; [reflexivity | now apply Forall_app].
  - exists ev1. auto.
Qed.

Lemma adds_try {A} (P : Event -> Prop) (c : M A) (h : Exn -> M A) :
  adds_only P c -> (forall e, adds_only P (h e)) -> adds_only P (try_except c h).
Proof.
  intros Hc Hh w. unfold try_except. destruct (Hc w) as (ev1 & Ht1 & Hp1).
  destruct (c w) as [[a | e] w1]; cbn [snd] in *.
  - exists ev1. auto.
  - destruct (Hh e w1) as (ev2 & Ht2 & Hp2). exists (ev1 ++ ev2)%list.
    rewrite Ht2, Ht1, app_assoc. split; [reflexivity | now apply Forall_app].
Qed.

Lemma adds_call {A} (P : Event -> Prop) ev (oracle : nat -> Result A * Z) :
  P ev -> adds_only P (call ev oracle).
Proof.
  intros Hp w. unfold call, external. destruct (oracle _) as [r dt]. cbn [snd trace].
  exists [ev]. split; [reflexivity | repeat constructor; exact Hp].
Qed.

Lemma adds_raise_first {A B} (P : Event -> Prop) e (k : A -> M B) :
  adds_only P (bind (raise e) k).
Proof. intros w. exists []. rewrite app_nil_r. split; [reflexivity | constructor]. Qed.

Lemma adds_upload P svc image bucket rid src zz xx yy la lo zm :
  (forall b k, P (EvUpload b k)) ->
  adds_only P (upload_tile_image svc image bucket rid src zz xx yy la lo zm).
Proof.
  intros Hp. unfold upload_tile_image. apply adds_bind.
  - apply adds_quiet. destruct src.
    + destruct zz, xx, yy; first [apply quiet_ret | apply quiet_raise].
    + destruct la, lo; first [apply quiet_ret | apply quiet_raise].
  - intros key. apply adds_bind; [apply adds_call, Hp |].
    intros _. apply adds_quiet, quiet_ret.
Qed.

(** The imagery of a claimed job, from the checkpoint or from the
    provider: no call to the vision model. *)
Lemma adds_imagery svc m config tid (cp : option (string * string)) :
  adds_only not_analysis
    (match cp with
     | Some (s3_bucket, s3_key) =>
         image_bytes <- _download_from_checkpoint svc s3_bucket s3_key ;;
         ret (image_bytes, s3_bucket, s3_key)
     | None =>
         image_bytes <- _fetch_imagery svc m config ;;
         uploaded <- _upload_to_s3 svc m image_bytes config ;;
         checkpoint_s3 (tilejobs_table config) (run_id m) tid (fst uploaded) (snd uploaded) ;;;
         ret (image_bytes, fst uploaded, snd uploaded)
     end).
Proof.
  destruct cp as [[b k] |].
  - apply adds_bind; [apply adds_call; discriminate |].
    intros image. apply adds_quiet, quiet_ret.
  - apply adds_bind; [apply adds_call; discriminate |].
    intros image. apply adds_bind.
    { unfold _upload_to_s3. destruct (imagery_source m); apply adds_upload; discriminate. }
    intros uploaded. apply adds_bind; [apply adds_quiet, quiet_checkpoint_s3 |].
    intros _. apply adds_quiet, quiet_ret.
Qed.

End Budget.

(** X3: the time budget.  With fewer than 20000 ms left, the processor
    never calls the vision model, whatever the job state and the
    collaborators, and never returns [completed]: it skips a completed
    job or raises. *)
Theorem process_tile_short_of_time svc m config r :
  r < Processor.MIN_REMAINING_MS_FOR_OPENAI ->
  Footprint.adds_only Footprint.not_analysis (Processor.process_tile svc m config (Some r)) /\
  forall w res w',
    Processor.process_tile svc m config (Some r) w = (Core.Ok res, w') ->
    Schema.pr_status res = Schema.PS_skipped.
Proof.
  intros Hr. apply Z.ltb_lt in Hr. split.
  - unfold Processor.process_tile.
    apply adds_bind; [apply adds_quiet, quiet_ensure_tile_id |]. intros tid.
    apply adds_bind; [apply adds_quiet, quiet_claim_job |]. intros cr.
    destruct (Schema.result cr).
    + apply adds_try.
      * apply adds_bind; [apply adds_imagery |].
        intros [[image bucket] key]. rewrite Hr. apply adds_raise_first.
      * intros e. apply adds_quiet, quiet_failure_handler.
    + apply adds_quiet, quiet_ret.
    + apply adds_quiet, quiet_raise.
  - intros w res w' Hrun. unfold Processor.process_tile in Hrun.
    apply bind_ok_inv in Hrun as (tid & w0 & _ & Hrun).
    apply bind_ok_inv in Hrun as (data & w1 & _ & Hrun).
    destruct (Schema.result data).
    + exfalso.
      apply try_except_ok_inv in Hrun; [| intros e w2 a; apply then_raise_not_ok].
      apply bind_ok_inv in Hrun as ([[image bucket] key] & w2 & _ & Hrun).
      rewrite Hr in Hrun. discriminate Hrun.
    + injection Hrun as <- _. reflexivity.
    + discriminate Hrun.
Qed.

Section FailureCodes.
Import Py Schema Core Ddb Runtime TileJobs Runs Errors Config S3 Processor Spec Footprint.

Lemma http_status_code_known source status_code :
  exists code,
    error_code_from_http_status (source_value source) status_code = Ok code /\
    In code recordable_codes.
Proof.
  unfold error_code_from_http_status.
  destruct source; cbn [source_value];
    destruct (status_code =? 429);
    [| destruct ((500 <=? status_code) && (status_code <? 600));
       [| destruct ((400 <=? status_code) && (status_code <? 500));
          [destruct (status_code =? 400) |]] | |
     destruct ((500 <=? status_code) && (status_code <? 600));
       [| destruct ((400 <=? status_code) && (status_code <? 500));
          [destruct (status_code =? 400) |]]].
  all: eexists; split; [vm_compute; reflexivity | cbn; tauto].
Qed.

Lemma exception_code_known exc :
  exists code, _exception_to_error_code exc = Ok code /\ In code recordable_codes.
Proof.
  destruct exc as [c msg | msg | msg | msg | msg | msg | msg | src [st |] msg att | msg
                  | name msg]; cbn [_exception_to_error_code];
    try match goal with
        | |- context [if ?b then _ else _] =>
            destruct b; eexists; (split; [reflexivity | cbn; tauto])
        end.
  - eexists; split; [reflexivity | cbn; tauto].
  - apply http_status_code_known.
  - destruct src; eexists; (split; [vm_compute; reflexivity | cbn; tauto]).
  - eexists; split; [reflexivity | cbn; tauto].
Qed.

End FailureCodes.

(** X4: the error code of a failure.  Every exception maps to a member
    of the [ErrorCode] enumeration, the construction of the member from
    its text never failing; the code is one of fourteen, so that
    [S3_GET_FAILED], [RETRY_EXHAUSTED] and the other members are never
    recorded by the processor. *)
Theorem exception_to_error_code_total exc :
  exists code,
    Processor._exception_to_error_code exc = Core.Ok code /\
    In code Footprint.recordable_codes /\
    In code Errors.ErrorCode_values /\
    code <> "S3_GET_FAILED" /\ code <> "RETRY_EXHAUSTED" /\ code <> "CLAIM_FAILED" /\
    code <> "SCHEMA_INVALID" /\ code <> "MESSAGE_PARSE_ERROR".
Proof.
  destruct (exception_code_known exc) as (code & Hcode & Hin).
  exists code. split; [exact Hcode |]. split; [exact Hin |].
  cbn in Hin.
  repeat (destruct Hin as [<- | Hin];
          [split; [cbn; tauto | repeat split; discriminate] |]).
  destruct Hin.
Qed.

(** ** The rows that [fail_job] and [complete_job] leave *)

Section JobUpdates.
Import Py Schema Core Ddb Runtime TileJobs Runs Errors Config S3 Processor Spec Footprint Rows.

Ltac stored_value :=
  rewrite lookup_omap; repeat (rewrite lookup_insert_ne by discriminate);
  rewrite lookup_insert_eq; cbn [mbind option_bind];
  first [reflexivity | unfold N_of_int; apply validate_RN_str_int].

Ltac values_accepted :=
  repeat (apply map_Forall_insert_2;
          [first [unfold N_of_int; rewrite validate_RN_str_int | idtac];
           (eexists; reflexivity) |]);
  apply map_Forall_empty.

Lemma fail_job_ok tname rid tid code msg fin w tbl :
  db w !! tname = Some tbl ->
  let k := _job_key rid tid in
  let base := default (key_item k) (tbl !! k) in
  exists attrs,
    fail_job tname rid tid code msg fin w =
    (Ok attrs,
     with_db w (<[ tname := <[ k := failed_row base (default (clock w) fin) code msg ]> tbl ]>
                  (db w))).
Proof.
  intros Ht k base. unfold fail_job.
  assert (Hfin : (match fin with Some n => ret n | None => time_time end) w
                 = (Ok (default (clock w) fin), w)) by (destruct fin; reflexivity).
  rewrite (bind_ok _ _ _ _ _ Hfin). unfold on_db, update_item.
  cbn [TableName Key UpdateExpression ExpressionAttributeNames ExpressionAttributeValues
       ConditionExpression ReturnValues].
  rewrite Ht. rewrite validate_values_Some by values_accepted.
  fold k. fold base.
  erewrite apply_set_val; [| reflexivity | stored_value].
  erewrite apply_set_val; [| reflexivity | stored_value].
  erewrite apply_set_val; [| reflexivity | stored_value].
  erewrite apply_set_val; [| reflexivity | stored_value].
  cbn [apply_actions]. eexists. reflexivity.
Qed.

Lemma failed_row_untouched base finished code msg p :
  ~ In p fail_touched -> failed_row base finished code msg !! p = base !! p.
Proof.
  unfold fail_touched, failed_row. cbn [In]. intros Hp.
  repeat (rewrite lookup_insert_ne by (intros <-; apply Hp; tauto)). reflexivity.
Qed.

Lemma complete_job_ok tname rid tid b k sa re us cl fi w tbl :
  db w !! tname = Some tbl ->
  let key := _job_key rid tid in
  let base := default (key_item key) (tbl !! key) in
  complete_job tname rid tid b k sa re us cl fi w =
  (Ok tt,
   with_db w (<[ tname := <[ key := completed_row base (default (clock w) fi) b k sa re us cl ]>
                            tbl ]> (db w))).
Proof.
  intros Ht key base. unfold complete_job.
  assert (Hfin : (match fi with Some n => ret n | None => time_time end) w
                 = (Ok (default (clock w) fi), w)) by (destruct fi; reflexivity).
  rewrite (bind_ok _ _ _ _ _ Hfin).
  destruct sa as [sa |], re as [re |], us as [us |], cl as [cl |].
  all: unfold bind, on_db, update_item.
  all: cbn [TableName Key UpdateExpression ExpressionAttributeNames ExpressionAttributeValues
            ConditionExpression ReturnValues app].
  all: rewrite Ht; rewrite validate_values_Some by values_accepted.
  all: fold key; fold base.
  all: repeat (erewrite apply_set_val; [| reflexivity | stored_value]).
  all: reflexivity.
Qed.

Lemma completed_row_untouched base finished b k sa re us cl p :
  ~ In p complete_touched -> completed_row base finished b k sa re us cl !! p = base !! p.
Proof.
  unfold complete_touched, completed_row, set_opt. cbn [In]. intros Hp.
  destruct sa, re, us, cl; cbn [option_map];
    repeat (rewrite lookup_insert_ne by (intros <-; apply Hp; tauto)); reflexivity.
Qed.

End JobUpdates.

(** X5: a failure, recorded.  On an existing table [fail_job] never
    raises and is unconditional: whatever the row held, a COMPLETED
    status included, it leaves the status FAILED, the end time (the clock
    when none is given), the error code and the message, and every other
    attribute as it was, so that the checkpoint and the attempts
    survive. *)
Theorem fail_job_records tname rid tid code msg fin w tbl :
  Runtime.db w !! tname = Some tbl ->
  let k := TileJobs._job_key rid tid in
  let base := default (Ddb.key_item k) (tbl !! k) in
  let row' := Footprint.failed_row base (default (Runtime.clock w) fin) code msg in
  (exists attrs,
     TileJobs.fail_job tname rid tid code msg fin w =
     (Core.Ok attrs, Spec.with_db w (<[ tname := <[ k := row' ]> tbl ]> (Runtime.db w)))) /\
  row' !! "status" = Some (Ddb.AS "FAILED") /\
  row' !! "finished_at_epoch"
    = Some (Ddb.AN (Ddb.num_of_int (default (Runtime.clock w) fin))) /\
  row' !! "error_code" = Some (Ddb.AS code) /\
  row' !! "error_message" = Some (Ddb.AS msg) /\
  (forall p, ~ In p Rows.fail_touched -> row' !! p = base !! p) /\
  Spec.stored_checkpoint row' = Spec.stored_checkpoint base.
Proof.
  intros Ht k base row'. split; [apply fail_job_ok; exact Ht |].
  assert (Hun : forall p, ~ In p Rows.fail_touched -> row' !! p = base !! p)
    by (intros p; apply failed_row_untouched).
  repeat split; try exact Hun.
  - subst row'. unfold Footprint.failed_row.
    repeat (rewrite lookup_insert_ne by discriminate). apply lookup_insert_eq.
  - subst row'. unfold Footprint.failed_row.
    repeat (rewrite lookup_insert_ne by discriminate). apply lookup_insert_eq.
  - subst row'. unfold Footprint.failed_row.
    repeat (rewrite lookup_insert_ne by discriminate). apply lookup_insert_eq.
  - subst row'. unfold Footprint.failed_row. apply lookup_insert_eq.
  - unfold Spec.stored_checkpoint. rewrite !Hun; [reflexivity | |];
      cbn; intros H; repeat (destruct H as [H | H]; [discriminate H |]); exact H.
Qed.

(** X6: a completion, recorded.  On an existing table [complete_job]
    never raises and is unconditional: whatever the row held, it leaves
    the status COMPLETED, the end time, the stored object, the verdict,
    the reasoning and the usage where given, and the duration
    [(finished - claimed) * 1000] when the claim time is given; every
    other attribute is as it was. *)
Theorem complete_job_records tname rid tid b k sa re us cl fi w tbl :
  Runtime.db w !! tname = Some tbl ->
  let key := TileJobs._job_key rid tid in
  let base := default (Ddb.key_item key) (tbl !! key) in
  let finished := default (Runtime.clock w) fi in
  let row' := Rows.completed_row base finished b k sa re us cl in
  TileJobs.complete_job tname rid tid b k sa re us cl fi w =
    (Core.Ok tt, Spec.with_db w (<[ tname := <[ key := row' ]> tbl ]> (Runtime.db w))) /\
  row' !! "status" = Some (Ddb.AS "COMPLETED") /\
  row' !! "finished_at_epoch" = Some (Ddb.AN (Ddb.num_of_int finished)) /\
  row' !! "s3_bucket" = Some (Ddb.AS b) /\
  row' !! "s3_key" = Some (Ddb.AS k) /\
  (forall c, cl = Some c ->
             row' !! "duration_ms" = Some (Ddb.AN (Ddb.num_of_int ((finished - c) * 1000)))) /\
  (forall p, ~ In p Rows.complete_touched -> row' !! p = base !! p).
Proof.
  intros Ht key base finished row'. split; [apply complete_job_ok; exact Ht |].
  subst row'. unfold Rows.completed_row, Rows.set_opt.
  repeat split.
  1-4: destruct sa, re, us, cl; cbn [option_map];
       repeat (rewrite lookup_insert_ne by discriminate); apply lookup_insert_eq.
  - intros c ->. cbn [option_map]. apply lookup_insert_eq.
  - intros p Hp. apply (completed_row_untouched base finished b k sa re us cl p Hp).
Qed.

(** ** The counters of a run and the failure path *)

Section Counters.
Import Py Schema Core Ddb Runtime TileJobs Runs Errors Config S3 Processor Spec Footprint Rows.

Lemma prior_lookup (prior : option Item) name :
  default ∅ prior !! name = prior ≫= fun it : Item => it !! name.
Proof. destruct prior; [reflexivity | apply lookup_empty]. Qed.

Lemma apply_add_counter vals prior acc p ph d rest :
  resolve ∅ p = Some p ->
  vals !! ph = Some (AN (num_of_int d)) ->
  (forall v, default ∅ prior !! p = Some v -> exists n, v = AN (num_of_int n)) ->
  apply_actions ∅ vals (default ∅ prior) (AAdd p ph :: rest) acc =
  apply_actions ∅ vals (default ∅ prior) rest
    (<[ p := AN (num_of_int (counter prior p + d)) ]> acc).
Proof.
  intros Hp Hv Hty. cbn [apply_actions apply_action]. rewrite Hp. cbn [mbind option_bind].
  rewrite Hv. cbn [mbind option_bind]. unfold counter. rewrite <- prior_lookup.
  destruct (default ∅ prior !! p) as [v |] eqn:Hold.
  - destruct (Hty v eq_refl) as [n ->]. cbn [mbind option_bind].
    now rewrite num_add_int, num_trunc_int.
  - cbn [mbind option_bind]. now rewrite Z.add_0_l.
Qed.

Lemma update_run_counters_ok tname rid c f w tbl :
  db w !! tname = Some tbl ->
  let k := [("run_id", rid)] in
  let prior := tbl !! k in
  counters_typed prior ->
  (c =? 0) && (f =? 0) = false ->
  exists attrs,
    update_run_counters tname rid c f w =
    (Ok attrs,
     with_db w (<[ tname := <[ k := counted_row prior (default (key_item k) prior) c f ]> tbl ]>
                  (db w))).
Proof.
  intros Ht k prior Hty Hnz. unfold update_run_counters. rewrite Hnz.
  unfold on_db, update_item.
  cbn [TableName Key UpdateExpression ExpressionAttributeNames ExpressionAttributeValues
       ConditionExpression ReturnValues].
  rewrite Ht. rewrite validate_values_Some.
  2: { repeat (apply map_Forall_insert_2;
               [unfold N_of_int; rewrite validate_RN_str_int; (eexists; reflexivity) |]).
       apply map_Forall_empty. }
  fold k. fold prior.
  assert (Htyped : forall p, p = "completed_tiles" \/ p = "failed_tiles" ->
            forall v, default ∅ prior !! p = Some v -> exists n, v = AN (num_of_int n)).
  { intros p Hp v Hv. rewrite prior_lookup in Hv.
    destruct prior as [it |] eqn:Hprior; [| discriminate Hv].
    exact (Hty it p v eq_refl Hp Hv). }
  erewrite (apply_add_counter _ prior _ "completed_tiles" ":c" c);
    [| reflexivity | | apply Htyped; auto].
  2: { rewrite lookup_omap, lookup_insert_ne, lookup_insert_eq by discriminate.
       cbn [mbind option_bind]. unfold N_of_int. apply validate_RN_str_int. }
  erewrite (apply_add_counter _ prior _ "failed_tiles" ":f" f);
    [| reflexivity | | apply Htyped; auto].
  2: { rewrite lookup_omap, lookup_insert_eq.
       cbn [mbind option_bind]. unfold N_of_int. apply validate_RN_str_int. }
  cbn [apply_actions]. eexists. reflexivity.
Qed.

Lemma counted_row_counters prior base c f :
  counter (Some (counted_row prior base c f)) "completed_tiles"
    = counter prior "completed_tiles" + c /\
  counter (Some (counted_row prior base c f)) "failed_tiles"
    = counter prior "failed_tiles" + f.
Proof.
  unfold counter at 1 3, counted_row. cbn [mbind option_bind]. split.
  - rewrite lookup_insert_ne, lookup_insert_eq by discriminate. apply num_trunc_int.
  - rewrite lookup_insert_eq. apply num_trunc_int.
Qed.

Lemma row_of_updated (d : Db) (tname : string) (tbl : Table) (k : PrimaryKey) (row : Item) :
  row_of (<[ tname := <[ k := row ]> tbl ]> d) tname k = Some row.
Proof.
  unfold row_of. rewrite lookup_insert_eq. cbn [mbind option_bind]. apply lookup_insert_eq.
Qed.

Lemma row_of_other (d : Db) (tname : string) (tbl : Table) (k : PrimaryKey) (row : Item)
    (tn : string) (k' : PrimaryKey) :
  d !! tname = Some tbl -> tn <> tname \/ k' <> k ->
  row_of (<[ tname := <[ k := row ]> tbl ]> d) tn k' = row_of d tn k'.
Proof.
  intros Ht Hother. unfold row_of. destruct (decide (tn = tname)) as [-> | Hne].
  - rewrite lookup_insert_eq, Ht. cbn [mbind option_bind].
    destruct Hother as [H | H]; [congruence |]. apply lookup_insert_ne. congruence.
  - now rewrite lookup_insert_ne by congruence.
Qed.

End Counters.

(** X7: the counters of a run.  On an existing table whose counters are
    integers where present, [update_run_counters] never raises and adds
    exactly its deltas: afterwards each counter is its value before (0
    when the row or the counter is missing) plus the delta; with both
    deltas zero nothing is sent to the store and the world is as it was,
    else the row is created when missing. *)
Theorem update_run_counters_adds tname rid c f w tbl :
  Runtime.db w !! tname = Some tbl ->
  let k := [("run_id", rid)] in
  let prior := tbl !! k in
  Footprint.counters_typed prior ->
  exists attrs w',
    Runs.update_run_counters tname rid c f w = (Core.Ok attrs, w') /\
    Footprint.counter (Footprint.row_of (Runtime.db w') tname k) "completed_tiles"
      = Footprint.counter prior "completed_tiles" + c /\
    Footprint.counter (Footprint.row_of (Runtime.db w') tname k) "failed_tiles"
      = Footprint.counter prior "failed_tiles" + f /\
    (c = 0 /\ f = 0 -> w' = w /\ attrs = ∅) /\
    (~ (c = 0 /\ f = 0) ->
     Footprint.row_of (Runtime.db w') tname k
       = Some (Rows.counted_row prior (default (Ddb.key_item k) prior) c f)).
Proof.
  intros Ht k prior Hty.
  destruct ((c =? 0) && (f =? 0)) eqn:Hz.
  - apply andb_prop in Hz as [Hc%Z.eqb_eq Hf%Z.eqb_eq]. subst c f.
    exists ∅, w. unfold Runs.update_run_counters. cbn [Z.eqb andb].
    unfold Footprint.row_of. rewrite Ht. cbn [mbind option_bind]. fold prior.
    repeat split; try lia; tauto.
  - destruct (update_run_counters_ok tname rid c f w tbl Ht Hty Hz) as [attrs Hrun].
    fold k prior in Hrun. eexists attrs, _. split; [exact Hrun |].
    cbn [Runtime.db Spec.with_db]. rewrite row_of_updated.
    destruct (counted_row_counters prior (default (Ddb.key_item k) prior) c f) as [Hc Hf].
    split; [exact Hc |]. split; [exact Hf |]. split; [| reflexivity].
    intros [-> ->]. discriminate Hz.
Qed.

Section FailurePath.
Import Py Schema Core Ddb Runtime TileJobs Runs Errors Config S3 Processor Spec Footprint Rows.

Lemma handle_failure_ok exc m config w tid :
  get_tile_id m = Some tid ->
  exists code w',
    _exception_to_error_code exc = Ok code /\
    _handle_failure exc m config w = (Ok tt, w') /\
    w' = snd ((fail_job (tilejobs_table config) (run_id m) tid code
                        (take 500 (exn_str exc)) None ;;;
               update_run_counters (runs_table config) (run_id m) 0 1 ;;;
               ret tt) w).
Proof.
  intros Htid. destruct (exception_code_known exc) as (code & Hcode & _).
  exists code. unfold _handle_failure, _ensure_tile_id. rewrite Htid, Hcode.
  unfold bind at 1, ret at 1. unfold bind at 1, lift. unfold try_except.
  destruct ((fail_job _ _ _ _ _ _ ;;; _) w) as [[[] | e] w'] eqn:Hrun;
    eexists; (split; [reflexivity |]); split; reflexivity.
Qed.

End FailurePath.

(** X8: the failure path never fails.  For a message that has a tile
    identity, [_handle_failure] returns normally on every exception and in
    every world, a missing table or a rejected write included, and makes
    no external call. *)
Theorem handle_failure_never_raises exc m config w :
  Schema.valid_message m = true ->
  exists w',
    Processor._handle_failure exc m config w = (Core.Ok tt, w') /\
    Runtime.trace w' = Runtime.trace w.
Proof.
  intros Hv. destruct (valid_message_tile_id m Hv) as [tid Htid].
  destruct (handle_failure_ok exc m config w tid Htid) as (code & w' & _ & Hrun & _).
  exists w'. split; [exact Hrun |].
  pose proof (quiet_handle_failure exc m config w) as Hq. now rewrite Hrun in Hq.
Qed.

(** ** Failures after the claim *)

Section Tables.
Import Py Schema Core Ddb Runtime TileJobs Runs Errors Config S3 Processor Spec Footprint Rows.

Lemma keeps_ret {A} (a : A) : keeps_tables (ret a).
Proof. intros w tn H. exact H. Qed.

Lemma keeps_raise {A} e : keeps_tables (@raise A e).
Proof. intros w tn H. exact H. Qed.

Lemma keeps_time : keeps_tables time_time.
Proof. intros w tn H. exact H. Qed.

Lemma keeps_call {A} ev (oracle : nat -> Result A * Z) : keeps_tables (call ev oracle).
Proof. intros w tn H. unfold call, external. destruct (oracle _). exact H. Qed.

Lemma keeps_bind {A B} (c : M A) (k : A -> M B) :
  keeps_tables c -> (forall a, keeps_tables (k a)) -> keeps_tables (bind c k).
Proof.
  intros Hc Hk w tn H. unfold bind. specialize (Hc w tn H).
  destruct (c w) as [[a | e] w1]; cbn [snd] in *; [now apply Hk | exact Hc].
Qed.

Lemma keeps_update req : keeps_tables (on_db (update_item req)).
Proof.
  intros w tn H. unfold on_db. destruct (update_item req (db w)) as [r d] eqn:Hup.
  cbn [snd db]. destruct r as [attrs | e].
  - destruct (update_item_ok_inv _ _ _ _ Hup) as (tbl & new & _ & _ & _ & _ & ->).
    destruct (decide (tn = TableName req)) as [-> | Hne].
    + rewrite lookup_insert_eq. eauto.
    + now rewrite lookup_insert_ne by congruence.
  - now rewrite (update_item_raise_unchanged _ _ _ _ Hup).
Qed.

Lemma keeps_complete_job tname rid tid b k sa re us cl fi :
  keeps_tables (complete_job tname rid tid b k sa re us cl fi).
Proof.
  unfold complete_job. apply keeps_bind.
  { destruct fi; [apply keeps_ret | apply keeps_time]. }
  intros f. destruct sa, re, us, cl;
    (apply keeps_bind; [apply keeps_update | intros _; apply keeps_ret]).
Qed.

Lemma keeps_update_run_counters tname rid c f :
  keeps_tables (update_run_counters tname rid c f).
Proof.
  unfold update_run_counters. destruct (_ && _); [apply keeps_ret | apply keeps_update].
Qed.

Lemma keeps_upload svc image bucket rid src zz xx yy la lo zm :
  keeps_tables (upload_tile_image svc image bucket rid src zz xx yy la lo zm).
Proof.
  unfold upload_tile_image. apply keeps_bind.
  - destruct src.
    + destruct zz, xx, yy; first [apply keeps_ret | apply keeps_raise].
    + destruct la, lo; first [apply keeps_ret | apply keeps_raise].
  - intros key. apply keeps_bind; [apply keeps_call | intros _; apply keeps_ret].
Qed.

(** The work of the processor on a claimed job drops no table. *)
Lemma keeps_claimed_work svc m config remaining tid data :
  keeps_tables
    (got <- match _get_s3_checkpoint (checkpoint data) with
            | Some (s3_bucket, s3_key) =>
                image_bytes <- _download_from_checkpoint svc s3_bucket s3_key ;;
                ret (image_bytes, s3_bucket, s3_key)
            | None =>
                image_bytes <- _fetch_imagery svc m config ;;
                uploaded <- _upload_to_s3 svc m image_bytes config ;;
                checkpoint_s3 (tilejobs_table config) (run_id m) tid
                              (fst uploaded) (snd uploaded) ;;;
                ret (image_bytes, fst uploaded, snd uploaded)
            end ;;
     let '(image_bytes, s3_bucket, s3_key) := got in
     match remaining with
     | Some r =>
         if r <? MIN_REMAINING_MS_FOR_OPENAI
         then raise (TimeoutError "aborting before OpenAI call")
         else ret tt
     | None => ret tt
     end ;;;
     analysis <- _analyze_with_openai svc image_bytes config ;;
     let '(status_ai, reasoning, usage_dict) := analysis in
     complete_job (tilejobs_table config) (run_id m) tid s3_bucket s3_key
                  (Some status_ai) (Some reasoning) (Some usage_dict)
                  (claimed_at_epoch data) None ;;;
     update_run_counters (runs_table config) (run_id m) 1 0 ;;;
     ret {| pr_status := PS_completed; pr_tile_id := Some tid;
            pr_status_ai := Some status_ai; pr_s3_key := Some s3_key;
            pr_reason := None |}).
Proof.
  apply keeps_bind.
  - destruct (_get_s3_checkpoint (checkpoint data)) as [[b k] |].
    + apply keeps_bind; [apply keeps_call | intros image; apply keeps_ret].
    + apply keeps_bind; [apply keeps_call |]. intros image. apply keeps_bind.
      { unfold _upload_to_s3. destruct (imagery_source m); apply keeps_upload. }
      intros uploaded. apply keeps_bind; [apply keeps_update | intros _; apply keeps_ret].
  - intros [[image b] k]. apply keeps_bind.
    { destruct remaining as [r |]; [destruct (r <? _) |];
        first [apply keeps_ret | apply keeps_raise]. }
    intros _. apply keeps_bind; [apply keeps_call |].
    intros [[sa re] us]. apply keeps_bind; [apply keeps_complete_job |].
    intros _. apply keeps_bind; [apply keeps_update_run_counters | intros _; apply keeps_ret].
Qed.

End Tables.


(** ** What a completed run has done *)

Section CompletedRun.
Import Py Schema Core Ddb Runtime TileJobs Runs Errors Config S3 Processor Spec Footprint Rows.

Lemma call_ok_inv {A} ev (oracle : nat -> Result A * Z) w a w' :
  call ev oracle w = (Ok a, w') -> trace w' = (trace w ++ [ev])%list /\ db w' = db w.
Proof.
  unfold call, external. destruct (oracle _) as [r dt]. intros [= _ <-]. split; reflexivity.
Qed.

Lemma upload_ok_inv svc image bucket rid src zz xx yy la lo zm w uploaded w' :
  upload_tile_image svc image bucket rid src zz xx yy la lo zm w = (Ok uploaded, w') ->
  fst uploaded = bucket /\
  trace w' = (trace w ++ [EvUpload bucket (snd uploaded)])%list.
Proof.
  unfold upload_tile_image. intros H.
  apply bind_ok_inv in H as (key & w0 & Hkey & H).
  assert (Hw0 : w0 = w).
  { destruct src; [destruct zz, xx, yy | destruct la, lo];
      first [discriminate Hkey | injection Hkey as _ <-; reflexivity]. }
  subst w0. apply bind_ok_inv in H as ([] & w1 & Hput & H).
  injection H as <- <-. apply call_ok_inv in Hput as [Htr _]. split; [reflexivity | exact Htr].
Qed.

End CompletedRun.

(** X10: what a completed run has done.  When the processor returns
    [completed], it has obtained the image in exactly one of two ways, by
    one download of the checkpointed object or by one fetch from the
    provider followed by one upload to the bucket of the configuration,
    and has then called the vision model exactly once; the key it returns
    is the key of that object, and the row of the job is COMPLETED and
    names that object. *)
Theorem process_tile_completed_trace svc m config remaining w r w' :
  Processor.process_tile svc m config remaining w = (Core.Ok r, w') ->
  Schema.pr_status r = Schema.PS_completed ->
  exists tid b k row events,
    Schema.get_tile_id m = Some tid /\
    Schema.pr_tile_id r = Some tid /\
    Schema.pr_s3_key r = Some k /\
    Runtime.trace w' = (Runtime.trace w ++ events)%list /\
    (events = [Runtime.EvDownload b k; Runtime.EvAnalyze] \/
     (b = Config.s3_bucket config /\
      events = [Runtime.EvFetch (Schema.imagery_source m); Runtime.EvUpload b k;
                Runtime.EvAnalyze])) /\
    Footprint.row_of (Runtime.db w') (Config.tilejobs_table config)
                     (TileJobs._job_key (Schema.run_id m) tid) = Some row /\
    row !! "status" = Some (Ddb.AS "COMPLETED") /\
    row !! "s3_bucket" = Some (Ddb.AS b) /\
    row !! "s3_key" = Some (Ddb.AS k).
Proof.
  intros Hrun Hdone. unfold Processor.process_tile in Hrun.
  apply bind_ok_inv in Hrun as (tid & w0 & Hens & Hrun).
  unfold TileJobs._ensure_tile_id in Hens.
  destruct (Schema.get_tile_id m) as [tid' |] eqn:Htid; [| discriminate Hens].
  injection Hens as -> <-.
  apply bind_ok_inv in Hrun as (data & w1 & Hclaim & Hrun).
  assert (Htr1 : Runtime.trace w1 = Runtime.trace w).
  { pose proof (quiet_claim_job (Config.tilejobs_table config) m None
                  (Config.job_stale_lock_seconds config) w) as Hq.
    now rewrite Hclaim in Hq. }
  destruct (Schema.result data).
  2: { injection Hrun as <- _. discriminate Hdone. }
  2: { discriminate Hrun. }
  apply try_except_ok_inv in Hrun; [| intros e w2 a; apply then_raise_not_ok].
  apply bind_ok_inv in Hrun as ([[image b] k] & w2 & Hgot & Hrun).
  apply bind_ok_inv in Hrun as (_u & w3 & Hcheck & Hrun).
  assert (Hw3 : w3 = w2).
  { destruct remaining as [rem |]; [destruct (rem <? _) |];
      first [discriminate Hcheck | injection Hcheck as _ <-; reflexivity]. }
  subst w3. clear Hcheck.
  apply bind_ok_inv in Hrun as ([[status_ai reasoning] usage] & w4 & Hvision & Hrun).
  apply call_ok_inv in Hvision as [Htr4 _].
  apply bind_ok_inv in Hrun as ([] & w5 & Hcomplete & Hrun).
  apply bind_ok_inv in Hrun as (counters & w6 & Hcount & Hrun).
  injection Hrun as <- <-.
  assert (Htr5 : Runtime.trace w5 = Runtime.trace w4).
  { pose proof (quiet_complete_job (Config.tilejobs_table config) (Schema.run_id m) tid b k
                  (Some status_ai) (Some reasoning) (Some usage)
                  (Schema.claimed_at_epoch data) None w4) as Hq.
    now rewrite Hcomplete in Hq. }
  assert (Htr6 : Runtime.trace w6 = Runtime.trace w5).
  { pose proof (quiet_update_run_counters (Config.runs_table config) (Schema.run_id m) 1 0 w5)
      as Hq.
    now rewrite Hcount in Hq. }
  destruct (complete_job_completes _ _ _ _ _ _ _ _ _ _ _ _ Hcomplete)
    as (tbl & new0 & Ht4 & _ & _).
  rewrite (complete_job_ok _ _ _ _ _ _ _ _ _ _ _ _ Ht4) in Hcomplete.
  cbn zeta in Hcomplete. injection Hcomplete as Hw5.
  set (key := TileJobs._job_key (Schema.run_id m) tid) in *.
  set (row := Rows.completed_row _ _ _ _ _ _ _ _) in Hw5.
  destruct (update_run_counters_other_rows _ _ _ _ _ _ _ (Config.tilejobs_table config)
              (<[ key := row ]> tbl) key Hcount) as (tbl6 & Ht6 & Hrow6).
  { rewrite <- Hw5. cbn [Runtime.db Spec.with_db]. apply lookup_insert_eq. }
  { discriminate. }
  assert (Hrow : Footprint.row_of (Runtime.db w6) (Config.tilejobs_table config) key
                 = Some row).
  { unfold Footprint.row_of. rewrite Ht6. cbn [mbind option_bind].
    rewrite Hrow6. apply lookup_insert_eq. }
  assert (Hfields : row !! "status" = Some (Ddb.AS "COMPLETED") /\
                    row !! "s3_bucket" = Some (Ddb.AS b) /\
                    row !! "s3_key" = Some (Ddb.AS k)).
  { subst row. unfold Rows.completed_row, Rows.set_opt.
    destruct (Schema.claimed_at_epoch data); cbn [option_map];
      repeat split; repeat (rewrite lookup_insert_ne by discriminate);
      apply lookup_insert_eq. }
  destruct Hfields as (Hst & Hb & Hk).
  destruct (Processor._get_s3_checkpoint (Schema.checkpoint data)) as [[cb ck] |].
  - apply bind_ok_inv in Hgot as (image' & w2' & Hdown & Hret).
    injection Hret as _ <- <- <-.
    apply call_ok_inv in Hdown as [Htr2 _].
    exists tid, cb, ck, row, [Runtime.EvDownload cb ck; Runtime.EvAnalyze].
    repeat split; try assumption; try reflexivity.
    + rewrite Htr6, Htr5, Htr4, Htr2, Htr1, <- app_assoc. reflexivity.
    + now left.
  - apply bind_ok_inv in Hgot as (image' & wa & Hfetch & Hgot).
    apply call_ok_inv in Hfetch as [Htra _].
    apply bind_ok_inv in Hgot as (uploaded & wb & Hupload & Hgot).
    apply bind_ok_inv in Hgot as (cattrs & wc & Hcp & Hret).
    injection Hret as _ Hbk Hkk <-. subst b k.
    assert (Htrc : Runtime.trace wc = Runtime.trace wb).
    { pose proof (quiet_checkpoint_s3 (Config.tilejobs_table config) (Schema.run_id m) tid
                    (fst uploaded) (snd uploaded) wb) as Hq.
      now rewrite Hcp in Hq. }
    assert (Hup : fst uploaded = Config.s3_bucket config /\
                  Runtime.trace wb
                  = (Runtime.trace wa ++ [Runtime.EvUpload (Config.s3_bucket config)
                                                           (snd uploaded)])%list).
    { unfold Processor._upload_to_s3 in Hupload.
      destruct (Schema.imagery_source m); eapply upload_ok_inv; exact Hupload. }
    destruct Hup as [Hfst Htrb].
    exists tid, (fst uploaded), (snd uploaded), row,
      [Runtime.EvFetch (Schema.imagery_source m);
       Runtime.EvUpload (fst uploaded) (snd uploaded); Runtime.EvAnalyze].
    repeat split; try assumption; try reflexivity.
    + rewrite Htr6, Htr5, Htr4, Htrc, Htrb, Htra, Htr1, Hfst, <- !app_assoc. reflexivity.
    + right. split; [exact Hfst | reflexivity].
Qed.

(** ** The tile identity tells tiles apart *)

Section Texts.
Import Py Schema Spec Text.

Lemma all_chars_app p a b : all_chars p (a +:+ b) = all_chars p a && all_chars p b.
Proof.
  unfold all_chars. induction a as [| c a IH]; [reflexivity |].
  change (String c a +:+ b) with (String c (a +:+ b)).
  cbn [list_ascii_of_string forallb]. rewrite IH. apply andb_assoc.
Qed.

Lemma all_chars_weaken (p q : ascii -> bool) s :
  (forall c, p c = true -> q c = true) -> all_chars p s = true -> all_chars q s = true.
Proof.
  intros Hpq. unfold all_chars. induction s as [| c s IH]; [reflexivity |].
  cbn. intros H. apply andb_prop in H as [Hc Hs]. now rewrite (Hpq c Hc), IH.
Qed.

Lemma uint_digits d : all_chars is_digit (NilEmpty.string_of_uint d) = true.
Proof. unfold all_chars. induction d; cbn; try rewrite IHd; reflexivity. Qed.

Lemma str_int_numeric n : all_chars numeric (str_int n) = true.
Proof.
  assert (Hu : forall d, all_chars numeric (NilZero.string_of_uint d) = true).
  { intros d. unfold NilZero.string_of_uint. destruct d; try reflexivity.
    all: apply (all_chars_weaken is_digit); [| apply (uint_digits (_ d))].
    all: intros c Hc; unfold numeric; now rewrite Hc. }
  unfold str_int, NilZero.string_of_int. destruct (Z.to_int n) as [d | d].
  - apply Hu.
  - change (all_chars numeric (String "-" (NilZero.string_of_uint d)))
      with (numeric "-" && all_chars numeric (NilZero.string_of_uint d)).
    now rewrite Hu.
Qed.

Lemma str_int_first n : exists c r, str_int n = String c r /\ numeric c = true.
Proof.
  pose proof (str_int_numeric n) as Hall.
  destruct (str_int n) as [| c r] eqn:Hs.
  - exfalso. pose proof (parse_int_str_int n) as Hp. rewrite Hs in Hp.
    pose proof (to_int_not_nil n) as [Hnil _].
    unfold Ddb.parse_int in Hp. cbn in Hp.
    unfold str_int, NilZero.string_of_int, NilZero.string_of_uint in Hs.
    destruct (Z.to_int n) as [[] | []]; discriminate Hs.
  - exists c, r. split; [reflexivity |]. unfold all_chars in Hall. cbn in Hall.
    now apply andb_prop in Hall as [Hc _].
Qed.

Lemma str_int_inj a b : str_int a = str_int b -> a = b.
Proof.
  intros H. pose proof (parse_int_str_int a) as Ha. rewrite H, parse_int_str_int in Ha.
  now injection Ha.
Qed.

Lemma numeric_lacks sep s :
  numeric sep = false -> all_chars numeric s = true -> lacks sep s = true.
Proof.
  intros Hsep. apply all_chars_weaken. intros c Hc.
  destruct (Ascii.eqb_spec c sep) as [-> |]; [congruence | reflexivity].
Qed.

Lemma fixed_lacks sep s :
  fixed_char sep = false -> all_chars fixed_char s = true -> lacks sep s = true.
Proof.
  intros Hsep. apply all_chars_weaken. intros c Hc.
  destruct (Ascii.eqb_spec c sep) as [-> |]; [congruence | reflexivity].
Qed.

Lemma numeric_fixed s : all_chars numeric s = true -> all_chars fixed_char s = true.
Proof. apply all_chars_weaken. intros c Hc. unfold fixed_char. now rewrite Hc. Qed.

Lemma zero_pad_fixed width n : all_chars fixed_char (zero_pad width n) = true.
Proof.
  apply (all_chars_weaken is_digit); [| apply zero_pad_digits].
  intros c Hc. unfold fixed_char, numeric. now rewrite Hc.
Qed.

Lemma format_fixed_chars digits x : all_chars fixed_char (format_fixed digits x) = true.
Proof.
  assert (Hsign : forall s, all_chars fixed_char (sign_str s) = true) by (intros []; reflexivity).
  assert (Hmag : forall s n, all_chars fixed_char (fixed_of_magnitude digits s n) = true).
  { intros s n. unfold fixed_of_magnitude.
    rewrite !all_chars_app, Hsign, (numeric_fixed _ (str_int_numeric _)).
    destruct digits; [reflexivity |]. rewrite all_chars_app, zero_pad_fixed. reflexivity. }
  destruct x as [s | s | | s mm e]; cbn [format_fixed].
  - apply Hmag.
  - rewrite all_chars_app, Hsign. reflexivity.
  - reflexivity.
  - apply Hmag.
Qed.

(** Two texts cut at the first occurrence of a separator. *)
Lemma cut_at sep a a' r r' :
  lacks sep a = true -> lacks sep a' = true ->
  a +:+ String sep r = a' +:+ String sep r' -> a = a' /\ r = r'.
Proof.
  unfold lacks, all_chars. revert a'. induction a as [| c a IH]; intros [| c' a'] Ha Ha' H.
  - cbn in H. injection H as ->. auto.
  - cbn in H, Ha'. injection H as <- _. rewrite Ascii.eqb_refl in Ha'. discriminate Ha'.
  - cbn in H, Ha. injection H as -> _. rewrite Ascii.eqb_refl in Ha. discriminate Ha.
  - cbn in H, Ha, Ha'. injection H as <- H.
    apply andb_prop in Ha as [_ Ha]. apply andb_prop in Ha' as [_ Ha'].
    destruct (IH a' Ha Ha' H) as [-> ->]. auto.
Qed.

Lemma append_cancel_l a s s' : a +:+ s = a +:+ s' -> s = s'.
Proof. induction a as [| c a IH]; cbn; [auto | intros [= H]; auto]. Qed.

Lemma mapbox_ids_cut z1 x1 y1 z2 x2 y2 :
  str_int z1 +:+ "/" +:+ str_int x1 +:+ "/" +:+ str_int y1 =
  str_int z2 +:+ "/" +:+ str_int x2 +:+ "/" +:+ str_int y2 ->
  z1 = z2 /\ x1 = x2 /\ y1 = y2.
Proof.
  intros H.
  apply (cut_at "/") in H as [Hz H];
    [| apply numeric_lacks; [reflexivity | apply str_int_numeric] ..].
  apply (cut_at "/") in H as [Hx Hy];
    [| apply numeric_lacks; [reflexivity | apply str_int_numeric] ..].
  apply str_int_inj in Hz, Hx, Hy. auto.
Qed.

Lemma coord_ids_cut a1 b1 z1 a2 b2 z2 :
  all_chars fixed_char a1 = true -> all_chars fixed_char a2 = true ->
  all_chars fixed_char b1 = true -> all_chars fixed_char b2 = true ->
  "coord:" +:+ a1 +:+ "," +:+ b1 +:+ "," +:+ str_int z1 =
  "coord:" +:+ a2 +:+ "," +:+ b2 +:+ "," +:+ str_int z2 ->
  a1 = a2 /\ b1 = b2 /\ z1 = z2.
Proof.
  intros Ha1 Ha2 Hb1 Hb2 H. apply (append_cancel_l "coord:") in H.
  apply (cut_at ",") in H as [Ha H]; [| apply fixed_lacks; [reflexivity | assumption] ..].
  apply (cut_at ",") in H as [Hb Hz]; [| apply fixed_lacks; [reflexivity | assumption] ..].
  apply str_int_inj in Hz. auto.
Qed.

End Texts.

Section Identity.
Import Py Schema Core Ddb Runtime TileJobs Config S3 Processor Spec Text.

Lemma tile_ids_apart m1 m2 :
  valid_message m1 = true -> valid_message m2 = true ->
  get_tile_id m1 = get_tile_id m2 ->
  match imagery_source m1, imagery_source m2 with
  | Mapbox, Mapbox => z m1 = z m2 /\ x m1 = x m2 /\ y m1 = y m2
  | Google, Google =>
      option_map (format_fixed 6) (lat m1) = option_map (format_fixed 6) (lat m2) /\
      option_map (format_fixed 6) (lon m1) = option_map (format_fixed 6) (lon m2) /\
      get_zoom m1 = get_zoom m2
  | _, _ => False
  end.
Proof.
  intros Hv1 Hv2 Hid. unfold get_tile_id in Hid.
  destruct (imagery_source m1) eqn:Hs1, (imagery_source m2) eqn:Hs2.
  - destruct (valid_mapbox_fields m1 Hv1 Hs1) as (z1 & x1 & y1 & Hz1 & Hx1 & Hy1).
    destruct (valid_mapbox_fields m2 Hv2 Hs2) as (z2 & x2 & y2 & Hz2 & Hx2 & Hy2).
    rewrite Hz1, Hx1, Hy1, Hz2, Hx2, Hy2 in *. cbn [str_opt_int] in Hid.
    injection Hid as Hid. apply mapbox_ids_cut in Hid as (-> & -> & ->). auto.
  - exfalso.
    destruct (valid_mapbox_fields m1 Hv1 Hs1) as (z1 & x1 & y1 & Hz1 & Hx1 & Hy1).
    destruct (valid_google_fields m2 Hv2 Hs2) as (la & lo & Hla & Hlo & _).
    rewrite Hz1, Hla, Hlo in Hid. cbn [str_opt_int] in Hid. injection Hid as Hid.
    destruct (str_int_first z1) as (c & r & Hc & Hnum). rewrite Hc in Hid.
    unfold tile_id_for_coords in Hid. cbn in Hid. injection Hid as -> _. discriminate Hnum.
  - exfalso.
    destruct (valid_mapbox_fields m2 Hv2 Hs2) as (z1 & x1 & y1 & Hz1 & Hx1 & Hy1).
    destruct (valid_google_fields m1 Hv1 Hs1) as (la & lo & Hla & Hlo & _).
    rewrite Hz1, Hla, Hlo in Hid. cbn [str_opt_int] in Hid. injection Hid as Hid.
    destruct (str_int_first z1) as (c & r & Hc & Hnum). rewrite Hc in Hid.
    unfold tile_id_for_coords in Hid. cbn in Hid. injection Hid as <- _. discriminate Hnum.
  - destruct (valid_google_fields m1 Hv1 Hs1) as (la1 & lo1 & Hla1 & Hlo1 & _).
    destruct (valid_google_fields m2 Hv2 Hs2) as (la2 & lo2 & Hla2 & Hlo2 & _).
    rewrite Hla1, Hlo1, Hla2, Hlo2 in *. apply (inj Some) in Hid.
    fold (get_zoom m1) in Hid. fold (get_zoom m2) in Hid.
    unfold tile_id_for_coords, COORD_TILE_ID_PRECISION in Hid.
    apply coord_ids_cut in Hid as (Ha & Hb & Hz); try apply format_fixed_chars.
    cbn [option_map]. rewrite Ha, Hb. auto.
Qed.

End Identity.

(** X11: the tile identity tells tiles apart.  Two valid messages with the
    same tile identity are of the same provider; for the tile provider
    they have the same z, x and y, and for the coord provider the same
    latitude and longitude texts on six decimals and the same effective
    zoom.  An identity of one provider is never an identity of the
    other. *)
Theorem get_tile_id_separates m1 m2 :
  Schema.valid_message m1 = true -> Schema.valid_message m2 = true ->
  Schema.get_tile_id m1 = Schema.get_tile_id m2 ->
  Schema.imagery_source m1 = Schema.imagery_source m2 /\
  (Schema.imagery_source m1 = Schema.Mapbox ->
   Schema.z m1 = Schema.z m2 /\ Schema.x m1 = Schema.x m2 /\ Schema.y m1 = Schema.y m2) /\
  (Schema.imagery_source m1 = Schema.Google ->
   option_map (Py.format_fixed 6) (Schema.lat m1)
     = option_map (Py.format_fixed 6) (Schema.lat m2) /\
   option_map (Py.format_fixed 6) (Schema.lon m1)
     = option_map (Py.format_fixed 6) (Schema.lon m2) /\
   Schema.get_zoom m1 = Schema.get_zoom m2).
Proof.
  intros Hv1 Hv2 Hid. pose proof (tile_ids_apart m1 m2 Hv1 Hv2 Hid) as H.
  destruct (Schema.imagery_source m1), (Schema.imagery_source m2); try contradiction.
  - split; [reflexivity |]. split; [auto | discriminate].
  - split; [reflexivity |]. split; [discriminate | auto].
Qed.

(** ** The object of a tile *)

Section ObjectKey.
Import Py Schema Core Ddb Runtime TileJobs Config S3 Processor Spec Text.

Lemma upload_to_s3_key svc m image config w u w' :
  _upload_to_s3 svc m image config w = (Ok u, w') ->
  match imagery_source m with
  | Mapbox =>
      exists zz xx yy, z m = Some zz /\ x m = Some xx /\ y m = Some yy /\
        u = (s3_bucket config, mapbox_tile_key (run_id m) zz xx yy "jpg")
  | Google =>
      exists la lo, lat m = Some la /\ lon m = Some lo /\
        u = (s3_bucket config,
             google_coord_key (run_id m) la lo (Some (get_zoom m)) "png")
  end.
Proof.
  unfold _upload_to_s3, upload_tile_image. intros H.
  destruct (imagery_source m).
  - destruct (z m) as [zz |], (x m) as [xx |], (y m) as [yy |];
      try (apply bind_ok_inv in H as (key & w0 & Hkey & _); discriminate Hkey).
    apply bind_ok_inv in H as (key & w0 & Hkey & H). injection Hkey as <- <-.
    apply bind_ok_inv in H as ([] & w1 & _ & H). injection H as <- _.
    exists zz, xx, yy. auto.
  - destruct (lat m) as [la |], (lon m) as [lo |];
      try (apply bind_ok_inv in H as (key & w0 & Hkey & _); discriminate Hkey).
    apply bind_ok_inv in H as (key & w0 & Hkey & H). injection Hkey as <- <-.
    apply bind_ok_inv in H as ([] & w1 & _ & H). injection H as <- _.
    exists la, lo. auto.
Qed.

Lemma mapbox_keys_cut rid z1 x1 y1 z2 x2 y2 :
  mapbox_tile_key rid z1 x1 y1 "jpg" = mapbox_tile_key rid z2 x2 y2 "jpg" ->
  z1 = z2 /\ x1 = x2 /\ y1 = y2.
Proof.
  unfold mapbox_tile_key. intros H.
  apply (append_cancel_l "runs/"), (append_cancel_l rid), (append_cancel_l "/tiles/z=") in H.
  apply (cut_at "/") in H as [Hz H];
    [| apply numeric_lacks; [reflexivity | apply str_int_numeric] ..].
  apply (append_cancel_l "x=") in H.
  apply (cut_at "/") in H as [Hx H];
    [| apply numeric_lacks; [reflexivity | apply str_int_numeric] ..].
  apply (append_cancel_l "y=") in H.
  apply (cut_at ".") in H as [Hy _];
    [| apply numeric_lacks; [reflexivity | apply str_int_numeric] ..].
  apply str_int_inj in Hz, Hx, Hy. auto.
Qed.

Lemma coord_keys_cut rid la1 lo1 zm1 la2 lo2 zm2 :
  google_coord_key rid la1 lo1 (Some zm1) "png" = google_coord_key rid la2 lo2 (Some zm2) "png" ->
  format_fixed 6 la1 = format_fixed 6 la2 /\ format_fixed 6 lo1 = format_fixed 6 lo2 /\
  zm1 = zm2.
Proof.
  unfold google_coord_key, COORD_TILE_ID_PRECISION. intros H.
  apply (append_cancel_l "runs/"), (append_cancel_l rid), (append_cancel_l "/coords/lat=") in H.
  apply (cut_at "/") in H as [Ha H];
    [| apply fixed_lacks; [reflexivity | apply format_fixed_chars] ..].
  apply (append_cancel_l "lon=") in H.
  apply (cut_at "/") in H as [Hb H];
    [| apply fixed_lacks; [reflexivity | apply format_fixed_chars] ..].
  apply (append_cancel_l "z=") in H.
  apply (cut_at ".") in H as [Hz _];
    [| apply numeric_lacks; [reflexivity | apply str_int_numeric] ..].
  apply str_int_inj in Hz. auto.
Qed.

End ObjectKey.

(** X12: the object of a tile.  Within a run, the object under which the
    image of a message is uploaded is as canonical as the tile identity:
    two valid messages of the same run are uploaded to the same bucket
    and key exactly when they have the same tile identity, so that a
    retry overwrites the object of its tile and no two tiles share an
    object. *)
Theorem upload_key_canonical svc1 svc2 m1 m2 image1 image2 config w1 w2 u1 u2 w1' w2' :
  Schema.valid_message m1 = true -> Schema.valid_message m2 = true ->
  Schema.run_id m1 = Schema.run_id m2 ->
  Processor._upload_to_s3 svc1 m1 image1 config w1 = (Core.Ok u1, w1') ->
  Processor._upload_to_s3 svc2 m2 image2 config w2 = (Core.Ok u2, w2') ->
  (u1 = u2 <-> Schema.get_tile_id m1 = Schema.get_tile_id m2).
Proof.
  intros Hv1 Hv2 Hrid Hu1 Hu2.
  apply upload_to_s3_key in Hu1, Hu2. rewrite <- Hrid in Hu2.
  split.
  - intros Heq. unfold Schema.get_tile_id.
    destruct (Schema.imagery_source m1), (Schema.imagery_source m2).
    + destruct Hu1 as (z1 & x1 & y1 & -> & -> & -> & ->).
      destruct Hu2 as (z2 & x2 & y2 & -> & -> & -> & ->).
      apply (f_equal snd) in Heq. cbn [snd] in Heq. apply mapbox_keys_cut in Heq as (-> & -> & ->). reflexivity.
    + exfalso. destruct Hu1 as (z1 & x1 & y1 & _ & _ & _ & ->).
      destruct Hu2 as (la & lo & _ & _ & ->). apply (f_equal snd) in Heq. cbn [snd] in Heq.
      unfold S3.mapbox_tile_key, S3.google_coord_key in Heq.
      apply (append_cancel_l "runs/"), (append_cancel_l (Schema.run_id m1)) in Heq.
      cbn in Heq. discriminate Heq.
    + exfalso. destruct Hu2 as (z1 & x1 & y1 & _ & _ & _ & ->).
      destruct Hu1 as (la & lo & _ & _ & ->). apply (f_equal snd) in Heq. cbn [snd] in Heq.
      unfold S3.mapbox_tile_key, S3.google_coord_key in Heq.
      apply (append_cancel_l "runs/"), (append_cancel_l (Schema.run_id m1)) in Heq.
      cbn in Heq. discriminate Heq.
    + destruct Hu1 as (la1 & lo1 & -> & -> & ->).
      destruct Hu2 as (la2 & lo2 & -> & -> & ->).
      apply (f_equal snd) in Heq. cbn [snd] in Heq. apply coord_keys_cut in Heq as (Ha & Hb & Hz).
      fold (Schema.get_zoom m1). fold (Schema.get_zoom m2).
      unfold Schema.tile_id_for_coords, Schema.COORD_TILE_ID_PRECISION.
      now rewrite Ha, Hb, Hz.
  - intros Hid. pose proof (tile_ids_apart m1 m2 Hv1 Hv2 Hid) as Hsame.
    destruct (Schema.imagery_source m1), (Schema.imagery_source m2); try contradiction.
    + destruct Hu1 as (z1 & x1 & y1 & Hz1 & Hx1 & Hy1 & ->).
      destruct Hu2 as (z2 & x2 & y2 & Hz2 & Hx2 & Hy2 & ->).
      destruct Hsame as (Hz & Hx & Hy). rewrite Hz1, Hz2 in Hz. rewrite Hx1, Hx2 in Hx.
      rewrite Hy1, Hy2 in Hy. injection Hz as ->. injection Hx as ->. injection Hy as ->.
      reflexivity.
    + destruct Hu1 as (la1 & lo1 & Hla1 & Hlo1 & ->).
      destruct Hu2 as (la2 & lo2 & Hla2 & Hlo2 & ->).
      destruct Hsame as (Ha & Hb & Hz). rewrite Hla1, Hla2 in Ha. rewrite Hlo1, Hlo2 in Hb.
      cbn [option_map] in Ha, Hb. injection Ha as Ha. injection Hb as Hb.
      unfold S3.google_coord_key, Schema.COORD_TILE_ID_PRECISION. now rewrite Ha, Hb, Hz.
Qed.

(** ** Requests, sleeps and closed responses of the retry engine *)

Section EngineCounts.
Import Http HttpSpec HttpFacts.
Local Open Scope Q_scope.

Variable py_float : string -> option Q.
Variable transport : nat -> (Response + string) * Q.
Variable max_retries : Z.
Variable backoff_base : Q.
Variable retryable_status : list Z.
Variable deadline_epoch : option Q.
Variable min_time_for_attempt_ms : Q.

Let loop := attempts_loop py_float transport max_retries backoff_base retryable_status
                          deadline_epoch min_time_for_attempt_ms.

Lemma closed_count_record ev st :
  closed_count (record ev st) = (closed_count st + if is_closed ev then 1 else 0)%nat.
Proof.
  unfold closed_count, record. cbn [log]. rewrite List.filter_app, length_app.
  cbn. destruct (is_closed ev); reflexivity.
Qed.

Lemma sleep_count_record ev st :
  sleep_count (record ev st) =
  (sleep_count st + match ev with Slept _ _ => 1 | _ => 0 end)%nat.
Proof.
  unfold sleep_count, record. cbn [log]. rewrite sleeps_app, length_app.
  destruct ev; reflexivity.
Qed.

Lemma closed_count_advance seconds st : closed_count (advance seconds st) = closed_count st.
Proof. reflexivity. Qed.

Lemma sleep_count_advance seconds st : sleep_count (advance seconds st) = sleep_count st.
Proof. reflexivity. Qed.

Lemma last_answer_requested st at_time attempt latency :
  last_answer transport (advance latency (record (Requested at_time attempt) st))
  = Some (fst (transport (requests_made st))).
Proof.
  unfold last_answer. rewrite requests_made_advance, requests_made_record. cbn [is_request].
  now rewrite Nat.add_1_r.
Qed.

(** The counts of a run of the loop. *)
Lemma attempts_loop_counts attempts :
  forall last st,
    let run := loop attempts last st in
    (requests_made st <= requests_made (snd run) <= requests_made st + length attempts)%nat /\
    (requests_made (snd run) - requests_made st
     = closed_count (snd run) - closed_count st + ends_open (fst run))%nat /\
    (closed_count st <= closed_count (snd run))%nat.
Proof.
  induction attempts as [| attempt rest IH]; intros last st run; subst run; unfold loop.
  - cbn [attempts_loop snd fst length]. destruct last; cbn [exhausted ends_open]; lia.
  - cbn [attempts_loop].
    destruct (attempt_check deadline_epoch min_time_for_attempt_ms st) as [ms |].
    { cbn [snd fst ends_open length]. lia. }
    destruct (transport (requests_made st)) as [[response | msg] latency].
    2: { cbn [snd fst ends_open length].
         rewrite requests_made_advance, requests_made_record. cbn [is_request].
         rewrite closed_count_advance, closed_count_record.
         cbn [is_closed]. lia. }
    destruct (negb (bool_decide (status_code response ∈ retryable_status))).
    { cbn [snd fst ends_open length].
      rewrite requests_made_advance, requests_made_record. cbn [is_request].
      rewrite closed_count_advance, closed_count_record.
      cbn [is_closed]. lia. }
    set (st1 := record (Closed attempt)
                  (advance latency (record (Requested (now st) attempt) st))).
    assert (Hreq1 : requests_made st1 = S (requests_made st)).
    { subst st1. rewrite requests_made_record, requests_made_advance, requests_made_record.
      cbn [is_request]. lia. }
    assert (Hcl1 : closed_count st1 = S (closed_count st)).
    { subst st1. rewrite closed_count_record, closed_count_advance, closed_count_record.
      cbn [is_closed]. lia. }
    destruct (max_retries <=? attempt)%Z.
    { cbn [snd fst exhausted ends_open length]. lia. }
    destruct (sleep_check _ _ _ st1) as [ms |].
    { cbn [snd fst ends_open length]. lia. }
    destruct (Qltb _ 0).
    { cbn [snd fst ends_open length]. lia. }
    set (s := sleep_duration py_float backoff_base attempt response).
    set (st2 := advance s (record (Slept (now st1) s) st1)).
    assert (Hreq2 : requests_made st2 = S (requests_made st)).
    { subst st2. rewrite requests_made_advance, requests_made_record, Hreq1.
      cbn [is_request]. lia. }
    assert (Hcl2 : closed_count st2 = S (closed_count st)).
    { subst st2. rewrite closed_count_advance, closed_count_record, Hcl1.
      cbn [is_closed]. lia. }
    specialize (IH (Some response) st2). cbn zeta in IH. unfold loop in IH.
    destruct IH as (Hreq & Hopen & Hcl).
    rewrite Hreq2, Hcl2 in *. cbn [length]. lia.
Qed.

(** The sleeps of a run whose last attempt is numbered [max_retries] or
    more. *)
Lemma attempts_loop_sleeps attempts :
  (forall a, last attempts = Some a -> (max_retries <= a)%Z) ->
  forall last0 st,
    (sleep_count st <= sleep_count (snd (loop attempts last0 st))
     <= sleep_count st + (length attempts - 1))%nat.
Proof.
  induction attempts as [| attempt rest IH]; intros Hlast last0 st; unfold loop.
  - cbn [attempts_loop snd length]. lia.
  - cbn [attempts_loop].
    destruct (attempt_check deadline_epoch min_time_for_attempt_ms st) as [ms |].
    { cbn [snd length]. lia. }
    destruct (transport (requests_made st)) as [[response | msg] latency].
    2: { cbn [snd length]. rewrite sleep_count_advance, sleep_count_record. lia. }
    destruct (negb (bool_decide (status_code response ∈ retryable_status))).
    { cbn [snd length]. rewrite sleep_count_advance, sleep_count_record. lia. }
    set (st1 := record (Closed attempt)
                  (advance latency (record (Requested (now st) attempt) st))).
    assert (Hsl1 : sleep_count st1 = sleep_count st).
    { subst st1. rewrite sleep_count_record, sleep_count_advance, sleep_count_record. lia. }
    destruct (max_retries <=? attempt)%Z eqn:Hmax.
    { cbn [snd length]. lia. }
    destruct (sleep_check _ _ _ st1) as [ms |].
    { cbn [snd length]. lia. }
    destruct (Qltb _ 0).
    { cbn [snd length]. lia. }
    set (s := sleep_duration py_float backoff_base attempt response).
    set (st2 := advance s (record (Slept (now st1) s) st1)).
    assert (Hsl2 : sleep_count st2 = S (sleep_count st)).
    { subst st2. rewrite sleep_count_advance, sleep_count_record, Hsl1. lia. }
    apply Z.leb_gt in Hmax.
    destruct rest as [| next rest'].
    { exfalso. specialize (Hlast attempt eq_refl). lia. }
    assert (Hrest : forall a, last (next :: rest') = Some a -> (max_retries <= a)%Z).
    { intros a Ha. apply Hlast. rewrite last_cons, Ha. reflexivity. }
    specialize (IH Hrest (Some response) st2). unfold loop in IH.
    rewrite Hsl2 in IH. cbn [length] in *. lia.
Qed.

(** How a run of the loop can end. *)
Lemma attempts_loop_ends attempts :
  forall last st,
    let run := loop attempts last st in
    (forall r, fst run = Returned r ->
       last_answer transport (snd run) = Some (inl r) /\ status_code r ∉ retryable_status) /\
    (forall msg, fst run = Raised (RequestException msg) ->
       last_answer transport (snd run) = Some (inr msg)) /\
    (forall r a, fst run = Raised (RetryExhaustedError r a) ->
       a = max_retries /\
       (last = Some r /\ attempts = [] \/
        last_answer transport (snd run) = Some (inl r) /\ status_code r ∈ retryable_status)) /\
    (forall ms, fst run = Raised (DeadlineExceededError ms) -> deadline_epoch <> None) /\
    (fst run = Raised AssertionError -> attempts = [] /\ last = None) /\
    (forall s, fst run = Raised (SleepValueError s) -> s < 0).
Proof.
  induction attempts as [| attempt rest IH]; intros last st run; subst run; unfold loop.
  - cbn [attempts_loop snd fst]. destruct last as [r0 |]; cbn [exhausted].
    + split; [| split; [| split; [| split; [| split]]]]; try (intros; discriminate).
      intros r1 a1 [= <- <-]. auto.
    + split; [| split; [| split; [| split; [| split]]]]; try (intros; discriminate).
      auto.
  - cbn [attempts_loop].
    destruct (attempt_check deadline_epoch min_time_for_attempt_ms st) as [ms |] eqn:Hcheck.
    { cbn [snd fst].
      split; [| split; [| split; [| split; [| split]]]]; try (intros; discriminate).
      intros ms' _ Hnone. rewrite Hnone in Hcheck. discriminate Hcheck. }
    destruct (transport (requests_made st)) as [[response | msg] latency] eqn:Htr.
    2: { cbn [snd fst].
         split; [| split; [| split; [| split; [| split]]]]; try (intros; discriminate).
         intros msg' [= <-]. rewrite last_answer_requested, Htr. reflexivity. }
    destruct (bool_decide (status_code response ∈ retryable_status)) eqn:Hstatus; cbn [negb].
    2: { cbn [snd fst]. apply bool_decide_eq_false in Hstatus.
         split; [| split; [| split; [| split; [| split]]]]; try (intros; discriminate).
         intros r [= <-]. rewrite last_answer_requested, Htr. auto. }
    apply bool_decide_eq_true in Hstatus.
    set (st1 := record (Closed attempt)
                  (advance latency (record (Requested (now st) attempt) st))).
    assert (Hlast1 : last_answer transport st1 = Some (inl response)).
    { subst st1. unfold last_answer. rewrite requests_made_record.
      cbn [is_request]. rewrite Nat.add_0_r.
      fold (last_answer transport
              (advance latency (record (Requested (now st) attempt) st))).
      rewrite last_answer_requested, Htr. reflexivity. }
    destruct (max_retries <=? attempt)%Z.
    { cbn [snd fst exhausted].
      split; [| split; [| split; [| split; [| split]]]]; try (intros; discriminate).
      intros r1 a1 [= <- <-]. auto. }
    destruct (sleep_check _ _ _ st1) as [ms |] eqn:Hsleep.
    { cbn [snd fst].
      split; [| split; [| split; [| split; [| split]]]]; try (intros; discriminate).
      intros ms' _ Hnone. rewrite Hnone in Hsleep. discriminate Hsleep. }
    destruct (Qltb _ 0) eqn:Hneg.
    { cbn [snd fst].
      split; [| split; [| split; [| split; [| split]]]]; try (intros; discriminate).
      intros s [= <-]. now apply Qltb_lt. }
    set (s := sleep_duration py_float backoff_base attempt response) in *.
    set (st2 := advance s (record (Slept (now st1) s) st1)).
    assert (Hlast2 : last_answer transport st2 = Some (inl response)).
    { subst st2. unfold last_answer. rewrite requests_made_advance, requests_made_record.
      cbn [is_request]. rewrite Nat.add_0_r. exact Hlast1. }
    specialize (IH (Some response) st2). cbn zeta in IH. unfold loop in IH.
    destruct IH as (Hret & Hexc & Hexh & Hdead & Hassert & Hval).
    split; [exact Hret |]. split; [exact Hexc |]. split; [| split; [exact Hdead |]; split].
    + intros r a Hr. destruct (Hexh r a Hr) as [Ha [[[= <-] ->] | Hans]].
      * split; [exact Ha |]. right. cbn [attempts_loop snd]. auto.
      * auto.
    + intros Ha. destruct (Hassert Ha) as [_ H]. discriminate H.
    + exact Hval.
Qed.

End EngineCounts.

(** X13: the retry engine is bounded.  Whatever the upstream answers, a
    run makes at most [max_retries] requests and takes at most
    [max_retries - 1] sleeps, none when [max_retries] is below 1. *)
Theorem request_with_retry_bounded
    (py_float : string -> option Q) (transport : nat -> (Http.Response + string) * Q)
    (max_retries : Z) (backoff_base : Q) (retryable_status : list Z)
    (deadline_epoch : option Q) (min_ms : Q) (st : Http.Net) :
  let run := Http.request_with_retry py_float transport max_retries backoff_base
                                     retryable_status deadline_epoch min_ms st in
  (Http.requests_made st <= Http.requests_made (snd run)
   <= Http.requests_made st + Z.to_nat max_retries)%nat /\
  (HttpFacts.sleep_count st <= HttpFacts.sleep_count (snd run)
   <= HttpFacts.sleep_count st + (Z.to_nat max_retries - 1))%nat.
Proof.
  intros run. subst run. unfold Http.request_with_retry.
  pose proof (attempts_loop_counts py_float transport max_retries backoff_base
                retryable_status deadline_epoch min_ms (seqZ 1 max_retries) None st) as H.
  cbn zeta in H. rewrite length_seqZ in H. split; [lia |].
  pose proof (attempts_loop_sleeps py_float transport max_retries backoff_base
                retryable_status deadline_epoch min_ms (seqZ 1 max_retries)) as Hs.
  rewrite length_seqZ in Hs. apply Hs.
  intros a Ha. destruct (Z.to_nat max_retries) as [| i] eqn:Hn.
  - rewrite seqZ_nil in Ha by lia. discriminate Ha.
  - replace max_retries with (Z.of_nat (S i)) in Ha |- * by lia.
    rewrite seqZ_S, last_snoc in Ha. injection Ha as <-. lia.
Qed.


(** X15: connections are given back.  Every response whose status is one
    to retry is closed before the engine sleeps, tries again or raises:
    over a run, the requests made exceed the responses closed by one when
    the run returns a response (which it hands to the caller open) or
    breaks on an error of the transport, and by none otherwise. *)
Theorem request_with_retry_closes
    (py_float : string -> option Q) (transport : nat -> (Http.Response + string) * Q)
    (max_retries : Z) (backoff_base : Q) (retryable_status : list Z)
    (deadline_epoch : option Q) (min_ms : Q) (st : Http.Net) :
  let run := Http.request_with_retry py_float transport max_retries backoff_base
                                     retryable_status deadline_epoch min_ms st in
  (Http.requests_made (snd run) - Http.requests_made st
   = HttpFacts.closed_count (snd run) - HttpFacts.closed_count st
     + HttpFacts.ends_open (fst run))%nat /\
  (HttpFacts.closed_count st <= HttpFacts.closed_count (snd run))%nat.
Proof.
  intros run. subst run. unfold Http.request_with_retry.
  pose proof (attempts_loop_counts py_float transport max_retries backoff_base
                retryable_status deadline_epoch min_ms (seqZ 1 max_retries) None st) as H.
  cbn zeta in H. tauto.
Qed.



(** ** The fetch loop of the imagery providers *)

Section FetchLoop.
Import Py Schema Core Fetchers FetchFacts.

Variable session_get : nat -> Answer.
Variable source : ImagerySource.
Variable max_retries : Z.
Variable backoff_base : Q.

Lemma dozes_S k :
  dozes backoff_base (S k) =
  (dozes backoff_base k ++
   [Got (Z.of_nat k + 1); Dozed (backoff_base * inject_Z (2 ^ Z.of_nat k))%Q])%list.
Proof.
  unfold dozes. rewrite seqZ_S, flat_map_app. cbn [flat_map app].
  replace (1 + Z.of_nat k) with (Z.of_nat k + 1) by lia.
  replace (Z.of_nat k + 1 - 1) with (Z.of_nat k) by lia. reflexivity.
Qed.

Lemma gets_made_app l1 l2 : gets_made (l1 ++ l2) = (gets_made l1 + gets_made l2)%nat.
Proof. unfold gets_made. now rewrite List.filter_app, length_app. Qed.

Lemma gets_made_dozes k : gets_made (dozes backoff_base k) = k.
Proof.
  induction k as [| k IH]; [reflexivity |].
  rewrite dozes_S, gets_made_app, IH. cbn. lia.
Qed.

Lemma to_retry_remembered attempt answer ls lm :
  attempt_outcome source attempt answer = inr (ls, lm) ->
  to_retry answer = true /\ remembered (Some answer) = (ls, lm).
Proof.
  unfold attempt_outcome, to_retry, remembered.
  destruct answer as [status payload | msg | e]; [| now intros [= <- <-] | discriminate].
  destruct (status =? 200)%Z; [discriminate |].
  destruct (bool_decide (status ∈ _RETRYABLE_STATUS)); [| discriminate].
  now intros [= <- <-].
Qed.

Lemma attempt_ends j result :
  attempt_outcome source (Z.of_nat j + 1) (session_get j) = inl result ->
  match result with
  | Ok payload => final_answer session_get (S j) = Some (Replied 200 payload)
  | Raise exc =>
      (exists status payload,
         final_answer session_get (S j) = Some (Replied status payload) /\
         status <> 200 /\ (status ∉ _RETRYABLE_STATUS) /\
         exc = ImageryFetchError source (Some status) payload (Z.of_nat j + 1)) \/
      (exists e, final_answer session_get (S j) = Some (OtherFailure e) /\ exc = e)
  end.
Proof.
  unfold attempt_outcome. cbn [final_answer].
  destruct (session_get j) as [status payload | msg | e]; [| discriminate |].
  - destruct (Z.eqb_spec status 200) as [-> | Hne]; [now intros [= <-] |].
    destruct (bool_decide (status ∈ _RETRYABLE_STATUS)) eqn:Hst; [discriminate |].
    apply bool_decide_eq_false in Hst. intros [= <-]. left. exists status, payload. auto.
  - intros [= <-]. right. eauto.
Qed.

(** The loop from attempt [j + 1] on, [S remaining] attempts being left. *)
Lemma fetch_loop_runs remaining :
  forall j ls lm,
    Z.of_nat j + Z.of_nat (S remaining) = max_retries ->
    (forall i, (i < j)%nat -> to_retry (session_get i) = true) ->
    exists n, (j < n <= j + S remaining)%nat /\
      fetched session_get source max_retries backoff_base n (fetch_loop session_get source max_retries backoff_base
                  (seqZ (Z.of_nat j + 1) (Z.of_nat (S remaining))) ls lm
                  (dozes backoff_base j)).
Proof.
  induction remaining as [| remaining IH]; intros j ls lm Hmax Hbefore.
  all: rewrite seqZ_cons by lia; cbn [fetch_loop].
  all: rewrite gets_made_dozes.
  all: destruct (attempt_outcome source (Z.of_nat j + 1) (session_get j))
         as [result | [ls' lm']] eqn:Hout.
  1, 3: (exists (S j); split; [lia |]; unfold fetched; cbn [fst snd paced];
         replace (Z.of_nat (S j)) with (Z.of_nat j + 1) by lia;
         split; [reflexivity |];
         split; [intros i Hi; apply Hbefore; lia |];
         apply attempt_ends in Hout; destruct result as [payload | exc];
         [exact Hout | destruct Hout as [Hout | Hout]; [left | right; left]; exact Hout]).
  all: apply to_retry_remembered in Hout as [Hretry Hmem].
  - replace (Z.of_nat j + 1 <? max_retries) with false by (symmetry; apply Z.ltb_ge; lia).
    rewrite seqZ_nil by lia. cbn [fetch_loop].
    exists (S j). split; [lia |]. unfold fetched. cbn [fst snd paced].
    replace (Z.of_nat (S j)) with (Z.of_nat j + 1) by lia.
    split; [reflexivity |]. split; [intros i Hi; apply Hbefore; lia |].
    right. right. split; [lia |]. split.
    + intros i Hi. destruct (decide (i = j)) as [-> | Hne]; [exact Hretry |].
      apply Hbefore. lia.
    + cbn [final_answer]. rewrite Hmem. reflexivity.
  - replace (Z.of_nat j + 1 <? max_retries) with true by (symmetry; apply Z.ltb_lt; lia).
    replace (Z.of_nat j + 1 - 1) with (Z.of_nat j) by lia.
    rewrite <- app_assoc. cbn [app]. rewrite <- dozes_S.
    replace (Z.succ (Z.of_nat j + 1)) with (Z.of_nat (S j) + 1) by lia.
    replace (Z.pred (Z.of_nat (S (S remaining)))) with (Z.of_nat (S remaining)) by lia.
    destruct (IH (S j) ls' lm') as (n & Hn & Hrun); [lia | |].
    { intros i Hi. destruct (decide (i = j)) as [-> | Hne]; [exact Hretry |].
      apply Hbefore. lia. }
    exists n. split; [lia | exact Hrun].
Qed.

End FetchLoop.

(** X17: the fetch loop, as it runs.  A fetch makes [n] requests, at most
    [max_retries] of them, sleeping [backoff_base * 2^(i-1)] after the
    i-th and before the next, whatever the answers say; every answer but
    the last was a status to retry or an error of the connection, which
    is retried like a status.  The body is returned only for a last
    answer 200; a last status that is neither 200 nor one to retry is
    raised with that status and the number of the attempt; another
    exception is raised as it is; and when all [max_retries] answers were
    to retry, the error raised carries what is remembered of the last
    one and [max_retries]. *)
Theorem fetch_with_retry_runs
    (session_get : nat -> Fetchers.Answer) (source : Schema.ImagerySource)
    (max_retries : Z) (backoff_base : Q) :
  exists n,
    Z.of_nat n <= Z.max 0 max_retries /\
    FetchFacts.fetched session_get source max_retries backoff_base n
      (Fetchers._fetch_with_retry session_get source max_retries backoff_base []).
Proof.
  unfold Fetchers._fetch_with_retry.
  destruct (Z.to_nat max_retries) as [| k] eqn:Hk.
  - rewrite seqZ_nil by lia. exists 0%nat. split; [lia |].
    unfold FetchFacts.fetched. cbn [Fetchers.fetch_loop fst snd].
    split; [reflexivity |]. split; [intros i Hi; lia |].
    right. right. split; [lia |]. split; [intros i Hi; lia | reflexivity].
  - destruct (fetch_loop_runs session_get source max_retries backoff_base k 0 None "")
      as (n & Hn & Hrun); [lia | intros i Hi; lia |].
    replace (Z.of_nat 0 + 1) with 1 in Hrun by reflexivity.
    replace (Z.of_nat (S k)) with max_retries in Hrun by lia.
    exists n. split; [lia | exact Hrun].
Qed.

(** X18: no attempt, and a timeout.  With [max_retries] below 1 the fetch
    asks nothing of the provider and raises at once an error without
    status; the processor records it under the TIMEOUT code of the
    provider. *)
Theorem fetch_with_retry_no_attempt
    (session_get : nat -> Fetchers.Answer) (source : Schema.ImagerySource)
    (max_retries : Z) (backoff_base : Q) (log : list Fetchers.WireEvent) :
  max_retries <= 0 ->
  Fetchers._fetch_with_retry session_get source max_retries backoff_base log =
    (Core.Raise (Core.ImageryFetchError source None "" max_retries), log) /\
  Processor._exception_to_error_code (Core.ImageryFetchError source None "" max_retries) =
    Core.Ok (Errors.upper (Schema.source_value source) +:+ "_TIMEOUT").
Proof.
  intros Hmax. split.
  - unfold Fetchers._fetch_with_retry. rewrite seqZ_nil by lia. reflexivity.
  - destruct source; reflexivity.
Qed.

(** With [max_retries] at 0, a tile of the tile provider fails as
    MAPBOX_TIMEOUT although nothing was requested. *)
Lemma fetch_with_retry_no_attempt_witness :
  Fetchers._fetch_with_retry FetchFacts.overloaded Schema.Mapbox 0 (1 # 2) [] =
    (Core.Raise (Core.ImageryFetchError Schema.Mapbox None "" 0), []) /\
  Processor._exception_to_error_code (Core.ImageryFetchError Schema.Mapbox None "" 0) =
    Core.Ok "MAPBOX_TIMEOUT".
Proof.
  apply (fetch_with_retry_no_attempt FetchFacts.overloaded Schema.Mapbox 0 (1 # 2) []). lia.
Defined.

(** ** The checkpoint, written and read back *)

Section CheckpointWrite.
Import Py Schema Core Ddb Runtime TileJobs Runs Errors Config S3 Processor Spec Footprint Rows.

Lemma checkpoint_s3_ok tname rid tid b k w tbl :
  db w !! tname = Some tbl ->
  let key := _job_key rid tid in
  let base := default (key_item key) (tbl !! key) in
  exists attrs,
    checkpoint_s3 tname rid tid b k w =
    (Ok attrs,
     with_db w (<[ tname := <[ key := <[ "s3_key" := AS k ]> (<[ "s3_bucket" := AS b ]> base) ]>
                              tbl ]> (db w))).
Proof.
  intros Ht key base. unfold checkpoint_s3, on_db, update_item.
  cbn [TableName Key UpdateExpression ExpressionAttributeNames ExpressionAttributeValues
       ConditionExpression ReturnValues].
  rewrite Ht. rewrite validate_values_Some.
  2: { repeat (apply map_Forall_insert_2; [eexists; reflexivity |]). apply map_Forall_empty. }
  fold key. fold base.
  erewrite apply_set_val; [| reflexivity |].
  2: { rewrite lookup_omap, lookup_insert_ne, lookup_insert_eq by discriminate. reflexivity. }
  erewrite apply_set_val; [| reflexivity |].
  2: { rewrite lookup_omap, lookup_insert_eq. reflexivity. }
  cbn [apply_actions]. eexists. reflexivity.
Qed.

End CheckpointWrite.

(** X19: the checkpoint, written and read back.  On an existing table
    [checkpoint_s3] never raises and is unconditional: it sets the bucket
    and the key of the stored object on the row, which it creates when
    missing, and leaves every other attribute, the status, the lock and
    the attempts included, as it was.  When both texts are non-empty, every
    later claim of the tile that returns CLAIMED returns that object as
    its checkpoint. *)
Theorem checkpoint_s3_round_trip tname m tid b k w tbl :
  Schema.get_tile_id m = Some tid ->
  Runtime.db w !! tname = Some tbl ->
  let key := TileJobs._job_key (Schema.run_id m) tid in
  let base := default (Ddb.key_item key) (tbl !! key) in
  exists attrs w1 row1,
    TileJobs.checkpoint_s3 tname (Schema.run_id m) tid b k w = (Core.Ok attrs, w1) /\
    Footprint.row_of (Runtime.db w1) tname key = Some row1 /\
    row1 !! "s3_bucket" = Some (Ddb.AS b) /\
    row1 !! "s3_key" = Some (Ddb.AS k) /\
    (forall p, p <> "s3_bucket" -> p <> "s3_key" -> row1 !! p = base !! p) /\
    (b <> "" -> k <> "" ->
     forall now_epoch lock data w2,
       TileJobs.claim_job tname m now_epoch lock w1 = (Core.Ok data, w2) ->
       Schema.result data = Schema.CLAIMED ->
       Schema.checkpoint data = Some {| Schema.cp_bucket := b; Schema.cp_key := k |}).
Proof.
  intros Htid Ht key base.
  destruct (checkpoint_s3_ok tname (Schema.run_id m) tid b k w tbl Ht) as [attrs Hrun].
  cbn zeta in Hrun. fold key base in Hrun.
  set (row1 := <[ "s3_key" := Ddb.AS k ]> (<[ "s3_bucket" := Ddb.AS b ]> base)) in *.
  eexists attrs, _, row1. split; [exact Hrun |].
  cbn [Runtime.db Spec.with_db]. rewrite row_of_updated.
  assert (Hb : row1 !! "s3_bucket" = Some (Ddb.AS b)).
  { subst row1. rewrite lookup_insert_ne by discriminate. apply lookup_insert_eq. }
  assert (Hk : row1 !! "s3_key" = Some (Ddb.AS k)) by apply lookup_insert_eq.
  split; [reflexivity |]. split; [exact Hb |]. split; [exact Hk |]. split.
  - intros p Hp1 Hp2. subst row1. now rewrite !lookup_insert_ne by congruence.
  - intros Hbne Hkne now_epoch lock data w2 Hclaim Hres.
    destruct b as [| c1 b']; [contradiction |]. destruct k as [| c2 k']; [contradiction |].
    apply (claim_reveals_stored_checkpoint tname m now_epoch lock
             (Spec.with_db w (<[ tname := <[ key := row1 ]> tbl ]> (Runtime.db w)))
             (<[ key := row1 ]> tbl) tid row1 c1 b' c2 k' data w2); try assumption.
    + cbn [Runtime.db Spec.with_db]. apply lookup_insert_eq.
    + apply lookup_insert_eq.
Qed.

(** ** The row of a run *)

Section RunRow.
Import Py Schema Core Ddb Runtime TileJobs Runs RunTable Spec Footprint Rows.

Lemma run_item_stored rid sb sk total status created :
  validate_values (run_item rid sb sk total status created)
  = Some (created_row rid sb sk total status created).
Proof.
  rewrite validate_values_Some.
  - unfold run_item, created_row, N_of_int. f_equal.
    repeat (erewrite omap_insert_Some;
            [| first [reflexivity | apply validate_RN_str_int]]).
    now rewrite omap_empty.
  - unfold run_item.
    repeat (apply map_Forall_insert_2;
            [first [unfold N_of_int; rewrite validate_RN_str_int | idtac];
             (eexists; reflexivity) |]).
    apply map_Forall_empty.
Qed.

Lemma created_row_key rid sb sk total status created :
  key_of ["run_id"] (created_row rid sb sk total status created) = Some (run_key rid).
Proof.
  unfold key_of, created_row. cbn [mapM].
  repeat (rewrite lookup_insert_ne by discriminate). rewrite lookup_insert_eq. reflexivity.
Qed.

Lemma put_run_item tname rid sb sk total status created d tbl :
  d !! tname = Some tbl ->
  put_item tname ["run_id"] (run_item rid sb sk total status created)
           (Some (CAttrNotExists "run_id")) d =
  match default ∅ (tbl !! run_key rid) !! "run_id" with
  | None =>
      (Ok tt, <[ tname := <[ run_key rid := created_row rid sb sk total status created ]> tbl ]> d)
  | Some _ =>
      (Raise (ClientError "ConditionalCheckFailedException" "The conditional request failed"),
       d)
  end.
Proof.
  intros Ht. unfold put_item. rewrite Ht, run_item_stored, created_row_key.
  cbn [eval_cond]. change (resolve ∅ "run_id") with (Some "run_id").
  cbn [mbind option_bind].
  destruct (default ∅ (tbl !! run_key rid) !! "run_id"); reflexivity.
Qed.

Lemma set_total_tiles_ok tname rid total w tbl :
  db w !! tname = Some tbl ->
  let k := run_key rid in
  let base := default (key_item k) (tbl !! k) in
  exists attrs,
    set_total_tiles tname rid total w =
    (Ok attrs,
     with_db w (<[ tname := <[ k := <[ "total_tiles" := AN (num_of_int total) ]> base ]> tbl ]>
                  (db w))).
Proof.
  intros Ht k base. unfold set_total_tiles, on_db, update_item.
  cbn [TableName Key UpdateExpression ExpressionAttributeNames ExpressionAttributeValues
       ConditionExpression ReturnValues].
  rewrite Ht. rewrite validate_values_Some.
  2: { apply map_Forall_insert_2; [| apply map_Forall_empty].
       unfold N_of_int. rewrite validate_RN_str_int. eexists; reflexivity. }
  fold k. fold base.
  erewrite apply_set_val; [| reflexivity |].
  2: { rewrite lookup_omap, lookup_insert_eq. cbn [mbind option_bind].
       unfold N_of_int. apply validate_RN_str_int. }
  cbn [apply_actions]. eexists. reflexivity.
Qed.

End RunRow.

(** X20: a run is created once.  On an existing table, [safe_create_run]
    never raises: when the table has no row for the run it stores the
    row, with the given status and total and both counters at 0, and
    answers true; when a row for the run exists it answers false and
    leaves the table as it was, whatever the row holds.  [create_run]
    stores the same row in the first case and raises the failed condition
    in the second. *)
Theorem safe_create_run_once tname rid sb sk total status now_epoch w tbl :
  Runtime.db w !! tname = Some tbl ->
  let created := default (Runtime.clock w) now_epoch in
  let row := RunTable.created_row rid sb sk total status created in
  let w' := Spec.with_db w (<[ tname := <[ RunTable.run_key rid := row ]> tbl ]> (Runtime.db w)) in
  (tbl !! RunTable.run_key rid = None ->
   RunTable.safe_create_run tname rid sb sk total status now_epoch w = (Core.Ok true, w') /\
   RunTable.create_run tname rid sb sk total status now_epoch w
     = (Core.Ok (RunTable.run_item rid sb sk total status created), w') /\
   Footprint.counter (Some row) "completed_tiles" = 0 /\
   Footprint.counter (Some row) "failed_tiles" = 0 /\
   row !! "total_tiles" = Some (Ddb.AN (Ddb.num_of_int total)) /\
   row !! "status" = Some (Ddb.AS (RunTable.RunStatus_value status))) /\
  (forall old, tbl !! RunTable.run_key rid = Some old -> is_Some (old !! "run_id") ->
   RunTable.safe_create_run tname rid sb sk total status now_epoch w = (Core.Ok false, w) /\
   RunTable.create_run tname rid sb sk total status now_epoch w
     = (Core.Raise (Core.ClientError "ConditionalCheckFailedException"
                      "The conditional request failed"), w)).
Proof.
  intros Ht created row w'.
  assert (Htime : (match now_epoch with
                   | Some n => Runtime.ret n
                   | None => Runtime.time_time
                   end) w = (Core.Ok created, w)) by (destruct now_epoch; reflexivity).
  pose proof (put_run_item tname rid sb sk total status created (Runtime.db w) tbl Ht) as Hput.
  split.
  - intros Hnone. rewrite Hnone in Hput. cbn [default from_option id] in Hput.
    rewrite lookup_empty in Hput.
    assert (Hcreate : RunTable.create_run tname rid sb sk total status now_epoch w
                      = (Core.Ok (RunTable.run_item rid sb sk total status created), w')).
    { unfold RunTable.create_run. rewrite (bind_ok _ _ _ _ _ Htime).
      unfold Runtime.bind, Runtime.on_db. rewrite Hput. reflexivity. }
    split; [| split; [exact Hcreate |]].
    + unfold RunTable.safe_create_run, Runtime.try_except, Runtime.bind at 1.
      rewrite Hcreate. reflexivity.
    + subst row. unfold Footprint.counter, RunTable.created_row. cbn [mbind option_bind].
      repeat split; repeat (rewrite lookup_insert_ne by discriminate);
        rewrite lookup_insert_eq; reflexivity.
  - intros old Hold [v Hv]. rewrite Hold in Hput. cbn [default from_option id] in Hput.
    rewrite Hv in Hput.
    assert (Hcreate : RunTable.create_run tname rid sb sk total status now_epoch w
                      = (Core.Raise (Core.ClientError "ConditionalCheckFailedException"
                                       "The conditional request failed"), w)).
    { unfold RunTable.create_run. rewrite (bind_ok _ _ _ _ _ Htime).
      unfold Runtime.bind, Runtime.on_db. rewrite Hput. now destruct w. }
    split; [| exact Hcreate].
    unfold RunTable.safe_create_run, Runtime.try_except, Runtime.bind at 1.
    rewrite Hcreate. reflexivity.
Qed.

(** X21: the total of a run.  On an existing table [set_total_tiles] never
    raises; it sets the total on the row of the run, which it creates
    when missing, and changes nothing else: the counters that workers
    have added to in the meantime, the status and the source are as they
    were. *)
Theorem set_total_tiles_only tname rid total w tbl :
  Runtime.db w !! tname = Some tbl ->
  let k := RunTable.run_key rid in
  let prior := tbl !! k in
  exists attrs w' row',
    RunTable.set_total_tiles tname rid total w = (Core.Ok attrs, w') /\
    Footprint.row_of (Runtime.db w') tname k = Some row' /\
    row' !! "total_tiles" = Some (Ddb.AN (Ddb.num_of_int total)) /\
    (forall p, p <> "total_tiles" -> row' !! p = default (Ddb.key_item k) prior !! p) /\
    Footprint.counter (Some row') "completed_tiles"
      = Footprint.counter (Some (default (Ddb.key_item k) prior)) "completed_tiles" /\
    Footprint.counter (Some row') "failed_tiles"
      = Footprint.counter (Some (default (Ddb.key_item k) prior)) "failed_tiles".
Proof.
  intros Ht k prior.
  destruct (set_total_tiles_ok tname rid total w tbl Ht) as [attrs Hrun].
  cbn zeta in Hrun. fold k prior in Hrun.
  eexists attrs, _, _. split; [exact Hrun |].
  cbn [Runtime.db Spec.with_db]. rewrite row_of_updated.
  split; [reflexivity |]. split; [apply lookup_insert_eq |].
  split; [intros p Hp; now rewrite lookup_insert_ne by congruence |].
  unfold Footprint.counter. cbn [mbind option_bind].
  now rewrite !lookup_insert_ne by discriminate.
Qed.

(** ** The cache of secrets *)

Section SecretCache.
Import Py Core Secrets.
Local Open Scope Q_scope.

Variable Value : Type.
Variable json_loads : string -> Result Value.
Variable b64decode_utf8 : string -> Result string.
Variable get_secret_value : string -> nat -> Result SecretResponse.

Let get := get_secret_json Value json_loads b64decode_utf8 get_secret_value.

Lemma get_secret_hit sid ttl now (st : Vault Value) expiry v :
  _cache st !! sid = Some (expiry, v) -> now < expiry -> get sid ttl now st = (Ok v, st).
Proof.
  intros Hc Hlt. unfold get, get_secret_json. rewrite Hc. cbn [fresh].
  apply Qltb_lt in Hlt. now rewrite Hlt.
Qed.

Lemma get_secret_miss sid ttl now (st : Vault Value) :
  fresh Value now (_cache st !! sid) = None ->
  calls (snd (get sid ttl now st)) = S (calls st) /\
  (forall other, other <> sid ->
     _cache (snd (get sid ttl now st)) !! other = _cache st !! other) /\
  match fst (get sid ttl now st) with
  | Ok v => _cache (snd (get sid ttl now st)) !! sid = Some (now + ttl, v)
  | Raise _ => _cache (snd (get sid ttl now st)) = _cache st
  end.
Proof.
  intros Hf. unfold get, get_secret_json. rewrite Hf.
  destruct (get_secret_value sid (calls st)) as [response | e]; cbn [fst snd calls _cache].
  - destruct (_parse_secret Value json_loads b64decode_utf8 response) as [v | e];
      cbn [fst snd calls _cache].
    + split; [reflexivity |]. split; [| apply lookup_insert_eq].
      intros other Hne. now rewrite lookup_insert_ne by congruence.
    + auto.
  - auto.
Qed.

Lemma fresh_spec now (cached : option (Q * Value)) :
  match fresh Value now cached with
  | Some v => exists expiry, cached = Some (expiry, v) /\ now < expiry
  | None => forall expiry v, cached = Some (expiry, v) -> ~ now < expiry
  end.
Proof.
  unfold fresh. destruct cached as [[expiry v] |]; [| discriminate].
  destruct (Http.Qltb now expiry) eqn:Hlt.
  - apply Qltb_lt in Hlt. eauto.
  - intros expiry' v' [= <- <-] Habs. apply Qltb_lt in Habs. congruence.
Qed.

End SecretCache.

(** X22: a secret is cached until it expires.  After a call for a secret
    has returned a value, the cache holds that value with an expiry,
    [now + ttl_seconds] when the call went to the service; until the
    clock reaches that expiry every call for the secret, whatever its own
    [ttl_seconds], returns the value without calling the service and
    leaves the cache as it is; from the expiry on a call goes to the
    service again.  The entries of the other secrets are not touched. *)
Theorem get_secret_json_cached
    (Value : Type) (json_loads : string -> Core.Result Value)
    (b64decode_utf8 : string -> Core.Result string)
    (get_secret_value : string -> nat -> Core.Result Secrets.SecretResponse)
    (sid : string) (ttl now : Q) (st st1 : Secrets.Vault Value) (v : Value) :
  let get := Secrets.get_secret_json Value json_loads b64decode_utf8 get_secret_value in
  get sid ttl now st = (Core.Ok v, st1) ->
  exists expiry,
    Secrets._cache st1 !! sid = Some (expiry, v) /\
    (st1 = st /\ (now < expiry)%Q \/
     Secrets.calls st1 = S (Secrets.calls st) /\ expiry = (now + ttl)%Q) /\
    (forall other, other <> sid -> Secrets._cache st1 !! other = Secrets._cache st !! other) /\
    (forall ttl' now', (now' < expiry)%Q -> get sid ttl' now' st1 = (Core.Ok v, st1)) /\
    (forall ttl' now', ~ (now' < expiry)%Q ->
       Secrets.calls (snd (get sid ttl' now' st1)) = S (Secrets.calls st1)).
Proof.
  intros get Hrun. subst get.
  pose proof (fresh_spec Value now (Secrets._cache st !! sid)) as Hfresh.
  destruct (Secrets.fresh Value now (Secrets._cache st !! sid)) as [v0 |] eqn:Hf.
  - destruct Hfresh as (expiry & Hc & Hlt).
    assert (Hhit := get_secret_hit Value json_loads b64decode_utf8 get_secret_value
                      sid ttl now st expiry v0 Hc Hlt).
    rewrite Hhit in Hrun. injection Hrun as <- <-.
    exists expiry. split; [exact Hc |]. split; [left; auto |]. split; [auto |]. split.
    + intros ttl' now' Hlt'. now apply get_secret_hit with (expiry := expiry).
    + intros ttl' now' Hge. apply get_secret_miss.
      pose proof (fresh_spec Value now' (Secrets._cache st !! sid)) as Hf'.
      destruct (Secrets.fresh Value now' (Secrets._cache st !! sid)); [| reflexivity].
      destruct Hf' as (expiry' & Hc' & Hlt'). rewrite Hc in Hc'. injection Hc' as <- _.
      contradiction.
  - destruct (get_secret_miss Value json_loads b64decode_utf8 get_secret_value
                sid ttl now st Hf) as (Hcalls & Hother & Hres).
    rewrite Hrun in Hcalls, Hother, Hres. cbn [fst snd] in Hcalls, Hother, Hres.
    exists (now + ttl)%Q. split; [exact Hres |]. split; [right; auto |].
    split; [exact Hother |]. split.
    + intros ttl' now' Hlt'. now apply get_secret_hit with (expiry := (now + ttl)%Q).
    + intros ttl' now' Hge. apply get_secret_miss.
      pose proof (fresh_spec Value now' (Secrets._cache st1 !! sid)) as Hf'.
      destruct (Secrets.fresh Value now' (Secrets._cache st1 !! sid)); [| reflexivity].
      destruct Hf' as (expiry' & Hc' & Hlt'). rewrite Hres in Hc'. injection Hc' as <- _.
      contradiction.
Qed.

(** X23: a failed lookup of a secret.  When a call for a secret raises,
    the cache held no unexpired value for it (an expired value is never
    served in place of a failure), the service was called once, and the
    cache is left as it was: the failure is not remembered, so the next
    call goes to the service again. *)
Theorem get_secret_json_failure
    (Value : Type) (json_loads : string -> Core.Result Value)
    (b64decode_utf8 : string -> Core.Result string)
    (get_secret_value : string -> nat -> Core.Result Secrets.SecretResponse)
    (sid : string) (ttl now : Q) (st st1 : Secrets.Vault Value) (e : Core.Exn) :
  let get := Secrets.get_secret_json Value json_loads b64decode_utf8 get_secret_value in
  get sid ttl now st = (Core.Raise e, st1) ->
  Secrets.fresh Value now (Secrets._cache st !! sid) = None /\
  Secrets.calls st1 = S (Secrets.calls st) /\
  Secrets._cache st1 = Secrets._cache st /\
  (get_secret_value sid (Secrets.calls st) = Core.Raise e \/
   exists response,
     get_secret_value sid (Secrets.calls st) = Core.Ok response /\
     Secrets._parse_secret Value json_loads b64decode_utf8 response = Core.Raise e) /\
  forall ttl' now', (now <= now')%Q ->
    Secrets.calls (snd (get sid ttl' now' st1)) = S (Secrets.calls st1).
Proof.
  intros get Hrun. subst get.
  destruct (Secrets.fresh Value now (Secrets._cache st !! sid)) as [v0 |] eqn:Hf.
  { exfalso. unfold Secrets.get_secret_json in Hrun. rewrite Hf in Hrun. discriminate Hrun. }
  split; [reflexivity |].
  destruct (get_secret_miss Value json_loads b64decode_utf8 get_secret_value
              sid ttl now st Hf) as (Hcalls & _ & Hres).
  rewrite Hrun in Hcalls, Hres. cbn [fst snd] in Hcalls, Hres.
  split; [exact Hcalls |]. split; [exact Hres |]. split.
  - unfold Secrets.get_secret_json in Hrun. rewrite Hf in Hrun.
    destruct (get_secret_value sid (Secrets.calls st)) as [response | e0];
      [| injection Hrun as <- _; now left].
    right. exists response. split; [reflexivity |].
    destruct (Secrets._parse_secret Value json_loads b64decode_utf8 response);
      [discriminate Hrun | now injection Hrun as <- _].
  - intros ttl' now' Hlater. apply get_secret_miss. rewrite Hres.
    pose proof (fresh_spec Value now (Secrets._cache st !! sid)) as Hold. rewrite Hf in Hold.
    pose proof (fresh_spec Value now' (Secrets._cache st !! sid)) as Hnew.
    destruct (Secrets.fresh Value now' (Secrets._cache st !! sid)); [| reflexivity].
    destruct Hnew as (expiry & Hc & Hlt). exfalso. apply (Hold expiry v Hc).
    eapply Qle_lt_trans; eassumption.
Qed.

(** ** The configuration and its environment *)

Section Environment.
Import Py Core Config Settings.

Lemma require_set env name :
  _require env name =
  if is_set env name then Ok (default "" (env !! name))
  else Raise (RuntimeError ("Missing required environment variable: " +:+ name)).
Proof.
  unfold _require, is_set, truthy. destruct (env !! name) as [[| c r] |]; reflexivity.
Qed.

Lemma require_ok env name v : _require env name = Ok v -> env !! name = Some v /\ v <> "".
Proof.
  unfold _require. destruct (env !! name) as [[| c r] |]; try discriminate.
  intros [= <-]. split; [reflexivity | discriminate].
Qed.

End Environment.

(** X24: the configuration and its environment.  Both configurations
    read the four required variables first and in a fixed order, an empty
    value counting as unset: when one is missing, loading raises the error
    that names the first missing one, whatever else the environment
    holds, and the logging module is not configured.  When the worker
    configuration loads, the four values are carried as they are, the
    region is the variable AWS_REGION or us-east-1, the numbers are the
    readings of their variables or of the defaults 900, 3 and 10, and the
    logging module is configured.  The queue of the ingestion
    configuration is required last, after everything else has loaded. *)
Theorem from_env_requires
    (py_int : string -> option Z) (py_float : string -> option Q)
    (basic_config : string -> Core.Result unit) (env : Settings.Env) (configured : bool) :
  let worker := Settings.WorkerConfig_from_env py_int py_float basic_config in
  let ingestion := Settings.IngestionConfig_from_env py_int py_float basic_config in
  (forall name, Settings.first_missing env = Some name ->
     let missing := Core.RuntimeError ("Missing required environment variable: " +:+ name) in
     worker env configured = (Core.Raise missing, configured) /\
     ingestion env configured = (Core.Raise missing, configured)) /\
  (forall c flag, worker env configured = (Core.Ok c, flag) ->
     Settings.first_missing env = None /\
     env !! "S3_BUCKET" = Some (Config.s3_bucket c) /\
     env !! "DDB_RUNS_TABLE" = Some (Config.runs_table c) /\
     env !! "DDB_TILEJOBS_TABLE" = Some (Config.tilejobs_table c) /\
     env !! "PIPELINE_SECRETS_ID" = Some (Config.secrets_id c) /\
     Config.aws_region c = Settings.getenv env "AWS_REGION" "us-east-1" /\
     py_int (Settings.getenv env "JOB_STALE_LOCK_SECONDS" "900")
       = Some (Config.job_stale_lock_seconds c) /\
     py_int (Settings.getenv env "PIPELINE_MAX_RETRIES" "3") = Some (Config.max_retries c) /\
     py_float (Settings.getenv env "PIPELINE_REQUEST_TIMEOUT" "10")
       = Some (Config.request_timeout c) /\
     Config.log_level c = Settings.getenv env "LOG_LEVEL" "INFO" /\
     flag = true) /\
  (forall c flag, worker env configured = (Core.Ok c, flag) ->
     ingestion env configured =
     if Settings.is_set env "TILE_JOBS_QUEUE_URL"
     then (Core.Ok {| Settings.base := c;
                      Settings.tile_jobs_queue_url := default "" (env !! "TILE_JOBS_QUEUE_URL") |},
           flag)
     else (Core.Raise (Core.RuntimeError
                         "Missing required environment variable: TILE_JOBS_QUEUE_URL"), flag)).
Proof.
  intros worker ingestion. subst worker ingestion.
  unfold Settings.IngestionConfig_from_env, Settings.WorkerConfig_from_env.
  split; [| split].
  - intros name Hmiss. cbn zeta.
    assert (Hbase : Settings._base_kwargs py_int py_float basic_config env configured
                    = (Core.Raise (Core.RuntimeError
                                     ("Missing required environment variable: " +:+ name)),
                       configured)).
    { unfold Settings.first_missing, Settings.required in Hmiss. cbn [List.find] in Hmiss.
      unfold Settings._base_kwargs. rewrite !require_set.
      destruct (Settings.is_set env "S3_BUCKET"); cbn [negb] in Hmiss;
        [| injection Hmiss as <-; reflexivity].
      destruct (Settings.is_set env "DDB_RUNS_TABLE"); cbn [negb] in Hmiss;
        [| injection Hmiss as <-; reflexivity].
      destruct (Settings.is_set env "DDB_TILEJOBS_TABLE"); cbn [negb] in Hmiss;
        [| injection Hmiss as <-; reflexivity].
      destruct (Settings.is_set env "PIPELINE_SECRETS_ID"); cbn [negb] in Hmiss;
        [discriminate Hmiss | injection Hmiss as <-; reflexivity]. }
    rewrite Hbase. split; reflexivity.
  - intros c flag Hrun. unfold Settings._base_kwargs in Hrun.
    destruct (Settings._require env "S3_BUCKET") as [v1 |] eqn:H1; [| discriminate Hrun].
    destruct (Settings._require env "DDB_RUNS_TABLE") as [v2 |] eqn:H2; [| discriminate Hrun].
    destruct (Settings._require env "DDB_TILEJOBS_TABLE") as [v3 |] eqn:H3;
      [| discriminate Hrun].
    destruct (Settings._require env "PIPELINE_SECRETS_ID") as [v4 |] eqn:H4;
      [| discriminate Hrun].
    destruct (py_int (Settings.getenv env "JOB_STALE_LOCK_SECONDS" "900")) as [n1 |];
      [| discriminate Hrun].
    destruct (py_int (Settings.getenv env "PIPELINE_MAX_RETRIES" "3")) as [n2 |];
      [| discriminate Hrun].
    destruct (py_float (Settings.getenv env "PIPELINE_REQUEST_TIMEOUT" "10")) as [q |];
      [| discriminate Hrun].
    assert (Hflag : flag = true /\
                    c = {| Config.aws_region := Settings.getenv env "AWS_REGION" "us-east-1";
                           Config.s3_bucket := v1; Config.runs_table := v2;
                           Config.tilejobs_table := v3; Config.secrets_id := v4;
                           Config.job_stale_lock_seconds := n1; Config.max_retries := n2;
                           Config.request_timeout := q;
                           Config.log_level := Settings.getenv env "LOG_LEVEL" "INFO" |}).
    { unfold Settings._configure_logging in Hrun. destruct configured.
      - injection Hrun as <- <-. auto.
      - destruct (basic_config _); [| discriminate Hrun]. injection Hrun as <- <-. auto. }
    destruct Hflag as [-> ->]. cbn.
    apply require_ok in H1 as [H1 N1], H2 as [H2 N2], H3 as [H3 N3], H4 as [H4 N4].
    split.
    { unfold Settings.first_missing, Settings.required, Settings.is_set. cbn [List.find].
      rewrite H1, H2, H3, H4.
      destruct v1; [contradiction |]. destruct v2; [contradiction |].
      destruct v3; [contradiction |]. destruct v4; [contradiction |]. reflexivity. }
    repeat split; assumption.
  - intros c flag Hrun. rewrite Hrun, require_set.
    destruct (Settings.is_set env "TILE_JOBS_QUEUE_URL"); reflexivity.
Qed.

(** ** The loop of the ingestion *)

Section IngestLoop.
Import Py Schema Core Ddb Runtime Config RunTable StartRun Settings Ingest IngestFacts IngestRuns.
Variable dumps : TileJobMessage -> string.
Variable send_message_batch : string -> list Entry -> nat -> Result (list string).
Variable repr : list string -> string.

Lemma ibind_ok {A B} (c : I A) (k : A -> I B) o a o' :
  c o = (Ok a, o') -> ibind c k o = k a o'.
Proof. intros H. unfold ibind. now rewrite H. Qed.

Lemma ibind_raise {A B} (c : I A) (k : A -> I B) o e o' :
  c o = (Raise e, o') -> ibind c k o = (Raise e, o').
Proof. intros H. unfold ibind. now rewrite H. Qed.

Lemma entries_length first ms : length (entries dumps first ms) = length ms.
Proof. revert first. induction ms as [| m ms IH]; intros first; cbn; [| rewrite IH]; reflexivity. Qed.

Lemma yielded_length_le msgs : (length (yielded msgs) <= length msgs)%nat.
Proof.
  induction msgs as [| [m | e] msgs IH]; cbn; lia.
Qed.

Lemma enqueue_dry url msgs total batch o :
  snd (enqueue dumps send_message_batch repr url true msgs total batch o) = o.
Proof.
  revert total batch o. induction msgs as [| [m | e] msgs IH]; intros total batch o;
    cbn [enqueue]; try reflexivity.
  destruct (length (batch ++ [_]) =? 10)%nat; [| apply IH].
  cbn [negb]. unfold ibind, iret. apply IH.
Qed.

Lemma enqueue_dry_result url msgs total batch o :
  exists r,
    enqueue dumps send_message_batch repr url true msgs total batch o = (r, o) /\
    match broken msgs with
    | None => exists rest, r = Ok ((total + length (yielded msgs))%nat, rest)
    | Some e => r = Raise e
    end.
Proof.
  revert total batch o. induction msgs as [| [m | e] msgs IH]; intros total batch o;
    cbn [enqueue broken yielded length].
  - eexists. split; [reflexivity |]. exists batch. now rewrite Nat.add_0_r.
  - assert (Hstep : forall b,
               exists r, enqueue dumps send_message_batch repr url true msgs (S total) b o = (r, o) /\
                 match broken msgs with
                 | None => exists rest, r = Ok ((total + S (length (yielded msgs)))%nat, rest)
                 | Some e => r = Raise e
                 end).
    { intros b. destruct (IH (S total) b o) as (r & Hrun & Hr). exists r. split; [exact Hrun |].
      destruct (broken msgs); [exact Hr |]. destruct Hr as [rest ->]. exists rest.
      do 2 f_equal. lia. }
    destruct (length (batch ++ [_]) =? 10)%nat; [| apply Hstep].
    cbn [negb]. unfold ibind, iret. apply Hstep.
  - eexists. split; reflexivity.
Qed.

Lemma send_batch_runs url (b : list Entry) o :
  b <> [] ->
  let o' := {| world := world o; sent := sent o ++ [(url, b)] |} in
  (_send_batch send_message_batch repr url b o = (Ok tt, o') /\
   send_message_batch url b (length (sent o)) = Ok []) \/
  (exists e, _send_batch send_message_batch repr url b o = (Raise e, o') /\
             send_message_batch url b (length (sent o)) <> Ok []).
Proof.
  intros Hb o'. destruct b as [| x b]; [congruence |].
  unfold _send_batch. fold o'.
  destruct (send_message_batch url (x :: b) (length (sent o))) as [[| f fs] | e] eqn:Hq.
  - left. now split.
  - right. eexists. split; [reflexivity | discriminate].
  - right. eexists. split; [reflexivity | discriminate].
Qed.

Lemma enqueue_runs url msgs total batch o :
  (length batch < 10)%nat ->
  exists r o' new rest,
    enqueue dumps send_message_batch repr url false msgs total batch o = (r, o') /\
    world o' = world o /\
    handed url o o' new /\
    Forall full new /\
    (concat new ++ rest = batch ++ entries dumps total (yielded msgs))%list /\
    ((r = Ok ((total + length (yielded msgs))%nat, rest) /\ broken msgs = None /\
      (length rest < 10)%nat) \/
     (exists e, r = Raise e /\ broken msgs = Some e /\ (length rest < 10)%nat) \/
     (exists e, r = Raise e /\ refused send_message_batch url)).
Proof.
  revert total batch o. induction msgs as [| [m | e] msgs IH]; intros total batch o Hlen.
  - exists (Ok (total, batch)), o, [], batch. cbn [enqueue yielded entries broken length concat].
    split; [reflexivity |]. split; [reflexivity |].
    split; [unfold handed; cbn; now rewrite app_nil_r |].
    split; [constructor |]. split; [now rewrite app_nil_r |].
    left. rewrite Nat.add_0_r. auto.
  - cbn [enqueue yielded broken].
    set (total' := S total).
    set (batch' := (batch ++ [{| Id := str_nat total'; MessageBody := dumps m |}])%list).
    assert (Hlen' : length batch' = S (length batch)).
    { subst batch'. rewrite length_app. cbn. lia. }
    assert (Hsplit : (batch ++ entries dumps total (m :: yielded msgs)
                      = batch' ++ entries dumps total' (yielded msgs))%list).
    { subst batch'. cbn [entries]. now rewrite <- app_assoc. }
    destruct (length batch' =? 10)%nat eqn:Hten.
    + apply Nat.eqb_eq in Hten. cbn [negb].
      assert (Hne : batch' <> []) by (intros Hnil; rewrite Hnil in Hten; discriminate).
      destruct (send_batch_runs url batch' o Hne) as [[Hsend Hq] | [e [Hsend Hq]]].
      * rewrite (ibind_ok _ _ _ _ _ Hsend).
        destruct (IH total' [] {| world := world o; sent := sent o ++ [(url, batch')] |})
          as (r & o' & new & rest & Hrun & Hw & Hsent & Hfull & Hcat & Hcase);
          [cbn; lia |].
        exists r, o', (batch' :: new), rest.
        split; [exact Hrun |]. split; [exact Hw |].
        split; [unfold handed in *; cbn [sent map] in *; rewrite Hsent, <- app_assoc;
                reflexivity |].
        split; [constructor; [exact Hten | exact Hfull] |].
        split; [cbn [concat]; rewrite <- app_assoc, Hcat, Hsplit; reflexivity |].
        destruct Hcase as [(-> & Hb & Hr) | [(e & -> & Hb & Hr) | (e & -> & Href)]].
        -- left. split; [| auto]. do 2 f_equal. subst total'. cbn [length]. lia.
        -- right. left. exists e. auto.
        -- right. right. exists e. auto.
      * rewrite (ibind_raise _ _ _ _ _ Hsend).
        exists (Raise e), {| world := world o; sent := sent o ++ [(url, batch')] |},
               [batch'], (entries dumps total' (yielded msgs)).
        split; [reflexivity |]. split; [reflexivity |].
        split; [reflexivity |].
        split; [repeat constructor; exact Hten |].
        split; [cbn [concat]; rewrite app_nil_r; symmetry; exact Hsplit |].
        right. right. exists e. split; [reflexivity |]. now exists batch', (length (sent o)).
    + apply Nat.eqb_neq in Hten.
      destruct (IH total' batch' o) as (r & o' & new & rest & Hrun & Hw & Hsent & Hfull & Hcat & Hcase);
        [lia |].
      exists r, o', new, rest.
      split; [exact Hrun |]. split; [exact Hw |]. split; [exact Hsent |].
      split; [exact Hfull |]. split; [now rewrite Hcat, Hsplit |].
      destruct Hcase as [(-> & Hb & Hr) | [(e & -> & Hb & Hr) | (e & -> & Href)]].
      * left. split; [| auto]. do 2 f_equal. subst total'. cbn [length]. lia.
      * right. left. exists e. auto.
      * right. right. exists e. auto.
  - exists (Raise e), o, [], batch. cbn [enqueue yielded entries broken length concat].
    split; [reflexivity |]. split; [reflexivity |].
    split; [unfold handed; cbn; now rewrite app_nil_r |].
    split; [constructor |]. split; [now rewrite app_nil_r |].
    right. left. exists e. auto.
Qed.

End IngestLoop.

(** ** A launch of the ingestion *)

Section IngestMain.
Import Py Schema Core Ddb Runtime Config RunTable StartRun Settings Spec Footprint.
Import Ingest IngestFacts IngestRuns.
Variable Stream : Type.
Variable csv_reader : Stream -> list (list string).
Variable norm : string -> string.
Variable py_int : string -> option Z.
Variable py_float : string -> option float.
Variable dumps : TileJobMessage -> string.
Variable head_object : string -> string -> Result (option string).
Variable get_object : string -> string -> Result Stream.
Variable send_message_batch : string -> list Entry -> nat -> Result (list string).
Variable repr : list string -> string.

Local Abbreviation launch :=
  (main Stream csv_reader norm py_int py_float dumps head_object get_object
        send_message_batch repr).

Lemma in_world_run {A} (c : M A) o r w :
  c (world o) = (r, w) -> in_world c o = (r, {| world := w; sent := sent o |}).
Proof. intros H. unfold in_world. now rewrite H. Qed.

Lemma create_run_fresh tname rid sb sk total status w tbl :
  db w !! tname = Some tbl -> tbl !! run_key rid = None ->
  create_run tname rid sb sk total status None w =
  (Ok (run_item rid sb sk total status (clock w)),
   with_db w (<[ tname := <[ run_key rid := created_row rid sb sk total status (clock w) ]> tbl ]>
                (db w))).
Proof.
  intros Ht Hnone. unfold create_run, bind, time_time, on_db.
  rewrite (put_run_item _ _ _ _ _ _ _ _ _ Ht), Hnone. cbn [default from_option id].
  rewrite lookup_empty. reflexivity.
Qed.

Lemma create_run_taken tname rid sb sk total status w tbl old :
  db w !! tname = Some tbl -> tbl !! run_key rid = Some old -> is_Some (old !! "run_id") ->
  create_run tname rid sb sk total status None w = (Raise run_exists, w).
Proof.
  intros Ht Hold [v Hv]. unfold create_run, bind, time_time, on_db.
  rewrite (put_run_item _ _ _ _ _ _ _ _ _ Ht), Hold. cbn [default from_option id].
  rewrite Hv. now destruct w.
Qed.

Lemma created_row_total rid sb sk total status created :
  <[ "total_tiles" := AN (num_of_int total) ]> (created_row rid sb sk 0 status created)
  = created_row rid sb sk total status created.
Proof.
  unfold created_row.
  apply map_eq. intros p. unfold created_row.
  rewrite !lookup_insert. repeat case_decide; congruence.
Qed.

Lemma quiet_ibind {A B} (c : I A) (k : A -> I B) :
  sends_nothing c -> (forall a, sends_nothing (k a)) -> sends_nothing (ibind c k).
Proof.
  intros Hc Hk o. unfold ibind. specialize (Hc o).
  destruct (c o) as [[a | e] o1]; cbn [snd] in *; [| exact Hc].
  now rewrite Hk.
Qed.

Lemma quiet_ilift {A} (r : Result A) : sends_nothing (ilift r).
Proof. intros o. reflexivity. Qed.

Lemma quiet_in_world {A} (c : M A) : sends_nothing (in_world c).
Proof. intros o. unfold in_world. now destruct (c (world o)). Qed.

Lemma quiet_iret {A} (a : A) : sends_nothing (iret a).
Proof. intros o. reflexivity. Qed.

Lemma batched_full new : Forall full new -> batched new.
Proof.
  induction 1 as [| b new Hb Hnew IH]; [exact Logic.I |].
  unfold full in Hb. destruct new as [| b' new]; cbn; [lia | now split].
Qed.

Lemma batched_snoc new rest :
  Forall full new -> (0 < length rest <= 10)%nat -> batched (new ++ [rest]).
Proof.
  induction 1 as [| b new Hb Hnew IH]; intros Hr; [exact Hr |].
  unfold full in Hb. cbn [app]. specialize (IH Hr).
  destruct (new ++ [rest])%list as [| b' l] eqn:Hl; [now destruct new |].
  now split.
Qed.

Lemma handed_trans url o o1 o2 new new' :
  handed url o o1 new -> handed url o1 o2 new' -> handed url o o2 (new ++ new').
Proof.
  unfold handed. intros H1 H2. now rewrite H2, H1, map_app, app_assoc.
Qed.

Variable args : Args.
Variable from_env : Result IngestionConfig.
Variable config : IngestionConfig.
Variable stream : Stream.
Variable etag : string.
Hypothesis Henv : from_env = Ok config.
Hypothesis Hbody : _get_s3_body Stream head_object get_object (bucket args) (key args)
                   = Ok (stream, etag).

Local Abbreviation rid := (main_run_id (run_id args) (bucket args) (key args) etag).
Local Abbreviation url := (tile_jobs_queue_url config).
Local Abbreviation table := (runs_table (base config)).

Lemma launch_not_created o e w1 :
  create_run table rid (bucket args) (key args) 0 RUN_RUNNING None (world o) = (Raise e, w1) ->
  launch args from_env o = (Raise e, {| world := w1; sent := sent o |}).
Proof.
  intros Hc. unfold main, ibind, ilift. rewrite Henv, Hbody.
  now rewrite (in_world_run _ _ _ _ Hc).
Qed.

Lemma launch_unreadable o item w1 e :
  create_run table rid (bucket args) (key args) 0 RUN_RUNNING None (world o) = (Ok item, w1) ->
  _iter_csv_rows Stream csv_reader norm stream (source args) = Raise e ->
  launch args from_env o = (Raise e, {| world := w1; sent := sent o |}).
Proof.
  intros Hc Hcsv. unfold main, ibind, ilift. rewrite Henv, Hbody.
  now rewrite (in_world_run _ _ _ _ Hc), Hcsv.
Qed.

Lemma launch_created o item w1 src rows :
  create_run table rid (bucket args) (key args) 0 RUN_RUNNING None (world o) = (Ok item, w1) ->
  _iter_csv_rows Stream csv_reader norm stream (source args) = Ok (src, rows) ->
  launch args from_env o =
  match enqueue dumps send_message_batch repr url (dry_run args)
                (_iter_messages py_int py_float rows rid src (bucket args) (key args)) 0 []
                {| world := w1; sent := sent o |} with
  | (Ok (total, batch), o2) =>
      ibind (if negb (is_nil batch) && negb (dry_run args)
             then _send_batch send_message_batch repr url batch else iret tt)
            (fun _ => ibind (in_world (set_total_tiles table rid (Z.of_nat total)))
                            (fun _ => iret 0)) o2
  | (Raise e, o2) => (Raise e, o2)
  end.
Proof.
  intros Hc Hcsv. unfold main, ibind, ilift. rewrite Henv, Hbody.
  rewrite (in_world_run _ _ _ _ Hc), Hcsv.
  destruct (enqueue _ _ _ _ _ _ _ _ _) as [[[total batch] | e] o2]; reflexivity.
Qed.

Lemma launch_runs o item w1 src rows :
  create_run table rid (bucket args) (key args) 0 RUN_RUNNING None (world o) = (Ok item, w1) ->
  _iter_csv_rows Stream csv_reader norm stream (source args) = Ok (src, rows) ->
  let msgs := _iter_messages py_int py_float rows rid src (bucket args) (key args) in
  exists r o' new rest,
    launch args from_env o = (r, o') /\
    handed url o o' new /\
    batched new /\
    (concat new ++ rest = entries dumps 0 (yielded msgs))%list /\
    (dry_run args = true -> new = []) /\
    ((broken msgs = None /\ (dry_run args = false -> rest = []) /\
      exists rt w2,
        set_total_tiles table rid (Z.of_nat (length (yielded msgs))) w1 = (rt, w2) /\
        world o' = w2 /\
        r = match rt with Ok _ => Ok 0 | Raise e => Raise e end) \/
     (exists e, broken msgs = Some e /\ r = Raise e /\ world o' = w1 /\ Forall full new /\
                (dry_run args = false -> (length rest < 10)%nat)) \/
     (exists e, r = Raise e /\ world o' = w1 /\ refused send_message_batch url /\
                dry_run args = false)).
Proof.
  intros Hc Hcsv msgs. rewrite (launch_created _ _ _ _ _ Hc Hcsv). fold msgs.
  set (o1 := {| world := w1; sent := sent o |}).
  assert (Hfinish : forall o2 total,
             exists rt w2,
               set_total_tiles table rid (Z.of_nat total) (world o2) = (rt, w2) /\
               ibind (in_world (set_total_tiles table rid (Z.of_nat total)))
                     (fun _ => iret 0) o2
               = (match rt with Ok _ => Ok 0 | Raise e => Raise e end,
                  {| world := w2; sent := sent o2 |})).
  { intros o2 total.
    destruct (set_total_tiles table rid (Z.of_nat total) (world o2)) as [rt w2] eqn:Hset.
    exists rt, w2. split; [reflexivity |].
    unfold ibind. rewrite (in_world_run _ _ _ _ Hset). now destruct rt. }
  destruct (dry_run args) eqn:Hdry.
  - destruct (enqueue_dry_result dumps send_message_batch repr url msgs 0%nat [] o1)
      as (r & Hrun & Hr).
    rewrite Hrun.
    assert (Hnone : handed url o o1 []) by (unfold handed; cbn; now rewrite app_nil_r).
    destruct (broken msgs) as [e |] eqn:Hb.
    + subst r. exists (Raise e), o1, [], (entries dumps 0 (yielded msgs)).
      split; [reflexivity |]. split; [exact Hnone |]. split; [exact Logic.I |].
      split; [reflexivity |]. split; [reflexivity |].
      right. left. exists e. repeat split; try constructor. discriminate.
    + destruct Hr as [rest ->]. rewrite andb_false_r.
      erewrite ibind_ok by reflexivity.
      destruct (Hfinish o1 (0 + length (yielded msgs))%nat) as (rt & w2 & Hset & ->).
      eexists _, _, [], (entries dumps 0 (yielded msgs)).
      split; [reflexivity |]. split; [exact Hnone |]. split; [exact Logic.I |].
      split; [reflexivity |]. split; [reflexivity |].
      left. split; [reflexivity |]. split; [discriminate |].
      exists rt, w2. split; [exact Hset |]. split; reflexivity.
  - destruct (enqueue_runs dumps send_message_batch repr url msgs 0%nat [] o1)
      as (r & o2 & new & rest & Hrun & Hw & Hsent & Hfull & Hcat & Hcase); [cbn; lia |].
    rewrite Hrun. cbn [app] in Hcat.
    assert (Hsent' : handed url o o2 new) by exact Hsent.
    destruct Hcase as [(-> & Hb & Hr) | [(e & -> & Hb & Hr) | (e & -> & Href)]].
    + rewrite andb_true_r.
      destruct rest as [| x rest].
      * cbn [is_nil negb]. erewrite ibind_ok by reflexivity.
        destruct (Hfinish o2 (0 + length (yielded msgs))%nat) as (rt & w2 & Hset & ->).
        eexists _, _, new, [].
        split; [reflexivity |]. split; [exact Hsent' |]. split; [now apply batched_full |].
        split; [exact Hcat |]. split; [discriminate |].
        left. split; [exact Hb |]. split; [reflexivity |].
        exists rt, w2. rewrite Hw in Hset. split; [exact Hset |]. split; reflexivity.
      * cbn [is_nil negb].
        set (o3 := {| world := world o2; sent := sent o2 ++ [(url, x :: rest)] |}).
        assert (Hsent3 : handed url o o3 (new ++ [x :: rest])).
        { apply (handed_trans _ _ o2); [exact Hsent' | reflexivity]. }
        assert (Hb3 : batched (new ++ [x :: rest])).
        { apply batched_snoc; [exact Hfull |]. cbn [length] in *. lia. }
        assert (Hcat3 : (concat (new ++ [x :: rest]) ++ []
                         = entries dumps 0 (yielded msgs))%list).
        { rewrite app_nil_r, concat_app. cbn [concat]. now rewrite app_nil_r. }
        destruct (send_batch_runs send_message_batch repr url (x :: rest) o2)
          as [[Hsend Hq] | [e [Hsend Hq]]]; [discriminate | |].
        -- rewrite (ibind_ok _ _ _ _ _ Hsend).
           destruct (Hfinish o3 (0 + length (yielded msgs))%nat) as (rt & w2 & Hset & Hfin).
           unfold o3 in Hfin at 1. cbv zeta. rewrite Hfin.
           eexists _, _, (new ++ [x :: rest])%list, [].
           split; [reflexivity |]. split; [exact Hsent3 |]. split; [exact Hb3 |].
           split; [exact Hcat3 |]. split; [discriminate |].
           left. split; [exact Hb |]. split; [reflexivity |].
           exists rt, w2. cbn [world o3] in Hset. rewrite Hw in Hset.
           split; [exact Hset |]. split; reflexivity.
        -- rewrite (ibind_raise _ _ _ _ _ Hsend).
           eexists _, _, (new ++ [x :: rest])%list, [].
           split; [reflexivity |]. split; [exact Hsent3 |]. split; [exact Hb3 |].
           split; [exact Hcat3 |]. split; [discriminate |].
           right. right. exists e. split; [reflexivity |]. split; [exact Hw |].
           split; [| reflexivity]. now exists (x :: rest), (length (sent o2)).
    + exists (Raise e), o2, new, rest.
      split; [reflexivity |]. split; [exact Hsent' |]. split; [now apply batched_full |].
      split; [exact Hcat |]. split; [discriminate |].
      right. left. exists e. auto 10.
    + exists (Raise e), o2, new, rest.
      split; [reflexivity |]. split; [exact Hsent' |]. split; [now apply batched_full |].
      split; [exact Hcat |]. split; [discriminate |].
      right. right. exists e. auto.
Qed.

End IngestMain.

Section IngestRows.
Import Py Schema Core Ddb Runtime Config RunTable StartRun Settings Spec Footprint.
Import Ingest IngestFacts IngestRuns.

Lemma yielded_all msgs : broken msgs = None -> length (yielded msgs) = length msgs.
Proof.
  induction msgs as [| [m | e] msgs IH]; cbn; intros Hb; [reflexivity | | discriminate].
  now rewrite IH.
Qed.

Lemma created_run_row (w : World) (tname : string) (tbl : Table) rid sb sk total status created :
  row_of (db (with_db w (<[ tname := <[ run_key rid := created_row rid sb sk total status created ]>
                                        tbl ]> (db w)))) tname (run_key rid)
  = Some (created_row rid sb sk total status created).
Proof. cbn [db with_db]. apply row_of_updated. Qed.

Lemma counted_run_row (w : World) (tname : string) (tbl : Table) rid sb sk status created total :
  db w !! tname = Some tbl ->
  tbl !! run_key rid = Some (created_row rid sb sk 0 status created) ->
  exists attrs w',
    set_total_tiles tname rid total w = (Ok attrs, w') /\
    row_of (db w') tname (run_key rid) = Some (created_row rid sb sk total status created).
Proof.
  intros Ht Hrow. destruct (set_total_tiles_ok tname rid total w tbl Ht) as [attrs Hset].
  cbv zeta in Hset. rewrite Hrow in Hset. cbn [default from_option id] in Hset.
  rewrite created_row_total in Hset.
  exists attrs. eexists. split; [exact Hset |]. cbn [db with_db]. apply row_of_updated.
Qed.

Lemma created_row_id rid sb sk total status created :
  is_Some (created_row rid sb sk total status created !! "run_id").
Proof.
  unfold created_row. repeat (rewrite lookup_insert_ne by discriminate).
  rewrite lookup_insert_eq. eauto.
Qed.

End IngestRows.



(** X26: the queue gets the rows in order, ten at a time.  When the
    configuration loads and the manifest is read, then whatever the
    tables and the queue answer, the batches [main] hands to the queue
    are consecutive entries of the messages of the rows, numbered from 1
    in the order of the rows, from the first on: no entry twice, none
    out of order; every batch holds ten entries, but the last, which
    holds from one to ten. *)
Theorem main_batches_in_order (Stream : Type) csv_reader norm py_int py_float dumps
    head_object get_object send_message_batch repr args from_env config stream etag src rows o :
  from_env = Core.Ok config ->
  Ingest._get_s3_body Stream head_object get_object (Ingest.bucket args) (Ingest.key args)
    = Core.Ok (stream, etag) ->
  Ingest._iter_csv_rows Stream csv_reader norm stream (Ingest.source args) = Core.Ok (src, rows) ->
  let rid := StartRun.main_run_id (Ingest.run_id args) (Ingest.bucket args) (Ingest.key args)
                                  etag in
  let msgs := Ingest._iter_messages py_int py_float rows rid src (Ingest.bucket args)
                                    (Ingest.key args) in
  let o' := snd (Ingest.main Stream csv_reader norm py_int py_float dumps head_object
                             get_object send_message_batch repr args from_env o) in
  exists new rest,
    IngestRuns.handed (Settings.tile_jobs_queue_url config) o o' new /\
    IngestFacts.batched new /\
    (concat new ++ rest = IngestFacts.entries dumps 0 (IngestFacts.yielded msgs))%list.
Proof.
  intros Henv Hbody Hcsv rid msgs o'.
  destruct (RunTable.create_run (Config.runs_table (Settings.base config)) rid
              (Ingest.bucket args) (Ingest.key args) 0 Schema.RUN_RUNNING None
              (Ingest.world o)) as [[item | e] w1] eqn:Hc.
  - destruct (launch_runs Stream csv_reader norm py_int py_float dumps head_object get_object
                send_message_batch repr args from_env config stream etag Henv Hbody
                o item w1 src rows Hc Hcsv)
      as (r & o2 & new & rest & Hrun & Hsent & Hb & Hcat & _).
    exists new, rest. subst o'. rewrite Hrun. auto.
  - exists [], (IngestFacts.entries dumps 0 (IngestFacts.yielded msgs)). subst o'.
    rewrite (launch_not_created Stream csv_reader norm py_int py_float dumps head_object
               get_object send_message_batch repr args from_env config stream etag Henv Hbody
               o e w1 Hc).
    split; [unfold IngestRuns.handed; cbn; now rewrite app_nil_r |].
    split; [exact I | reflexivity].
Qed.

(** X27: a good manifest is enqueued whole.  When the configuration
    loads, the manifest is read, no row fails, the table of runs has no
    row for the run and the queue takes every batch, [main] returns 0;
    the row of the run is the one [create_run] makes, RUNNING, with the
    number of rows that are not blank as its total; and, unless the run
    is dry, the batches handed to the queue hold the entries of all the
    messages, in order, ten to a batch but for the last.  A dry run
    writes the same row and sends nothing. *)
Theorem main_enqueues_every_row (Stream : Type) csv_reader norm py_int py_float dumps
    head_object get_object send_message_batch repr args from_env config stream etag src rows
    o tbl :
  from_env = Core.Ok config ->
  Ingest._get_s3_body Stream head_object get_object (Ingest.bucket args) (Ingest.key args)
    = Core.Ok (stream, etag) ->
  Ingest._iter_csv_rows Stream csv_reader norm stream (Ingest.source args) = Core.Ok (src, rows) ->
  let rid := StartRun.main_run_id (Ingest.run_id args) (Ingest.bucket args) (Ingest.key args)
                                  etag in
  let msgs := Ingest._iter_messages py_int py_float rows rid src (Ingest.bucket args)
                                    (Ingest.key args) in
  let table := Config.runs_table (Settings.base config) in
  let url := Settings.tile_jobs_queue_url config in
  IngestFacts.broken msgs = None ->
  (forall b n, send_message_batch url b n = Core.Ok []) ->
  Runtime.db (Ingest.world o) !! table = Some tbl ->
  tbl !! RunTable.run_key rid = None ->
  exists new o',
    Ingest.main Stream csv_reader norm py_int py_float dumps head_object
                get_object send_message_batch repr args from_env o = (Core.Ok 0, o') /\
    IngestRuns.handed url o o' new /\
    IngestFacts.batched new /\
    (if Ingest.dry_run args then new = []
     else concat new = IngestFacts.entries dumps 0 (IngestFacts.yielded msgs)) /\
    length (IngestFacts.yielded msgs) = length msgs /\
    Footprint.row_of (Runtime.db (Ingest.world o')) table (RunTable.run_key rid)
    = Some (RunTable.created_row rid (Ingest.bucket args) (Ingest.key args)
              (Z.of_nat (length msgs)) Schema.RUN_RUNNING (Runtime.clock (Ingest.world o))).
Proof.
  intros Henv Hbody Hcsv rid msgs table url Hgood Hqueue Ht Hnone.
  pose proof (create_run_fresh table rid (Ingest.bucket args) (Ingest.key args) 0
                Schema.RUN_RUNNING (Ingest.world o) tbl Ht Hnone) as Hc.
  destruct (launch_runs Stream csv_reader norm py_int py_float dumps head_object get_object
              send_message_batch repr args from_env config stream etag Henv Hbody
              o _ _ src rows Hc Hcsv)
    as (r & o2 & new & rest & Hrun & Hsent & Hb & Hcat & Hdry & Hcase).
  fold rid msgs table url in Hrun, Hsent, Hcat, Hcase.
  destruct Hcase as [(_ & Hrest & rt & w2 & Hset & Hw & Hr)
                    | [(e & Hbad & _) | (e & _ & _ & (b & n & Hrefused) & _)]].
  2: { rewrite Hgood in Hbad. discriminate. }
  2: { destruct Hrefused. apply Hqueue. }
  set (row0 := RunTable.created_row rid (Ingest.bucket args) (Ingest.key args) 0
                 Schema.RUN_RUNNING (Runtime.clock (Ingest.world o))) in *.
  set (w1 := Spec.with_db (Ingest.world o)
               (<[ table := <[ RunTable.run_key rid := row0 ]> tbl ]>
                  (Runtime.db (Ingest.world o)))) in *.
  destruct (counted_run_row w1 table (<[ RunTable.run_key rid := row0 ]> tbl)
              rid (Ingest.bucket args) (Ingest.key args) Schema.RUN_RUNNING
              (Runtime.clock (Ingest.world o)) (Z.of_nat (length (IngestFacts.yielded msgs))))
    as (attrs & w' & Hset' & Hrow).
  { apply lookup_insert_eq. }
  { apply lookup_insert_eq. }
  rewrite Hset' in Hset. injection Hset as <- <-. subst r.
  exists new, o2. split; [exact Hrun |]. split; [exact Hsent |]. split; [exact Hb |].
  rewrite <- (yielded_all msgs Hgood).
  split; [| split; [reflexivity | now rewrite Hw]].
  destruct (Ingest.dry_run args); [now apply Hdry |].
  rewrite (Hrest eq_refl), app_nil_r in Hcat. exact Hcat.
Qed.

(** X28: a bad row stops the ingestion half way.  When the
    configuration loads, the manifest is read, the table of runs has no
    row for the run, the queue takes every batch and some row fails to
    parse or to validate, [main] raises the exception of the first such
    row.  The batches of ten filled before that row have been sent, the
    up to nine messages after the last of them have not, and the row of
    the run stays as [create_run] made it: RUNNING, with a total of 0. *)
Theorem main_bad_row_stops (Stream : Type) csv_reader norm py_int py_float dumps
    head_object get_object send_message_batch repr args from_env config stream etag src rows
    o tbl e :
  from_env = Core.Ok config ->
  Ingest._get_s3_body Stream head_object get_object (Ingest.bucket args) (Ingest.key args)
    = Core.Ok (stream, etag) ->
  Ingest._iter_csv_rows Stream csv_reader norm stream (Ingest.source args) = Core.Ok (src, rows) ->
  let rid := StartRun.main_run_id (Ingest.run_id args) (Ingest.bucket args) (Ingest.key args)
                                  etag in
  let msgs := Ingest._iter_messages py_int py_float rows rid src (Ingest.bucket args)
                                    (Ingest.key args) in
  let table := Config.runs_table (Settings.base config) in
  let url := Settings.tile_jobs_queue_url config in
  IngestFacts.broken msgs = Some e ->
  (forall b n, send_message_batch url b n = Core.Ok []) ->
  Runtime.db (Ingest.world o) !! table = Some tbl ->
  tbl !! RunTable.run_key rid = None ->
  exists new rest o',
    Ingest.main Stream csv_reader norm py_int py_float dumps head_object
                get_object send_message_batch repr args from_env o = (Core.Raise e, o') /\
    IngestRuns.handed url o o' new /\
    Forall IngestRuns.full new /\
    (concat new ++ rest = IngestFacts.entries dumps 0 (IngestFacts.yielded msgs))%list /\
    (if Ingest.dry_run args then new = [] else (length rest < 10)%nat) /\
    Footprint.row_of (Runtime.db (Ingest.world o')) table (RunTable.run_key rid)
    = Some (RunTable.created_row rid (Ingest.bucket args) (Ingest.key args) 0
              Schema.RUN_RUNNING (Runtime.clock (Ingest.world o))).
Proof.
  intros Henv Hbody Hcsv rid msgs table url Hbad Hqueue Ht Hnone.
  pose proof (create_run_fresh table rid (Ingest.bucket args) (Ingest.key args) 0
                Schema.RUN_RUNNING (Ingest.world o) tbl Ht Hnone) as Hc.
  destruct (launch_runs Stream csv_reader norm py_int py_float dumps head_object get_object
              send_message_batch repr args from_env config stream etag Henv Hbody
              o _ _ src rows Hc Hcsv)
    as (r & o2 & new & rest & Hrun & Hsent & Hb & Hcat & Hdry & Hcase).
  fold rid msgs table url in Hrun, Hsent, Hcat, Hcase.
  destruct Hcase as [(Hgood & _)
                    | [(e' & Hbad' & -> & Hw & Hfull & Hrest)
                      | (e' & _ & _ & (b & n & Hrefused) & _)]].
  1: { rewrite Hgood in Hbad. discriminate. }
  2: { destruct Hrefused. apply Hqueue. }
  rewrite Hbad in Hbad'. injection Hbad' as <-.
  exists new, rest, o2. split; [exact Hrun |]. split; [exact Hsent |]. split; [exact Hfull |].
  split; [exact Hcat |]. split.
  - destruct (Ingest.dry_run args); [now apply Hdry | now apply Hrest].
  - rewrite Hw. apply created_run_row.
Qed.

(** X29: a manifest is launched once.  When the configuration loads,
    the manifest is there and the table of runs has no row for the run,
    then whatever becomes of the launch (an empty manifest, a bad row, a
    queue that refuses a batch, or success), a second launch with the
    same arguments raises the failed condition of [create_run] at once:
    it sends nothing and changes nothing. *)
Theorem main_second_launch_rejected (Stream : Type) csv_reader norm py_int py_float dumps
    head_object get_object send_message_batch repr args from_env config stream etag o tbl :
  from_env = Core.Ok config ->
  Ingest._get_s3_body Stream head_object get_object (Ingest.bucket args) (Ingest.key args)
    = Core.Ok (stream, etag) ->
  let rid := StartRun.main_run_id (Ingest.run_id args) (Ingest.bucket args) (Ingest.key args)
                                  etag in
  let table := Config.runs_table (Settings.base config) in
  Runtime.db (Ingest.world o) !! table = Some tbl ->
  tbl !! RunTable.run_key rid = None ->
  let launch := Ingest.main Stream csv_reader norm py_int py_float dumps head_object
                            get_object send_message_batch repr args from_env in
  let o1 := snd (launch o) in
  launch o1 = (Core.Raise IngestRuns.run_exists, o1).
Proof.
  intros Henv Hbody rid table Ht Hnone launch o1.
  pose proof (create_run_fresh table rid (Ingest.bucket args) (Ingest.key args) 0
                Schema.RUN_RUNNING (Ingest.world o) tbl Ht Hnone) as Hc.
  set (row0 := RunTable.created_row rid (Ingest.bucket args) (Ingest.key args) 0
                 Schema.RUN_RUNNING (Runtime.clock (Ingest.world o))) in *.
  set (w1 := Spec.with_db (Ingest.world o)
               (<[ table := <[ RunTable.run_key rid := row0 ]> tbl ]>
                  (Runtime.db (Ingest.world o)))) in *.
  assert (Hid : forall total, is_Some (RunTable.created_row rid (Ingest.bucket args)
                                 (Ingest.key args) total Schema.RUN_RUNNING
                                 (Runtime.clock (Ingest.world o)) !! "run_id")).
  { intros total. apply created_row_id. }
  assert (Hhas : exists tbl1 row1,
             Runtime.db (Ingest.world o1) !! table = Some tbl1 /\
             tbl1 !! RunTable.run_key rid = Some row1 /\ is_Some (row1 !! "run_id")).
  { assert (Hw1 : exists tbl1 row1,
               Runtime.db w1 !! table = Some tbl1 /\
               tbl1 !! RunTable.run_key rid = Some row1 /\ is_Some (row1 !! "run_id")).
    { eexists _, row0. split; [apply lookup_insert_eq |].
      split; [apply lookup_insert_eq | apply Hid]. }
    destruct (Ingest._iter_csv_rows Stream csv_reader norm stream (Ingest.source args))
      as [[src rows] | e] eqn:Hcsv.
    - destruct (launch_runs Stream csv_reader norm py_int py_float dumps head_object get_object
                  send_message_batch repr args from_env config stream etag Henv Hbody
                  o _ _ src rows Hc Hcsv)
        as (r & o2 & new & rest & Hrun & _ & _ & _ & _ & Hcase).
      subst o1 launch. cbv zeta in Hrun. rewrite Hrun. cbn [snd].
      destruct Hcase as [(_ & _ & rt & w2 & Hset & Hw & _)
                        | [(e & _ & _ & Hw & _) | (e & _ & Hw & _)]];
        try (rewrite Hw; exact Hw1).
      fold rid table in Hset.
      destruct (set_total_tiles_ok table rid
                  (Z.of_nat (length (IngestFacts.yielded
                     (Ingest._iter_messages py_int py_float rows rid src (Ingest.bucket args)
                        (Ingest.key args))))) w1 _ (lookup_insert_eq _ _ _))
        as [attrs Hset'].
      cbv zeta in Hset'. rewrite lookup_insert_eq in Hset'.
      cbn [default from_option id] in Hset'.
      unfold row0 in Hset'. rewrite created_row_total in Hset'.
      fold w1 in Hset. rewrite Hset' in Hset. injection Hset as _ <-. rewrite Hw.
      eexists _, _. cbn [Runtime.db Spec.with_db].
      split; [apply lookup_insert_eq |]. split; [apply lookup_insert_eq | apply Hid].
    - subst o1 launch. cbv zeta.
      rewrite (launch_unreadable Stream csv_reader norm py_int py_float dumps head_object
                 get_object send_message_batch repr args from_env config stream etag Henv
                 Hbody o _ _ e Hc Hcsv).
      exact Hw1. }
  destruct Hhas as (tbl1 & row1 & Ht1 & Hrow1 & Hsome).
  pose proof (create_run_taken table rid (Ingest.bucket args) (Ingest.key args) 0
                Schema.RUN_RUNNING (Ingest.world o1) tbl1 row1 Ht1 Hrow1 Hsome) as Hc1.
  unfold launch at 1.
  rewrite (launch_not_created Stream csv_reader norm py_int py_float dumps head_object
             get_object send_message_batch repr args from_env config stream etag Henv Hbody
             o1 _ _ Hc1).
  now destruct o1.
Qed.

(** ** The properties on literal inputs *)

Section CaseRuns.
Import Py Schema Core Ddb Runtime Config S3 TileJobs Processor Scenario Cases.

Lemma pair_fst {A B} (p : A * B) (a : A) : fst p = a -> p = (a, snd p).
Proof. intros <-. apply surjective_pairing. Qed.

Lemma fresh_tile_valid : valid_message fresh_tile = true.
Proof. vm_compute. reflexivity. Qed.

Lemma fresh_tile_id : get_tile_id fresh_tile = Some "14/8716/5378".
Proof. vm_compute. reflexivity. Qed.

Lemma relabelled_valid : valid_message relabelled = true.
Proof. vm_compute. reflexivity. Qed.

Lemma relabelled_id : get_tile_id relabelled = Some "14/8716/5378".
Proof. vm_compute. reflexivity. Qed.

Lemma empty_world_jobs t : db (empty_world t) !! "jobs" = Some (∅ : Table).
Proof. unfold empty_world. cbn [db]. apply lookup_insert_eq. Qed.

Lemma empty_world_runs t : db (empty_world t) !! "runs" = Some (∅ : Table).
Proof.
  unfold empty_world. cbn [db]. rewrite lookup_insert_ne by discriminate.
  apply lookup_singleton_eq.
Qed.

Lemma fresh_claim :
  fst (claim_job "jobs" fresh_tile (Some 1000) 900 (empty_world 1000))
  = Ok {| result := CLAIMED; tile_id := "14/8716/5378"; attempt := Some 1;
          claimed_at_epoch := Some 1000; checkpoint := None |}.
Proof. vm_compute. reflexivity. Qed.

Lemma fresh_claim_clock :
  fst (claim_job "jobs" fresh_tile None 900 (empty_world 1000))
  = Ok {| result := CLAIMED; tile_id := "14/8716/5378"; attempt := Some 1;
          claimed_at_epoch := Some 1000; checkpoint := None |}.
Proof. vm_compute. reflexivity. Qed.

Lemma fresh_process :
  fst (process_tile obliging fresh_tile config None (empty_world 1000))
  = Ok {| pr_status := PS_completed; pr_tile_id := Some "14/8716/5378";
          pr_status_ai := Some "burned";
          pr_s3_key := Some "runs/run_x/tiles/z=14/x=8716/y=5378.jpg";
          pr_reason := None |}.
Proof. vm_compute. reflexivity. Qed.

Lemma starved_process :
  fst (process_tile out_of_imagery fresh_tile config None (empty_world 1000))
  = Raise (ImageryFetchError Mapbox (Some 503) "unavailable" 3).
Proof. vm_compute. reflexivity. Qed.

Lemma fresh_upload :
  fst (_upload_to_s3 obliging fresh_tile "image" config (empty_world 1000))
  = Ok ("imagery", "runs/run_x/tiles/z=14/x=8716/y=5378.jpg").
Proof. vm_compute. reflexivity. Qed.

Lemma relabelled_upload :
  fst (_upload_to_s3 obliging relabelled "image" config (empty_world 1000))
  = Ok ("imagery", "runs/run_x/tiles/z=14/x=8716/y=5378.jpg").
Proof. vm_compute. reflexivity. Qed.

Lemma secret_read :
  fst (read_secret answering "pipeline" 300 1000 no_secrets) = Ok "{}".
Proof. vm_compute. reflexivity. Qed.

Lemma secret_unread :
  fst (read_secret unavailable "pipeline" 300 1000 no_secrets)
  = Raise (ClientError "ResourceNotFoundException" "no such secret").
Proof. vm_compute. reflexivity. Qed.

Lemma manifest_body :
  Ingest._get_s3_body unit (fun _ _ => Ok (Some "5d41402abc4b2a76")) (fun _ _ => Ok tt)
                      "manifests" "tiles.csv"
  = Ok (tt, "5d41402abc4b2a76").
Proof. vm_compute. reflexivity. Qed.

Lemma manifest_rows rows :
  Ingest._iter_csv_rows unit (fun _ => ["z"; "x"; "y"] :: rows) (fun cell => cell) tt None
  = Ok (Mapbox, Ingest.DictReader ["z"; "x"; "y"] rows).
Proof. reflexivity. Qed.

Lemma manifest_good :
  IngestFacts.broken
    (Ingest._iter_messages Settings.decimal_int (fun _ => None)
       (Ingest.DictReader ["z"; "x"; "y"] [ ["14"; "8716"; "5378"]; ["14"; "8717"; "5378"] ])
       (StartRun.main_run_id None "manifests" "tiles.csv" "5d41402abc4b2a76")
       Mapbox "manifests" "tiles.csv") = None.
Proof. vm_compute. reflexivity. Qed.

Lemma manifest_bad :
  IngestFacts.broken
    (Ingest._iter_messages Settings.decimal_int (fun _ => None)
       (Ingest.DictReader ["z"; "x"; "y"] [ ["14"; "8716"; "5378"]; ["14"; "east"; "5378"] ])
       (StartRun.main_run_id None "manifests" "tiles.csv" "5d41402abc4b2a76")
       Mapbox "manifests" "tiles.csv") = Some (ValueError "invalid literal for int()").
Proof. vm_compute. reflexivity. Qed.

End CaseRuns.

(** X1 on the fresh tile: claimed at 1000 for 900 seconds, locked at 1900, taken over at 1901. *)
Lemma claim_job_lease_witness :
  exists data w1,
    TileJobs.claim_job "jobs" Scenario.fresh_tile (Some 1000) 900 (Scenario.empty_world 1000)
    = (Core.Ok data, w1) /\
    TileJobs.claim_job "jobs" Scenario.fresh_tile (Some 1900) 60 w1
    = (Core.Ok {| Schema.result := Schema.LOCKED_BY_OTHER; Schema.tile_id := "14/8716/5378";
                  Schema.attempt := None; Schema.claimed_at_epoch := None;
                  Schema.checkpoint := None |}, w1) /\
    exists n data2 w2,
      Schema.attempt data = Some n /\
      TileJobs.claim_job "jobs" Scenario.fresh_tile (Some 1901) 60 w1 = (Core.Ok data2, w2) /\
      Schema.attempt data2 = Some (n + 1).
Proof.
  pose proof (run_fst _ _ _ fresh_claim) as Hclaim.
  assert (Htyped : forall row : Ddb.Item,
             (∅ : Ddb.Table) !! TileJobs._job_key (Schema.run_id Scenario.fresh_tile)
                                  "14/8716/5378" = Some row -> Spec.well_typed row).
  { intros row Hrow. rewrite lookup_empty in Hrow. discriminate Hrow. }
  eexists _, _. split; [exact Hclaim |]. split.
  - apply (claim_job_lease "jobs" Scenario.fresh_tile 1000 900 1900 60 _ ∅ "14/8716/5378" _ _
             fresh_tile_valid fresh_tile_id (empty_world_jobs 1000) Htyped Hclaim eq_refl).
    lia.
  - destruct (claim_job_lease "jobs" Scenario.fresh_tile 1000 900 1901 60 _ ∅ "14/8716/5378" _ _
                fresh_tile_valid fresh_tile_id (empty_world_jobs 1000) Htyped Hclaim eq_refl)
      as [_ Htake].
    destruct Htake as (n & data2 & w2 & Hn & Hrun & _ & Hatt & _); [lia |].
    exists n, data2, w2. auto.
Defined.


(** X3 with 19999 ms left. *)
Lemma process_tile_short_of_time_witness :
  Footprint.adds_only Footprint.not_analysis
    (Processor.process_tile Scenario.obliging Scenario.fresh_tile Scenario.config (Some 19999)) /\
  forall w res w',
    Processor.process_tile Scenario.obliging Scenario.fresh_tile Scenario.config (Some 19999) w
    = (Core.Ok res, w') ->
    Schema.pr_status res = Schema.PS_skipped.
Proof.
  apply process_tile_short_of_time. reflexivity.
Defined.

(** X5 on a row that is COMPLETED. *)
Lemma fail_job_records_witness :
  let w := Scenario.world_with [("status", Ddb.AS "COMPLETED")] 1000 in
  exists attrs w',
    TileJobs.fail_job "jobs" "run_x" "14/8716/5378" "ANALYSIS_FAILED" "no verdict" None w
    = (Core.Ok attrs, w').
Proof.
  intros w.
  destruct (fail_job_records "jobs" "run_x" "14/8716/5378" "ANALYSIS_FAILED" "no verdict" None
              w _ (world_with_jobs _ _)) as [[attrs Hrun] _].
  exists attrs. eexists. exact Hrun.
Defined.

(** X6 on a table without the row. *)
Lemma complete_job_records_witness :
  exists w',
    TileJobs.complete_job "jobs" "run_x" "14/8716/5378" "imagery" Scenario.stored_object
                          (Some "burned") None None (Some 990) None (Scenario.empty_world 1000)
    = (Core.Ok tt, w').
Proof.
  eexists.
  exact (proj1 (complete_job_records "jobs" "run_x" "14/8716/5378" "imagery"
                  Scenario.stored_object (Some "burned") None None (Some 990) None
                  (Scenario.empty_world 1000) ∅ (empty_world_jobs 1000))).
Defined.

(** X7 on a table without the row of the run. *)
Lemma update_run_counters_adds_witness :
  exists attrs w',
    Runs.update_run_counters "runs" "run_x" 1 0 (Scenario.empty_world 1000) = (Core.Ok attrs, w') /\
    Footprint.counter (Footprint.row_of (Runtime.db w') "runs" [("run_id", "run_x")])
                      "completed_tiles" = 0 + 1.
Proof.
  destruct (update_run_counters_adds "runs" "run_x" 1 0 (Scenario.empty_world 1000) ∅
              (empty_world_runs 1000)) as (attrs & w' & Hrun & Hc & _).
  - intros it name v Hit. rewrite lookup_empty in Hit. discriminate Hit.
  - exists attrs, w'. split; [exact Hrun |].
    rewrite lookup_empty in Hc. exact Hc.
Defined.

(** X8 on the fresh tile. *)
Lemma handle_failure_never_raises_witness :
  exists w',
    Processor._handle_failure (Core.AnalysisError "no verdict") Scenario.fresh_tile
                              Scenario.config (Scenario.empty_world 1000) = (Core.Ok tt, w') /\
    Runtime.trace w' = Runtime.trace (Scenario.empty_world 1000).
Proof. apply handle_failure_never_raises. exact fresh_tile_valid. Defined.


(** X10 on the fresh tile. *)
Lemma process_tile_completed_trace_witness :
  let w' := snd (Processor.process_tile Scenario.obliging Scenario.fresh_tile Scenario.config
                                        None (Scenario.empty_world 1000)) in
  exists b k events,
    Runtime.trace w' = (Runtime.trace (Scenario.empty_world 1000) ++ events)%list /\
    (events = [Runtime.EvDownload b k; Runtime.EvAnalyze] \/
     (b = "imagery" /\
      events = [Runtime.EvFetch Schema.Mapbox; Runtime.EvUpload b k; Runtime.EvAnalyze])).
Proof.
  intros w'.
  destruct (process_tile_completed_trace Scenario.obliging Scenario.fresh_tile Scenario.config
              None (Scenario.empty_world 1000) _ _ (run_fst _ _ _ fresh_process) eq_refl)
    as (tid & b & k & row & events & _ & _ & _ & Htrace & Hev & _).
  exists b, k, events. auto.
Defined.

(** X11 on the fresh tile and the same tile under a region label. *)
Lemma get_tile_id_separates_witness :
  Schema.imagery_source Scenario.fresh_tile = Schema.imagery_source Cases.relabelled /\
  (Schema.imagery_source Scenario.fresh_tile = Schema.Mapbox ->
   Schema.z Scenario.fresh_tile = Schema.z Cases.relabelled /\
   Schema.x Scenario.fresh_tile = Schema.x Cases.relabelled /\
   Schema.y Scenario.fresh_tile = Schema.y Cases.relabelled).
Proof.
  destruct (get_tile_id_separates Scenario.fresh_tile Cases.relabelled fresh_tile_valid
              relabelled_valid (eq_trans fresh_tile_id (eq_sym relabelled_id)))
    as (Hsrc & Htile & _).
  split; [exact Hsrc | exact Htile].
Defined.

(** X12 on the fresh tile and the same tile under a region label. *)
Lemma upload_key_canonical_witness :
  ("imagery", "runs/run_x/tiles/z=14/x=8716/y=5378.jpg")
  = ("imagery", "runs/run_x/tiles/z=14/x=8716/y=5378.jpg")
  <-> Schema.get_tile_id Scenario.fresh_tile = Schema.get_tile_id Cases.relabelled.
Proof.
  exact (upload_key_canonical Scenario.obliging Scenario.obliging Scenario.fresh_tile
           Cases.relabelled "image" "image" Scenario.config (Scenario.empty_world 1000)
           (Scenario.empty_world 1000) _ _ _ _ fresh_tile_valid relabelled_valid eq_refl
           (run_fst _ _ _ fresh_upload) (run_fst _ _ _ relabelled_upload)).
Defined.

(** X19 on the fresh tile. *)
Lemma checkpoint_s3_round_trip_witness :
  exists attrs w1 row1,
    TileJobs.checkpoint_s3 "jobs" "run_x" "14/8716/5378" "imagery" Scenario.stored_object
                           (Scenario.empty_world 1000) = (Core.Ok attrs, w1) /\
    Footprint.row_of (Runtime.db w1) "jobs" (TileJobs._job_key "run_x" "14/8716/5378")
      = Some row1 /\
    row1 !! "s3_bucket" = Some (Ddb.AS "imagery") /\
    row1 !! "s3_key" = Some (Ddb.AS Scenario.stored_object).
Proof.
  destruct (checkpoint_s3_round_trip "jobs" Scenario.fresh_tile "14/8716/5378" "imagery"
              Scenario.stored_object (Scenario.empty_world 1000) ∅ fresh_tile_id
              (empty_world_jobs 1000))
    as (attrs & w1 & row1 & Hrun & Hrow & Hb & Hk & _).
  exists attrs, w1, row1. auto.
Defined.

(** X20: the first call creates the run, the second answers false. *)
Lemma safe_create_run_once_witness :
  exists w',
    RunTable.safe_create_run "runs" "run_x" "manifests" "tiles.csv" 0 Schema.RUN_RUNNING None
                             (Scenario.empty_world 1000) = (Core.Ok true, w') /\
    RunTable.safe_create_run "runs" "run_x" "manifests" "tiles.csv" 0 Schema.RUN_RUNNING None w'
    = (Core.Ok false, w').
Proof.
  destruct (safe_create_run_once "runs" "run_x" "manifests" "tiles.csv" 0 Schema.RUN_RUNNING None
              (Scenario.empty_world 1000) ∅ (empty_world_runs 1000)) as [Hfresh _].
  destruct (Hfresh (lookup_empty _)) as (Hrun & _).
  set (row := RunTable.created_row "run_x" "manifests" "tiles.csv" 0 Schema.RUN_RUNNING
                (default (Runtime.clock (Scenario.empty_world 1000)) None)) in *.
  set (tbl' := (<[ RunTable.run_key "run_x" := row ]> ∅ : Ddb.Table)) in *.
  set (w' := Spec.with_db (Scenario.empty_world 1000)
               (<[ "runs" := tbl' ]> (Runtime.db (Scenario.empty_world 1000)))) in *.
  exists w'. split; [exact Hrun |].
  assert (Ht : Runtime.db w' !! "runs" = Some tbl') by apply lookup_insert_eq.
  assert (Hrow : tbl' !! RunTable.run_key "run_x" = Some row) by apply lookup_insert_eq.
  assert (Hid : is_Some (row !! "run_id")) by apply created_row_id.
  exact (proj1 (proj2 (safe_create_run_once "runs" "run_x" "manifests" "tiles.csv" 0
                         Schema.RUN_RUNNING None w' tbl' Ht) row Hrow Hid)).
Defined.

(** X21 on a table without the row of the run. *)
Lemma set_total_tiles_only_witness :
  exists attrs w' row',
    RunTable.set_total_tiles "runs" "run_x" 2 (Scenario.empty_world 1000) = (Core.Ok attrs, w') /\
    Footprint.row_of (Runtime.db w') "runs" (RunTable.run_key "run_x") = Some row' /\
    row' !! "total_tiles" = Some (Ddb.AN (Ddb.num_of_int 2)).
Proof.
  destruct (set_total_tiles_only "runs" "run_x" 2 (Scenario.empty_world 1000) ∅
              (empty_world_runs 1000)) as (attrs & w' & row' & Hrun & Hrow & Htotal & _).
  exists attrs, w', row'. auto.
Defined.

(** X22: once read, the secret is served from the cache although the service is down. *)
Lemma get_secret_json_cached_witness :
  let st1 := snd (Cases.read_secret Cases.answering "pipeline" 300 1000 Cases.no_secrets) in
  exists expiry,
    Secrets._cache st1 !! "pipeline" = Some (expiry, "{}") /\
    forall ttl' now', (now' < expiry)%Q ->
      Cases.read_secret Cases.unavailable "pipeline" ttl' now' st1 = (Core.Ok "{}", st1).
Proof.
  intros st1.
  destruct (get_secret_json_cached string (fun text => Core.Ok text) (fun text => Core.Ok text)
              Cases.answering "pipeline" 300 1000 Cases.no_secrets st1 "{}"
              (pair_fst _ _ secret_read))
    as (expiry & Hcache & _).
  exists expiry. split; [exact Hcache |].
  destruct (get_secret_json_cached string (fun text => Core.Ok text) (fun text => Core.Ok text)
              Cases.unavailable "pipeline" 0 1000 st1 st1 "{}")
    as (expiry' & Hcache' & _ & _ & Hhit & _).
  - apply pair_fst. vm_compute. reflexivity.
  - rewrite Hcache in Hcache'. injection Hcache' as <-. exact Hhit.
Defined.

(** X23 with a service that fails. *)
Lemma get_secret_json_failure_witness :
  let st1 := snd (Cases.read_secret Cases.unavailable "pipeline" 300 1000 Cases.no_secrets) in
  Secrets.calls st1 = 1%nat /\ Secrets._cache st1 = Secrets._cache Cases.no_secrets.
Proof.
  intros st1.
  destruct (get_secret_json_failure string (fun text => Core.Ok text) (fun text => Core.Ok text)
              Cases.unavailable "pipeline" 300 1000 Cases.no_secrets st1 _
              (pair_fst _ _ secret_unread))
    as (_ & Hcalls & Hcache & _).
  split; [exact Hcalls | exact Hcache].
Defined.

(** X26 on the manifest of two tiles. *)
Lemma main_batches_in_order_witness :
  exists new rest,
    IngestRuns.handed "queue" Cases.start (snd (Cases.launch Cases.manifest false Cases.start))
                      new /\
    IngestFacts.batched new /\
    (concat new ++ rest
     = IngestFacts.entries Cases.tile_text 0
         (IngestFacts.yielded
            (Ingest._iter_messages Settings.decimal_int (fun _ => None)
               (Ingest.DictReader ["z"; "x"; "y"]
                  [ ["14"; "8716"; "5378"]; ["14"; "8717"; "5378"] ])
               (StartRun.main_run_id None "manifests" "tiles.csv" "5d41402abc4b2a76")
               Schema.Mapbox "manifests" "tiles.csv")))%list.
Proof.
  exact (main_batches_in_order unit (fun _ => Cases.manifest) (fun cell => cell)
           Settings.decimal_int (fun _ => None) Cases.tile_text
           (fun _ _ => Core.Ok (Some "5d41402abc4b2a76")) (fun _ _ => Core.Ok tt)
           IngestFacts.accepting (fun _ => "[]") (Cases.arguments false)
           (Core.Ok Cases.ingestion_config) Cases.ingestion_config tt "5d41402abc4b2a76"
           Schema.Mapbox _ Cases.start eq_refl manifest_body (manifest_rows _)).
Defined.

(** X27 on the manifest of two tiles. *)
Lemma main_enqueues_every_row_witness :
  exists new o',
    Cases.launch Cases.manifest false Cases.start = (Core.Ok 0, o') /\
    IngestRuns.handed "queue" Cases.start o' new /\
    IngestFacts.batched new.
Proof.
  destruct (main_enqueues_every_row unit (fun _ => Cases.manifest) (fun cell => cell)
              Settings.decimal_int (fun _ => None) Cases.tile_text
              (fun _ _ => Core.Ok (Some "5d41402abc4b2a76")) (fun _ _ => Core.Ok tt)
              IngestFacts.accepting (fun _ => "[]") (Cases.arguments false)
              (Core.Ok Cases.ingestion_config) Cases.ingestion_config tt "5d41402abc4b2a76"
              Schema.Mapbox _ Cases.start ∅ eq_refl manifest_body (manifest_rows _)
              manifest_good (fun _ _ => eq_refl) (empty_world_runs 1000) (lookup_empty _))
    as (new & o' & Hrun & Hsent & Hb & _).
  exists new, o'. split; [exact Hrun |]. split; [exact Hsent | exact Hb].
Defined.

(** X28 on the manifest whose second row has a letter for x. *)
Lemma main_bad_row_stops_witness :
  exists o',
    Cases.launch Cases.bad_manifest false Cases.start
    = (Core.Raise (Core.ValueError "invalid literal for int()"), o').
Proof.
  destruct (main_bad_row_stops unit (fun _ => Cases.bad_manifest) (fun cell => cell)
              Settings.decimal_int (fun _ => None) Cases.tile_text
              (fun _ _ => Core.Ok (Some "5d41402abc4b2a76")) (fun _ _ => Core.Ok tt)
              IngestFacts.accepting (fun _ => "[]") (Cases.arguments false)
              (Core.Ok Cases.ingestion_config) Cases.ingestion_config tt "5d41402abc4b2a76"
              Schema.Mapbox _ Cases.start ∅ _ eq_refl manifest_body (manifest_rows _)
              manifest_bad (fun _ _ => eq_refl) (empty_world_runs 1000) (lookup_empty _))
    as (new & rest & o' & Hrun & _).
  exists o'. exact Hrun.
Defined.

(** X29 on the manifest of two tiles, launched twice. *)
Lemma main_second_launch_rejected_witness :
  let o1 := snd (Cases.launch Cases.manifest false Cases.start) in
  Cases.launch Cases.manifest false o1 = (Core.Raise IngestRuns.run_exists, o1).
Proof.
  exact (main_second_launch_rejected unit (fun _ => Cases.manifest) (fun cell => cell)
           Settings.decimal_int (fun _ => None) Cases.tile_text
           (fun _ _ => Core.Ok (Some "5d41402abc4b2a76")) (fun _ _ => Core.Ok tt)
           IngestFacts.accepting (fun _ => "[]") (Cases.arguments false)
           (Core.Ok Cases.ingestion_config) Cases.ingestion_config tt "5d41402abc4b2a76"
           Cases.start ∅ eq_refl manifest_body (empty_world_runs 1000) (lookup_empty _)).
Defined.
